(* ===== verification/_CoqProject ===== *)
-Q . S2P
Prelude.v
Serde.v
RefJson.v
Errors.v
Params.v
Wire.v
ParamsBuilder.v
Middleware.v
ClientCore.v
ClientService.v
RequestManager.v
AsyncClient.v
AsyncClientProofs.v
MethodResponse.v
Subscription.v
RpcModule.v
RpcService.v
Http.v
WsServer.v
ServiceFrame.v
Server.v
ServerBuilder.v
WsSession.v
ServerRun.v
Layers.v
LowLevel.v
HttpClient.v
WsClient.v
WsSocket.v
Streams.v
AsyncFrontend.v
ClientLayers.v
AsyncSubscription.v
AsyncTasks.v
WsClientBuilder.v
Wasm.v
WsCall.v
WsBatch.v
WsSubscription.v
ProcMacro.v
MacroCode.v
MacroTypes.v
