(* ===== verification/Prelude.v ===== *)
(** * A model of jsonrpsee

    jsonrpsee is a JSON-RPC 2.0 library in Rust: a server over HTTP and WebSocket,
    clients for both, the types of the wire, and a macro that generates a server
    and a client from a trait.  This development is a shallow embedding of its
    code, with theorems about what the code promises.  Paths in the files are
    those of the repository, below [src/].

    ** Parts and how they interact

    A user registers methods in a registry ([RpcModule]).  The server accepts
    connections, admits requests under a connection guard, and dispatches each to
    the HTTP transport or to a WebSocket connection ([Server]).  Both read a
    message, hand it to [handle_rpc_call], and that to a service which runs the
    registered callback ([RpcService]); a callback answers with a response under a
    size limit ([MethodResponse]), or opens a subscription that lives on with a
    sink, an entry in a table and a permit ([Subscription]).  A client issues
    identifiers and sends a text; the HTTP client reads the answer from the same
    exchange ([HttpClient]), the async client has a background task that matches
    answers to pending requests ([RequestManager], [AsyncClient]), behind a
    frontend that waits for them ([AsyncFrontend]).

    ** Files

    - [Prelude]: results, panics, the state and error monad [SM], machine
      integers, strings; shared lemmas.  [Serde]: the boundary to serde_json.
      [RefJson]: an executable instance of it, for the witnesses.
    - The wire.  [Errors]: types/src/error.rs.  [Params]: types/src/params.rs, with
      the sequence parser.  [Wire]: types/src/request.rs and response.rs.
      [ParamsBuilder]: core/src/params.rs and rpc_params!.  [Middleware]: batches of
      core/src/middleware/mod.rs.
    - The client.  [ClientCore]: core/src/client/mod.rs and error.rs, identifiers,
      messages to the background task, channels.  [ClientService]: the interface of
      a client service.  [RequestManager]: async_client/manager.rs.  [AsyncClient]:
      the handlers of async_client/helpers.rs and mod.rs; [AsyncClientProofs]: their
      theorems.  [AsyncFrontend]: the frontend, and the end of the tasks.
      [AsyncSubscription]: the stream of a subscription, unsubscribe and Drop.
      [AsyncTasks]: the two select loops turn by turn, in the order of their
      branches, with the shutdown.  [Streams]: the streams those
      loops, and the server's, wait on.  [HttpClient]: client/http-client.
      [WsClient]: client/transport/src/ws, up to the handshake and the frames;
      [WsSocket]: its sockets, TLS settings and deadlines.  [WsClientBuilder]:
      client/ws-client, and what build_with_tokio starts.  [Wasm]: web.rs,
      client/wasm-client, and what build_with_wasm starts.  [ClientLayers]: the
      logger in front of a client.
    - The server.  [MethodResponse]: core/src/server/method_response.rs.
      [Subscription]: subscription.rs, helpers.rs and error.rs of core/src/server.
      [RpcModule]: rpc_module.rs, with the calls that need no server.
      [RpcService]: server/src/middleware/rpc.rs, [handle_rpc_call],
      [deserialize_with_ext].  [Http]: http_helpers.rs, transport/http.rs and the
      HTTP middleware.  [WsServer]: transport/ws.rs and connection_manager.rs.
      [Server]: server.rs, its configuration, the accept loop, requests and their
      tasks.  [ServerBuilder]: the builders of server.rs, and the handles of
      future.rs that stop a server.  [WsSession]: a WebSocket session from its start
      to its end, background_task and send_task of transport/ws.rs run together, and
      [SessionClose].  [ServiceFrame]: what running a service does to the channels.
      [ServerRun]: the running server, the parts of [Server] and any number of
      sessions on one shared state.
      [Layers]: the logger and Either of core/src/middleware/layer,
      and [RpcServiceBuilder].  [LowLevel]: what is there for those who accept
      connections themselves, call_with_service_builder and utils.rs.
    - Both ends together.  [WsCall], [WsBatch] and [WsSubscription]: the async client
      with a session of the server at the other end of its socket; the session and
      the direct call it is compared to work on the same methods and state.
    - The macro.  [ProcMacro]: attributes.rs and rpc_macro.rs of proc-macros.
      [MacroCode]: what the code of render_server.rs and render_client.rs does.
      [MacroTypes]: visitor.rs and helpers.rs, the bounds and types it has.

    ** How state and effects are modelled

    Code that may fail returns a [Result]; [expect], [unwrap] and [assert!] that
    fail are [Err Panic].  Code that changes state is a function in [SM], whose
    changes before an error stay.  Objects that several tasks share (channels,
    tables, semaphores, oneshots) live in a store and are named by handles:
    [World] for the client, [SrvWorld] for the server; [W U] adds the state [U] of
    the user's callbacks.  Concurrency is explicit: the handlers are the steps, and
    reachable states are those of any interleaving ([reachable] in
    [AsyncClientProofs], the systems of [Subscription], [Server.step], the labels
    of the section [Shutdown] of [AsyncFrontend], those of [WsSession] and [ServerRun],
    the turns of [AsyncTasks]).  In [ServerRun] a session holds what it last saw of its
    channel, and sees what others put there when it moves ([sync]); a session alone, in
    [WsSession], is given those texts by the label [LPush].  The steps leave the order of a select open, which only adds
    interleavings, but in [AsyncTasks], where a branch waits for those before it; where
    another theorem needs a preference it is the parameter [biased].
    An [await] on something other tasks do takes what they have done as a parameter;
    a future that is not done in time, or never, is [None] or [StForever].  Integers
    are kept at their width: identifiers and sizes are below 2^64, with checked and
    wrapping operations where the code has them.

    ** What is a parameter

    Code outside the repository: serde_json ([SerdeJson]), the http crate's types
    and hyper ([HttpExtensions], [HttpLibs], [Hyper], the connection of [LowLevel]),
    soketto's frames and handshake, url, tokio's sockets ([UrlLib], [NetLib]),
    rustls and the TCP streams ([TlsLib]), gloo_net's WebSocket, tower's
    ServiceBuilder ([TowerBuilder]), FuturesUnordered, encryption
    ([MessageEncryption], a trait users implement), syn and heck ([SynLib]).  The
    laws a theorem needs of them are named: [faithful] says that serde_json reads
    what it wrote, at every level of one value; [limited_law] and [hyper_law] say
    what a length limit and a connection do; [reads_items] says that a streaming
    reader delimits the elements of an array; [tower_law] that a layer is around
    what was there; [futures_law] that a set of futures ends when it is empty;
    [router_law] that routes without wildcards are found by equality, and that the host
    of a URI starts with no slash; [keeps_error] names the first error of a transport.
    What the user's code does to the server is a parameter too; [UserGrows] says that
    it only puts texts in the channels of connections, and [ServiceFrame] derives it
    for registered methods from the same of their functions.
    [RefJson] and the instances before the witnesses show that they can hold.

    ** What the theorems show

    - End to end: a call survives the wire, runs its method once and gives the
      caller its result ([call_over_the_wire]); over HTTP and over a WebSocket it
      equals the call without a server ([http_call_equals_direct],
      [ws_call_equals_direct]), and so does each call of a batch
      ([ws_batch_equals_direct]); in the async client it is
      answered, times out or learns why the connection ended
      ([async_call_outcomes], [failure_reaches_frontend]); called through the
      generated code of the macro it runs the method of the trait
      ([generated_call], [macro_params_roundtrip], [into_rpc_complete]), whose
      generated bounds follow where the walk over the trait meets its parameters; that
      is where they occur, up to nested return types ([where_clause_exact]).
    - Batches keep the order of their calls in the service, and in both clients.
    - Starts and ends: connecting takes a bounded time ([connecting_time]) and a
      client over any transport answers its first call ([wasm_first_call]); a
      graceful stop loses no answer, of a session ([graceful_stop_answers]) and of all
      sessions of a server whatever else it does ([stopped_server_answered]); a
      stopped server comes to its end ([stopped_server_ends]); a stop reaches every
      part of the server ([stop_reaches_all]) and a connection is served until it is
      done ([serve_until_drained]); every session and the tasks of the client end by
      themselves ([session_ends], [failure_reaches_frontend]).
    - Subscriptions: one is followed from the call to the end of its stream
      ([subscription_lifecycle]), over a session the client reads what the server
      sent ([ws_subscription_streams]); their number is bounded, all outcomes of a
      subscribe call, an unsubscribe call ends exactly one, and its end is final
      ([subscription_end_final]).
    - The background task: its table stays well formed in every reachable state,
      no handler panics, and each kind of message has its effect and no other; its
      loops go on until there is a reason to end, which is the one the frontend learns
      ([client_loops_exact]); as a function it is one of their schedules
      ([background_runs]); their streams neither spin nor sleep through a message
      ([pending_futures_live]).
    - Middleware: the logger changes nothing, on the server and on the client
      ([logger_transparent], [client_logger_transparent]).
    - Limits: responses, batches, bodies, connections (also of servers built by hand,
      [tower_services_bounded]), redirects, messages of a silent peer.
    - Errors: every answer to an HTTP request, refused hosts, encryption failures,
      malformed attributes of the macro.
    The examples at the end of the files record behaviour that is surprising; they
    are listed as findings.

    ** Recursion and fuel

    Everything is structural, but for [drain] and [next_all], whose fuel is one more
    than what is queued (each round takes a message out); for [trim_start], which
    recurses on the length of its string and removes at least one byte a step; and
    for the reader and printer of [RefJson], whose fuel is the length of the text.
    The redirect loop recurses on the number of rounds the configuration allows, and
    [redirects_bounded_and_followed] bounds the sockets it opens.

    ** Not modelled, and why

    Sockets, TLS and timers themselves, and tokio's spawning of tasks: the runtime's,
    they are parameters or steps.  Tracing, but for the lines of the logger.  The
    middleware that builders and clients carry along is of any type; what layers do
    to a service is in [Layers] and [ClientLayers].  [poll_ready] of the services,
    which is always ready or passes on; [Debug] and [Display] that only print;
    conversions of errors and re-exports.  The tokens the macro puts around the code
    it generates (names and documentation of the traits).  Test utilities, examples,
    benches and the facade crate are no code of the library. *)
From stdpp Require Import base relations gmap strings list numbers.
From Stdlib Require Import Ascii DecimalString DecimalN.

(** Results as the code has them: [Result E T] is Rust's [Result<T, E>]. *)
Inductive Result (E T : Type) : Type :=
| Ok (t : T)
| Err (e : E).
Arguments Ok {E T} _.
Arguments Err {E T} _.

#[export] Instance result_ret {E} : MRet (Result E) := λ _ t, Ok t.
#[export] Instance result_bind {E} : MBind (Result E) := λ _ _ f r,
  match r with Ok t => f t | Err e => Err e end.
#[export] Instance result_fmap {E} : FMap (Result E) := λ _ _ f r,
  match r with Ok t => Ok (f t) | Err e => Err e end.
#[export] Instance result_eq_dec {E T} `{EqDecision E, EqDecision T} :
  EqDecision (Result E T).
Proof. solve_decision. Defined.

Definition ok_or {E T} (o : option T) (e : E) : Result E T :=
  match o with Some t => Ok t | None => Err e end.
Definition result_ok {E T} (r : Result E T) : option T :=
  match r with Ok t => Some t | Err _ => None end.
Definition map_err {E F T} (f : E → F) (r : Result E T) : Result F T :=
  match r with Ok t => Ok t | Err e => Err (f e) end.
Definition is_ok {E T} (r : Result E T) : bool :=
  match r with Ok _ => true | Err _ => false end.

(** What [poll] of a future or a stream gives. *)
Inductive Poll (A : Type) : Type := Ready (a : A) | Pending.
Arguments Ready {A} _. Arguments Pending {A}.
#[export] Instance poll_eq_dec {A} `{EqDecision A} : EqDecision (Poll A).
Proof. solve_decision. Defined.

(** Code that can stop with a panic: [expect], [unwrap], [assert!]. *)
Inductive Panicked : Type := Panic.
#[export] Instance Panicked_eq_dec : EqDecision Panicked.
Proof. solve_decision. Defined.

(** Stateful code that may return early with an error; the state changes made
    before the error stay. *)
Definition SM (S E A : Type) : Type := S → Result E A * S.
#[export] Instance SM_ret {S E} : MRet (SM S E) := λ _ a s, (Ok a, s).
#[export] Instance SM_bind {S E} : MBind (SM S E) := λ _ _ f m s,
  match m s with (Ok a, s') => f a s' | (Err e, s') => (Err e, s') end.
Definition sm_lift {S E A} (f : S → A * S) : SM S E A := λ s, let '(a, s') := f s in (Ok a, s').
Definition sm_throw {S E A} (e : E) : SM S E A := λ s, (Err e, s).
Definition sm_get {S E} : SM S E S := λ s, (Ok s, s).
Definition sm_result {S E A} (r : Result E A) : SM S E A := λ s, (r, s).
Definition sm_catch {S E F A} (m : SM S E A) (f : E → F) : SM S F A := λ s,
  let '(r, s') := m s in (map_err f r, s').

(** Machine integers.  Unsigned values are [N]; the bounds are written out. *)
Definition u16_max : N := 65535.
Definition u32_max : N := 4294967295.
Definition u64_max : N := 18446744073709551615.
(** [usize] on the 64-bit targets the crates support. *)
Definition usize_max : N := u64_max.
Definition wrapping_add (max a b : N) : N := ((a + b) mod (max + 1))%N.
Definition checked_add (max a b : N) : option N :=
  if decide (a + b <= max)%N then Some (a + b)%N else None.
Definition checked_sub (a b : N) : option N :=
  if decide (b <= a)%N then Some (a - b)%N else None.

(** The decimal codec of [std]: [to_string] of an unsigned integer, and
    [str::parse] (an optional leading [+], at least one digit, no overflow). *)
Definition to_dec (n : N) : string := NilEmpty.string_of_uint (N.to_uint n).
Definition parse_digits (s : string) : option N :=
  match s with
  | EmptyString => None
  | _ => N.of_uint <$> NilEmpty.uint_of_string s
  end.
Definition parse_unsigned (max : N) (s : string) : option N :=
  n ← parse_digits (match s with String "+"%char s' => s' | _ => s end);
  if decide (n <= max)%N then Some n else None.
Definition parse_u64 : string → option N := parse_unsigned u64_max.

(** [HashMap::entry] tests, and the first element a predicate accepts. *)
Definition vacant {K V} `{Countable K} (m : gmap K V) (k : K) : bool :=
  match m !! k with None => true | Some _ => false end.

(** Length in bytes, as [usize]. *)
Definition slen (s : string) : N := N.of_nat (String.length s).

(** [u8::is_ascii_whitespace]: tab, line feed, form feed, carriage return,
    space. *)
Definition is_ascii_whitespace (a : Ascii.ascii) : bool :=
  match Ascii.N_of_ascii a with
  | 9%N | 10%N | 12%N | 13%N | 32%N => true
  | _ => false
  end.

(** [str::trim], on UTF-8 bytes: one leading character with the Unicode property
    [White_Space], if there is one. *)
Definition strip_ws (s : string) : option string :=
  match s with
  | String a s1 =>
    let n := N_of_ascii a in
    if decide ((9 <= n <= 13)%N ∨ n = 32%N) then Some s1
    else match s1 with
    | String b s2 =>
      let m := N_of_ascii b in
      if decide (n = 194 ∧ (m = 133 ∨ m = 160))%N then Some s2
      else match s2 with
      | String c s3 =>
        let k := N_of_ascii c in
        if decide ((n = 225 ∧ m = 154 ∧ k = 128) ∨
                   (n = 226 ∧ m = 128 ∧ (128 <= k <= 138 ∨ k = 168 ∨ k = 169 ∨ k = 175)) ∨
                   (n = 226 ∧ m = 129 ∧ k = 159) ∨ (n = 227 ∧ m = 128 ∧ k = 128))%N
        then Some s3 else None
      | EmptyString => None
      end
    | EmptyString => None
    end
  | EmptyString => None
  end.
Fixpoint trim_start_fuel (fuel : nat) (s : string) : string :=
  match fuel with
  | O => s
  | S f => match strip_ws s with Some s' => trim_start_fuel f s' | None => s end
  end.
Definition trim_start (s : string) : string := trim_start_fuel (String.length s) s.
Fixpoint trim_end (s : string) : string :=
  match s with
  | EmptyString => EmptyString
  | String c s' =>
    if decide (trim_start s = EmptyString) then EmptyString else String c (trim_end s')
  end.
Definition trim (s : string) : string := trim_end (trim_start s).

(** [&s[n..]] for an index within the string. *)
Fixpoint drop_str (n : nat) (s : string) : string :=
  match n, s with
  | S n', String _ s' => drop_str n' s'
  | _, _ => s
  end.
Definition starts_with (c : ascii) (s : string) : bool :=
  match s with String a _ => bool_decide (a = c) | EmptyString => false end.

(** [String::pop], without the character. *)
Fixpoint drop_last (s : string) : string :=
  match s with
  | EmptyString => EmptyString
  | String _ EmptyString => EmptyString
  | String c s' => String c (drop_last s')
  end.

#[global] Arguments String.append !_ _ / : assert.

Lemma append_nonempty s c t : s +:+ String c t ≠ "".
Proof. by destruct s. Qed.
Lemma append_assoc' (a b c : string) : (a +:+ b) +:+ c = a +:+ (b +:+ c).
Proof. induction a; cbn; congruence. Qed.
Lemma append_ne_r (a b : string) : b ≠ "" → a +:+ b ≠ "".
Proof. destruct b; [done|]. intros _. apply append_nonempty. Qed.
Lemma append_nil_r (a : string) : a +:+ "" = a.
Proof. induction a; cbn; congruence. Qed.
Lemma length_append (a b : string) : String.length (a +:+ b) = String.length a + String.length b.
Proof. induction a; cbn; congruence. Qed.
Lemma slen_nil : slen "" = 0%N.
Proof. done. Qed.
Lemma slen_cons c s : slen (String c s) = (1 + slen s)%N.
Proof. unfold slen. cbn [String.length]. lia. Qed.
Lemma slen_append a b : slen (a +:+ b) = (slen a + slen b)%N.
Proof. unfold slen. rewrite length_append. lia. Qed.

Lemma drop_last_append s c : drop_last (s +:+ String c "") = s.
Proof. induction s as [|d [|e s] IH]; [done..|]. cbn in *. by rewrite IH. Qed.

(** The elements between commas. *)
Fixpoint join (ts : list string) : string :=
  match ts with [] => "" | [t] => t | t :: ts' => t +:+ "," +:+ join ts' end.
(** Each element followed by a comma. *)
Fixpoint commas (ts : list string) : string :=
  match ts with [] => "" | t :: ts' => t +:+ "," +:+ commas ts' end.
Lemma commas_join ts : ts ≠ [] → commas ts = join ts +:+ ",".
Proof.
  intros Hne. induction ts as [|t [|u ts] IH]; [done|done|].
  change (commas (t :: u :: ts)) with (t +:+ "," +:+ commas (u :: ts)).
  rewrite IH by done. change (join (t :: u :: ts)) with (t +:+ "," +:+ join (u :: ts)).
  by rewrite !append_assoc'.
Qed.
Lemma commas_app ts us : commas (ts ++ us) = commas ts +:+ commas us.
Proof.
  induction ts as [|t ts IH]; [done|]. cbn [app commas]. rewrite IH. by rewrite !append_assoc'.
Qed.
Lemma commas_empty ts : commas ts = "" → ts = [].
Proof. destruct ts as [|t ts]; [done|]. cbn. intros E. by apply append_nonempty in E. Qed.

(** ** Triples for stateful code *)

(** From a state in [P], [m] ends normally in [Q] or with an error in [R]. *)
Definition triple {S E A} (P : S → Prop) (m : SM S E A) (Q : A → S → Prop) (R : E → S → Prop)
    : Prop :=
  ∀ s, P s → match m s with (Ok a, s') => Q a s' | (Err e, s') => R e s' end.

Section Triples.
Context {S E : Type}.
Lemma triple_ret {A} (P : S → Prop) (a : A) (R : E → S → Prop) :
  triple P (mret a) (λ a' s, a' = a ∧ P s) R.
Proof. intros s HP. cbn. done. Qed.
Lemma triple_bind {A B} (P : S → Prop) (m : SM S E A) (f : A → SM S E B) Q Q' R :
  triple P m Q R → (∀ a, triple (Q a) (f a) Q' R) → triple P (m ≫= f) Q' R.
Proof.
  intros Hm Hf s HP. unfold mbind, SM_bind. specialize (Hm s HP).
  destruct (m s) as [[a|e] s']; [|done]. by apply Hf.
Qed.
Lemma triple_conseq {A} (P P' : S → Prop) (m : SM S E A) Q Q' R R' :
  triple P m Q R → (∀ s, P' s → P s) → (∀ a s, Q a s → Q' a s) → (∀ e s, R e s → R' e s) →
  triple P' m Q' R'.
Proof.
  intros Hm HP HQ HR s Hs. specialize (Hm s (HP s Hs)).
  destruct (m s) as [[a|e] s']; auto.
Qed.
Lemma triple_throw {A} (P : S → Prop) (e : E) (Q : A → S → Prop) :
  triple P (sm_throw e) Q (λ e' s, e' = e ∧ P s).
Proof. intros s HP. cbn. done. Qed.
End Triples.

(** One step of a computation that ends normally. *)
Lemma bind_ok {S E A B} (m : SM S E A) (f : A → SM S E B) s b s2 :
  (m ≫= f) s = (Ok b, s2) → ∃ a s1, m s = (Ok a, s1) ∧ f a s1 = (Ok b, s2).
Proof. unfold mbind, SM_bind. destruct (m s) as [[a|] s1]; [|done]. eauto. Qed.
Lemma bind_step {S E A B} (m : SM S E A) (f : A → SM S E B) s a s1 :
  m s = (Ok a, s1) → (m ≫= f) s = f a s1.
Proof. unfold mbind, SM_bind. by intros ->. Qed.

(** ** Runs of labelled transition systems *)
Section Runs.
Context {L S : Type}.
(** The steps of a list of labels, one after the other. *)
Definition run_labels (step : L → S → option S) (ls : list L) (s : S) : option S :=
  foldl (λ o l, o ≫= step l) (Some s) ls.
Lemma run_labels_snoc step ls l s : run_labels step (ls ++ [l]) s = run_labels step ls s ≫= step l.
Proof. unfold run_labels. by rewrite foldl_app. Qed.
Lemma run_labels_app step ls1 ls2 s : run_labels step (ls1 ++ ls2) s = run_labels step ls1 s ≫= run_labels step ls2.
Proof.
  induction ls2 as [|l ls2 IH] using rev_ind; [by rewrite app_nil_r; destruct (run_labels step ls1 s)|].
  rewrite app_assoc, run_labels_snoc, IH. destruct (run_labels step ls1 s); [|done]. symmetry. apply run_labels_snoc.
Qed.
(** A property the steps keep holds at the end of a run. *)
Lemma run_labels_keeps step (P : S → Prop) (Q : L → Prop) :
  (∀ l s s', P s → Q l → step l s = Some s' → P s') →
  ∀ ls s s', P s → Forall Q ls → run_labels step ls s = Some s' → P s'.
Proof.
  intros Hstep ls s. induction ls as [|l ls IH] using rev_ind; intros s' Hs.
  - by intros _ [= <-].
  - rewrite run_labels_snoc. intros [Hl Hq]%Forall_app Hr. apply bind_Some in Hr as (s1 & Hr & Hl').
    inversion_clear Hq. eauto.
Qed.
End Runs.
(** Every run ends if each step makes a first measure smaller, or keeps it and
    makes a second one smaller. *)
Lemma sn_measures {S : Type} (R : relation S) (P : S → Prop) (m1 m2 : S → nat) :
  (∀ s s', P s → R s s' → P s' ∧ (m1 s' < m1 s ∨ m1 s' = m1 s ∧ m2 s' < m2 s)) → ∀ s, P s → sn R s.
Proof.
  intros Hstep. enough (∀ a b s, m1 s = a → m2 s = b → P s → sn R s) as H by eauto.
  induction a as [a IHa] using lt_wf_ind. induction b as [b IHb] using lt_wf_ind. intros s <- <- HP.
  constructor. intros s' HR. destruct (Hstep s s' HP HR) as [HP' [Hl|[He Hl]]]; [by eapply IHa|by eapply IHb].
Qed.

(** ** Sums over the entries of a map *)
Section MapSum.
Context {A : Type} (f : A → nat).
Implicit Types m : gmap nat A.
Definition map_sum m : nat := map_fold (λ _ x n, f x + n) 0 m.
Lemma map_sum_empty : map_sum ∅ = 0.
Proof. apply map_fold_empty. Qed.
Lemma map_sum_delete i x m : m !! i = Some x → map_sum m = f x + map_sum (delete i m).
Proof. intros Hi. unfold map_sum. apply (map_fold_delete_L (λ _ x n, f x + n) 0 i x m); [lia|done]. Qed.
Lemma map_sum_insert i x m : map_sum (<[i := x]> m) = f x + map_sum (delete i m).
Proof. rewrite (map_sum_delete i x) by apply lookup_insert_eq. by rewrite delete_insert_eq. Qed.
Lemma map_sum_new i x m : m !! i = None → map_sum (<[i := x]> m) = f x + map_sum m.
Proof. intros Hi. by rewrite map_sum_insert, delete_id. Qed.
Lemma map_sum_replace i x y m : m !! i = Some x → map_sum (<[i := y]> m) + f x = f y + map_sum m.
Proof. intros Hi. rewrite map_sum_insert, (map_sum_delete i x m Hi). lia. Qed.
Lemma map_sum_same i x y m : m !! i = Some x → f y = f x → map_sum (<[i := y]> m) = map_sum m.
Proof. intros Hi Hf. pose proof (map_sum_replace i x y m Hi). lia. Qed.
End MapSum.
Lemma map_sum_ext {A} (f g : A → nat) (m : gmap nat A) : (∀ i x, m !! i = Some x → f x = g x) →
  map_sum f m = map_sum g m.
Proof.
  induction m as [|i x m Hi IH] using map_ind; intros H; [done|]. rewrite !map_sum_new by done. f_equal.
  - apply (H i). apply lookup_insert_eq.
  - apply IH. intros j y Hj. apply (H j). rewrite lookup_insert_ne; [done|]. congruence.
Qed.

(** ** Lemmas on the decimal codec *)

Lemma string_of_uint_head d :
  NilEmpty.string_of_uint d = "" ∨
  ∃ c s, NilEmpty.string_of_uint d = String c s ∧ c ≠ "+"%char.
Proof. destruct d; cbn; [by left | right..]; eexists _, _; split; done. Qed.

Lemma N_to_uint_nonnil n : N.to_uint n ≠ Decimal.Nil.
Proof.
  destruct n as [|p]; [done|]. intros E.
  pose proof (DecimalN.Unsigned.of_to (N.pos p)) as H. by rewrite E in H.
Qed.

Lemma string_of_uint_nonempty d :
  d ≠ Decimal.Nil → NilEmpty.string_of_uint d ≠ "".
Proof. by destruct d. Qed.

Lemma parse_to_dec max n :
  (n <= max)%N → parse_unsigned max (to_dec n) = Some n.
Proof.
  intros Hn. unfold parse_unsigned, to_dec.
  pose proof (string_of_uint_nonempty _ (N_to_uint_nonnil n)) as Hne.
  pose proof (NilEmpty.usu (N.to_uint n)) as Hrt.
  destruct (string_of_uint_head (N.to_uint n)) as [E|(c & s & E & Hc)]; [done|].
  rewrite E in Hrt |- *.
  assert (parse_digits (String c s) = Some n) as Hp.
  { unfold parse_digits. rewrite Hrt. cbn. by rewrite DecimalN.Unsigned.of_to. }
  destruct (Ascii.ascii_dec c "+"%char) as [->|]; [done|].
  assert (match String c s with String "+"%char s' => s' | _ => String c s end
          = String c s) as ->.
  { destruct c as [[][][][][][][][]]; done. }
  rewrite Hp. cbn. by rewrite decide_True.
Qed.

Lemma to_dec_inj n m : to_dec n = to_dec m → n = m.
Proof.
  intros E. pose proof (parse_to_dec (N.max n m) n ltac:(lia)) as H1.
  pose proof (parse_to_dec (N.max n m) m ltac:(lia)) as H2. congruence.
Qed.

(** ** Automation *)

Ltac split_Forall :=
  repeat match goal with
  | H : Forall _ (_ :: _) |- _ =>
    let H1 := fresh in let H2 := fresh in
    pose proof (Forall_inv H) as H1; pose proof (Forall_inv_tail H) as H2; clear H
  | H : Forall _ [] |- _ => clear H
  end.

(** Strings written with [+:+], reassociated to the right. *)
Ltac append_norm := repeat (progress (rewrite ?append_assoc'; cbn [String.append])).

(** Lengths of concatenations, for [lia]. *)
Ltac slen_norm := rewrite ?slen_append, ?slen_cons, ?slen_nil.

(** Case analysis on the next [match] or [if] of the goal. *)
Ltac case_next :=
  match goal with
  | |- context [match ?x with _ => _ end] => destruct x eqn:?
  | H : context [match ?x with _ => _ end] |- _ => destruct x eqn:?
  end.
