(* ===== verification/Serde.v ===== *)
(** The boundary to [serde] and [serde_json].

    The crates never look at JSON text themselves: values go through the serde
    data model ([Ser] here) on the way out and through one level of a parsed
    document ([Node]) on the way in; a [RawValue] is the text of a subdocument.
    The two functions of [serde_json] the sources call are the parameters of the
    class [SerdeJson].  What [#[derive(Deserialize)]] does for a struct is
    [struct_entries]. *)
From S2P Require Import Prelude.
From stdpp Require Import base gmap strings list.

(** The serde data model.  [SerFail] is a user supplied [Serialize]
    implementation that returns an error at this point. *)
#[local] Unset Elimination Schemes.
Inductive Ser : Type :=
| SerNull
| SerBool (b : bool)
| SerInt (z : Z)
| SerStr (s : string)
| SerRaw (raw : string)
| SerSeq (l : list Ser)
| SerMap (l : list (string * Ser))
| SerFail.
#[local] Set Elimination Schemes.

(** One level of a JSON document; the members are the texts of the
    subdocuments, as a [&RawValue] sees them. *)
Inductive Node : Type :=
| NNull
| NBool (b : bool)
| NInt (z : Z)
| NFloat (text : string)
| NStr (s : string)
| NArr (items : list string)
| NObj (members : list (string * string)).

(** An event of a streaming serialisation: a chunk of bytes handed to the
    writer, or the error of a user implementation. *)
Inductive SerEvent : Type :=
| Chunk (s : string)
| Custom.

Class SerdeJson := {
  (** [serde_json::to_string], [to_vec] and [to_raw_value]. *)
  json_write : Ser → option string;
  (** What [serde_json::to_writer] hands to the writer, in order. *)
  json_events : Ser → list SerEvent;
  (** [serde_json::from_str] and [from_slice], one level deep; [None] when the
      text is not a JSON document. *)
  json_read : string → option Node;
  (** [Deserializer::from_str(..).into_iter().next()]: [None] when only white
      space is left, otherwise a syntax error, or the text of the next value and
      the [byte_offset] after it. *)
  json_stream : string → option (Result string (string * nat));
  (** The message of the error that a text gives. *)
  json_errmsg : string → string;
  (** [from_slice::<Value>] followed by [to_string]: the document without its
      insignificant white space. *)
  json_compact : string → option string
}.

(** The text of the events up to the first error, and whether there is none. *)
Fixpoint events_text (es : list SerEvent) : string * bool :=
  match es with
  | [] => ("", true)
  | Chunk s :: es' => let '(t, ok) := events_text es' in (String.append s t, ok)
  | Custom :: _ => ("", false)
  end.

Class Serialize (T : Type) := serialize : T → Ser.
#[export] Instance serialize_ser : Serialize Ser := id.
#[export] Instance serialize_string : Serialize string := SerStr.
#[export] Instance serialize_bool : Serialize bool := SerBool.
#[export] Instance serialize_unit : Serialize unit := λ _, SerNull.
#[export] Instance serialize_option {T} `{Serialize T} : Serialize (option T) :=
  λ o, match o with Some t => serialize t | None => SerNull end.

(** A field that [skip_serializing_if = "Option::is_none"] guards. *)
Definition opt_field {T} (name : string) (f : T → Ser) (o : option T) : list (string * Ser) :=
  match o with Some t => [(name, f t)] | None => [] end.

Section Serde.
Context {J : SerdeJson}.

(** [to_string(..)] followed by [unwrap]-like uses never fail on a value with no
    [SerFail]; the sources say so with [expect]. *)
Fixpoint ser_ok (s : Ser) : bool :=
  match s with
  | SerSeq l => forallb ser_ok l
  | SerMap l => forallb (λ kv, ser_ok kv.2) l
  | SerFail => false
  | _ => true
  end.

(** The text of a member, as the reader returns it. *)
Definition text_of (s : Ser) : string := default "" (json_write s).

(** [serde_json] reads the document it wrote for [s] back, at every level. *)
Fixpoint faithful (s : Ser) : Prop :=
  match json_write s with
  | None => False
  | Some t =>
    match s with
    | SerNull => json_read t = Some NNull
    | SerBool b => json_read t = Some (NBool b)
    | SerInt z => json_read t = Some (NInt z)
    | SerStr x => json_read t = Some (NStr x)
    | SerRaw raw => t = raw ∧ is_Some (json_read raw)
    | SerSeq l =>
      json_read t = Some (NArr (text_of <$> l)) ∧
      foldr (λ x P, faithful x ∧ P) True l
    | SerMap l =>
      json_read t = Some (NObj ((λ kv, (kv.1, text_of kv.2)) <$> l)) ∧
      foldr (λ kv P, faithful kv.2 ∧ P) True l
    | SerFail => False
    end
  end.

(** ** [#[derive(Deserialize)]] on a struct

    A JSON object gives [visit_map]: a repeated known field is an error, an
    unknown one is skipped, or an error with [deny_unknown_fields].  A JSON array
    gives [visit_seq]: exactly one element per field, in declaration order. *)
Fixpoint collect_fields (deny : bool) (fields : list string)
    (members : list (string * string)) (acc : gmap string string)
    : option (gmap string string) :=
  match members with
  | [] => Some acc
  | (k, v) :: rest =>
    if decide (k ∈ fields) then
      match acc !! k with
      | Some _ => None
      | None => collect_fields deny fields rest (<[k := v]> acc)
      end
    else if deny then None else collect_fields deny fields rest acc
  end.

Definition struct_entries (deny : bool) (fields : list string) (n : Node)
    : option (gmap string string) :=
  match n with
  | NObj members => collect_fields deny fields members ∅
  | NArr items =>
    if decide (length items = length fields)
    then Some (list_to_map (zip fields items)) else None
  | _ => None
  end.

(** A field of type [Option<T>]: absent and [null] are [None]. *)
Definition de_option {T} (de : string → option T) (raw : string) : option (option T) :=
  match json_read raw with
  | Some NNull => Some None
  | Some _ => Some <$> de raw
  | None => None
  end.
Definition field_option {T} (de : string → option T) (o : option string)
    : option (option T) :=
  match o with None => Some None | Some raw => de_option de raw end.

(** [String] and [Cow<str>]; [Box<RawValue>] and [&RawValue]; [i32] and [u64]. *)
Definition de_str (raw : string) : option string :=
  match json_read raw with Some (NStr s) => Some s | _ => None end.
Definition de_raw (raw : string) : option string :=
  match json_read raw with Some _ => Some raw | None => None end.
Definition de_i32 (raw : string) : option Z :=
  match json_read raw with
  | Some (NInt z) => if decide (-2147483648 ≤ z ≤ 2147483647)%Z then Some z else None
  | _ => None
  end.
Definition de_u64 (raw : string) : option N :=
  match json_read raw with
  | Some (NInt z) =>
    if decide (0 ≤ z ≤ Z.of_N u64_max)%Z then Some (Z.to_N z) else None
  | _ => None
  end.
(** [IgnoredAny]. *)
Definition de_ignored (raw : string) : option unit :=
  match json_read raw with Some _ => Some () | None => None end.

(** ** Derived structs on distinct known fields *)

Lemma collect_fields_known deny fields members acc :
  NoDup members.*1 → Forall (λ k, k ∈ fields) members.*1 →
  Forall (λ k, acc !! k = None) members.*1 →
  collect_fields deny fields members acc = Some (list_to_map members ∪ acc).
Proof.
  revert acc. induction members as [|[k v] l IH]; intros acc; cbn.
  { intros. by rewrite (left_id ∅ _). }
  intros [Hk Hnd]%NoDup_cons [Hf Hfs]%Forall_cons [Ha Has]%Forall_cons.
  rewrite decide_True, Ha by done. rewrite IH; [|done..|].
  - f_equal. rewrite <-insert_union_l, insert_union_r; [done|].
    by apply not_elem_of_list_to_map_1.
  - apply Forall_forall. intros k' Hin. rewrite Forall_forall in Has.
    rewrite lookup_insert_ne by (by intros ->). by apply Has.
Qed.

Lemma struct_entries_known deny fields members :
  NoDup members.*1 → Forall (λ k, k ∈ fields) members.*1 →
  struct_entries deny fields (NObj members) = Some (list_to_map members).
Proof.
  intros. unfold struct_entries. rewrite collect_fields_known; [|done..|].
  - by rewrite (right_id ∅ _).
  - apply Forall_forall. intros. apply lookup_empty.
Qed.

Lemma collect_fields_missing deny fields members acc m k :
  collect_fields deny fields members acc = Some m →
  k ∉ members.*1 → acc !! k = None → m !! k = None.
Proof.
  revert acc. induction members as [|[k' v] l IH]; intros acc; cbn; [naive_solver|].
  rewrite not_elem_of_cons. intros E [Hne Hni] Ha.
  repeat case_match; try done; eapply IH; try done.
  by rewrite lookup_insert_ne.
Qed.
Lemma struct_entries_missing deny fields members m k :
  struct_entries deny fields (NObj members) = Some m → k ∉ members.*1 → m !! k = None.
Proof. intros. eapply collect_fields_missing; eauto. Qed.

(** ** What [faithful] gives, by kind of value *)

Lemma faithful_write s : faithful s → json_write s = Some (text_of s).
Proof. unfold text_of. destruct s; cbn; by destruct (json_write _). Qed.

Ltac faithful_tac :=
  intros F; pose proof (faithful_write _ F) as E; cbn in F; rewrite E in F.

Lemma faithful_null : faithful SerNull → json_read (text_of SerNull) = Some NNull.
Proof. by faithful_tac. Qed.
Lemma faithful_int z : faithful (SerInt z) → json_read (text_of (SerInt z)) = Some (NInt z).
Proof. by faithful_tac. Qed.
Lemma faithful_str x : faithful (SerStr x) → json_read (text_of (SerStr x)) = Some (NStr x).
Proof. by faithful_tac. Qed.
Lemma faithful_raw r : faithful (SerRaw r) →
  text_of (SerRaw r) = r ∧ is_Some (json_read r).
Proof. by faithful_tac. Qed.

Lemma faithful_reads s : faithful s → is_Some (json_read (text_of s)).
Proof.
  unfold text_of. destruct s; cbn; destruct (json_write _); cbn; try done; try by intros ->.
  - by intros [-> ?].
  - by intros [-> ?].
  - by intros [-> ?].
Qed.
Lemma foldr_faithful_Forall {A} (f : A → Ser) l :
  foldr (λ x P, faithful (f x) ∧ P) True l → Forall (λ x, faithful (f x)) l.
Proof. induction l; cbn; [constructor|]. intros []. constructor; eauto. Qed.

Lemma faithful_map l : faithful (SerMap l) →
  json_read (text_of (SerMap l)) = Some (NObj ((λ kv, (kv.1, text_of kv.2)) <$> l)) ∧
  Forall (λ kv, faithful kv.2) l.
Proof.
  faithful_tac. destruct F as [F1 F2]. split; [done|]. by apply foldr_faithful_Forall.
Qed.

Lemma faithful_seq l : faithful (SerSeq l) →
  json_read (text_of (SerSeq l)) = Some (NArr (text_of <$> l)) ∧ Forall faithful l.
Proof.
  faithful_tac. destruct F as [F1 F2]. split; [done|].
  by apply (foldr_faithful_Forall id).
Qed.

Lemma de_str_faithful x : faithful (SerStr x) → de_str (text_of (SerStr x)) = Some x.
Proof. intros F. unfold de_str. by rewrite (faithful_str _ F). Qed.
Lemma de_i32_faithful z : (-2147483648 ≤ z ≤ 2147483647)%Z →
  faithful (SerInt z) → de_i32 (text_of (SerInt z)) = Some z.
Proof. intros B F. unfold de_i32. rewrite (faithful_int _ F). by rewrite decide_True. Qed.
Lemma de_raw_faithful r : faithful (SerRaw r) → de_raw (text_of (SerRaw r)) = Some r.
Proof.
  intros F. unfold de_raw. destruct (faithful_raw _ F) as [-> [n ->]]. done.
Qed.
End Serde.

(** Decodes a struct from concrete members: [struct_entries_known] with its side
    conditions, then the lookups. *)
Ltac solve_fields := refine (bool_decide_unpack _ _); vm_compute; exact I.
Ltac decode_struct :=
  rewrite struct_entries_known; cbn; [simplify_map_eq; cbn | solve_fields..].

#[global] Arguments struct_entries : simpl never.
#[global] Arguments text_of : simpl never.
#[global] Arguments faithful : simpl never.

Create HintDb serde discriminated.
#[export] Hint Resolve de_str_faithful de_i32_faithful de_raw_faithful
  faithful_null faithful_int faithful_str : serde.
