(* ===== verification/RefJson.v ===== *)
(** A small executable implementation of the [SerdeJson] interface: the compact
    printer and a recursive reader for ASCII JSON.  It models no code of the
    repository; the witnesses and the tests evaluate the development with it. *)
From S2P Require Import Prelude Serde.
From stdpp Require Import base strings list.
From Stdlib Require Import Ascii DecimalString DecimalN DecimalFacts.


(** ** Printer *)

Definition quote : ascii := ascii_of_N 34.
Definition str1 (c : ascii) : string := String c EmptyString.
Definition hex_digit (n : N) : ascii :=
  ascii_of_N (if decide (n < 10)%N then 48 + n else 87 + n)%N.

Definition escape_char (c : ascii) : string :=
  let n := N_of_ascii c in
  if decide (n = 34)%N then "\" +:+ str1 quote
  else if decide (n = 92)%N then "\\"
  else if decide (n = 8)%N then "\b"
  else if decide (n = 9)%N then "\t"
  else if decide (n = 10)%N then "\n"
  else if decide (n = 12)%N then "\f"
  else if decide (n = 13)%N then "\r"
  else if decide (n < 32)%N then
    "\u00" +:+ str1 (hex_digit (n / 16)) +:+ str1 (hex_digit (n mod 16))
  else str1 c.

Fixpoint escape (s : string) : string :=
  match s with
  | EmptyString => ""
  | String c s' => escape_char c +:+ escape s'
  end.

Definition print_str (s : string) : string := str1 quote +:+ escape s +:+ str1 quote.
Definition print_int (z : Z) : string :=
  match z with
  | Zneg p => "-" +:+ to_dec (N.pos p)
  | _ => to_dec (Z.to_N z)
  end.

(** Events of a sequence of members, each preceded by a separator but the first. *)
Fixpoint sep_events {A} (f : A → list SerEvent) (first : bool) (l : list A) : list SerEvent :=
  match l with
  | [] => []
  | x :: l' => (if first then [] else [Chunk ","]) ++ f x ++ sep_events f false l'
  end.

Fixpoint ref_events (s : Ser) : list SerEvent :=
  match s with
  | SerNull => [Chunk "null"]
  | SerBool b => [Chunk (if b then "true" else "false")]
  | SerInt z => [Chunk (print_int z)]
  | SerStr x => [Chunk (print_str x)]
  | SerRaw r => [Chunk r]
  | SerSeq l => [Chunk "["] ++ sep_events ref_events true l ++ [Chunk "]"]
  | SerMap l =>
    [Chunk "{"] ++
    sep_events (λ kv, Chunk (print_str kv.1) :: Chunk ":" :: ref_events kv.2) true l ++
    [Chunk "}"]
  | SerFail => [Custom]
  end.

Definition ref_write (s : Ser) : option string :=
  let '(t, ok) := events_text (ref_events s) in if ok then Some t else None.

(** ** Reader *)

Definition is_ws (c : ascii) : bool :=
  match N_of_ascii c with 9%N | 10%N | 13%N | 32%N => true | _ => false end.
Fixpoint skip_ws (s : string) : string :=
  match s with
  | String c s' => if is_ws c then skip_ws s' else s
  | EmptyString => s
  end.
Definition is_digit (c : ascii) : bool :=
  let n := N_of_ascii c in bool_decide (48 <= n)%N && bool_decide (n <= 57)%N.
Definition hex_val (c : ascii) : option N :=
  let n := N_of_ascii c in
  if is_digit c then Some (n - 48)%N
  else if bool_decide (97 <= n)%N && bool_decide (n <= 102)%N then Some (n - 87)%N
  else if bool_decide (65 <= n)%N && bool_decide (n <= 70)%N then Some (n - 55)%N
  else None.

(** The characters of a string literal after its opening quote. *)
Fixpoint read_str (s : string) : option (string * string) :=
  match s with
  | EmptyString => None
  | String c s' =>
    let n := N_of_ascii c in
    let cons x r := match r with Some (t, rest) => Some (String x t, rest) | None => None end in
    if decide (n = 34)%N then Some ("", s')
    else if decide (n = 92)%N then
      match s' with
      | EmptyString => None
      | String e s'' =>
        match N_of_ascii e with
        | 34%N | 92%N | 47%N => cons e (read_str s'')
        | 98%N => cons (ascii_of_N 8) (read_str s'')
        | 102%N => cons (ascii_of_N 12) (read_str s'')
        | 110%N => cons (ascii_of_N 10) (read_str s'')
        | 114%N => cons (ascii_of_N 13) (read_str s'')
        | 116%N => cons (ascii_of_N 9) (read_str s'')
        | 117%N =>
          match s'' with
          | String "0" (String "0" (String h (String l s3))) =>
            match hex_val h, hex_val l with
            | Some a, Some b =>
              if decide (a < 8)%N then cons (ascii_of_N (16 * a + b)) (read_str s3) else None
            | _, _ => None
            end
          | _ => None
          end
        | _ => None
        end
      end
    else if decide (n < 32)%N then None
    else cons c (read_str s')
  end.

(** The characters of a number, and what follows. *)
Fixpoint span_num (s : string) : string * string :=
  match s with
  | EmptyString => ("", "")
  | String c s' =>
    if is_digit c || bool_decide (N_of_ascii c ∈ [43; 45; 46; 69; 101]%N)
    then let '(a, b) := span_num s' in (String c a, b) else ("", s)
  end.
Fixpoint all_digits (s : string) : bool :=
  match s with EmptyString => true | String c s' => is_digit c && all_digits s' end.
Definition read_nat (s : string) : option N :=
  match s with
  | "0" => Some 0%N
  | String "0" _ => None
  | _ => if all_digits s then parse_digits s else None
  end.
Definition read_num (s : string) : option Node :=
  match s with
  | String "-" s' =>
    match read_nat s' with
    | Some n => Some (if decide (n <= 9223372036854775808)%N
                      then NInt (- Z.of_N n) else NFloat s)
    | None => if bool_decide (s' = "") then None else Some (NFloat s)
    end
  | _ =>
    match read_nat s with
    | Some n => Some (if decide (n <= u64_max)%N then NInt (Z.of_N n) else NFloat s)
    | None => if all_digits s then None else Some (NFloat s)
    end
  end.

Fixpoint take_str (n : nat) (s : string) : string :=
  match n, s with
  | S n', String c s' => String c (take_str n' s')
  | _, _ => ""
  end.
(** The text [s] has before its suffix [rest]. *)
Definition before (s rest : string) : string :=
  take_str (String.length s - String.length rest) s.
Fixpoint drop_prefix (p s : string) : option string :=
  match p, s with
  | EmptyString, _ => Some s
  | String a p', String b s' => if decide (a = b) then drop_prefix p' s' else None
  | _, EmptyString => None
  end.
Definition literal (p : string) (n : Node) (s : string) : option (Node * string) :=
  match drop_prefix p s with Some rest => Some (n, rest) | None => None end.

(** A value at the head of [s] (no leading space) and the rest of the text.
    [fuel] bounds the recursion; the length of the text is enough. *)
Fixpoint read_value (fuel : nat) (s : string) : option (Node * string) :=
  match fuel with
  | O => None
  | S f =>
    match s with
    | EmptyString => None
    | String c s' =>
      match N_of_ascii c with
      | 110%N => literal "null" NNull s
      | 116%N => literal "true" (NBool true) s
      | 102%N => literal "false" (NBool false) s
      | 34%N => match read_str s' with Some (t, r) => Some (NStr t, r) | None => None end
      | 91%N => read_items f (skip_ws s') true []
      | 123%N => read_members f (skip_ws s') true []
      | _ =>
        let '(a, b) := span_num s in
        if bool_decide (a = "") then None
        else match read_num a with Some n => Some (n, b) | None => None end
      end
    end
  end
with read_items (fuel : nat) (s : string) (first : bool) (acc : list string)
    : option (Node * string) :=
  match fuel with
  | O => None
  | S f =>
    let item t :=
      let t := skip_ws t in
      match read_value f t with
      | Some (_, r) => read_items f (skip_ws r) false (before t r :: acc)
      | None => None
      end in
    match s with
    | String "]" r => Some (NArr (rev acc), r)
    | String "," r => if first then None else item r
    | _ => if first then item s else None
    end
  end
with read_members (fuel : nat) (s : string) (first : bool) (acc : list (string * string))
    : option (Node * string) :=
  match fuel with
  | O => None
  | S f =>
    let member t :=
      match skip_ws t with
      | String q t1 =>
        if decide (q = quote) then
          match read_str t1 with
          | Some (k, t2) =>
            match skip_ws t2 with
            | String ":" t3 =>
              let t3 := skip_ws t3 in
              match read_value f t3 with
              | Some (_, r) => read_members f (skip_ws r) false ((k, before t3 r) :: acc)
              | None => None
              end
            | _ => None
            end
          | None => None
          end
        else None
      | EmptyString => None
      end in
    match s with
    | String "}" r => Some (NObj (rev acc), r)
    | String "," r => if first then None else member r
    | _ => if first then member s else None
    end
  end.

Definition ref_read (s : string) : option Node :=
  match read_value (2 * String.length s + 4) (skip_ws s) with
  | Some (n, rest) => match skip_ws rest with EmptyString => Some n | _ => None end
  | None => None
  end.

Definition self_delimited (s : string) : bool :=
  match s with
  | String c _ => bool_decide (N_of_ascii c ∈ [34; 91; 123]%N)
  | EmptyString => false
  end.
Definition at_end_of_value (s : string) : bool :=
  match s with
  | EmptyString => true
  | String c _ => is_ws c || bool_decide (N_of_ascii c ∈ [34; 44; 58; 91; 93; 123; 125]%N)
  end.
Definition ref_stream (s : string) : option (Result string (string * nat)) :=
  let t := skip_ws s in
  if decide (t = "") then None
  else Some match read_value (2 * String.length t + 4) t with
       | Some (_, rest) =>
         if self_delimited t || at_end_of_value rest
         then Ok (before t rest, String.length s - String.length rest)
         else Err "trailing characters"
       | None => Err "expected value"
       end.

Fixpoint strip_spaces (inside esc : bool) (s : string) : string :=
  match s with
  | EmptyString => ""
  | String c s' =>
    if inside then
      String c (strip_spaces (esc || negb (bool_decide (c = quote)))
                  (negb esc && bool_decide (N_of_ascii c = 92%N)) s')
    else if is_ws c then strip_spaces false false s'
    else String c (strip_spaces (bool_decide (c = quote)) false s')
  end.
Definition ref_compact (s : string) : option string :=
  match ref_read s with Some _ => Some (strip_spaces false false s) | None => None end.

Definition ref_json : SerdeJson :=
  {| json_write := ref_write; json_events := ref_events; json_read := ref_read;
     json_stream := ref_stream; json_errmsg := λ _, "invalid type";
     json_compact := ref_compact |}.

(** Text in the notation of the tests: a single quote stands for a double one. *)
Fixpoint q (s : string) : string :=
  match s with
  | EmptyString => ""
  | String c s' => String (if decide (N_of_ascii c = 39)%N then quote else c) (q s')
  end.

Example ref_read_object :
  ref_read (q "{ 'a' : [1, {'b':'c'}] ,'n':-12, 'f':1.5, 's':'x\u0041\n' }") =
  Some (NObj [("a", q "[1, {'b':'c'}]"); ("n", "-12"); ("f", "1.5"); ("s", q "'x\u0041\n'")]).
Proof. vm_compute. reflexivity. Qed.
Example ref_read_bad : ref_read (q "{'a':1,}") = None ∧ ref_read "[1 2]" = None.
Proof. vm_compute. split; reflexivity. Qed.
Example ref_write_object :
  ref_write (SerMap [("jsonrpc", SerStr "2.0"); ("id", SerInt 1); ("r", SerRaw "[1]")]) =
  Some (q "{'jsonrpc':'2.0','id':1,'r':[1]}").
Proof. vm_compute. reflexivity. Qed.

(** ** The reader on what the printer writes for strings and numbers *)

Lemma read_str_escape_char c rest :
  read_str (escape_char c +:+ rest) =
  match read_str rest with Some (t, r) => Some (String c t, r) | None => None end.
Proof. destruct c as [[] [] [] [] [] [] [] []]; reflexivity. Qed.

Lemma read_str_escape s rest :
  read_str (escape s +:+ str1 quote +:+ rest) = Some (s, rest).
Proof.
  induction s as [|c s IH]; [done|]. cbn [escape].
  by rewrite append_assoc', read_str_escape_char, IH.
Qed.

Lemma span_digits d rest :
  span_num (NilEmpty.string_of_uint d +:+ String "]" rest) =
  (NilEmpty.string_of_uint d, String "]" rest).
Proof. induction d as [|d IH|d IH|d IH|d IH|d IH|d IH|d IH|d IH|d IH|d IH]; [done|..];
  cbn -[span_num] in *; cbn [span_num]; by rewrite IH. Qed.

Lemma all_digits_of_uint d : all_digits (NilEmpty.string_of_uint d) = true.
Proof. induction d; done. Qed.

Lemma to_uint_head n d : N.to_uint n = Decimal.D0 d → d = Decimal.Nil.
Proof.
  intros E. pose proof (DecimalN.Unsigned.to_of (N.to_uint n)) as H.
  rewrite DecimalN.Unsigned.of_to, E in H. unfold Decimal.unorm in H. cbn in H.
  destruct (Decimal.nzhead d) eqn:En; try discriminate.
  - congruence.
  - by apply DecimalFacts.nzhead_nonzero in En.
Qed.

Lemma read_nat_to_dec n : read_nat (to_dec n) = Some n.
Proof.
  unfold to_dec. pose proof (all_digits_of_uint (N.to_uint n)) as Ha.
  pose proof (NilEmpty.usu (N.to_uint n)) as Hu.
  pose proof (N_to_uint_nonnil n) as Hn.
  assert (parse_digits (NilEmpty.string_of_uint (N.to_uint n)) = Some n) as Hp.
  { unfold parse_digits. rewrite Hu. cbn. rewrite DecimalN.Unsigned.of_to.
    by destruct (N.to_uint n). }
  destruct (N.to_uint n) as [|d|d|d|d|d|d|d|d|d|d] eqn:E; [done|..].
  { apply to_uint_head in E as ->. exact Hp. }
  all: unfold read_nat; cbn [NilEmpty.string_of_uint] in *; rewrite Ha; exact Hp.
Qed.

Lemma read_num_to_dec n : is_Some (read_num (to_dec n)).
Proof.
  unfold read_num. rewrite read_nat_to_dec. unfold to_dec.
  pose proof (N_to_uint_nonnil n). destruct (N.to_uint n); [done|..]; eexists; reflexivity.
Qed.

Lemma read_value_nat f n rest node :
  read_num (to_dec n) = Some node →
  read_value (S f) (to_dec n +:+ String "]" rest) = Some (node, String "]" rest).
Proof.
  intros Hr. unfold to_dec in *.
  pose proof (span_digits (N.to_uint n) rest) as Hs.
  pose proof (N_to_uint_nonnil n).
  destruct (N.to_uint n); [done|..]; cbn -[span_num read_num] in *; by rewrite Hs, Hr.
Qed.

Lemma read_value_str f s rest :
  read_value (S f) (print_str s +:+ rest) = Some (NStr s, rest).
Proof.
  unfold print_str. rewrite !append_assoc'.
  change (str1 quote +:+ ?x) with (String quote x).
  cbn [read_value]. change (N_of_ascii quote) with 34%N. cbv iota.
  by rewrite read_str_escape.
Qed.

(** The array of one string or natural number is read back. *)
Lemma ref_read_singleton t node :
  (∀ f, read_value (S f) (t +:+ "]") = Some (node, "]")) →
  skip_ws (t +:+ "]") = t +:+ "]" → starts_with "]" (t +:+ "]") = false →
  starts_with "," (t +:+ "]") = false →
  is_Some (ref_read ("[" +:+ t +:+ "]")).
Proof.
  intros Hv Hw H1 H2. unfold ref_read. cbn [String.append String.length].
  set (u := t +:+ "]") in *. cbn [skip_ws].
  change (is_ws "[") with false. cbn iota.
  replace (2 * S (String.length u) + 4) with (S (S (S (S (2 * String.length u + 2))))) by lia.
  generalize (2 * String.length u + 2) as f. intros f.
  change (read_value (S ?k) (String "[" u)) with (read_items k (skip_ws u) true []).
  rewrite Hw. destruct u as [|c u'] eqn:E; [by destruct t|].
  cbn [starts_with] in H1, H2. apply bool_decide_eq_false in H1, H2.
  assert (∀ k acc, read_items (S k) (String c u') true acc =
    match read_value k (skip_ws (String c u')) with
    | Some (_, r) => read_items k (skip_ws r) false (before (skip_ws (String c u')) r :: acc)
    | None => None end) as Hi.
  { intros k acc. destruct c as [[] [] [] [] [] [] [] []]; first [reflexivity|done]. }
  rewrite Hi, Hw, Hv. cbn. eauto.
Qed.
