(* ===== verification/Errors.v ===== *)
(** JSON-RPC error objects: [types/src/error.rs].

    [ErrorCode] with its integer codes and messages, [ErrorObject] with its
    derived serialisation, and the helpers that build the errors of the limits. *)
From S2P Require Import Prelude Serde RefJson.
From stdpp Require Import base gmap strings list.

Local Open Scope Z_scope.

(** Codes are [i32] values. *)
Definition i32_range (z : Z) : Prop := -2147483648 ≤ z ≤ 2147483647.
#[export] Instance i32_range_dec z : Decision (i32_range z).
Proof. unfold i32_range. apply _. Defined.

Definition PARSE_ERROR_CODE : Z := -32700.
Definition INVALID_REQUEST_CODE : Z := -32600.
Definition METHOD_NOT_FOUND_CODE : Z := -32601.
Definition INVALID_PARAMS_CODE : Z := -32602.
Definition INTERNAL_ERROR_CODE : Z := -32603.
Definition CALL_EXECUTION_FAILED_CODE : Z := -32000.
Definition UNKNOWN_ERROR_CODE : Z := -32001.
Definition BATCHES_NOT_SUPPORTED_CODE : Z := -32005.
Definition TOO_MANY_SUBSCRIPTIONS_CODE : Z := -32006.
Definition OVERSIZED_REQUEST_CODE : Z := -32007.
Definition OVERSIZED_RESPONSE_CODE : Z := -32008.
Definition SERVER_IS_BUSY_CODE : Z := -32009.
Definition TOO_BIG_BATCH_REQUEST_CODE : Z := -32010.
Definition TOO_BIG_BATCH_RESPONSE_CODE : Z := -32011.
Definition ENCRYPTION_ERROR_CODE : Z := -32012.
Definition DECRYPTION_ERROR_CODE : Z := -32013.

Definition PARSE_ERROR_MSG : string := "Parse error".
Definition OVERSIZED_REQUEST_MSG : string := "Request is too big".
Definition OVERSIZED_RESPONSE_MSG : string := "Response is too big".
Definition INTERNAL_ERROR_MSG : string := "Internal error".
Definition INVALID_PARAMS_MSG : string := "Invalid params".
Definition INVALID_REQUEST_MSG : string := "Invalid request".
Definition METHOD_NOT_FOUND_MSG : string := "Method not found".
Definition SERVER_IS_BUSY_MSG : string := "Server is busy, try again later".
Definition SERVER_ERROR_MSG : string := "Server error".
Definition BATCHES_NOT_SUPPORTED_MSG : string :=
  "Batched requests are not supported by this server".
Definition TOO_MANY_SUBSCRIPTIONS_MSG : string := "Too many subscriptions on the connection".
Definition TOO_BIG_BATCH_REQUEST_MSG : string := "The batch request was too large".
Definition TOO_BIG_BATCH_RESPONSE_MSG : string := "The batch response was too large".
Definition ENCRYPTION_ERROR_MSG : string := "Message encryption failed".
Definition DECRYPTION_ERROR_MSG : string := "Message decryption failed".

Inductive ErrorCode : Type :=
| ParseError
| OversizedRequest
| InvalidRequest
| MethodNotFound
| ServerIsBusy
| InvalidParams
| InternalError
| ServerError (code : Z).

#[export] Instance ErrorCode_eq_dec : EqDecision ErrorCode.
Proof. solve_decision. Defined.

Module ErrorCode.
Definition code (c : ErrorCode) : Z :=
  match c with
  | ParseError => PARSE_ERROR_CODE
  | OversizedRequest => OVERSIZED_REQUEST_CODE
  | InvalidRequest => INVALID_REQUEST_CODE
  | MethodNotFound => METHOD_NOT_FOUND_CODE
  | ServerIsBusy => SERVER_IS_BUSY_CODE
  | InvalidParams => INVALID_PARAMS_CODE
  | InternalError => INTERNAL_ERROR_CODE
  | ServerError code => code
  end.

Definition message (c : ErrorCode) : string :=
  match c with
  | ParseError => PARSE_ERROR_MSG
  | OversizedRequest => OVERSIZED_REQUEST_MSG
  | InvalidRequest => INVALID_REQUEST_MSG
  | MethodNotFound => METHOD_NOT_FOUND_MSG
  | ServerIsBusy => SERVER_IS_BUSY_MSG
  | InvalidParams => INVALID_PARAMS_MSG
  | InternalError => INTERNAL_ERROR_MSG
  | ServerError _ => SERVER_ERROR_MSG
  end.

(** [Display]: the code in decimal, a colon, the message. *)
Definition display_i32 (z : Z) : string :=
  if decide (z < 0) then "-" +:+ to_dec (Z.to_N (- z)) else to_dec (Z.to_N z).
Definition fmt (c : ErrorCode) : string := display_i32 (code c) +:+ ": " +:+ message c.

(** [From<i32>]: the arms of the [match], in order. *)
Definition from (z : Z) : ErrorCode :=
  if decide (z = PARSE_ERROR_CODE) then ParseError
  else if decide (z = OVERSIZED_REQUEST_CODE) then OversizedRequest
  else if decide (z = INVALID_REQUEST_CODE) then InvalidRequest
  else if decide (z = METHOD_NOT_FOUND_CODE) then MethodNotFound
  else if decide (z = INVALID_PARAMS_CODE) then InvalidParams
  else if decide (z = INTERNAL_ERROR_CODE) then InternalError
  else ServerError z.

Definition serialize (c : ErrorCode) : Ser := SerInt (code c).
Definition deserialize {J : SerdeJson} (raw : string) : option ErrorCode :=
  from <$> de_i32 raw.

(** The codes [from] produces: the values the wire can carry unchanged. *)
Definition canonical (c : ErrorCode) : Prop := from (code c) = c ∧ i32_range (code c).
#[export] Instance canonical_dec c : Decision (canonical c).
Proof. unfold canonical. apply _. Defined.

Lemma from_code z : code (from z) = z.
Proof. unfold from. by repeat case_decide; subst. Qed.

Lemma from_canonical z : i32_range z → canonical (from z).
Proof. intros R. split; by rewrite from_code. Qed.
End ErrorCode.

(** [data] is the text of a [RawValue]. *)
Record ErrorObject : Type := MkErrorObject {
  eo_code : ErrorCode;
  eo_message : string;
  eo_data : option string
}.

Module ErrorObject.
Definition code (e : ErrorObject) : Z := ErrorCode.code (eo_code e).
Definition message (e : ErrorObject) : string := eo_message e.
Definition data (e : ErrorObject) : option string := eo_data e.

(** [owned]: data that does not serialise is dropped. *)
Definition owned {J : SerdeJson} (c : Z) (msg : string) (d : option Ser) : ErrorObject :=
  let d := d ≫= json_write in
  MkErrorObject (ErrorCode.from c) msg d.
Definition borrowed (c : Z) (msg : string) (d : option string) : ErrorObject :=
  MkErrorObject (ErrorCode.from c) msg d.
(** [into_owned] and [borrow] copy the three fields. *)
Definition into_owned (e : ErrorObject) : ErrorObject :=
  MkErrorObject (eo_code e) (eo_message e) (eo_data e).
Definition borrow (e : ErrorObject) : ErrorObject :=
  MkErrorObject (eo_code e) (eo_message e) (eo_data e).

(** [PartialEq]: data is compared as text. *)
Definition eq (a b : ErrorObject) : bool :=
  let this_raw := eo_data a in
  let other_raw := eo_data b in
  bool_decide (eo_code a = eo_code b) && bool_decide (eo_message a = eo_message b)
  && bool_decide (this_raw = other_raw).

Definition from (c : ErrorCode) : ErrorObject :=
  MkErrorObject c (ErrorCode.message c) None.

(** [#[derive(Serialize)]] with [skip_serializing_if] on [data]. *)
Definition serialize (e : ErrorObject) : Ser :=
  SerMap ([("code", ErrorCode.serialize (eo_code e)); ("message", SerStr (eo_message e))]
          ++ opt_field "data" SerRaw (eo_data e)).

(** [#[derive(Deserialize)]] with [deny_unknown_fields]. *)
Definition deserialize {J : SerdeJson} (raw : string) : option ErrorObject :=
  n ← json_read raw;
  m ← struct_entries true ["code"; "message"; "data"] n;
  c ← m !! "code" ≫= ErrorCode.deserialize;
  msg ← m !! "message" ≫= de_str;
  d ← field_option de_raw (m !! "data");
  Some (MkErrorObject c msg d).
End ErrorObject.

#[export] Instance ErrorObject_eq_dec : EqDecision ErrorObject.
Proof. solve_decision. Defined.
#[export] Instance ErrorObject_Serialize : Serialize ErrorObject := ErrorObject.serialize.

Section Rejections.
Context {J : SerdeJson}.
Definition exceeded_limit (limit : N) : string := "Exceeded max limit of " +:+ to_dec limit.
Definition reject_too_many_subscriptions (limit : N) : ErrorObject :=
  ErrorObject.owned TOO_MANY_SUBSCRIPTIONS_CODE TOO_MANY_SUBSCRIPTIONS_MSG
    (Some (SerStr (exceeded_limit limit))).
Definition reject_too_big_request (limit : N) : ErrorObject :=
  ErrorObject.owned OVERSIZED_REQUEST_CODE OVERSIZED_REQUEST_MSG
    (Some (SerStr (exceeded_limit limit))).
Definition reject_too_big_batch_request (limit : N) : ErrorObject :=
  ErrorObject.owned TOO_BIG_BATCH_REQUEST_CODE TOO_BIG_BATCH_REQUEST_MSG
    (Some (SerStr (exceeded_limit limit))).
Definition reject_too_big_batch_response (limit : N) : ErrorObject :=
  ErrorObject.owned TOO_BIG_BATCH_RESPONSE_CODE TOO_BIG_BATCH_RESPONSE_MSG
    (Some (SerStr (exceeded_limit limit))).
End Rejections.

(** ** Tests of the source *)
Example serialize_works :
  ref_write (ErrorObject.serialize (ErrorObject.from InternalError)) =
  Some (q "{'code':-32603,'message':'Internal error'}").
Proof. vm_compute. reflexivity. Qed.
Example deserialize_with_optional_data :
  ErrorObject.deserialize (J := ref_json)
    (q "{'code':-32700,'message':'Parse error', 'data':'vegan'}") =
  Some (MkErrorObject ParseError "Parse error" (Some (q "'vegan'"))).
Proof. vm_compute. reflexivity. Qed.

(** ** Properties *)

Section Properties.
Context {J : SerdeJson}.

(** Integer codes survive a trip through [ErrorCode], and the only code of the
    enumeration that does not come back as its own variant is [ServerIsBusy]
    (and a [ServerError] that carries a code another variant owns). *)
Theorem code_roundtrip (z : Z) (c : ErrorCode) :
  ErrorCode.code (ErrorCode.from z) = z ∧
  (ErrorCode.from (ErrorCode.code c) = c ↔
   match c with
   | ServerIsBusy => False
   | ServerError n => n ∉ [PARSE_ERROR_CODE; OVERSIZED_REQUEST_CODE; INVALID_REQUEST_CODE;
                           METHOD_NOT_FOUND_CODE; INVALID_PARAMS_CODE; INTERNAL_ERROR_CODE]
   | _ => True
   end).
Proof.
  split; [apply ErrorCode.from_code|].
  destruct c as [| | | | | | |n]; try done. cbn [ErrorCode.code]. unfold ErrorCode.from.
  rewrite !not_elem_of_cons. split; intros Hn.
  - repeat (case_decide; [discriminate Hn|]). split_and!; auto using not_elem_of_nil.
  - destruct_and! Hn. by repeat (case_decide; [done|]).
Qed.

Definition eo_ok (e : ErrorObject) : Prop :=
  ErrorCode.canonical (eo_code e) ∧
  match eo_data e with Some d => json_read d ≠ Some NNull | None => True end.

Lemma ErrorCode_decode c : ErrorCode.canonical c → faithful (ErrorCode.serialize c) →
  ErrorCode.deserialize (text_of (ErrorCode.serialize c)) = Some c.
Proof.
  intros [E R] F. unfold ErrorCode.deserialize, ErrorCode.serialize in *.
  rewrite de_i32_faithful; [|done..]. cbn. by rewrite E.
Qed.

Lemma field_option_raw d : faithful (SerRaw d) → json_read d ≠ Some NNull →
  field_option de_raw (Some (text_of (SerRaw d))) = Some (Some d).
Proof.
  intros F Hn. destruct (faithful_raw _ F) as [E [n Hr]].
  unfold field_option, de_option. rewrite E, Hr.
  destruct n; try done; unfold de_raw; by rewrite Hr.
Qed.

Lemma eo_decode e : eo_ok e → faithful (ErrorObject.serialize e) →
  ErrorObject.deserialize (text_of (ErrorObject.serialize e)) = Some e.
Proof.
  intros [Hc Hd] F. unfold ErrorObject.serialize in *.
  destruct (faithful_map _ F) as [Er Fs].
  unfold ErrorObject.deserialize. rewrite Er. clear Er F.
  destruct e as [c m d]; cbn in *.
  destruct d as [d|]; cbn -[ErrorCode.serialize] in *; split_Forall; cbn -[ErrorCode.serialize] in *;
    decode_struct; rewrite ErrorCode_decode by done; cbn;
    rewrite de_str_faithful by done; cbn; [|done].
  change (json_read (text_of _)) with (json_read (text_of (SerRaw d))).
  fold (de_option de_raw (text_of (SerRaw d))).
  change (de_option de_raw ?r) with (field_option de_raw (Some r)).
  by rewrite field_option_raw.
Qed.
End Properties.
