(* ===== verification/Params.v ===== *)
(** Identifiers and parameters: [types/src/params.rs].

    [TwoPointZero], the request [Id], the [SubscriptionId], and [Params] with the
    sequence parser [ParamsSequence]. *)
From S2P Require Import Prelude Serde RefJson Errors.
From stdpp Require Import base gmap strings list countable.
From Stdlib Require Import Ascii.


(** ** [TwoPointZero] *)
Inductive TwoPointZero : Type := V2.

Module TwoPointZero.
Definition visit_str (s : string) : option TwoPointZero :=
  if decide (s = "2.0") then Some V2 else None.
Definition deserialize {J : SerdeJson} (raw : string) : option TwoPointZero :=
  de_str raw ≫= visit_str.
Definition serialize (_ : TwoPointZero) : Ser := SerStr "2.0".

Lemma version_decode {J : SerdeJson} v : faithful (serialize v) →
  deserialize (text_of (serialize v)) = Some v.
Proof. intros F. unfold deserialize, serialize in *. rewrite de_str_faithful by done. by destruct v. Qed.
End TwoPointZero.

(** ** [InvalidRequestId], [Id] and [SubscriptionId] *)
Inductive InvalidRequestId : Type :=
| NotPendingRequest (s : string)
| Occupied (s : string)
| Invalid (s : string).

Inductive Id : Type :=
| IdNull
| IdNumber (n : N)
| IdStr (s : string).

Inductive SubscriptionId : Type :=
| SubNum (n : N)
| SubStr (s : string).

#[export] Instance InvalidRequestId_eq_dec : EqDecision InvalidRequestId.
Proof. solve_decision. Defined.
#[export] Instance Id_eq_dec : EqDecision Id.
Proof. solve_decision. Defined.
#[export] Instance Id_countable : Countable Id.
Proof.
  refine (inj_countable'
    (λ i, match i with IdNull => inl () | IdNumber n => inr (inl n) | IdStr s => inr (inr s) end)
    (λ x, match x with inl _ => IdNull | inr (inl n) => IdNumber n | inr (inr s) => IdStr s end) _).
  by intros [].
Defined.
#[export] Instance SubscriptionId_eq_dec : EqDecision SubscriptionId.
Proof. solve_decision. Defined.
#[export] Instance SubscriptionId_countable : Countable SubscriptionId.
Proof.
  refine (inj_countable' (λ i, match i with SubNum n => inl n | SubStr s => inr s end)
    (λ x, match x with inl n => SubNum n | inr s => SubStr s end) _).
  by intros [].
Defined.

Module Id.
Definition as_number (i : Id) : option N :=
  match i with IdNumber n => Some n | _ => None end.
Definition as_str (i : Id) : option string :=
  match i with IdStr s => Some s | _ => None end.
Definition as_null (i : Id) : option unit :=
  match i with IdNull => Some () | _ => None end.
Definition into_owned (i : Id) : Id :=
  match i with IdNull => IdNull | IdNumber n => IdNumber n | IdStr s => IdStr s end.

Definition try_parse_inner_as_number (i : Id) : Result InvalidRequestId N :=
  match i with
  | IdNull => Err (Invalid "null")
  | IdNumber n => Ok n
  | IdStr s => ok_or (parse_u64 s) (Invalid s)
  end.

(** [Display]. *)
Definition fmt (i : Id) : string :=
  match i with IdNull => "null" | IdNumber n => to_dec n | IdStr s => s end.

(** [#[serde(untagged)]]: the variants are tried in order. *)
Definition serialize (i : Id) : Ser :=
  match i with
  | IdNull => SerNull
  | IdNumber n => SerInt (Z.of_N n)
  | IdStr s => SerStr s
  end.
Definition deserialize {J : SerdeJson} (raw : string) : option Id :=
  match json_read raw with
  | Some NNull => Some IdNull
  | Some (NInt _) => IdNumber <$> de_u64 raw
  | Some (NStr s) => Some (IdStr s)
  | _ => None
  end.

(** The numbers an [Id] can hold. *)
Definition in_range (i : Id) : Prop :=
  match i with IdNumber n => (n <= u64_max)%N | _ => True end.

Lemma id_decode {J : SerdeJson} i : in_range i → faithful (serialize i) →
  deserialize (text_of (serialize i)) = Some i.
Proof.
  intros R F. unfold deserialize. destruct i as [|n|s]; cbn [serialize] in *.
  - by rewrite faithful_null.
  - unfold de_u64. rewrite (faithful_int _ F). cbn in R.
    rewrite decide_True by lia. cbn. by rewrite N2Z.id.
  - by rewrite (faithful_str _ F).
Qed.
End Id.

Module SubscriptionId.
Definition into_owned (s : SubscriptionId) : SubscriptionId :=
  match s with SubNum n => SubNum n | SubStr s => SubStr s end.
Definition serialize (s : SubscriptionId) : Ser :=
  match s with SubNum n => SerInt (Z.of_N n) | SubStr s => SerStr s end.
Definition deserialize {J : SerdeJson} (raw : string) : option SubscriptionId :=
  match json_read raw with
  | Some (NInt _) => SubNum <$> de_u64 raw
  | Some (NStr s) => Some (SubStr s)
  | _ => None
  end.
(** [From<SubscriptionId> for JsonValue] and [TryFrom<JsonValue>]; a JSON value
    is the node of its text, [as_u64] succeeds on the integers of [u64]. *)
Definition into_json (s : SubscriptionId) : Node :=
  match s with SubNum n => NInt (Z.of_N n) | SubStr s => NStr s end.
Definition try_from_json (json : Node) : option SubscriptionId :=
  match json with
  | NStr s => Some (SubStr s)
  | NInt z =>
    if decide (0 ≤ z ≤ Z.of_N u64_max)%Z then Some (SubNum (Z.to_N z)) else None
  | _ => None
  end.
Definition in_range (i : SubscriptionId) : Prop :=
  match i with SubNum n => (n <= u64_max)%N | _ => True end.

Lemma sub_id_decode {J : SerdeJson} i : in_range i → faithful (serialize i) →
  deserialize (text_of (serialize i)) = Some i.
Proof.
  intros R F. unfold deserialize. destruct i as [n|s]; cbn [serialize] in *.
  - unfold de_u64. rewrite (faithful_int _ F). cbn in R.
    rewrite decide_True by lia. cbn. by rewrite N2Z.id.
  - by rewrite (faithful_str _ F).
Qed.
End SubscriptionId.

#[export] Instance Id_Serialize : Serialize Id := Id.serialize.
#[export] Instance SubscriptionId_Serialize : Serialize SubscriptionId := SubscriptionId.serialize.

(** ** [Params]: the trimmed text of the [params] member *)
Record Params : Type := MkParams { params_raw : option string }.
(** The rest of the text the sequence parser has not consumed. *)
Record ParamsSequence : Type := MkSeq { seq_rest : string }.

Section ParamsOps.
Context {J : SerdeJson}.

Definition invalid_params (e : string) : ErrorObject :=
  ErrorObject.owned (ErrorCode.code InvalidParams) INVALID_PARAMS_MSG (Some (SerStr e)).

Definition params_new (raw : option string) : Params := MkParams (trim <$> raw).
Definition is_object (p : Params) : bool :=
  match params_raw p with
  | Some json => starts_with "{"%char json
  | None => false
  end.
Definition sequence (p : Params) : ParamsSequence :=
  MkSeq match params_raw p with
        | Some json => if decide (json = "[]") then "" else json
        | None => ""
        end.
(** [parse::<T>], for a [T] whose [Deserialize] is [de]. *)
Definition parse {T} (de : string → Result string T) (p : Params) : Result ErrorObject T :=
  map_err invalid_params (de (default "null" (params_raw p))).
(** [[T; 1]]: an array of exactly one element. *)
Definition de_array1 {T} (de : string → Result string T) (raw : string) : Result string T :=
  match json_read raw with
  | Some (NArr [x]) => de x
  | _ => Err (json_errmsg raw)
  end.
Definition one {T} (de : string → Result string T) (p : Params) : Result ErrorObject T :=
  parse (de_array1 de) p.
Definition params_into_owned (p : Params) : Params := MkParams (params_raw p).
Definition len_bytes (p : Params) : N :=
  match params_raw p with Some s => slen s | None => 0%N end.
Definition as_str (p : Params) : option string :=
  match params_raw p with Some s => Some s | None => None end.

(** [next_inner]: the result, if there is one, and the sequence left behind.  The
    error text of the unexpected first byte ends with the [Debug] form of the
    rest of the input, which [std] prints ([debug]). *)
Variable debug : string → string.

Definition next_inner {T} (de : string → Result string T) (sq : ParamsSequence)
    : option (Result ErrorObject T) * ParamsSequence :=
  let json := seq_rest sq in
  match json with
  | EmptyString => (None, sq)
  | String c json' =>
    if decide (c = "]"%char) then (None, MkSeq "")
    else if decide (c = "["%char ∨ c = ","%char) then
      match json_stream json' with
      | None => (None, sq)
      | Some (Err e) => (Some (Err (invalid_params e)), MkSeq "")
      | Some (Ok (value, offset)) =>
        match de value with
        | Ok v => (Some (Ok v), MkSeq (trim_start (drop_str offset json')))
        | Err e => (Some (Err (invalid_params e)), MkSeq "")
        end
      end
    else
      (Some (Err (invalid_params
         ("Invalid params. Expected one of '[', ']' or ',' but found " +:+ debug json))), sq)
  end.

Definition next {T} (de : string → Result string T) (sq : ParamsSequence)
    : Result ErrorObject T * ParamsSequence :=
  match next_inner de sq with
  | (Some result, sq') => (result, sq')
  | (None, sq') => (Err (invalid_params "No more params"), sq')
  end.

(** [Option<T>]: [null] is [None]. *)
Definition de_opt {T} (de : string → Result string T) (raw : string) : Result string (option T) :=
  match json_read raw with Some NNull => Ok None | _ => Some <$> de raw end.

Definition optional_next {T} (de : string → Result string T) (sq : ParamsSequence)
    : Result ErrorObject (option T) * ParamsSequence :=
  match next_inner (de_opt de) sq with
  | (Some result, sq') => (result, sq')
  | (None, sq') => (Ok None, sq')
  end.

(** Reading [n] parameters in a row. *)
Fixpoint next_n {T} (n : nat) (de : string → Result string T) (sq : ParamsSequence)
    : list (Result ErrorObject T) * ParamsSequence :=
  match n with
  | O => ([], sq)
  | S n' =>
    let '(r, sq1) := next de sq in
    let '(rs, sq2) := next_n n' de sq1 in (r :: rs, sq2)
  end.
End ParamsOps.

(** ** Tests of the source *)
Section Tests.
#[local] Existing Instance ref_json.
Definition de_int (raw : string) : Result string Z :=
  match json_read raw with Some (NInt z) => Ok z | _ => Err "type" end.

Example params_parse :
  fst (next_n id 3 de_int (sequence (params_new (Some "  [1, 2 ,3] ")))) = [Ok 1%Z; Ok 2%Z; Ok 3%Z] ∧
  len_bytes (params_new (Some " [1, 2, 3]")) = 9%N ∧
  one de_int (params_new (Some "[1]")) = Ok 1%Z ∧
  is_ok (fst (next id de_int (sequence (params_new None)))) = false ∧
  fst (optional_next id de_int (sequence (params_new (Some " []  ")))) = Ok None ∧
  is_ok (fst (optional_next id de_int (sequence (params_new (Some "{}"))))) = false.
Proof. vm_compute. repeat split. Qed.
Example id_deserialization :
  Id.deserialize (q "'2x'") = Some (IdStr "2x") ∧ Id.deserialize "2" = Some (IdNumber 2) ∧
  Id.deserialize "[1337]" = None ∧ Id.deserialize "-1" = None ∧ Id.deserialize "null" = Some IdNull.
Proof. vm_compute. repeat split. Qed.
End Tests.

(** ** Trimming *)

(** A closing bracket or brace ends what trimming keeps. *)
Definition closing (e : ascii) : Prop := e = "]"%char ∨ e = "}"%char.
Definition last_char (e : ascii) (s : string) : string := s +:+ String e "".
Lemma strip_ws_keeps_end e s t : closing e →
  strip_ws (last_char e s) = Some t → ∃ t', t = last_char e t'.
Proof.
  unfold last_char.
  intros [-> | ->]; (destruct s as [|a [|b [|c s]]]; cbn -[N_of_ascii decide];
    repeat case_decide; intros; simplify_eq).
  all: try (by eexists (String _ (String _ (String _ _)))).
  all: try by eexists "".
  all: try by eexists (String _ "").
  all: try by eexists (String _ (String _ "")).
  all: try by eexists (String _ (String _ _)).
  all: try by eexists (String _ _).
  all: try by eexists _.
  all: exfalso; naive_solver.
Qed.

Lemma trim_start_keeps_end e s : closing e → trim_start (last_char e s) ≠ "".
Proof.
  intros He. unfold trim_start. generalize (String.length (last_char e s)) as n. intros n.
  revert s. induction n as [|n IH]; intros s; cbn; [apply append_nonempty|].
  destruct (strip_ws _) eqn:E; [|apply append_nonempty].
  apply strip_ws_keeps_end in E as [t' ->]; [apply IH|done].
Qed.

Lemma trim_end_keeps_end e s : closing e → trim_end (last_char e s) = last_char e s.
Proof.
  intros He. induction s as [|c s IH]; [by destruct He as [-> | ->]|]. unfold last_char in *. cbn -[trim_start].
  rewrite decide_False; [by rewrite IH|].
  apply (trim_start_keeps_end e (String c s) He).
Qed.

Lemma trim_start_head c s :
  c = "["%char ∨ c = ","%char ∨ c = "{"%char → trim_start (String c s) = String c s.
Proof. by intros [-> | [-> | ->]]; destruct s as [|b [|d s]]. Qed.

Lemma trim_array s : trim ("[" +:+ s +:+ "]") = "[" +:+ s +:+ "]".
Proof.
  unfold trim. cbn [String.append]. rewrite trim_start_head by auto.
  apply (trim_end_keeps_end "]"%char (String "["%char s)). by left.
Qed.
Lemma trim_object s : trim ("{" +:+ s +:+ "}") = "{" +:+ s +:+ "}".
Proof.
  unfold trim. cbn [String.append]. rewrite trim_start_head by auto.
  apply (trim_end_keeps_end "}"%char (String "{"%char s)). by right.
Qed.

Lemma drop_str_append t r : drop_str (String.length t) (t +:+ r) = r.
Proof. induction t; [by destruct r|done]. Qed.

(** ** The sequence parser reads the elements of an array in order *)

(** What follows an element, and the text of an array without white space. *)
Fixpoint tail_text (ts : list string) : string :=
  match ts with [] => "" | t :: ts' => "," +:+ t +:+ tail_text ts' end.
Definition array_text (ts : list string) : string :=
  match ts with [] => "[]" | t :: ts' => "[" +:+ (t +:+ tail_text ts') +:+ "]" end.

Section SequenceProps.
Context {J : SerdeJson} (debug : string → string).

(** [serde_json] delimits every element of the array. *)
Fixpoint reads_items (ts : list string) : Prop :=
  match ts with
  | [] => True
  | t :: ts' =>
    t ≠ "" ∧ json_stream ((t +:+ tail_text ts') +:+ "]") = Some (Ok (t, String.length t)) ∧
    reads_items ts'
  end.

Lemma trim_start_tail ts : trim_start (tail_text ts +:+ "]") = tail_text ts +:+ "]".
Proof.
  destruct ts as [|t ts]; [done|]. cbn [tail_text String.append].
  rewrite trim_start_head; auto.
Qed.

Lemma next_inner_items {T} (de : string → Result string T) c t ts v :
  c = "["%char ∨ c = ","%char → reads_items (t :: ts) → de t = Ok v →
  next_inner debug de (MkSeq (String c ((t +:+ tail_text ts) +:+ "]"))) =
  (Some (Ok v), MkSeq (tail_text ts +:+ "]")).
Proof.
  intros Hc (_ & Hr & _) Hd. unfold next_inner. cbn [seq_rest].
  rewrite decide_False by (by destruct Hc as [->| ->]).
  rewrite decide_True by done. rewrite Hr, Hd. cbv iota.
  by rewrite append_assoc', drop_str_append, trim_start_tail.
Qed.
Lemma next_items {T} (de : string → Result string T) c t ts v :
  c = "["%char ∨ c = ","%char → reads_items (t :: ts) → de t = Ok v →
  next debug de (MkSeq (String c ((t +:+ tail_text ts) +:+ "]"))) =
  (Ok v, MkSeq (tail_text ts +:+ "]")).
Proof. intros. unfold next. by erewrite next_inner_items. Qed.
Lemma optional_next_items {T} (de : string → Result string T) c t ts v :
  c = "["%char ∨ c = ","%char → reads_items (t :: ts) → de_opt de t = Ok v →
  optional_next debug de (MkSeq (String c ((t +:+ tail_text ts) +:+ "]"))) =
  (Ok v, MkSeq (tail_text ts +:+ "]")).
Proof. intros. unfold optional_next. by erewrite next_inner_items. Qed.

Lemma next_n_tail {T} (de : string → Result string T) ts vs :
  reads_items ts → Forall2 (λ t v, de t = Ok v) ts vs →
  next_n debug (length ts) de (MkSeq (tail_text ts +:+ "]")) = (Ok <$> vs, MkSeq "]").
Proof.
  intros Hr Hd. induction Hd as [|t v ts vs Hd Hds IH]; [done|].
  cbn [length next_n tail_text]. change (("," +:+ ?x) +:+ "]") with (String ","%char (x +:+ "]")).
  rewrite (next_items de _ _ _ v) by (by try right). destruct Hr as (_ & _ & Hr). by rewrite IH.
Qed.

Lemma next_n_empty {T} (de : string → Result string T) n :
  Forall (λ r, r = Err (invalid_params "No more params"))
    (fst (next_n debug n de (MkSeq ""))).
Proof. induction n as [|n IH]; cbn; [constructor|]. destruct (next_n _ n _ _). by constructor. Qed.

Lemma sequence_array ts : ts ≠ [] → reads_items ts →
  sequence (params_new (Some (array_text ts))) = MkSeq (array_text ts).
Proof.
  destruct ts as [|t ts]; [done|]. intros _ [Ht _]. unfold params_new. cbn [fmap option_fmap option_map].
  unfold array_text. rewrite trim_array. unfold sequence. cbn [params_raw]. rewrite decide_False; [done|].
  destruct t as [|c t]; [done|]. intros E. injection E.
  intros E'. exfalso. revert E'. destruct (t +:+ tail_text ts); discriminate.
Qed.
Lemma array_text_join ts : ts ≠ [] → array_text ts = "[" +:+ Prelude.join ts +:+ "]".
Proof.
  destruct ts as [|t ts]; [done|]. intros _. unfold array_text. do 2 f_equal. revert t.
  induction ts as [|u ts IH]; intros t; [by rewrite append_nil_r|].
  cbn [tail_text]. rewrite (IH u). done.
Qed.

(** [ParamsSequence] yields the elements of a JSON array in order, each
    decoded once, and every further call reports "No more params". *)
Theorem sequence_reads_array {T} (de : string → Result string T) ts vs :
  ts ≠ [] → reads_items ts → Forall2 (λ t v, de t = Ok v) ts vs →
  let '(rs, sq) := next_n debug (length ts) de (sequence (params_new (Some (array_text ts)))) in
  rs = Ok <$> vs ∧
  next debug de sq = (Err (invalid_params "No more params"), MkSeq "") ∧
  ∀ n, Forall (λ r, r = Err (invalid_params "No more params")) (fst (next_n debug n de sq)).
Proof.
  intros Hne Hr Hd.
  assert (next_n debug (length ts) de (sequence (params_new (Some (array_text ts))))
          = (Ok <$> vs, MkSeq "]")) as ->.
  { rewrite sequence_array by done. destruct Hd as [|t v ts vs Hd Hds]; [done|]. cbn [length next_n array_text].
    change ("[" +:+ ?x) with (String "["%char x).
    rewrite (next_items de _ _ _ v) by (by try left). destruct Hr as (_ & _ & Hr).
    by rewrite (next_n_tail _ ts vs). }
  split; [done|]. split; [done|].
  intros [|n]; cbn [next_n]; [constructor|].
  change (next debug de (MkSeq "]"))
    with (@Err ErrorObject T (invalid_params "No more params"), MkSeq "").
  pose proof (next_n_empty de n) as He. cbn iota beta.
  destruct (next_n debug n de (MkSeq "")). by constructor.
Qed.
End SequenceProps.

Lemma sequence_reads_array_witness :
  fst (next_n (J := ref_json) id 2 de_int
         (sequence (params_new (Some (array_text ["1"; "22"]))))) = [Ok 1%Z; Ok 22%Z].
Proof.
  pose proof (@sequence_reads_array ref_json id _ de_int ["1"; "22"] [1%Z; 22%Z]
    ltac:(done) ltac:(vm_compute; repeat split; discriminate)
    ltac:(repeat constructor)) as Hw.
  cbn [length] in Hw. destruct (next_n _ _ _ _) as [rs sq]. apply Hw.
Defined.
