(* ===== verification/Wire.v ===== *)
(** JSON-RPC messages: [types/src/request.rs] and [types/src/response.rs].

    Requests, notifications and the subscription payloads have derived codecs;
    [Response] has a hand written visitor, modelled as a fold of [visit_field]
    over the members of the object.  A [RawValue] is its text. *)
From stdpp Require Import base gmap strings list.
From S2P Require Import Prelude Serde RefJson Errors Params.

(** [http::Extensions], a type map of the [http] crate: the crates create it,
    merge it, and look values up by their type. *)
Class HttpExtensions := {
  Extensions : Type;
  ext_new : Extensions;
  (** [extend]: the entries of the second map win. *)
  ext_extend : Extensions → Extensions → Extensions
}.
(** The entry of the type [T]. *)
Class ExtKey `{HttpExtensions} (T : Type) := {
  ext_get : Extensions → option T;
  ext_insert : T → Extensions → Extensions
}.

(** ** Requests *)
Section Requests.
Context {J : SerdeJson} {X : HttpExtensions}.

Record Request : Type := MkRequest {
  rq_jsonrpc : TwoPointZero;
  rq_id : Id;
  rq_method : string;
  rq_params : option string;
  rq_extensions : Extensions
}.

Definition request_new (method : string) (params : option string) (id : Id) : Request :=
  MkRequest V2 id method params ext_new.
Definition request_params (r : Request) : Params := params_new (rq_params r).

Definition request_serialize (r : Request) : Ser :=
  SerMap ([("jsonrpc", TwoPointZero.serialize (rq_jsonrpc r)); ("id", Id.serialize (rq_id r));
           ("method", SerStr (rq_method r))]
          ++ opt_field "params" SerRaw (rq_params r)).
Definition request_deserialize (raw : string) : option Request :=
  n ← json_read raw;
  m ← struct_entries false ["jsonrpc"; "id"; "method"; "params"] n;
  v ← m !! "jsonrpc" ≫= TwoPointZero.deserialize;
  id ← m !! "id" ≫= Id.deserialize;
  method ← m !! "method" ≫= de_str;
  params ← field_option de_raw (m !! "params");
  Some (MkRequest v id method params ext_new).

(** [InvalidRequest]: only the id is looked at. *)
Record InvalidRequestObj : Type := MkInvalidRequest { inv_id : Id }.
Definition invalid_request_deserialize (raw : string) : option InvalidRequestObj :=
  n ← json_read raw;
  m ← struct_entries false ["id"] n;
  id ← m !! "id" ≫= Id.deserialize;
  Some (MkInvalidRequest id).

Record Notification (T : Type) : Type := MkNotification {
  nf_jsonrpc : TwoPointZero;
  nf_method : string;
  nf_params : T;
  nf_extensions : Extensions
}.
Arguments MkNotification {T} _ _ _ _.
Arguments nf_jsonrpc {T} _. Arguments nf_method {T} _.
Arguments nf_params {T} _. Arguments nf_extensions {T} _.

Definition notification_new {T} (method : string) (params : T) : Notification T :=
  MkNotification V2 method params ext_new.
(** [params] has no [skip_serializing_if]: [None] is written as [null]. *)
Definition notification_serialize {T} (ser : T → Ser) (n : Notification T) : Ser :=
  SerMap [("jsonrpc", TwoPointZero.serialize (nf_jsonrpc n)); ("method", SerStr (nf_method n));
          ("params", ser (nf_params n))].
(** [de] is given the text of [params], if there is one. *)
Definition notification_deserialize {T} (de : option string → option T) (raw : string)
    : option (Notification T) :=
  n ← json_read raw;
  m ← struct_entries false ["jsonrpc"; "method"; "params"] n;
  v ← m !! "jsonrpc" ≫= TwoPointZero.deserialize;
  method ← m !! "method" ≫= de_str;
  params ← de (m !! "params");
  Some (MkNotification v method params ext_new).

(** [SubscriptionPayload] and [SubscriptionPayloadError]: [member] is the field
    that carries the value, [result] or [error]. *)
Record SubscriptionPayload (T : Type) : Type := MkSubscriptionPayload {
  sp_subscription : SubscriptionId;
  sp_value : T
}.
Arguments MkSubscriptionPayload {T} _ _.
Arguments sp_subscription {T} _. Arguments sp_value {T} _.

Definition subscription_payload_serialize {T} (member : string) (ser : T → Ser)
    (p : SubscriptionPayload T) : Ser :=
  SerMap [("subscription", SubscriptionId.serialize (sp_subscription p)); (member, ser (sp_value p))].
Definition subscription_payload_deserialize {T} (member : string) (de : string → option T)
    (raw : string) : option (SubscriptionPayload T) :=
  n ← json_read raw;
  m ← struct_entries false ["subscription"; member] n;
  s ← m !! "subscription" ≫= SubscriptionId.deserialize;
  r ← m !! member ≫= de;
  Some (MkSubscriptionPayload s r).

Definition subscription_response_deserialize {T} (de : string → option T) (raw : string)
    : option (Notification (SubscriptionPayload T)) :=
  notification_deserialize (λ o, o ≫= subscription_payload_deserialize "result" de) raw.
Definition subscription_error_deserialize {T} (de : string → option T) (raw : string)
    : option (Notification (SubscriptionPayload T)) :=
  notification_deserialize (λ o, o ≫= subscription_payload_deserialize "error" de) raw.
End Requests.

Arguments MkNotification {_ T} _ _ _ _.
Arguments nf_jsonrpc {_ T} _. Arguments nf_method {_ T} _.
Arguments nf_params {_ T} _. Arguments nf_extensions {_ T} _.
Arguments MkSubscriptionPayload {T} _ _.
Arguments sp_subscription {T} _. Arguments sp_value {T} _.

(** ** Responses *)

(** [ResponsePayload]; [PayloadError] is the variant [Error]. *)
Inductive ResponsePayload (T : Type) : Type :=
| Success (t : T)
| PayloadError (e : ErrorObject).
Arguments Success {T} _.
Arguments PayloadError {T} _.

#[export] Instance ResponsePayload_eq_dec `{EqDecision T} : EqDecision (ResponsePayload T).
Proof. solve_decision. Defined.

Module ResponsePayload.
Definition success {T} (t : T) : ResponsePayload T := Success t.
Definition error {T} (e : ErrorObject) : ResponsePayload T := PayloadError e.
Definition from_code {T} (c : ErrorCode) : ResponsePayload T :=
  PayloadError (ErrorObject.from c).
Definition into_owned {T} (p : ResponsePayload T) : ResponsePayload T :=
  match p with
  | PayloadError e => PayloadError (ErrorObject.into_owned e)
  | Success r => Success r
  end.
End ResponsePayload.

Section Responses.
Context {J : SerdeJson} {X : HttpExtensions}.

Record Response (T : Type) : Type := MkResponse {
  rp_jsonrpc : option TwoPointZero;
  rp_payload : ResponsePayload T;
  rp_id : Id;
  rp_extensions : Extensions
}.
Arguments MkResponse {T} _ _ _ _.
Arguments rp_jsonrpc {T} _. Arguments rp_payload {T} _.
Arguments rp_id {T} _. Arguments rp_extensions {T} _.

Definition response_new {T} (payload : ResponsePayload T) (id : Id) : Response T :=
  MkResponse (Some V2) payload id ext_new.
Definition response_new_with_extensions {T} (payload : ResponsePayload T) (id : Id)
    (ext : Extensions) : Response T :=
  MkResponse (Some V2) payload id ext.
Definition response_into_owned {T} (r : Response T) : Response T :=
  MkResponse (rp_jsonrpc r) (ResponsePayload.into_owned (rp_payload r))
    (Id.into_owned (rp_id r)) (rp_extensions r).

Definition response_serialize {T} (ser : T → Ser) (r : Response T) : Ser :=
  SerMap (opt_field "jsonrpc" TwoPointZero.serialize (rp_jsonrpc r)
          ++ [("id", Id.serialize (rp_id r))]
          ++ match rp_payload r with
             | PayloadError err => [("error", ErrorObject.serialize err)]
             | Success r => [("result", ser r)]
             end).

(** [Field] and its visitor. *)
Inductive Field : Type := FJsonrpc | FResult | FError | FId | FIgnore.
Definition field_of (key : string) : Field :=
  if decide (key = "jsonrpc") then FJsonrpc
  else if decide (key = "result") then FResult
  else if decide (key = "error") then FError
  else if decide (key = "id") then FId
  else FIgnore.

(** The four local variables of [visit_map]. *)
Record VisitState (T : Type) : Type := MkVisit {
  v_jsonrpc : option (option TwoPointZero);
  v_result : option T;
  v_error : option ErrorObject;
  v_id : option Id
}.
Arguments MkVisit {T} _ _ _ _.
Arguments v_jsonrpc {T} _. Arguments v_result {T} _.
Arguments v_error {T} _. Arguments v_id {T} _.

(** One iteration of the loop. *)
Definition visit_field {T} (de : string → option T) (st : VisitState T)
    (kv : string * string) : option (VisitState T) :=
  let '(MkVisit jsonrpc result error id) := st in
  match field_of kv.1 with
  | FResult =>
    match result with
    | Some _ => None
    | None => v ← de kv.2; Some (MkVisit jsonrpc (Some v) error id)
    end
  | FError =>
    match error with
    | Some _ => None
    | None => v ← ErrorObject.deserialize kv.2; Some (MkVisit jsonrpc result (Some v) id)
    end
  | FId =>
    match id with
    | Some _ => None
    | None => v ← Id.deserialize kv.2; Some (MkVisit jsonrpc result error (Some v))
    end
  | FJsonrpc =>
    match jsonrpc with
    | Some _ => None
    | None =>
      v ← de_option TwoPointZero.deserialize kv.2; Some (MkVisit (Some v) result error id)
    end
  | FIgnore => _ ← de_ignored kv.2; Some st
  end.

Fixpoint visit_fields {T} (de : string → option T) (st : VisitState T)
    (members : list (string * string)) : option (VisitState T) :=
  match members with
  | [] => Some st
  | kv :: rest => st' ← visit_field de st kv; visit_fields de st' rest
  end.

(** The [match] after the loop. *)
Definition visit_end {T} (st : VisitState T) : option (Response T) :=
  id ← v_id st;
  match v_jsonrpc st, v_result st, v_error st with
  | _, Some _, Some _ => None
  | Some jsonrpc, Some result, None => Some (MkResponse jsonrpc (Success result) id ext_new)
  | Some jsonrpc, None, Some err => Some (MkResponse jsonrpc (PayloadError err) id ext_new)
  | None, Some result, _ => Some (MkResponse None (Success result) id ext_new)
  | None, _, Some err => Some (MkResponse None (PayloadError err) id ext_new)
  | _, None, None => None
  end.

Definition visit_map {T} (de : string → option T) (members : list (string * string))
    : option (Response T) :=
  visit_fields de (MkVisit None None None None) members ≫= visit_end.

(** The visitor has no [visit_seq]: only objects are responses. *)
Definition response_deserialize {T} (de : string → option T) (raw : string)
    : option (Response T) :=
  match json_read raw with
  | Some (NObj members) => visit_map de members
  | _ => None
  end.

(** [Success] and its [TryFrom<Response>]. *)
Record SuccessResponse (T : Type) : Type := MkSuccess {
  sc_jsonrpc : option TwoPointZero;
  sc_result : T;
  sc_id : Id
}.
Arguments MkSuccess {T} _ _ _.
Definition success_try_from {T} (rp : Response T) : Result ErrorObject (SuccessResponse T) :=
  match rp_payload rp with
  | PayloadError e => Err (ErrorObject.into_owned e)
  | Success r => Ok (MkSuccess (rp_jsonrpc rp) r (rp_id rp))
  end.
End Responses.

Arguments MkResponse {_ T} _ _ _ _.
Arguments rp_jsonrpc {_ T} _. Arguments rp_payload {_ T} _.
Arguments rp_id {_ T} _. Arguments rp_extensions {_ T} _.
Arguments MkVisit {T} _ _ _ _.
Arguments v_jsonrpc {T} _. Arguments v_result {T} _.
Arguments v_error {T} _. Arguments v_id {T} _.
Arguments MkSuccess {T} _ _ _.
Arguments sc_jsonrpc {T} _. Arguments sc_result {T} _. Arguments sc_id {T} _.

(** ** Tests of the source *)
Definition ref_ext : HttpExtensions :=
  {| Extensions := list string; ext_new := []; ext_extend := λ a b, b ++ a |}.

Section Tests.
#[local] Existing Instance ref_json.
#[local] Existing Instance ref_ext.

Example serialize_call_ok_response :
  ref_write (response_serialize SerStr (response_new (Success "ok") (IdNumber 1))) =
  Some (q "{'jsonrpc':'2.0','id':1,'result':'ok'}").
Proof. vm_compute. reflexivity. Qed.
Example deserialize_call_missing_version_field :
  response_deserialize de_u64 (q "{'jsonrpc':null, 'result':99, 'id':11, 'unknown':11}") =
  Some (MkResponse None (Success 99%N) (IdNumber 11) ext_new).
Proof. vm_compute. reflexivity. Qed.
Example deserialize_call :
  request_deserialize (q "{'jsonrpc':'2.0', 'method':'subtract', 'params':[42, 23], 'id':1}") =
  Some (MkRequest V2 (IdNumber 1) "subtract" (Some "[42, 23]") ext_new).
Proof. vm_compute. reflexivity. Qed.
Example deserialize_call_array :
  request_deserialize (q "['2.0', 1, 'subtract', null]") =
  Some (MkRequest V2 (IdNumber 1) "subtract" None ext_new).
Proof. vm_compute. reflexivity. Qed.
End Tests.

(** ** What the response visitor accepts *)

(** The values of the members called [k]. *)
Fixpoint occurrences (k : string) (ms : list (string * string)) : list string :=
  match ms with
  | [] => []
  | kv :: ms' => if decide (kv.1 = k) then kv.2 :: occurrences k ms' else occurrences k ms'
  end.

(** One slot of the visitor, before and after the loop. *)
Definition slot_reads {A} (k : string) (d : string → option A) (ms : list (string * string))
    (o o' : option A) : Prop :=
  match occurrences k ms with
  | [] => o' = o
  | [v] => o = None ∧ ∃ x, d v = Some x ∧ o' = Some x
  | _ => False
  end.

Lemma slot_reads_hit {A} k (d : string → option A) ms v o o' :
  slot_reads k d ((k, v) :: ms) o o' ↔
  o = None ∧ ∃ x, d v = Some x ∧ slot_reads k d ms (Some x) o'.
Proof.
  unfold slot_reads. cbn. rewrite decide_True by done.
  destruct (occurrences k ms) as [|w [|]]; naive_solver.
Qed.
Lemma slot_reads_miss {A} k k' (d : string → option A) ms v o o' :
  k' ≠ k → slot_reads k d ((k', v) :: ms) o o' ↔ slot_reads k d ms o o'.
Proof. intros. unfold slot_reads. cbn. by rewrite decide_False. Qed.

Section ResponseProps.
Context {J : SerdeJson} {X : HttpExtensions}.

(** Members with other names are only required to be JSON. *)
Definition ignored_ok (kv : string * string) : Prop :=
  field_of kv.1 = FIgnore → is_Some (json_read kv.2).

Lemma ignored_ok_known k v : field_of k ≠ FIgnore → ignored_ok (k, v).
Proof. unfold ignored_ok. naive_solver. Qed.

Lemma visit_fields_spec {T} (de : string → option T) ms st st' :
  visit_fields de st ms = Some st' ↔
  slot_reads "jsonrpc" (de_option TwoPointZero.deserialize) ms (v_jsonrpc st) (v_jsonrpc st') ∧
  slot_reads "result" de ms (v_result st) (v_result st') ∧
  slot_reads "error" ErrorObject.deserialize ms (v_error st) (v_error st') ∧
  slot_reads "id" Id.deserialize ms (v_id st) (v_id st') ∧
  Forall ignored_ok ms.
Proof.
  revert st. induction ms as [|[k v] ms IH]; intros [j r e i]; cbn [visit_fields].
  { unfold slot_reads; cbn. destruct st'; cbn. split; [intros; simplify_eq; auto|].
    naive_solver. }
  rewrite Forall_cons. unfold visit_field; cbn [fst snd].
  unfold field_of. repeat case_decide; subst.
  5: { rewrite !slot_reads_miss by done. cbn. unfold ignored_ok at 1. cbn [fst snd].
       unfold field_of. rewrite !decide_False by done. unfold de_ignored.
       destruct (json_read v); cbn; rewrite ?IH; cbn; naive_solver. }
  all: rewrite ?slot_reads_hit, ?slot_reads_miss by done; cbn.
  all: pose proof (ignored_ok_known) as Hk.
  1: specialize (Hk "jsonrpc" v ltac:(done)); destruct j; [naive_solver|];
     destruct (de_option TwoPointZero.deserialize v).
  3: specialize (Hk "result" v ltac:(done)); destruct r; [naive_solver|]; destruct (de v).
  5: specialize (Hk "error" v ltac:(done)); destruct e; [naive_solver|];
     destruct (ErrorObject.deserialize v).
  7: specialize (Hk "id" v ltac:(done)); destruct i; [naive_solver|]; destruct (Id.deserialize v).
  all: cbn; rewrite ?IH; cbn; naive_solver.
Qed.

Lemma slot_reads_start {A} k (d : string → option A) ms o' :
  slot_reads k d ms None o' ↔
  occurrences k ms = [] ∧ o' = None ∨
  ∃ v x, occurrences k ms = [v] ∧ d v = Some x ∧ o' = Some x.
Proof. unfold slot_reads. destruct (occurrences k ms) as [|v [|]]; naive_solver. Qed.

Lemma visit_end_spec {T} (st : VisitState T) (r : Response T) :
  visit_end st = Some r ↔
  v_id st = Some (rp_id r) ∧ rp_jsonrpc r = default None (v_jsonrpc st) ∧
  rp_extensions r = ext_new ∧
  ((∃ t, v_result st = Some t ∧ v_error st = None ∧ rp_payload r = Success t) ∨
   (∃ e, v_error st = Some e ∧ v_result st = None ∧ rp_payload r = PayloadError e)).
Proof.
  destruct st as [[] [] [] []], r; unfold visit_end; cbn; naive_solver.
Qed.

(** C30: the response visitor accepts exactly the objects with one readable [id],
    at most one [jsonrpc] (the version or [null]), and one of [result] and [error]
    but not both; every other member is ignored, and no order is required. *)
Theorem response_accepts {T} (de : string → option T) (raw : string) (r : Response T) :
  response_deserialize de raw = Some r ↔
  ∃ ms, json_read raw = Some (NObj ms) ∧ Forall ignored_ok ms ∧
    rp_extensions r = ext_new ∧
    (∃ i, occurrences "id" ms = [i] ∧ Id.deserialize i = Some (rp_id r)) ∧
    (occurrences "jsonrpc" ms = [] ∧ rp_jsonrpc r = None ∨
     ∃ v, occurrences "jsonrpc" ms = [v] ∧
          de_option TwoPointZero.deserialize v = Some (rp_jsonrpc r)) ∧
    ((∃ v t, occurrences "result" ms = [v] ∧ occurrences "error" ms = [] ∧
             de v = Some t ∧ rp_payload r = Success t) ∨
     (∃ v e, occurrences "error" ms = [v] ∧ occurrences "result" ms = [] ∧
             ErrorObject.deserialize v = Some e ∧ rp_payload r = PayloadError e)).
Proof.
  unfold response_deserialize. split.
  - destruct (json_read raw) as [[]|]; try done. rename members into ms.
    unfold visit_map. intros (st & (Hj & Hr & He & Hi & Hok)%visit_fields_spec & Hend)%bind_Some.
    apply visit_end_spec in Hend as (Ei & Ej & Eext & Epl). exists ms.
    apply slot_reads_start in Hj, Hr, He, Hi. cbn in *.
    split_and!; [done..|naive_solver| |].
    + destruct Hj as [[? Hj]|(v & x & ? & ? & Hj)]; rewrite Hj in Ej; cbn in Ej; subst; eauto.
    + naive_solver.
  - intros (ms & -> & Hok & Eext & (i & Oi & Di) & Hj & Hp).
    unfold visit_map. apply bind_Some.
    exists (MkVisit (match occurrences "jsonrpc" ms with [] => None | _ => Some (rp_jsonrpc r) end)
      (match rp_payload r with Success t => Some t | _ => None end)
      (match rp_payload r with PayloadError e => Some e | _ => None end) (Some (rp_id r))).
    rewrite visit_fields_spec, visit_end_spec, !slot_reads_start; cbn.
    destruct Hj as [(Oj & Ej)|(vj & Oj & Ej)], Hp as [(v & t & Or & Oe & D & E)|(v & e & Oe & Or & D & E)];
      rewrite Oj, Or, Oe, Oi, E; naive_solver.
Qed.

(** ** Round trips *)

(** What the peer reads: a message without the process local extensions. *)
Definition on_wire {T} (r : Response T) : Response T :=
  MkResponse (rp_jsonrpc r) (rp_payload r) (rp_id r) ext_new.

Definition payload_ok {T} (ser : T → Ser) (de : string → option T) (p : ResponsePayload T) : Prop :=
  match p with Success t => de (text_of (ser t)) = Some t | PayloadError e => eo_ok e end.

Lemma jsonrpc_decode v : faithful (TwoPointZero.serialize v) →
  de_option TwoPointZero.deserialize (text_of (TwoPointZero.serialize v)) = Some (Some v).
Proof.
  intros F. pose proof (TwoPointZero.version_decode _ F) as D. unfold de_option.
  change (TwoPointZero.serialize v) with (SerStr "2.0") in *.
  by rewrite (faithful_str _ F), D.
Qed.

Definition payload_map {A B} (f : A → B) (p : ResponsePayload A) : ResponsePayload B :=
  match p with Success t => Success (f t) | PayloadError e => PayloadError e end.
(** The peer may read the result as another type. *)
Lemma response_decode_map {T T'} (ser : T → Ser) (de : string → option T') (f : T → T') (r : Response T) :
  faithful (response_serialize ser r) → Id.in_range (rp_id r) →
  match rp_payload r with Success t => de (text_of (ser t)) = Some (f t) | PayloadError e => eo_ok e end →
  response_deserialize de (text_of (response_serialize ser r)) =
    Some (MkResponse (rp_jsonrpc r) (payload_map f (rp_payload r)) (rp_id r) ext_new).
Proof.
  intros F Hid Hp. unfold response_deserialize, response_serialize in *.
  destruct (faithful_map _ F) as [-> Fs]. clear F.
  destruct r as [j p i x]; cbn in *. unfold visit_map; cbn.
  destruct j as [v|], p as [t|e]; cbn in *; split_Forall; cbn in *.
  all: repeat change (field_of "jsonrpc") with FJsonrpc; repeat change (field_of "id") with FId;
    rewrite ?jsonrpc_decode, ?(Id.id_decode i) by done; cbn.
  all: repeat change (field_of "id") with FId; repeat change (field_of "result") with FResult;
    repeat change (field_of "error") with FError; rewrite ?(Id.id_decode i), ?Hp, ?eo_decode by done; cbn.
  all: repeat change (field_of "result") with FResult; repeat change (field_of "error") with FError.
  all: by rewrite ?Hp, ?eo_decode by done.
Qed.
Lemma response_decode {T} (ser : T → Ser) (de : string → option T) (r : Response T) :
  faithful (response_serialize ser r) → Id.in_range (rp_id r) →
  payload_ok ser de (rp_payload r) →
  response_deserialize de (text_of (response_serialize ser r)) = Some (on_wire r).
Proof.
  intros F Hid Hp. rewrite (response_decode_map ser de id) by done. unfold on_wire. by destruct (rp_payload r).
Qed.

Lemma request_decode (r : Request) :
  faithful (request_serialize r) → Id.in_range (rq_id r) →
  (∀ p, rq_params r = Some p → json_read p ≠ Some NNull) →
  request_deserialize (text_of (request_serialize r)) =
  Some (MkRequest (rq_jsonrpc r) (rq_id r) (rq_method r) (rq_params r) ext_new).
Proof.
  intros F Hid Hp. unfold request_serialize in *.
  destruct (faithful_map _ F) as [Er Fs]. clear F.
  unfold request_deserialize. rewrite Er. clear Er.
  destruct r as [v i m p x]; cbn in *. destruct p as [p|]; cbn in *; split_Forall; cbn in *.
  all: decode_struct; rewrite TwoPointZero.version_decode by done; cbn;
    rewrite (Id.id_decode i) by done; cbn; rewrite de_str_faithful by done; cbn.
  - pose proof (field_option_raw p) as E. cbn [field_option] in E. by rewrite E by auto.
  - done.
Qed.

Lemma subscription_response_decode {T} (ser : T → Ser) (de : string → option T)
    (n : Notification (SubscriptionPayload T)) :
  faithful (notification_serialize (subscription_payload_serialize "result" ser) n) →
  SubscriptionId.in_range (sp_subscription (nf_params n)) →
  de (text_of (ser (sp_value (nf_params n)))) = Some (sp_value (nf_params n)) →
  subscription_response_deserialize de
    (text_of (notification_serialize (subscription_payload_serialize "result" ser) n)) =
  Some (MkNotification (nf_jsonrpc n) (nf_method n) (nf_params n) ext_new).
Proof.
  intros F Hs Hd. destruct n as [v m [s t] x]; cbn in *.
  unfold notification_serialize in *; cbn [nf_jsonrpc nf_method nf_params] in *.
  destruct (faithful_map _ F) as [Er Fs]. clear F. split_Forall; cbn in *.
  unfold subscription_response_deserialize, notification_deserialize. rewrite Er. clear Er. cbn.
  decode_struct. rewrite TwoPointZero.version_decode by done; cbn. rewrite de_str_faithful by done; cbn.
  unfold subscription_payload_deserialize.
  match goal with F : faithful (subscription_payload_serialize _ _ _) |- _ =>
    unfold subscription_payload_serialize in F |- *; destruct (faithful_map _ F) as [Er Fs] end.
  rewrite Er. clear Er. split_Forall; cbn in *. decode_struct.
  rewrite SubscriptionId.sub_id_decode by done; cbn. by rewrite Hd.
Qed.

(** A response has no [method], a notification no [id]: neither is read as the
    other. *)
Lemma response_not_notification {T U} (ser : T → Ser) (de : option string → option U)
    (r : Response T) :
  faithful (response_serialize ser r) →
  notification_deserialize de (text_of (response_serialize ser r)) = None.
Proof.
  intros F. unfold notification_deserialize, response_serialize in *.
  destruct (faithful_map _ F) as [-> _]. cbn [mbind option_bind].
  destruct (struct_entries _ _ _) as [m|] eqn:Em; [|done]. cbn.
  destruct (m !! "jsonrpc" ≫= _); [|done]. cbn.
  rewrite (struct_entries_missing _ _ _ _ "method" Em); [done|].
  destruct r as [[] [] i x]; solve_fields.
Qed.

Lemma notification_not_response {T U} (ser : T → Ser) (de : string → option U)
    (n : Notification T) :
  faithful (notification_serialize ser n) →
  response_deserialize de (text_of (notification_serialize ser n)) = None.
Proof.
  intros F. unfold response_deserialize, notification_serialize in *.
  destruct (faithful_map _ F) as [-> _]. unfold visit_map.
  destruct (visit_fields _ _ _) as [st|] eqn:E; [|done]. cbn [mbind option_bind].
  apply visit_fields_spec in E as (_ & _ & _ & Hi & _).
  unfold slot_reads in Hi; cbn in Hi. unfold visit_end. by rewrite Hi.
Qed.

(** C29: what one side writes the other side reads: requests, responses and
    subscription notifications survive a trip over the wire (except for the
    extensions, which are process local), and a response is never read as a
    notification nor a notification as a response. *)
Theorem messages_roundtrip {T} (ser : T → Ser) (de : string → option T)
    (q : Request) (r : Response T) (n : Notification (SubscriptionPayload T)) :
  let sern := notification_serialize (subscription_payload_serialize "result" ser) in
  faithful (request_serialize q) → faithful (response_serialize ser r) → faithful (sern n) →
  Id.in_range (rq_id q) → (∀ p, rq_params q = Some p → json_read p ≠ Some NNull) →
  Id.in_range (rp_id r) → payload_ok ser de (rp_payload r) →
  SubscriptionId.in_range (sp_subscription (nf_params n)) →
  de (text_of (ser (sp_value (nf_params n)))) = Some (sp_value (nf_params n)) →
  request_deserialize (text_of (request_serialize q)) =
    Some (MkRequest (rq_jsonrpc q) (rq_id q) (rq_method q) (rq_params q) ext_new) ∧
  response_deserialize de (text_of (response_serialize ser r)) = Some (on_wire r) ∧
  subscription_response_deserialize de (text_of (sern n)) =
    Some (MkNotification (nf_jsonrpc n) (nf_method n) (nf_params n) ext_new) ∧
  subscription_response_deserialize de (text_of (response_serialize ser r)) = None ∧
  response_deserialize de (text_of (sern n)) = None.
Proof.
  intros. split_and!.
  - by apply request_decode.
  - by apply response_decode.
  - by apply subscription_response_decode.
  - by apply response_not_notification.
  - by apply notification_not_response.
Qed.
End ResponseProps.

Lemma messages_roundtrip_witness :
  request_deserialize (J := ref_json) (X := ref_ext)
    (q "{'jsonrpc':'2.0','id':7,'method':'add','params':[1]}") =
  Some (MkRequest (X := ref_ext) V2 (IdNumber 7) "add" (Some "[1]") (ext_new (HttpExtensions := ref_ext))).
Proof.
  destruct (@messages_roundtrip ref_json ref_ext string SerStr (@de_str ref_json)
    (MkRequest (X := ref_ext) V2 (IdNumber 7) "add" (Some "[1]") (ext_new (HttpExtensions := ref_ext)))
    (@response_new ref_ext _ (Success "ok") (IdNumber 1))
    (@notification_new ref_ext _ "sub" (MkSubscriptionPayload (SubNum 3) "x"))) as [Hq _];
    [first [intros p; cbn; intros [= <-]; vm_compute; done
           | vm_compute; repeat split; eauto; try lia; discriminate] ..|].
  exact Hq.
Defined.
