(* ===== verification/ParamsBuilder.v ===== *)
(** Building parameters: [core/src/params.rs] and [core/src/traits.rs].

    [ParamsBuilder] writes JSON text piece by piece into a byte buffer; an
    insertion that fails leaves in the buffer what the serialiser had written. *)
From stdpp Require Import base gmap strings list.
From Stdlib Require Import Ascii.
From S2P Require Import Prelude Serde RefJson.

Record ParamsBuilder : Type := MkParamsBuilder {
  pb_bytes : string;
  pb_start : ascii;
  pb_end : ascii
}.

Module ParamsBuilder.
Section Ops.
Context {J : SerdeJson}.
Definition new (start end_ : ascii) : ParamsBuilder := MkParamsBuilder "" start end_.
Definition positional : ParamsBuilder := new "["%char "]"%char.
Definition named : ParamsBuilder := new "{"%char "}"%char.

Definition push (b : ParamsBuilder) (s : string) : ParamsBuilder :=
  MkParamsBuilder (pb_bytes b +:+ s) (pb_start b) (pb_end b).
Definition maybe_initialize (b : ParamsBuilder) : ParamsBuilder :=
  if decide (pb_bytes b = "") then push b (String (pb_start b) "") else b.

(** [serde_json::to_writer(&mut self.bytes, v)?]. *)
Definition write (v : Ser) : SM ParamsBuilder unit unit := λ b,
  let '(t, ok) := events_text (json_events v) in
  (if ok then Ok () else Err (), push b t).
Definition push_m (s : string) : SM ParamsBuilder unit unit := λ b, (Ok (), push b s).

Definition insert_named (name : string) (value : Ser) : SM ParamsBuilder unit unit :=
  (λ b, (Ok (), maybe_initialize b)) ≫= λ _,
  write (SerStr name) ≫= λ _, push_m ":" ≫= λ _, write value ≫= λ _, push_m ",".
Definition insert (value : Ser) : SM ParamsBuilder unit unit :=
  (λ b, (Ok (), maybe_initialize b)) ≫= λ _,
  write value ≫= λ _, push_m ",".

(** Replaces the last byte when it is a comma, and appends otherwise. *)
Fixpoint close (e : ascii) (s : string) : string :=
  match s with
  | EmptyString => String e ""
  | String c EmptyString =>
    if decide (c = ","%char) then String e "" else String c (String e "")
  | String c s' => String c (close e s')
  end.
(** [RawValue::from_string(..).expect(..)]. *)
Definition build (b : ParamsBuilder) : Result Panicked (option string) :=
  if decide (pb_bytes b = "") then Ok None
  else
    let json_str := close (pb_end b) (pb_bytes b) in
    match de_raw json_str with Some raw => Ok (Some raw) | None => Err Panic end.
End Ops.
End ParamsBuilder.

(** [ArrayParams] and [ObjectParams] wrap the builder. *)
Module ArrayParams.
Section Ops.
Context {J : SerdeJson}.
Definition new : ParamsBuilder := ParamsBuilder.positional.
Definition insert : Ser → SM ParamsBuilder unit unit := ParamsBuilder.insert.
Definition to_rpc_params (b : ParamsBuilder) : Result Panicked (option string) :=
  ParamsBuilder.build b.
End Ops.
End ArrayParams.
Module ObjectParams.
Section Ops.
Context {J : SerdeJson}.
Definition new : ParamsBuilder := ParamsBuilder.named.
Definition insert : string → Ser → SM ParamsBuilder unit unit := ParamsBuilder.insert_named.
Definition to_rpc_params (b : ParamsBuilder) : Result Panicked (option string) :=
  ParamsBuilder.build b.
End Ops.
End ObjectParams.

(** [BatchRequestBuilder]: methods and parameters, in order of insertion. *)
Module BatchRequestBuilder.
Definition T : Type := list (string * option string).
Definition new : T := [].
(** [params] is the result of [value.to_rpc_params()]. *)
Definition insert {E} (method : string) (params : Result E (option string)) (b : T)
    : Result E T :=
  p ← params; Ok (b ++ [(method, p)]).
Definition build (b : T) : Result unit T :=
  match b with [] => Err () | _ => Ok b end.
End BatchRequestBuilder.

(** Slices, vectors, arrays and tuples serialise themselves; a [RawValue] is
    already parameters. *)
Definition to_rpc_params {J : SerdeJson} (v : Ser) : Result unit (option string) :=
  json ← ok_or (json_write v) (); Ok (Some json).
Definition raw_to_rpc_params (raw : string) : Result unit (option string) := Ok (Some raw).

(** ** The text the builder produces *)

Fixpoint insert_all {J : SerdeJson} (vs : list Ser) : SM ParamsBuilder unit unit :=
  match vs with
  | [] => mret ()
  | v :: vs' => ArrayParams.insert v ≫= λ _, insert_all vs'
  end.
(** [rpc_params!]: a value that cannot be serialised is a panic. *)
Definition rpc_params {J : SerdeJson} (vs : list Ser) : Result Panicked ParamsBuilder :=
  match insert_all vs ArrayParams.new with (Ok _, params) => Ok params | (Err _, _) => Err Panic end.
Fixpoint insert_all_named {J : SerdeJson} (vs : list (string * Ser)) : SM ParamsBuilder unit unit :=
  match vs with
  | [] => mret ()
  | v :: vs' => ObjectParams.insert v.1 v.2 ≫= λ _, insert_all_named vs'
  end.

Example params_of_values :
  snd (insert_all (J := ref_json) [SerInt 1; SerStr "a"] ArrayParams.new) =
    MkParamsBuilder (q "[1,'a',") "[" "]" ∧
  ArrayParams.to_rpc_params (J := ref_json) (MkParamsBuilder (q "[1,'a',") "[" "]") =
    Ok (Some (q "[1,'a']")) ∧
  ArrayParams.to_rpc_params (J := ref_json) ArrayParams.new = Ok None.
Proof. vm_compute. repeat split. Qed.

Section Props.
Context {J : SerdeJson}.

(** The chunks of a value that serialises are its text. *)
Definition writes (v : Ser) (t : string) : Prop :=
  json_write v = Some t ∧ events_text (json_events v) = (t, true).

Lemma insert_writes v t b : writes v t →
  ArrayParams.insert v b =
  (Ok (), ParamsBuilder.push (ParamsBuilder.maybe_initialize b) (t +:+ ",")).
Proof.
  intros [_ E]. unfold ArrayParams.insert, ParamsBuilder.insert, mbind, SM_bind.
  unfold ParamsBuilder.write, ParamsBuilder.push_m. rewrite E. cbn.
  unfold ParamsBuilder.push; cbn. by rewrite append_assoc'.
Qed.

Lemma insert_named_writes k v tk t b : writes (SerStr k) tk → writes v t →
  ObjectParams.insert k v b =
  (Ok (), ParamsBuilder.push (ParamsBuilder.maybe_initialize b) (tk +:+ ":" +:+ t +:+ ",")).
Proof.
  intros [_ Ek] [_ E]. unfold ObjectParams.insert, ParamsBuilder.insert_named, mbind, SM_bind.
  unfold ParamsBuilder.write, ParamsBuilder.push_m. rewrite Ek, E. cbn.
  unfold ParamsBuilder.push; cbn. by rewrite !append_assoc'.
Qed.

Lemma close_comma e s : ParamsBuilder.close e (s +:+ ",") = s +:+ String e "".
Proof.
  induction s as [|c s IH]; [done|]. destruct s as [|d s]; [done|].
  cbn [String.append] in *. change (ParamsBuilder.close e (String c (String d (s +:+ ","))))
    with (String c (ParamsBuilder.close e (String d (s +:+ ",")))). by rewrite IH.
Qed.

Lemma build_commas s e ts : ts ≠ [] →
  ParamsBuilder.build (MkParamsBuilder (String s "" +:+ commas ts) s e) =
  match de_raw (String s "" +:+ join ts +:+ String e "") with
  | Some raw => Ok (Some raw) | None => Err Panic end.
Proof.
  intros Hne. unfold ParamsBuilder.build; cbn [pb_bytes pb_end].
  rewrite decide_False by done. rewrite commas_join by done.
  change (String s "" +:+ (join ts +:+ ",")) with (String s (join ts) +:+ ",").
  by rewrite close_comma.
Qed.

Lemma push_nonempty b c s : pb_bytes (ParamsBuilder.push b (s +:+ String c "")) ≠ "".
Proof. cbn. apply append_ne_r, append_nonempty. Qed.

Lemma insert_all_spec vs ts b : Forall2 writes vs ts → pb_bytes b ≠ "" →
  insert_all vs b = (Ok (), ParamsBuilder.push b (commas ts)).
Proof.
  intros Hw. revert b. induction Hw as [|v t vs ts W _ IH]; intros b Hb; cbn [insert_all].
  - unfold mret, SM_ret, ParamsBuilder.push; cbn. rewrite append_nil_r. by destruct b.
  - unfold mbind, SM_bind. rewrite (insert_writes v t) by done.
    unfold ParamsBuilder.maybe_initialize. rewrite decide_False by done.
    rewrite IH by apply push_nonempty. unfold ParamsBuilder.push; cbn.
    by rewrite !append_assoc'.
Qed.

Lemma insert_all_named_spec vs ts b :
  Forall2 (λ kv t, ∃ tk tv, writes (SerStr kv.1) tk ∧ writes kv.2 tv ∧ t = tk +:+ ":" +:+ tv)
    vs ts →
  pb_bytes b ≠ "" →
  insert_all_named vs b = (Ok (), ParamsBuilder.push b (commas ts)).
Proof.
  intros Hw. revert b.
  induction Hw as [|[k v] t vs ts (tk & tv & Wk & Wv & ->) _ IH]; intros b Hb; cbn [insert_all_named].
  - unfold mret, SM_ret, ParamsBuilder.push; cbn. rewrite append_nil_r. by destruct b.
  - unfold mbind, SM_bind. rewrite (insert_named_writes k v tk tv) by done.
    unfold ParamsBuilder.maybe_initialize. rewrite decide_False by done.
    rewrite IH.
    + unfold ParamsBuilder.push; cbn. by append_norm.
    + cbn. do 2 apply append_ne_r. done.
Qed.
(** The text of the array, and of the object. *)
Definition named_writes (kv : string * Ser) (t : string) : Prop :=
  ∃ tk tv, writes (SerStr kv.1) tk ∧ writes kv.2 tv ∧ t = tk +:+ ":" +:+ tv.
Lemma array_params_text vs ts : Forall2 writes vs ts → ts ≠ [] → is_Some (json_read ("[" +:+ join ts +:+ "]")) →
  let '(r, b) := insert_all vs ArrayParams.new in
  r = Ok () ∧ ArrayParams.to_rpc_params b = Ok (Some ("[" +:+ join ts +:+ "]")).
Proof.
  intros Hv Hne [n Ha]. destruct Hv as [|v t vs ts W Hv]; [done|]. cbn [insert_all]. unfold mbind, SM_bind.
  rewrite (insert_writes v t) by done. rewrite (insert_all_spec vs ts) by (done || apply push_nonempty).
  split; [done|].
  pose proof (build_commas "["%char "]"%char (t :: ts) ltac:(done)) as B.
  unfold de_raw in B. rewrite Ha in B. rewrite <-B.
  unfold ArrayParams.to_rpc_params. f_equal. unfold ParamsBuilder.push; cbn. by append_norm.
Qed.
Lemma object_params_text nvs nts : Forall2 named_writes nvs nts → nts ≠ [] →
  is_Some (json_read ("{" +:+ join nts +:+ "}")) →
  let '(r, b) := insert_all_named nvs ObjectParams.new in
  r = Ok () ∧ ObjectParams.to_rpc_params b = Ok (Some ("{" +:+ join nts +:+ "}")).
Proof.
  intros Hn Hne [m Ho]. destruct Hn as [|[k v] t nvs nts (tk & tv & Wk & W & ->) Hn]; [done|].
  cbn [insert_all_named]. unfold mbind, SM_bind. rewrite (insert_named_writes k v tk tv) by done.
  rewrite (insert_all_named_spec nvs nts) by (done || (cbn; do 2 apply append_ne_r; done)).
  split; [done|].
  pose proof (build_commas "{"%char "}"%char ((tk +:+ ":" +:+ tv) :: nts) ltac:(done)) as B.
  unfold de_raw in B. rewrite Ho in B. rewrite <-B.
  unfold ObjectParams.to_rpc_params. f_equal. unfold ParamsBuilder.push; cbn. by append_norm.
Qed.
(** Inserting values one by one and building gives the text of the JSON array
    of the values (of the object, for named values), with the separators in the
    right places; without an insertion there are no parameters. *)
Theorem params_builder_text vs ts nvs nts :
  Forall2 writes vs ts → ts ≠ [] → Forall2 named_writes nvs nts → nts ≠ [] →
  is_Some (json_read ("[" +:+ join ts +:+ "]")) → is_Some (json_read ("{" +:+ join nts +:+ "}")) →
  (let '(r, b) := insert_all vs ArrayParams.new in
   r = Ok () ∧ ArrayParams.to_rpc_params b = Ok (Some ("[" +:+ join ts +:+ "]"))) ∧
  (let '(r, b) := insert_all_named nvs ObjectParams.new in
   r = Ok () ∧ ObjectParams.to_rpc_params b = Ok (Some ("{" +:+ join nts +:+ "}"))) ∧
  ArrayParams.to_rpc_params ArrayParams.new = Ok None ∧
  ObjectParams.to_rpc_params ObjectParams.new = Ok None.
Proof.
  intros Hv Hne Hn Hnne Ha Ho. split_and!; [by apply array_params_text|by apply object_params_text|done..].
Qed.

(** The parameters of [rpc_params!] are the text of the array of its arguments; it
    panics exactly when one of them cannot be serialised. *)
Theorem rpc_params_text vs :
  (rpc_params vs = Err Panic ↔ Exists (λ v, (events_text (json_events v)).2 = false) vs) ∧
  ∀ ts, Forall2 writes vs ts → ts ≠ [] → is_Some (json_read ("[" +:+ join ts +:+ "]")) →
    ∃ b, rpc_params vs = Ok b ∧ ArrayParams.to_rpc_params b = Ok (Some ("[" +:+ join ts +:+ "]")).
Proof.
  split.
  - unfold rpc_params. generalize ArrayParams.new. induction vs as [|v vs IH]; intros b; cbn [insert_all].
    { unfold mret, SM_ret. split; [done|]. by intros ?%Exists_nil. }
    rewrite Exists_cons. unfold mbind, SM_bind, ArrayParams.insert at 1, ParamsBuilder.insert, mbind, SM_bind, ParamsBuilder.write.
    destruct (events_text (json_events v)) as [t [|]] eqn:E; cbn.
    + rewrite <-IH. naive_solver.
    + naive_solver.
  - intros ts Hw Hne Hr. pose proof (array_params_text vs ts Hw Hne Hr) as H. unfold rpc_params.
    destruct (insert_all vs ArrayParams.new) as [r b]. destruct H as [-> H]. by exists b.
Qed.
End Props.

Lemma params_builder_text_witness :
  (let '(r, b) := insert_all (J := ref_json) [SerInt 1; SerStr "a"] ArrayParams.new in
   r = Ok () ∧ ArrayParams.to_rpc_params (J := ref_json) b = Ok (Some (q "[1,'a']"))).
Proof.
  refine (proj1 (@params_builder_text ref_json [SerInt 1; SerStr "a"] ["1"; q "'a'"]
    [("k", SerInt 2)] [q "'k':2"] _ _ _ _ _ _));
    [| discriminate | | discriminate | vm_compute; eexists; reflexivity ..].
  - do 2 (apply Forall2_cons; split; [split; vm_compute; reflexivity|]). apply Forall2_nil_2.
  - apply Forall2_cons; split; [|apply Forall2_nil_2].
    exists (q "'k'"), "2". repeat split; vm_compute; reflexivity.
Defined.

(** An insertion that fails half way leaves text behind that [build] panics on. *)
Example failed_insert_then_build :
  let '(r, b) := ArrayParams.insert (J := ref_json) (SerSeq [SerInt 1; SerFail]) ArrayParams.new in
  r = Err () ∧ ArrayParams.to_rpc_params (J := ref_json) b = Err Panic.
Proof. vm_compute. split; reflexivity. Qed.
