(* ===== verification/Middleware.v ===== *)
(** Batches as the RPC services see them: [core/src/middleware/mod.rs]. *)
From stdpp Require Import base gmap strings list.
From S2P Require Import Prelude Serde RefJson Errors Params Wire.

(** The marker types that travel in the extensions of a request or a batch. *)
Record IsSubscription : Type := MkIsSubscription {
  is_sub_id : Id;
  is_unsub_id : Id;
  is_unsub_method : string
}.
(** [Range<u64>]: start inclusive, end exclusive. *)
Notation Range := (N * N)%type (only parsing).
Record IsBatch : Type := MkIsBatch { ib_id_range : Range }.

Section Entries.
Context {J : SerdeJson} {X : HttpExtensions}.

(** [middleware::Notification]: the parameters are optional. *)
Definition MwNotification : Type := Notification (option string).
Definition mw_notification_serialize : MwNotification → Ser :=
  notification_serialize (λ p, match p with Some raw => SerRaw raw | None => SerNull end).
Definition mw_notification_deserialize : string → option MwNotification :=
  notification_deserialize (field_option de_raw).

Inductive BatchEntry : Type :=
| BeCall (req : Request)
| BeNotification (n : MwNotification).

(** [BatchEntryErr]: a response that carries an error. *)
Record BatchEntryErr : Type := MkBatchEntryErr { bee_response : Response unit }.

Record Batch : Type := MkBatch {
  b_inner : list (Result BatchEntryErr BatchEntry);
  b_extensions : option Extensions
}.

End Entries.

Module BatchEntry.
Section Ops.
Context {J : SerdeJson} {X : HttpExtensions}.
Definition extensions (e : BatchEntry) : Extensions :=
  match e with BeCall req => rq_extensions req | BeNotification n => nf_extensions n end.
Definition method_name (e : BatchEntry) : string :=
  match e with BeCall req => rq_method req | BeNotification n => nf_method n end.
Definition set_method_name (name : string) (e : BatchEntry) : BatchEntry :=
  match e with
  | BeCall req =>
    BeCall (MkRequest (rq_jsonrpc req) (rq_id req) name (rq_params req) (rq_extensions req))
  | BeNotification n =>
    BeNotification (MkNotification (nf_jsonrpc n) name (nf_params n) (nf_extensions n))
  end.
Definition params (e : BatchEntry) : option string :=
  match e with BeCall req => rq_params req | BeNotification n => nf_params n end.
Definition set_params (p : option string) (e : BatchEntry) : BatchEntry :=
  match e with
  | BeCall req =>
    BeCall (MkRequest (rq_jsonrpc req) (rq_id req) (rq_method req) p (rq_extensions req))
  | BeNotification n =>
    BeNotification (MkNotification (nf_jsonrpc n) (nf_method n) p (nf_extensions n))
  end.
Definition extensions_mut (f : Extensions → Extensions) (e : BatchEntry) : BatchEntry :=
  match e with
  | BeCall req =>
    BeCall (MkRequest (rq_jsonrpc req) (rq_id req) (rq_method req) (rq_params req) (f (rq_extensions req)))
  | BeNotification n =>
    BeNotification (MkNotification (nf_jsonrpc n) (nf_method n) (nf_params n) (f (nf_extensions n)))
  end.
Definition into_extensions (e : BatchEntry) : Extensions :=
  match e with BeCall req => rq_extensions req | BeNotification n => nf_extensions n end.
(** [#[serde(untagged)]]. *)
Definition serialize (e : BatchEntry) : Ser :=
  match e with
  | BeCall req => request_serialize req
  | BeNotification n => mw_notification_serialize n
  end.
End Ops.
End BatchEntry.

Module BatchEntryErr.
Section Ops.
Context {J : SerdeJson} {X : HttpExtensions}.
Definition new (id : Id) (err : ErrorObject) : BatchEntryErr :=
  MkBatchEntryErr (response_new (PayloadError err) id).
(** The other payload is [unreachable!]. *)
Definition into_parts (e : BatchEntryErr) : Result Panicked (ErrorObject * Id) :=
  match rp_payload (bee_response e) with
  | PayloadError err => Ok (err, rp_id (bee_response e))
  | Success _ => Err Panic
  end.
End Ops.
End BatchEntryErr.

Module Batch.
Section Ops.
Context {J : SerdeJson} {X : HttpExtensions}.
Definition from (entries : list (Result BatchEntryErr BatchEntry)) : Batch := MkBatch entries None.
Definition new : Batch := MkBatch [] None.
Definition push (req : Request) (b : Batch) : Batch :=
  let ext :=
    match b_extensions b with
    | Some ext => ext_extend ext (rq_extensions req)
    | None => rq_extensions req
    end in
  MkBatch (b_inner b ++ [Ok (BeCall req)]) (Some ext).
Definition len (b : Batch) : nat := length (b_inner b).
Definition is_empty (b : Batch) : bool := match b_inner b with [] => true | _ => false end.
Definition extensions_from_iter (b : Batch) : Extensions :=
  foldl (λ ext e, match e with
                  | Ok entry => ext_extend ext (BatchEntry.extensions entry)
                  | Err _ => ext
                  end) ext_new (b_inner b).
(** [extensions] and [extensions_mut] fill the cache first. *)
Definition extensions (b : Batch) : Extensions * Batch :=
  match b_extensions b with
  | Some ext => (ext, b)
  | None => let ext := extensions_from_iter b in (ext, MkBatch (b_inner b) (Some ext))
  end.
Definition extensions_mut (f : Extensions → Extensions) (b : Batch) : Batch :=
  let '(ext, b') := extensions b in MkBatch (b_inner b') (Some (f ext)).
Definition into_extensions (b : Batch) : Extensions :=
  match b_extensions b with Some ext => ext | None => extensions_from_iter b end.
Definition serialize (b : Batch) : Ser :=
  SerSeq ((λ e, match e with
                | Ok entry => BatchEntry.serialize entry
                | Err err => response_serialize (λ _, SerNull) (bee_response err)
                end) <$> b_inner b).
(** The iterators: the entries in order; [iter_mut] changes each in its place. *)
Definition iter (b : Batch) : list (Result BatchEntryErr BatchEntry) := b_inner b.
Definition into_iter (b : Batch) : list (Result BatchEntryErr BatchEntry) := b_inner b.
Definition iter_mut (f : Result BatchEntryErr BatchEntry → Result BatchEntryErr BatchEntry) (b : Batch) : Batch :=
  MkBatch (f <$> b_inner b) (b_extensions b).
(** [Display]: the text that is sent. *)
Definition fmt (b : Batch) : option string := json_write (serialize b).
End Ops.
End Batch.

(** [ResponseFuture]: a future, or a response that is there; [std::future::Ready]
    panics when it is polled again after it was done. *)
Module ResponseFuture.
Section Ops.
Context {F R : Type} (inner_poll : F → Poll R * F).
Definition T : Type := F + option R.
Definition future (f : F) : T := inl f.
Definition ready (response : R) : T := inr (Some response).
Definition poll (self : T) : Result Panicked (Poll R) * T :=
  match self with
  | inl f => let '(r, f) := inner_poll f in (Ok r, inl f)
  | inr (Some rp) => (Ok (Ready rp), inr None)
  | inr None => (Err Panic, inr None)
  end.
End Ops.
End ResponseFuture.

(** The extensions of a batch: what is set through the cache is what is taken out,
    and the entries keep theirs. *)
Lemma batch_extensions_set {J : SerdeJson} {X : HttpExtensions} (f : Extensions → Extensions) (b : Batch) :
  Batch.into_extensions (Batch.extensions_mut f b) = f (Batch.into_extensions b) ∧
  Batch.iter (Batch.extensions_mut f b) = Batch.iter b ∧
  fst (Batch.extensions b) = Batch.into_extensions b.
Proof. unfold Batch.extensions_mut, Batch.extensions, Batch.into_extensions. by destruct b as [? []]. Qed.
