(* ===== verification/ClientCore.v ===== *)
(** What the client and its background task share: [core/src/client/mod.rs] and
    [core/src/client/error.rs].

    Request identifiers, the messages from the client to the background task, and
    the channels between them.  The channels are those of [tokio]: a oneshot
    carries one reply, a subscription has a bounded queue.  They live in a [World]
    and are named by handles, so that both ends refer to the same channel. *)
From stdpp Require Import base gmap strings list.
From S2P Require Import Prelude Serde RefJson Errors Params Wire ParamsBuilder Middleware.

(** ** Errors *)
Inductive RegisterMethodError : Type :=
| AlreadyRegistered (method : string)
| SubscriptionNameConflict (method : string)
| MethodNotFoundErr (method : string).

(** Errors of the transport and of [serde_json] are represented by their text. *)
Inductive Error : Type :=
| ErrCall (e : ErrorObject)
| ErrTransport (e : string)
| ErrRestartNeeded (e : Error)
| ErrParseError (e : string)
| ErrInvalidSubscriptionId
| ErrInvalidRequestId (e : InvalidRequestId)
| ErrRequestTimeout
| ErrCustom (msg : string)
| ErrHttpNotImplemented
| ErrEmptyBatchRequest
| ErrRegisterMethod (e : RegisterMethodError)
| ErrServiceDisconnect.

(** [Display], derived.  That of an [ErrorObject] is its [Debug], which prints
    [serde_json]'s raw values: a parameter. *)
Module RegisterMethodError.
Definition fmt (e : RegisterMethodError) : string :=
  match e with
  | AlreadyRegistered m => "Method: " +:+ m +:+ " was already registered"
  | SubscriptionNameConflict m => "Cannot use the same method name for subscribe and unsubscribe, used: " +:+ m
  | MethodNotFoundErr m => "Method: " +:+ m +:+ " has not yet been registered"
  end.
End RegisterMethodError.
Module InvalidRequestId.
Definition fmt (e : InvalidRequestId) : string :=
  match e with
  | NotPendingRequest id => "request ID=" +:+ id +:+ " is not a pending call"
  | Occupied id => "request ID=" +:+ id +:+ " is already occupied by a pending call"
  | Invalid id => "request ID=" +:+ id +:+ " is invalid"
  end.
End InvalidRequestId.
Module Error.
Fixpoint fmt (object_fmt : ErrorObject → string) (e : Error) : string :=
  match e with
  | ErrCall e => object_fmt e
  | ErrTransport e => e
  | ErrRestartNeeded e => "The background task closed " +:+ fmt object_fmt e +:+ "; restart required"
  | ErrParseError e => "Parse error: " +:+ e
  | ErrInvalidSubscriptionId => "Invalid subscription ID"
  | ErrInvalidRequestId e => InvalidRequestId.fmt e
  | ErrRequestTimeout => "Request timeout"
  | ErrCustom msg => "Custom error: " +:+ msg
  | ErrHttpNotImplemented => "Not implemented"
  | ErrEmptyBatchRequest => "Empty batch request is not allowed"
  | ErrRegisterMethod e => RegisterMethodError.fmt e
  | ErrServiceDisconnect => "RPC service disconnected"
  end.
End Error.

(** ** Request identifiers *)
Inductive IdKind : Type := KString | KNumber.
Module IdKind.
Definition into_id (k : IdKind) (id : N) : Id :=
  match k with KNumber => IdNumber id | KString => IdStr (to_dec id) end.
End IdKind.

(** [AtomicUsize]: [fetch_add] returns the old value and wraps. *)
Record CurrentId : Type := MkCurrentId { cur : N }.
Module CurrentId.
Definition new : CurrentId := MkCurrentId 0.
Definition next (c : CurrentId) : N * CurrentId :=
  (cur c, MkCurrentId (wrapping_add usize_max (cur c) 1)).
End CurrentId.

Record RequestIdManager : Type := MkRequestIdManager {
  ri_current_id : CurrentId;
  ri_id_kind : IdKind
}.
Module RequestIdManager.
Definition new (k : IdKind) : RequestIdManager := MkRequestIdManager CurrentId.new k.
Definition next_request_id (m : RequestIdManager) : Id * RequestIdManager :=
  let '(n, c) := CurrentId.next (ri_current_id m) in
  (IdKind.into_id (ri_id_kind m) n, MkRequestIdManager c (ri_id_kind m)).
Definition as_id_kind (m : RequestIdManager) : IdKind := ri_id_kind m.
End RequestIdManager.

Definition generate_batch_id_range (id : Id) (len : N) : Result Error Range :=
  id_start ← map_err ErrInvalidRequestId (Id.try_parse_inner_as_number id);
  id_end ← ok_or (checked_add u64_max id_start len)
    (ErrCustom "BatchID range wrapped; restart the client or try again later");
  Ok (id_start, id_end).

(** The identifiers in a range, in order. *)
Definition range_ids (r : Range) : list N :=
  (λ k, (r.1 + N.of_nat k)%N) <$> seq 0 (N.to_nat (r.2 - r.1)).

(** ** Batch responses *)
Record BatchResponse (R : Type) : Type := MkBatchResponse {
  br_successful_calls : N;
  br_failed_calls : N;
  br_responses : list (Result ErrorObject R)
}.
Arguments MkBatchResponse {R} _ _ _.
Arguments br_successful_calls {R} _. Arguments br_failed_calls {R} _.
Arguments br_responses {R} _.

Module BatchResponse.
Definition new {R} (successful_calls : N) (responses : list (Result ErrorObject R))
    (failed_calls : N) : BatchResponse R :=
  MkBatchResponse successful_calls failed_calls responses.
Definition len {R} (b : BatchResponse R) : nat := length (br_responses b).
Definition is_empty {R} (b : BatchResponse R) : bool := bool_decide (len b = 0).
Definition num_successful_calls {R} (b : BatchResponse R) : N := br_successful_calls b.
Definition num_failed_calls {R} (b : BatchResponse R) : N := br_failed_calls b.
Definition iter {R} (b : BatchResponse R) : list (Result ErrorObject R) := br_responses b.
Definition into_iter {R} (b : BatchResponse R) : list (Result ErrorObject R) := br_responses b.
Definition errs {R} (l : list (Result ErrorObject R)) : list ErrorObject :=
  omap (λ r, match r with Err e => Some e | Ok _ => None end) l.
Definition oks {R} (l : list (Result ErrorObject R)) : list R := omap result_ok l.
(** [into_ok], and [ok] on references. *)
Definition into_ok {R} (b : BatchResponse R) : Result (list ErrorObject) (list R) :=
  if decide (0 < br_failed_calls b)%N then Err (errs (br_responses b))
  else Ok (oks (br_responses b)).
End BatchResponse.

(** ** Channels

    A subscription channel is a bounded [mpsc] queue with the [lagged] flag its
    two ends share. *)
Record Chan : Type := MkChan {
  ch_cap : nat;
  ch_queue : list string;
  ch_rx_closed : bool;
  ch_tx_closed : bool;
  ch_lagged : bool
}.

Inductive TrySubscriptionSendError : Type :=
| Closed
| TooSlow (m : string).

Module Chan.
(** [subscription_channel]; [mpsc::channel] panics on a capacity of zero, which
    [max_buffer_capacity_per_subscription] excludes. *)
Definition new (max_buf_size : nat) : Chan := MkChan max_buf_size [] false false false.
(** [SubscriptionSender::send]: [try_send], and the flag when the queue is full. *)
Definition send (msg : string) (c : Chan) : Result TrySubscriptionSendError unit * Chan :=
  let '(MkChan cap q rx tx lagged) := c in
  if rx then (Err Closed, c)
  else if decide (length q < cap) then (Ok (), MkChan cap (q ++ [msg]) rx tx lagged)
  else (Err (TooSlow msg), MkChan cap q rx tx true).
(** The receiver: [Some None] is the end of the stream, [None] is [Pending]. *)
Definition poll_next (c : Chan) : option (option string) * Chan :=
  let '(MkChan cap q rx tx lagged) := c in
  match q with
  | m :: q' => (Some (Some m), MkChan cap q' rx tx lagged)
  | [] => (if tx then Some None else None, c)
  end.
Definition drop_rx (c : Chan) : Chan := MkChan (ch_cap c) [] true (ch_tx_closed c) (ch_lagged c).
Definition drop_tx (c : Chan) : Chan :=
  MkChan (ch_cap c) (ch_queue c) (ch_rx_closed c) true (ch_lagged c).
Definition has_lagged (c : Chan) : bool := ch_lagged c.
End Chan.

(** [SubscriptionCloseReason] and [close_reason]; [is_closed] is the field of the
    [Subscription], set when the stream ended. *)
Inductive SubscriptionCloseReason : Type := ConnectionClosed | Lagged.
Definition close_reason (is_closed : bool) (c : Chan) : option SubscriptionCloseReason :=
  let lagged := Chan.has_lagged c in
  if negb is_closed && negb lagged then None
  else if lagged then Some Lagged else Some ConnectionClosed.

Inductive SubscriptionKind : Type :=
| KindSubscription (id : SubscriptionId)
| KindMethod (method : string).

Section Messages.
Context {J : SerdeJson} {X : HttpExtensions}.

(** [RawResponse], around a response whose result is a [RawValue]. *)
Definition RawResponse : Type := Response string.
Definition is_success (r : RawResponse) : bool :=
  match rp_payload r with Success _ => true | PayloadError _ => false end.
Definition as_error (r : RawResponse) : option ErrorObject :=
  match rp_payload r with PayloadError err => Some err | _ => None end.
Definition as_success (r : RawResponse) : option string :=
  match rp_payload r with Success res => Some res | _ => None end.
Definition raw_to_json (r : RawResponse) : option string :=
  json_write (response_serialize SerRaw r).

Definition raw_id (r : RawResponse) : Id := rp_id r.
Definition raw_into_inner (r : RawResponse) : Response string := r.

(** [SubscriptionResponse]: the stream is the handle of the channel. *)
Record SubscriptionResponse : Type := MkSubscriptionResponse {
  sr_sub_id : SubscriptionId;
  sr_stream : nat
}.
Record MiddlewareMethodResponse : Type := MkMiddlewareMethodResponse {
  mm_rp : RawResponse;
  mm_subscription : option SubscriptionResponse
}.
Definition mm_response (rp : RawResponse) : MiddlewareMethodResponse :=
  MkMiddlewareMethodResponse rp None.
Definition mm_subscription_response (rp : RawResponse) (s : SubscriptionResponse)
    : MiddlewareMethodResponse :=
  MkMiddlewareMethodResponse rp (Some s).
Definition mm_into_parts (r : MiddlewareMethodResponse) : RawResponse * option SubscriptionResponse :=
  (mm_rp r, mm_subscription r).
Definition mm_into_response (r : MiddlewareMethodResponse) : RawResponse := mm_rp r.
Definition mm_into_subscription (r : MiddlewareMethodResponse) : option SubscriptionResponse := mm_subscription r.

(** What a oneshot carries, by kind of request. *)
Inductive Reply : Type :=
| RCall (r : Result InvalidRequestId RawResponse)
| RBatch (r : Result InvalidRequestId (list RawResponse))
| RSub (r : Result Error (nat * SubscriptionId))
| RReg (r : Result Error (nat * string)).

Inductive Oneshot : Type :=
| Waiting
| RxDropped
| TxDropped
| Sent (r : Reply).

Record World : Type := MkWorld {
  w_oneshots : gmap nat Oneshot;
  w_chans : gmap nat Chan
}.

(** [oneshot::Sender::send]: the sender is consumed; [false] when the receiver is
    gone, and the value with it. *)
Definition os_send (h : nat) (r : Reply) (w : World) : bool * World :=
  match w_oneshots w !! h with
  | Some Waiting => (true, MkWorld (<[h := Sent r]> (w_oneshots w)) (w_chans w))
  | Some RxDropped => (false, MkWorld (<[h := TxDropped]> (w_oneshots w)) (w_chans w))
  | _ => (false, w)
  end.
(** A sender that goes out of scope. *)
Definition os_drop_tx (h : nat) (w : World) : World :=
  match w_oneshots w !! h with
  | Some Waiting | Some RxDropped =>
    MkWorld (<[h := TxDropped]> (w_oneshots w)) (w_chans w)
  | _ => w
  end.
(** The caller stops waiting (a timeout, or its future is dropped). *)
Definition os_drop_rx (h : nat) (w : World) : World :=
  match w_oneshots w !! h with
  | Some Waiting => MkWorld (<[h := RxDropped]> (w_oneshots w)) (w_chans w)
  | _ => w
  end.

Definition chan_update {A} (d : A) (f : Chan → A * Chan) (h : nat) (w : World) : A * World :=
  match w_chans w !! h with
  | Some c => let '(a, c') := f c in (a, MkWorld (w_oneshots w) (<[h := c']> (w_chans w)))
  | None => (d, w)
  end.
Definition chan_send (h : nat) (msg : string) : World → Result TrySubscriptionSendError unit * World :=
  chan_update (Err Closed) (Chan.send msg) h.
Definition chan_drop_tx (h : nat) (w : World) : World :=
  snd (chan_update () (λ c, ((), Chan.drop_tx c)) h w).
Definition chan_drop_rx (h : nat) (w : World) : World :=
  snd (chan_update () (λ c, ((), Chan.drop_rx c)) h w).
(** A fresh channel. *)
Definition chan_new (cap : nat) (w : World) : nat * World :=
  let h := fresh (dom (w_chans w)) in
  (h, MkWorld (w_oneshots w) (<[h := Chan.new cap]> (w_chans w))).

(** ** [FrontToBack] *)
Record BatchMessage : Type := MkBatchMessage {
  bm_raw : string;
  bm_ids : Range;
  bm_send_back : nat
}.
Record RequestMessage : Type := MkRequestMessage {
  rm_raw : string;
  rm_id : Id;
  rm_send_back : option nat
}.
Record SubscriptionMessage : Type := MkSubscriptionMessage {
  sm_raw : string;
  sm_subscribe_id : Id;
  sm_unsubscribe_id : Id;
  sm_unsubscribe_method : string;
  sm_send_back : nat
}.
Record RegisterNotificationMessage : Type := MkRegisterNotificationMessage {
  rn_method : string;
  rn_send_back : nat
}.
Inductive FrontToBack : Type :=
| FBatch (b : BatchMessage)
| FNotification (raw : string)
| FRequest (r : RequestMessage)
| FSubscribe (s : SubscriptionMessage)
| FRegisterNotification (r : RegisterNotificationMessage)
| FUnregisterNotification (method : string)
| FSubscriptionClosed (id : SubscriptionId).

(** [Subscription]: the sender to the background task is not part of the record. *)
Record Subscription : Type := MkSubscription {
  su_is_closed : bool;
  su_rx : nat;
  su_kind : option SubscriptionKind
}.
Definition subscription_new (rx : nat) (kind : SubscriptionKind) : Subscription :=
  MkSubscription false rx (Some kind).
(** [poll_next]: [None] is [Pending]; a message is decoded as the notification
    type, the end of the stream is remembered. *)
Definition subscription_poll_next {Notif} (de : string → Result string Notif)
    (s : Subscription) (w : World)
    : option (option (Result string Notif)) * Subscription * World :=
  let '(r, w') := chan_update (Some None) Chan.poll_next (su_rx s) w in
  match r with
  | None => (None, s, w')
  | Some (Some v) => (Some (Some (de v)), s, w')
  | Some None => (Some None, MkSubscription true (su_rx s) (su_kind s), w')
  end.

(** The message that [unsubscribe] and [drop] of a [Subscription] send; after
    [unsubscribe] took the kind, [drop] sends nothing. *)
Definition closing_message (kind : option SubscriptionKind) : option FrontToBack :=
  match kind with
  | Some (KindMethod notif) => Some (FUnregisterNotification notif)
  | Some (KindSubscription sub_id) => Some (FSubscriptionClosed sub_id)
  | None => None
  end.
End Messages.


(** A channel operation leaves the oneshots alone, and other channels. *)
Lemma chan_update_oneshots {X : HttpExtensions} {A} (d : A) f h (w : World) :
  w_oneshots (snd (chan_update d f h w)) = w_oneshots w.
Proof. unfold chan_update. destruct (w_chans w !! h); [|done]. by destruct (f _). Qed.
Lemma chan_drop_rx_oneshots {X : HttpExtensions} h (w : World) :
  w_oneshots (chan_drop_rx h w) = w_oneshots w.
Proof. apply chan_update_oneshots. Qed.
Lemma chan_drop_tx_oneshots {X : HttpExtensions} h (w : World) :
  w_oneshots (chan_drop_tx h w) = w_oneshots w.
Proof. apply chan_update_oneshots. Qed.

(** ** Properties of the identifiers *)

Lemma into_id_parse k n : (n <= u64_max)%N →
  Id.try_parse_inner_as_number (IdKind.into_id k n) = Ok n.
Proof.
  intros Hn. destruct k; cbn; [|done]. unfold parse_u64. by rewrite parse_to_dec.
Qed.

Lemma into_id_inj k n m : IdKind.into_id k n = IdKind.into_id k m → n = m.
Proof. destruct k; cbn; intros; simplify_eq; [by apply to_dec_inj|done]. Qed.

Lemma length_range_ids r : length (range_ids r) = N.to_nat (r.2 - r.1).
Proof. unfold range_ids. by rewrite length_fmap, length_seq. Qed.

Lemma range_ids_NoDup r : NoDup (range_ids r).
Proof. apply NoDup_fmap_2; [intros ???; lia|apply NoDup_seq]. Qed.

Lemma elem_of_range_ids r n : n ∈ range_ids r ↔ (r.1 <= n < r.2)%N.
Proof.
  unfold range_ids. rewrite list_elem_of_fmap. split.
  - intros (k & -> & [_ Hk]%elem_of_seq). cbn in Hk. lia.
  - intros. exists (N.to_nat (n - r.1)). split; [lia|]. apply elem_of_seq. lia.
Qed.

(** The identifiers of a batch are as many as there are calls, distinct, in
    the range of [u64], and each parses back to its number; the range is refused
    exactly when it would pass [u64::MAX] or the first identifier is no number. *)
Theorem batch_id_range (k : IdKind) (id : Id) (len : N) :
  match generate_batch_id_range id len with
  | Ok r =>
    Id.try_parse_inner_as_number id = Ok r.1 ∧ r.2 = (r.1 + len)%N ∧ (r.2 <= u64_max)%N ∧
    length (range_ids r) = N.to_nat len ∧
    NoDup (IdKind.into_id k <$> range_ids r) ∧
    Forall (λ n, Id.try_parse_inner_as_number (IdKind.into_id k n) = Ok n) (range_ids r)
  | Err (ErrInvalidRequestId e) => Id.try_parse_inner_as_number id = Err e
  | Err e =>
    e = ErrCustom "BatchID range wrapped; restart the client or try again later" ∧
    ∃ start, Id.try_parse_inner_as_number id = Ok start ∧ (u64_max < start + len)%N
  end.
Proof.
  unfold generate_batch_id_range. destruct (Id.try_parse_inner_as_number id) as [n|e] eqn:E; [|done].
  cbn. unfold checked_add. case_decide as Hd; cbn; [|split; [done|]; exists n; split; [done|lia]].
  split_and!; try done.
  - rewrite length_range_ids; cbn. lia.
  - apply NoDup_fmap_2; [intros ???; by eapply into_id_inj|apply range_ids_NoDup].
  - apply Forall_forall. intros m Hm%elem_of_range_ids. apply into_id_parse. cbn in Hm. lia.
Qed.

(** The identifiers of [n] calls in a row. *)
Fixpoint next_request_ids (n : nat) (m : RequestIdManager) : list Id :=
  match n with
  | O => []
  | S n' => let '(i, m') := RequestIdManager.next_request_id m in i :: next_request_ids n' m'
  end.

Lemma next_request_ids_spec n c k :
  next_request_ids n (MkRequestIdManager (MkCurrentId c) k) =
  (λ j, IdKind.into_id k
     (if decide (j = 0%nat) then c else (c + N.of_nat j) mod (usize_max + 1))%N) <$> seq 0 n.
Proof.
  revert c. induction n as [|n IH]; intros c; [done|]. cbn [next_request_ids seq fmap list_fmap].
  unfold RequestIdManager.next_request_id, CurrentId.next; cbn [ri_current_id ri_id_kind cur].
  f_equal. rewrite IH. rewrite <-fmap_S_seq, <-list_fmap_compose. apply list_fmap_ext.
  intros _ j _. cbn [compose]. rewrite (decide_False (P := S j = 0)) by done. f_equal.
  unfold wrapping_add. case_decide; subst; [done|].
  rewrite N.Div0.add_mod_idemp_l. f_equal. lia.
Qed.

(** A client never issues the same identifier twice among 2^64 calls in a
    row, whatever the counter was when it started. *)
Theorem request_ids_distinct (n : nat) (m : RequestIdManager) :
  (N.of_nat n <= usize_max + 1)%N → (cur (ri_current_id m) <= usize_max)%N →
  NoDup (next_request_ids n m) ∧ length (next_request_ids n m) = n.
Proof.
  intros Hn Hc. destruct m as [[c] k]; cbn in Hc. rewrite next_request_ids_spec.
  split; [|by rewrite length_fmap, length_seq].
  assert (∀ j, (if decide (j = 0%nat) then c else (c + N.of_nat j) mod (usize_max + 1)) =
    (c + N.of_nat j) mod (usize_max + 1))%N as Hs.
  { intros j. case_decide; [subst|done]. rewrite N.add_0_r, N.mod_small; lia. }
  apply NoDup_fmap_2_strong; [|apply NoDup_seq].
  intros i j [_ Hi]%elem_of_seq [_ Hj]%elem_of_seq E%into_id_inj.
  rewrite !Hs in E. unfold usize_max, u64_max in *. cbn in Hi, Hj.
  pose proof (N.div_mod (c + N.of_nat i) 18446744073709551616 ltac:(done)).
  pose proof (N.div_mod (c + N.of_nat j) 18446744073709551616 ltac:(done)).
  change (18446744073709551615 + 1)%N with 18446744073709551616%N in *.
  assert ((c + N.of_nat i) / 18446744073709551616 = (c + N.of_nat j) / 18446744073709551616 ∨
          (c + N.of_nat i) / 18446744073709551616 ≠ (c + N.of_nat j) / 18446744073709551616)%N
    as [Eq|Ne] by lia; [lia|].
  nia.
Qed.

Lemma request_ids_distinct_witness :
  NoDup (next_request_ids 3 (RequestIdManager.new KString)).
Proof.
  apply (request_ids_distinct 3 (RequestIdManager.new KString)); cbn; unfold usize_max, u64_max; lia.
Defined.
