(* ===== verification/ClientService.v ===== *)
(** What the frontends of the clients need from a service, [RpcServiceT] on the
    client's side: [core/src/middleware/mod.rs].

    A call is a future that runs until its deadline.  The frontends work on any
    service; the services of the HTTP client and of the async client, and the
    middleware a user puts around them, implement the interface. *)
From stdpp Require Import base gmap strings list.
From S2P Require Import Prelude Serde RefJson Errors Params Wire ParamsBuilder Middleware ClientCore.

(** A client stops with an error or a panic. *)
Inductive ClientStop : Type := CsErr (e : Error) | CsPanic.
(** A future that runs until its deadline. *)
Definition Fut (S A : Type) : Type := S → option (Result ClientStop A) * S.
#[export] Instance fut_ret {S} : MRet (Fut S) := λ _ a s, (Some (Ok a), s).
#[export] Instance fut_bind {S} : MBind (Fut S) := λ _ _ f m s,
  match m s with
  | (Some (Ok a), s') => f a s'
  | (Some (Err e), s') => (Some (Err e), s')
  | (None, s') => (None, s')
  end.
Definition fut_result {S A} (r : Result ClientStop A) : Fut S A := λ s, (Some r, s).
Definition fut_err {S A} (e : Error) : Fut S A := fut_result (Err (CsErr e)).
(** [run_future_until_timeout]. *)
Definition run_future_until_timeout {S A} (fut : Fut S A) : SM S ClientStop A := λ s,
  match fut s with
  | (Some r, s') => (r, s')
  | (None, s') => (Err (CsErr ErrRequestTimeout), s')
  end.

(** ** What the frontends need from a client service: [RpcServiceT] *)
Class ClientService {J : SerdeJson} {X : HttpExtensions} (S : Type) := {
  cs_call : Request → Fut S MiddlewareMethodResponse;
  cs_batch : Batch → Fut S (list RawResponse);
  cs_notification : MwNotification → Fut S Extensions
}.
