(* ===== verification/RequestManager.v ===== *)
(** The table of pending calls and subscriptions of the client:
    [core/src/client/async_client/manager.rs].

    Every operation is a function from the manager to its result and the manager
    after it; senders are handles of [ClientCore].  [wf] is the invariant that
    ties the reverse lookup to the requests. *)
From stdpp Require Import base gmap strings list.
From S2P Require Import Prelude Serde RefJson Errors Params Wire Middleware ClientCore.

(** The handle of a oneshot sender and of a subscription sender. *)
Notation PendingCallOneshot := (option nat) (only parsing).
Notation PendingBatchOneshot := nat (only parsing).
Notation PendingSubscriptionOneshot := nat (only parsing).
Notation SubscriptionSink := nat (only parsing).

Inductive Kind : Type :=
| PendingMethodCall (send_back : PendingCallOneshot)
| PendingSubscription (s : Id * PendingSubscriptionOneshot * string)
| Subscription (s : Id * SubscriptionSink * string).

Inductive RequestStatus : Type :=
| StPendingMethodCall
| StPendingSubscription
| StSubscription
| StInvalid.

Record RequestManager : Type := MkRequestManager {
  requests : gmap Id Kind;
  subscriptions : gmap SubscriptionId Id;
  batches : gmap (N * N) PendingBatchOneshot;
  notification_handlers : gmap string SubscriptionSink
}.

Module RequestManager.
Definition set_requests (f : gmap Id Kind → gmap Id Kind) (m : RequestManager) : RequestManager :=
  MkRequestManager (f (requests m)) (subscriptions m) (batches m) (notification_handlers m).
Definition set_subscriptions (f : gmap SubscriptionId Id → gmap SubscriptionId Id)
    (m : RequestManager) : RequestManager :=
  MkRequestManager (requests m) (f (subscriptions m)) (batches m) (notification_handlers m).

Definition new : RequestManager := MkRequestManager ∅ ∅ ∅ ∅.

Definition insert_pending_call (id : Id) (send_back : PendingCallOneshot) (m : RequestManager)
    : Result PendingCallOneshot unit * RequestManager :=
  if vacant (requests m) id
  then (Ok (), set_requests <[id := PendingMethodCall send_back]> m)
  else (Err send_back, m).

Definition insert_pending_batch (batch : Range) (send_back : PendingBatchOneshot)
    (m : RequestManager) : Result PendingBatchOneshot unit * RequestManager :=
  if vacant (batches m) batch
  then (Ok (), MkRequestManager (requests m) (subscriptions m)
                 (<[batch := send_back]> (batches m)) (notification_handlers m))
  else (Err send_back, m).

Definition insert_pending_subscription (sub_req_id unsub_req_id : Id)
    (send_back : PendingSubscriptionOneshot) (unsubscribe_method : string) (m : RequestManager)
    : Result PendingSubscriptionOneshot unit * RequestManager :=
  if vacant (requests m) sub_req_id && vacant (requests m) unsub_req_id
     && bool_decide (sub_req_id ≠ unsub_req_id)
  then
    let m := set_requests <[sub_req_id := PendingSubscription (unsub_req_id, send_back, unsubscribe_method)]> m in
    (Ok (), set_requests <[unsub_req_id := PendingMethodCall None]> m)
  else (Err send_back, m).

Definition insert_subscription (sub_req_id unsub_req_id : Id) (subscription_id : SubscriptionId)
    (send_back : SubscriptionSink) (unsubscribe_method : string) (m : RequestManager)
    : Result SubscriptionSink unit * RequestManager :=
  if vacant (requests m) sub_req_id && vacant (subscriptions m) subscription_id
  then
    let m := set_requests <[sub_req_id := Subscription (unsub_req_id, send_back, unsubscribe_method)]> m in
    (Ok (), set_subscriptions <[subscription_id := sub_req_id]> m)
  else (Err send_back, m).

Definition insert_notification_handler (method : string) (send_back : SubscriptionSink)
    (m : RequestManager) : Result RegisterMethodError unit * RequestManager :=
  if vacant (notification_handlers m) method
  then (Ok (), MkRequestManager (requests m) (subscriptions m) (batches m)
                 (<[method := send_back]> (notification_handlers m)))
  else (Err (AlreadyRegistered method), m).

Definition remove_notification_handler (method : string) (m : RequestManager)
    : option SubscriptionSink * RequestManager :=
  (notification_handlers m !! method,
   MkRequestManager (requests m) (subscriptions m) (batches m)
     (delete method (notification_handlers m))).

Definition complete_pending_subscription (request_id : Id) (m : RequestManager)
    : option (Id * PendingSubscriptionOneshot * string) * RequestManager :=
  match requests m !! request_id with
  | Some (PendingSubscription send_back) => (Some send_back, set_requests (delete request_id) m)
  | _ => (None, m)
  end.

Definition complete_pending_batch (batch : Range) (m : RequestManager)
    : option PendingBatchOneshot * RequestManager :=
  match batches m !! batch with
  | Some state =>
    (Some state, MkRequestManager (requests m) (subscriptions m) (delete batch (batches m))
                   (notification_handlers m))
  | None => (None, m)
  end.

Definition complete_pending_call (request_id : Id) (m : RequestManager)
    : option PendingCallOneshot * RequestManager :=
  match requests m !! request_id with
  | Some (PendingMethodCall send_back) => (Some send_back, set_requests (delete request_id) m)
  | _ => (None, m)
  end.

Definition remove_subscription (request_id : Id) (subscription_id : SubscriptionId)
    (m : RequestManager)
    : option (Id * SubscriptionSink * string * SubscriptionId) * RequestManager :=
  match requests m !! request_id, subscriptions m !! subscription_id with
  | Some (Subscription (unsub_req_id, send_back, unsub)), Some _ =>
    (Some (unsub_req_id, send_back, unsub, subscription_id),
     set_subscriptions (delete subscription_id) (set_requests (delete request_id) m))
  | _, _ => (None, m)
  end.

Definition unsubscribe (request_id : Id) (subscription_id : SubscriptionId)
    (m : RequestManager)
    : option (Id * SubscriptionSink * string * SubscriptionId) * RequestManager :=
  match requests m !! request_id, subscriptions m !! subscription_id with
  | Some (Subscription (unsub_req_id, send_back, unsub)), Some _ =>
    (Some (unsub_req_id, send_back, unsub, subscription_id),
     set_subscriptions (delete subscription_id)
       (set_requests <[request_id := PendingMethodCall None]> m))
  | _, _ => (None, m)
  end.

Definition request_status (id : Id) (m : RequestManager) : RequestStatus :=
  match requests m !! id with
  | None => StInvalid
  | Some (PendingMethodCall _) => StPendingMethodCall
  | Some (PendingSubscription _) => StPendingSubscription
  | Some (Subscription _) => StSubscription
  end.

Definition as_subscription_mut (request_id : Id) (m : RequestManager) : option SubscriptionSink :=
  match requests m !! request_id with
  | Some (Subscription (_, sink, _)) => Some sink
  | _ => None
  end.
Definition as_notification_handler_mut (method : string) (m : RequestManager)
    : option SubscriptionSink := notification_handlers m !! method.
Definition get_request_id_by_subscription_id (sub_id : SubscriptionId) (m : RequestManager)
    : option Id := Id.into_owned <$> subscriptions m !! sub_id.
End RequestManager.
Import RequestManager.

Lemma get_request_id_lookup s m : get_request_id_by_subscription_id s m = subscriptions m !! s.
Proof.
  unfold get_request_id_by_subscription_id. by destruct (subscriptions m !! s) as [[]|].
Qed.
Lemma vacant_None {K V} `{Countable K} (m : gmap K V) k : vacant m k = true ↔ m !! k = None.
Proof. unfold vacant. destruct (m !! k); naive_solver. Qed.
Lemma vacant_Some {K V} `{Countable K} (m : gmap K V) k : vacant m k = false ↔ is_Some (m !! k).
Proof. unfold vacant. destruct (m !! k); split; naive_solver. Qed.

(** ** The invariant

    An active subscription is found from its identifier and back: the reverse
    lookup is a bijection onto the requests that are subscriptions. *)
Record wf (m : RequestManager) : Prop := {
  wf_forward s r : subscriptions m !! s = Some r → ∃ k, requests m !! r = Some (Subscription k);
  wf_back r k : requests m !! r = Some (Subscription k) → ∃ s, subscriptions m !! s = Some r;
  wf_inj s1 s2 r : subscriptions m !! s1 = Some r → subscriptions m !! s2 = Some r → s1 = s2
}.

Definition not_subscription (k : Kind) : Prop :=
  match k with Subscription _ => False | _ => True end.

Lemma wf_new : wf new.
Proof. split; intros *; cbn; rewrite ?lookup_empty; naive_solver. Qed.

(** Requests that are no subscriptions come and go freely. *)
Lemma wf_insert_other m r k : wf m → not_subscription k →
  (∀ k', requests m !! r = Some k' → not_subscription k') →
  wf (set_requests <[r := k]> m).
Proof.
  intros W Hk Hr. split; cbn; intros *.
  - intros Hs. destruct (wf_forward _ W _ _ Hs) as [k' Hk'].
    destruct (decide (r = r0)) as [->|]; [by specialize (Hr _ Hk')|].
    exists k'. by rewrite lookup_insert_ne.
  - rewrite lookup_insert. case_decide; subst; [by intros [= ->]|apply (wf_back _ W)].
  - apply (wf_inj _ W).
Qed.

Lemma wf_delete_other m r : wf m →
  (∀ k', requests m !! r = Some k' → not_subscription k') → wf (set_requests (delete r) m).
Proof.
  intros W Hr. split; cbn; intros *.
  - intros Hs. destruct (wf_forward _ W _ _ Hs) as [k' Hk'].
    destruct (decide (r = r0)) as [->|]; [by specialize (Hr _ Hk')|].
    exists k'. by rewrite lookup_delete_ne.
  - rewrite lookup_delete. case_decide; [done|]. apply (wf_back _ W).
  - apply (wf_inj _ W).
Qed.

Lemma wf_batches m b : wf m →
  wf (MkRequestManager (requests m) (subscriptions m) b (notification_handlers m)).
Proof. intros []. by split. Qed.
Lemma wf_handlers m h : wf m →
  wf (MkRequestManager (requests m) (subscriptions m) (batches m) h).
Proof. intros []. by split. Qed.

Lemma insert_pending_call_wf i o m : wf m → wf (snd (insert_pending_call i o m)).
Proof.
  intros W. unfold insert_pending_call. destruct (vacant _ _) eqn:E; [|done].
  apply vacant_None in E. apply wf_insert_other; naive_solver.
Qed.
Lemma insert_pending_batch_wf b o m : wf m → wf (snd (insert_pending_batch b o m)).
Proof. intros W. unfold insert_pending_batch. case_match; [by apply wf_batches|done]. Qed.
Lemma insert_notification_handler_wf b o m : wf m → wf (snd (insert_notification_handler b o m)).
Proof. intros W. unfold insert_notification_handler. case_match; [by apply wf_handlers|done]. Qed.
Lemma remove_notification_handler_wf b m : wf m → wf (snd (remove_notification_handler b m)).
Proof. intros W. by apply wf_handlers. Qed.
Lemma complete_pending_batch_wf b m : wf m → wf (snd (complete_pending_batch b m)).
Proof. intros W. unfold complete_pending_batch. case_match; [by apply wf_batches|done]. Qed.

Lemma insert_pending_subscription_wf i u o n m :
  wf m → wf (snd (insert_pending_subscription i u o n m)).
Proof.
  intros W. unfold insert_pending_subscription.
  destruct (vacant _ i) eqn:Ei, (vacant _ u) eqn:Eu; try done. cbn.
  case_bool_decide; [|done]. apply vacant_None in Ei, Eu. cbn.
  apply wf_insert_other; [apply wf_insert_other; naive_solver|done|].
  cbn. rewrite lookup_insert_ne by done. naive_solver.
Qed.

Lemma insert_subscription_wf i u s o n m : wf m → wf (snd (insert_subscription i u s o n m)).
Proof.
  intros W. unfold insert_subscription.
  destruct (vacant _ i) eqn:Ei, (vacant _ s) eqn:Es; try done. cbn.
  apply vacant_None in Ei, Es. split; cbn; intros *.
  - rewrite !lookup_insert. repeat case_decide; subst; try naive_solver.
    intros Hs. destruct (wf_forward _ W _ _ Hs); naive_solver.
  - rewrite lookup_insert. case_decide; subst.
    + intros. exists s. by rewrite lookup_insert_eq.
    + intros Hk. destruct (wf_back _ W _ _ Hk) as [s' Hs']. exists s'.
      rewrite lookup_insert_ne; [done|]. naive_solver.
  - rewrite !lookup_insert. repeat case_decide; subst; try done.
    + intros [= ->] Hs. destruct (wf_forward _ W _ _ Hs); naive_solver.
    + intros Hs [= ->]. destruct (wf_forward _ W _ _ Hs); naive_solver.
    + apply (wf_inj _ W).
Qed.

Lemma complete_pending_subscription_wf i m : wf m → wf (snd (complete_pending_subscription i m)).
Proof.
  intros W. unfold complete_pending_subscription. repeat case_match; try done.
  apply wf_delete_other; naive_solver.
Qed.
Lemma complete_pending_call_wf i m : wf m → wf (snd (complete_pending_call i m)).
Proof.
  intros W. unfold complete_pending_call. repeat case_match; try done.
  apply wf_delete_other; naive_solver.
Qed.

(** The two ways to end a subscription keep the invariant when the caller found
    the request through the reverse lookup. *)
Lemma remove_subscription_wf r s m : wf m → subscriptions m !! s = Some r →
  wf (snd (remove_subscription r s m)) ∧ is_Some (fst (remove_subscription r s m)).
Proof.
  intros W Hs. destruct (wf_forward _ W _ _ Hs) as [[[u o] n] Hr].
  unfold remove_subscription. rewrite Hs, Hr. split; [|done]. split; cbn; intros *.
  - rewrite lookup_delete. case_decide; [done|]. intros Hs0.
    destruct (wf_forward _ W _ _ Hs0) as [k Hk]. exists k.
    rewrite lookup_delete_ne; [done|]. intros ->. by pose proof (wf_inj _ W _ _ _ Hs Hs0).
  - rewrite lookup_delete. case_decide; [done|]. intros Hk.
    destruct (wf_back _ W _ _ Hk) as [s' Hs']. exists s'. rewrite lookup_delete_ne; [done|].
    intros ->. congruence.
  - rewrite !lookup_delete. repeat case_decide; try done. apply (wf_inj _ W).
Qed.

Lemma unsubscribe_wf r s m : wf m → subscriptions m !! s = Some r →
  wf (snd (unsubscribe r s m)) ∧ is_Some (fst (unsubscribe r s m)).
Proof.
  intros W Hs. destruct (wf_forward _ W _ _ Hs) as [[[u o] n] Hr].
  unfold unsubscribe. rewrite Hs, Hr. split; [|done]. split; cbn; intros *.
  - rewrite lookup_delete. case_decide; [done|]. intros Hs0.
    destruct (wf_forward _ W _ _ Hs0) as [k Hk]. exists k.
    rewrite lookup_insert_ne; [done|]. intros ->. by pose proof (wf_inj _ W _ _ _ Hs Hs0).
  - rewrite lookup_insert. case_decide; [done|]. intros Hk.
    destruct (wf_back _ W _ _ Hk) as [s' Hs']. exists s'. rewrite lookup_delete_ne; [done|].
    intros ->. congruence.
  - rewrite !lookup_delete. repeat case_decide; try done. apply (wf_inj _ W).
Qed.
#[export] Hint Resolve wf_new insert_pending_call_wf insert_pending_batch_wf
  insert_notification_handler_wf remove_notification_handler_wf complete_pending_batch_wf
  insert_pending_subscription_wf insert_subscription_wf complete_pending_subscription_wf
  complete_pending_call_wf : core.
