(* ===== verification/AsyncClient.v ===== *)
(** The background task of the client: [core/src/client/async_client/helpers.rs]
    and the handlers of [core/src/client/async_client/mod.rs].

    The state [Back] is the request manager, the channels, and the state of the
    transport.  A handler is a function in [SM]: it may stop with an error, and
    what it changed before that stays. *)
From stdpp Require Import base gmap strings list.
From Stdlib Require Import Ascii.
From S2P Require Import Prelude Serde RefJson Errors Params Wire ParamsBuilder Middleware ClientCore.
From S2P Require Import RequestManager.
Import RequestManager.

(** The two ways a handler stops: a panic, or an error that ends the task. *)
Inductive Failure : Type :=
| FPanic
| FError (e : Error).

(** [format!("{:?}", range)]. *)
Definition fmt_range (r : Range) : string := to_dec r.1 +:+ ".." +:+ to_dec r.2.

Section AsyncClient.
Context {J : SerdeJson} {X : HttpExtensions}.
(** [TransportSenderT::send]: the outcome may depend on all it was given before. *)
Context {Tr : Type} (tr_send : string → Tr → Result string unit * Tr).

Record Back : Type := MkBack {
  bk_manager : RequestManager;
  bk_world : World;
  bk_tr : Tr
}.

(** An operation of the manager, and one of the channels, on the whole state. *)
Definition on_manager {E A} (f : RequestManager → A * RequestManager) : SM Back E A := λ b,
  let '(a, m) := f (bk_manager b) in (Ok a, MkBack m (bk_world b) (bk_tr b)).
Definition on_world {E A} (f : World → A * World) : SM Back E A := λ b,
  let '(a, w) := f (bk_world b) in (Ok a, MkBack (bk_manager b) w (bk_tr b)).
Definition ask {E A} (f : RequestManager → A) : SM Back E A := λ b, (Ok (f (bk_manager b)), b).
Definition effect {E} (f : World → World) : SM Back E unit := on_world (λ w, ((), f w)).
Definition send_raw (raw : string) : SM Back Failure unit := λ b,
  let '(r, t) := tr_send raw (bk_tr b) in
  (map_err (λ e, FError (ErrTransport e)) r, MkBack (bk_manager b) (bk_world b) t).

Definition not_pending (s : string) : InvalidRequestId := NotPendingRequest s.

(** *** Batch responses *)

(** What fills the places no response has been received for. *)
Definition placeholder : RawResponse :=
  response_new (PayloadError (ErrorObject.borrowed 0 "" None)) IdNull.

(** The loop over the received responses: the response with identifier [start + p]
    goes to place [p]. *)
Fixpoint fill_responses (start_idx : N) (rps responses : list RawResponse)
    : Result InvalidRequestId (list RawResponse) :=
  match rps with
  | [] => Ok responses
  | rp :: rps' =>
    id ← Id.try_parse_inner_as_number (rp_id rp);
    let maybe_elem :=
      p ← checked_sub id start_idx;
      _ ← responses !! N.to_nat p; Some (N.to_nat p) in
    match maybe_elem with
    | Some p => fill_responses start_idx rps' (<[p := rp]> responses)
    | None => Err (not_pending (Id.fmt (rp_id rp)))
    end
  end.

Definition process_batch_response (rps : list RawResponse) (range : Range)
    : SM Back InvalidRequestId unit :=
  let start_idx := range.1 in
  state ← on_manager (complete_pending_batch range);
  match state with
  | None => sm_throw (not_pending (fmt_range range))
  | Some send_back =>
    let responses := replicate (N.to_nat (range.2 - range.1)) placeholder in
    match fill_responses start_idx rps responses with
    | Err e => effect (os_drop_tx send_back) ≫= λ _, sm_throw e
    | Ok responses =>
      _ ← on_world (os_send send_back (RBatch (Ok responses)));
      mret ()
    end
  end.

(** *** Subscriptions and notifications *)

Definition process_subscription_response {E} (response : Notification (SubscriptionPayload string))
    : SM Back E (option SubscriptionId) :=
  let sub_id := SubscriptionId.into_owned (sp_subscription (nf_params response)) in
  o ← ask (get_request_id_by_subscription_id sub_id);
  match o with
  | None => mret None
  | Some request_id =>
    sink ← ask (as_subscription_mut request_id);
    match sink with
    | Some send_back_sink =>
      r ← on_world (chan_send send_back_sink (sp_value (nf_params response)));
      match r with
      | Ok _ => mret None
      | Err Closed => mret (Some sub_id)
      | Err (TooSlow _) => mret (Some sub_id)
      end
    | None => mret None
    end
  end.

Definition process_subscription_close_response (response : Notification (SubscriptionPayload string))
    : SM Back Failure unit :=
  let sub_id := SubscriptionId.into_owned (sp_subscription (nf_params response)) in
  o ← ask (get_request_id_by_subscription_id sub_id);
  match o with
  | Some request_id =>
    r ← on_manager (remove_subscription request_id sub_id);
    match r with
    | Some (_, sink, _, _) => effect (chan_drop_tx sink)
    | None => sm_throw FPanic
    end
  | None => mret ()
  end.

(** The handler is dropped when it cannot take the message. *)
Definition drop_handler {E} (method : string) : SM Back E unit :=
  o ← on_manager (remove_notification_handler method);
  match o with Some sink => effect (chan_drop_tx sink) | None => mret () end.

(** [Box<RawValue>::default()] is the text [null]. *)
Definition process_notification {E} (notif : MwNotification) : SM Back E unit :=
  sink ← ask (as_notification_handler_mut (nf_method notif));
  match sink with
  | Some send_back_sink =>
    r ← on_world (chan_send send_back_sink (default "null" (nf_params notif)));
    match r with
    | Ok _ => mret ()
    | Err Closed => drop_handler (nf_method notif)
    | Err (TooSlow _) => drop_handler (nf_method notif)
    end
  | None => mret ()
  end.

(** [None] is the early return of the [?] on an option.  The manager has already
    dropped the subscription by then. *)
Definition unsubscribe_request (unsub_req_id : Id) (unsub : string) (sub_id : SubscriptionId)
    : Result Panicked (option RequestMessage) :=
  match ArrayParams.insert (SubscriptionId.serialize sub_id) ArrayParams.new with
  | (Err _, _) => Ok None
  | (Ok _, b) =>
    params ← ArrayParams.to_rpc_params b;
    Ok (raw ← json_write (request_serialize (MkRequest V2 unsub_req_id unsub params ext_new));
        Some (MkRequestMessage raw unsub_req_id None))
  end.
Definition build_unsubscribe_message (sub_req_id : Id) (sub_id : SubscriptionId)
    : SM Back Failure (option RequestMessage) :=
  o ← on_manager (unsubscribe sub_req_id sub_id);
  match o with
  | None => mret None
  | Some (unsub_req_id, sink, unsub, sub_id) =>
    effect (chan_drop_tx sink) ≫= λ _,
    sm_result (map_err (λ _, FPanic) (unsubscribe_request unsub_req_id unsub sub_id))
  end.

(** *** Responses to calls *)

Definition reply {E} (h : nat) (r : Reply) : SM Back E bool := on_world (os_send h r).
Definition bad_request {A} (e : InvalidRequestId) : SM Back Failure A :=
  sm_throw (FError (ErrInvalidRequestId e)).

Definition process_single_response (response : RawResponse) (max_capacity_per_subscription : nat)
    : SM Back Failure (option RequestMessage) :=
  let response_id := Id.into_owned (rp_id response) in
  status ← ask (request_status response_id);
  match status with
  | StPendingMethodCall =>
    o ← on_manager (complete_pending_call response_id);
    match o with
    | Some (Some send) => _ ← reply send (RCall (Ok response)); mret None
    | Some None => mret None
    | None => bad_request (not_pending (Id.fmt response_id))
    end
  | StPendingSubscription =>
    o ← on_manager (complete_pending_subscription response_id);
    match o with
    | None => bad_request (not_pending (Id.fmt response_id))
    | Some (unsub_id, send_back_oneshot, unsubscribe_method) =>
      match success_try_from response with
      | Err e => _ ← reply send_back_oneshot (RSub (Err (ErrCall e))); mret None
      | Ok s =>
        match SubscriptionId.deserialize (sc_result s) with
        | None =>
          _ ← reply send_back_oneshot (RSub (Err (ErrParseError (json_errmsg (sc_result s)))));
          mret None
        | Some sub_id =>
          subscribe ← on_world (chan_new max_capacity_per_subscription);
          r ← on_manager (insert_subscription response_id unsub_id sub_id subscribe unsubscribe_method);
          match r with
          | Ok _ =>
            reply send_back_oneshot (RSub (Ok (subscribe, sub_id))) ≫= λ ok : bool,
            if ok then mret None
            else effect (chan_drop_rx subscribe) ≫= λ _, build_unsubscribe_message response_id sub_id
          | Err sink =>
            effect (chan_drop_tx sink) ≫= λ _,
            reply send_back_oneshot (RSub (Err ErrInvalidSubscriptionId)) ≫= λ _,
            effect (chan_drop_rx subscribe) ≫= λ _, mret None
          end
        end
      end
    end
  | StSubscription | StInvalid => bad_request (not_pending (Id.fmt response_id))
  end.

(** *** [handle_backend_messages] *)

Inductive ReceivedMessage : Type :=
| Text (raw : string)
| Bytes (raw : string)
| Pong.

(** The text that does not parse is quoted, compact when it is JSON. *)
Definition unparse_error (raw : string) : Error :=
  let json_str := match json_compact raw with Some json => json | None => json_errmsg raw end in
  ErrCustom ("Unparseable message: " +:+ json_str).

Fixpoint first_non_whitespace (raw : string) : option ascii :=
  match raw with
  | EmptyString => None
  | String c raw' => if is_ascii_whitespace c then first_non_whitespace raw' else Some c
  end.

Definition recv_single (raw : string) (max_cap : nat) : SM Back Failure (list FrontToBack) :=
  match response_deserialize de_raw raw with
  | Some single =>
    maybe_unsub ← process_single_response (response_into_owned single) max_cap;
    match maybe_unsub with
    | Some unsub => mret [FRequest unsub]
    | None => mret []
    end
  | None =>
    match subscription_response_deserialize de_raw raw with
    | Some response =>
      o ← process_subscription_response response;
      match o with
      | Some sub_id => mret [FSubscriptionClosed sub_id]
      | None => mret []
      end
    | None =>
      match subscription_error_deserialize de_raw raw with
      | Some response => process_subscription_close_response response ≫= λ _, mret []
      | None =>
        match mw_notification_deserialize raw with
        | Some notif => process_notification notif ≫= λ _, mret []
        | None => sm_throw (FError (unparse_error raw))
        end
      end
    end
  end.

(** The local variables of the loop over a batch. *)
Record BatchScan : Type := MkBatchScan {
  bs_batch : list RawResponse;
  bs_range : option Range;
  bs_got_notif : bool;
  bs_messages : list FrontToBack
}.

Definition widen (range : option Range) (id : N) : Range :=
  let r := default (id, id) range in
  let r := if decide (id < r.1)%N then (id, r.2) else r in
  if decide (r.2 < id)%N then (r.1, id) else r.

(** One element [r] of the batch [raw]. *)
Definition scan_element (raw r : string) (s : BatchScan) : SM Back Failure BatchScan :=
  let '(MkBatchScan batch range got_notif messages) := s in
  match response_deserialize de_raw r with
  | Some response =>
    match Id.try_parse_inner_as_number (rp_id response) with
    | Err e => bad_request e
    | Ok id =>
      mret (MkBatchScan (batch ++ [response_into_owned response]) (Some (widen range id))
              got_notif messages)
    end
  | None =>
    match subscription_response_deserialize de_raw r with
    | Some response =>
      o ← process_subscription_response response;
      let messages :=
        match o with Some sub_id => messages ++ [FSubscriptionClosed sub_id] | None => messages end in
      mret (MkBatchScan batch range true messages)
    | None =>
      match subscription_error_deserialize de_raw raw with
      | Some response =>
        process_subscription_close_response response ≫= λ _,
        mret (MkBatchScan batch range true messages)
      | None =>
        match mw_notification_deserialize r with
        | Some notif =>
          process_notification notif ≫= λ _, mret (MkBatchScan batch range true messages)
        | None => sm_throw (FError (unparse_error raw))
        end
      end
    end
  end.
Fixpoint scan_batch (raw : string) (rs : list string) (s : BatchScan) : SM Back Failure BatchScan :=
  match rs with
  | [] => mret s
  | r :: rs' => s' ← scan_element raw r s; scan_batch raw rs' s'
  end.

(** The end of the range is moved past the largest identifier ([u64], release
    arithmetic). *)
Definition recv_batch (raw : string) : SM Back Failure (list FrontToBack) :=
  match json_read raw with
  | Some (NArr raw_responses) =>
    s ← scan_batch raw raw_responses (MkBatchScan [] None false []);
    match bs_range s with
    | Some range =>
      let range := (range.1, wrapping_add u64_max range.2 1) in
      _ ← sm_catch (process_batch_response (bs_batch s) range) (λ e, FError (ErrInvalidRequestId e));
      mret (bs_messages s)
    | None =>
      if bs_got_notif s then mret (bs_messages s) else sm_throw (FError ErrEmptyBatchRequest)
    end
  | _ => sm_throw (FError (unparse_error raw))
  end.

Definition handle_recv_message (raw : string) (max_cap : nat) : SM Back Failure (list FrontToBack) :=
  match first_non_whitespace raw with
  | Some c =>
    if decide (c = "{"%char) then recv_single raw max_cap
    else if decide (c = "["%char) then recv_batch raw
    else sm_throw (FError (unparse_error raw))
  | None => sm_throw (FError (unparse_error raw))
  end.

(** The transport's receiver gives a message, an error, or nothing any more. *)
Definition handle_backend_messages (message : option (Result string ReceivedMessage)) (max_cap : nat)
    : SM Back Failure (list FrontToBack) :=
  match message with
  | Some (Ok Pong) => mret []
  | Some (Ok (Bytes raw)) => handle_recv_message raw max_cap
  | Some (Ok (Text raw)) => handle_recv_message raw max_cap
  | Some (Err e) => sm_throw (FError (ErrTransport e))
  | None => sm_throw (FError (ErrCustom "TransportReceiver dropped"))
  end.

(** *** [handle_frontend_messages] *)

Definition stop_subscription (unsub : RequestMessage) : SM Back Failure unit :=
  send_raw (rm_raw unsub).

Definition handle_frontend_messages (message : FrontToBack) (max_cap : nat)
    : SM Back Failure unit :=
  match message with
  | FBatch batch =>
    r ← on_manager (insert_pending_batch (bm_ids batch) (bm_send_back batch));
    match r with
    | Err send_back =>
      _ ← reply send_back (RBatch (Err (Occupied (fmt_range (bm_ids batch))))); mret ()
    | Ok _ => send_raw (bm_raw batch)
    end
  | FNotification notif => send_raw notif
  | FRequest request =>
    r ← on_manager (insert_pending_call (rm_id request) (rm_send_back request));
    match r with
    | Err (Some s) => _ ← reply s (RCall (Err (Occupied (Id.fmt (rm_id request))))); mret ()
    | Err None => mret ()
    | Ok _ => send_raw (rm_raw request)
    end
  | FSubscribe sub =>
    r ← on_manager (insert_pending_subscription (sm_subscribe_id sub) (sm_unsubscribe_id sub)
                      (sm_send_back sub) (sm_unsubscribe_method sub));
    match r with
    | Err send_back =>
      let msg := "sub_id=" +:+ Id.fmt (sm_subscribe_id sub) +:+ ":req_id=" +:+
                 Id.fmt (sm_unsubscribe_id sub) in
      _ ← reply send_back (RSub (Err (ErrInvalidRequestId (Occupied msg)))); mret ()
    | Ok _ => send_raw (sm_raw sub)
    end
  | FSubscriptionClosed sub_id =>
    o ← ask (get_request_id_by_subscription_id sub_id);
    match o with
    | Some req_id =>
      maybe_unsub ← build_unsubscribe_message req_id sub_id;
      match maybe_unsub with Some unsub => stop_subscription unsub | None => mret () end
    | None => mret ()
    end
  | FRegisterNotification reg =>
    subscribe ← on_world (chan_new max_cap);
    r ← on_manager (insert_notification_handler (rn_method reg) subscribe);
    match r with
    | Ok _ =>
      reply (rn_send_back reg) (RReg (Ok (subscribe, rn_method reg))) ≫= λ ok : bool,
      if ok then mret () else effect (chan_drop_rx subscribe)
    | Err _ =>
      effect (chan_drop_tx subscribe) ≫= λ _,
      reply (rn_send_back reg) (RReg (Err (ErrRegisterMethod (AlreadyRegistered (rn_method reg)))))
        ≫= λ _, effect (chan_drop_rx subscribe)
    end
  | FUnregisterNotification method => drop_handler method
  end.
End AsyncClient.
Arguments MkBack {X Tr} _ _ _.
Arguments bk_manager {X Tr} _. Arguments bk_world {X Tr} _. Arguments bk_tr {X Tr} _.

(** The transport of the tests: it accepts everything and remembers it. *)
Definition log_send (raw : string) (t : list string) : Result string unit * list string :=
  (Ok (), t ++ [raw]).
