(* ===== verification/AsyncClientProofs.v ===== *)
(** What the background task of the client guarantees. *)
From stdpp Require Import base gmap strings list.
From Stdlib Require Import Ascii.
From S2P Require Import Prelude Serde RefJson Errors Params Wire ParamsBuilder Middleware ClientCore.
From S2P Require Import RequestManager AsyncClient.
Import RequestManager.

Section Events.
Context {J : SerdeJson} {X : HttpExtensions}.
Context {Tr : Type} (tr_send : string → Tr → Result string unit * Tr).
Notation Back := (Back (X := X) (Tr := Tr)).

(** ** The task and its environment as a transition system *)

Inductive Event : Type :=
| EvFront (m : FrontToBack)
| EvBack (m : option (Result string ReceivedMessage))
| EvPoll (h : nat)
| EvDropStream (h : nat)
| EvGiveUp (h : nat).

(** A step of the background task, or one of the holders of the other ends of the
    channels: a subscription is polled or dropped, a caller gives up. *)
Definition run_event (max_cap : nat) (e : Event) (b : Back) : option Failure * Back :=
  match e with
  | EvFront m =>
    let '(r, b') := handle_frontend_messages tr_send m max_cap b in
    (match r with Ok _ => None | Err f => Some f end, b')
  | EvBack m =>
    let '(r, b') := handle_backend_messages m max_cap b in
    (match r with Ok _ => None | Err f => Some f end, b')
  | EvPoll h =>
    (None, MkBack (bk_manager b) (snd (chan_update (Some None) Chan.poll_next h (bk_world b))) (bk_tr b))
  | EvDropStream h => (None, MkBack (bk_manager b) (chan_drop_rx h (bk_world b)) (bk_tr b))
  | EvGiveUp h => (None, MkBack (bk_manager b) (os_drop_rx h (bk_world b)) (bk_tr b))
  end.

(** The states reachable from a fresh client, with the failure of the last step;
    a failure ends the run. *)
Inductive reachable (max_cap : nat) : option Failure → Back → Prop :=
| reach_init w t : reachable max_cap None (MkBack RequestManager.new w t)
| reach_step b e : reachable max_cap None b →
    reachable max_cap (fst (run_event max_cap e b)) (snd (run_event max_cap e b)).

(** ** The invariant along a run *)

Definition inv (b : Back) : Prop := wf (bk_manager b).
(** What an early return leaves. *)
Definition err_inv (e : Failure) (b : Back) : Prop := e ≠ FPanic ∧ inv b.
Definition err_any {E} (_ : E) (b : Back) : Prop := inv b.

(** [serde_json] reads back the array of one subscription identifier. *)
Definition sub_ids_read : Prop := ∀ s t,
  events_text (json_events (SubscriptionId.serialize s)) = (t, true) →
  is_Some (json_read ("[" +:+ t +:+ "]")).

Lemma triple_on_manager {E A} (P : Back → Prop) (f : RequestManager → A * RequestManager)
    (Q : A → Back → Prop) (R : E → Back → Prop) :
  (∀ b, P b → Q (fst (f (bk_manager b))) (MkBack (snd (f (bk_manager b))) (bk_world b) (bk_tr b))) →
  triple P (on_manager f) Q R.
Proof. intros HQ b Hb. unfold on_manager. specialize (HQ b Hb). by destruct (f _). Qed.

Lemma triple_on_world {E A} (P : RequestManager → Prop) (f : World → A * World)
    (R : E → Back → Prop) :
  triple (λ b, P (bk_manager b)) (on_world f) (λ _ b, P (bk_manager b)) R.
Proof. intros b Hb. unfold on_world. by destruct (f _). Qed.
Lemma triple_effect {E} (P : RequestManager → Prop) (f : World → World) (R : E → Back → Prop) :
  triple (λ b, P (bk_manager b)) (effect f) (λ _ b, P (bk_manager b)) R.
Proof. apply triple_on_world. Qed.
Lemma triple_ask {E A} (P : RequestManager → Prop) (f : RequestManager → A) (R : E → Back → Prop) :
  triple (λ b, P (bk_manager b)) (ask f) (λ a b, P (bk_manager b) ∧ a = f (bk_manager b)) R.
Proof. intros b Hb. done. Qed.
Lemma triple_send (P : RequestManager → Prop) raw :
  (∀ m, P m → wf m) →
  triple (λ b, P (bk_manager b)) (send_raw tr_send raw) (λ _ b, P (bk_manager b)) err_inv.
Proof.
  intros HP b Hb. unfold send_raw. destruct (tr_send _ _) as [[] t]; cbn; [done|].
  split; [done|]. by apply HP.
Qed.

(** An operation of the manager that keeps [wf]. *)
Lemma triple_manager_wf {E A} (f : RequestManager → A * RequestManager) (R : E → Back → Prop) :
  (∀ m, wf m → wf (snd (f m))) → triple inv (on_manager f) (λ _, inv) R.
Proof. intros Hf. apply triple_on_manager. intros b Hb. by apply Hf. Qed.
Lemma triple_ret_inv {E A} (a : A) (R : E → Back → Prop) : triple inv (mret a) (λ _, inv) R.
Proof. intros b Hb. done. Qed.
Lemma triple_throw_inv {A} e : e ≠ FPanic → triple inv (sm_throw (A := A) e) (λ _, inv) err_inv.
Proof. intros He b Hb. done. Qed.
Lemma triple_effect_inv {E} f (R : E → Back → Prop) : triple inv (effect f) (λ _, inv) R.
Proof. apply (triple_effect wf). Qed.
Lemma triple_world_inv {E A} (f : World → A * World) (R : E → Back → Prop) :
  triple inv (on_world f) (λ _, inv) R.
Proof. apply (triple_on_world wf). Qed.
Lemma triple_ask_inv {E A} (f : RequestManager → A) (R : E → Back → Prop) :
  triple inv (ask f) (λ a b, inv b ∧ a = f (bk_manager b)) R.
Proof. apply (triple_ask wf). Qed.
Lemma triple_weaken {E A B} (a : B) (f : RequestManager → B) (m : SM Back E A) Q R :
  triple inv m Q R → triple (λ b, inv b ∧ a = f (bk_manager b)) m Q R.
Proof. intros Hm. eapply triple_conseq; eauto. by intros ? []. Qed.

(** One bind of a handler, the first component by the lemma for its kind. *)
Ltac inv_bind :=
  eapply triple_bind;
  [first [apply triple_ask_inv | apply triple_effect_inv | apply triple_world_inv
         | apply triple_manager_wf; solve [auto]] |].
Ltac inv_done :=
  first [apply triple_ret_inv | apply triple_effect_inv
        | apply triple_throw_inv; discriminate].

Lemma triple_lookup {E A B} (r : B) (P : Back → Prop) (f : RequestManager → B) (m : SM Back E A) Q R :
  (∀ m0, r = f m0 → triple (λ b, P b ∧ bk_manager b = m0) m Q R) →
  triple (λ b, P b ∧ r = f (bk_manager b)) m Q R.
Proof. intros Hm b [Hb Hr]. by eapply (Hm _ Hr). Qed.

Lemma drop_handler_inv {E} method (R : E → Back → Prop) :
  triple inv (drop_handler method) (λ _, inv) R.
Proof. unfold drop_handler. inv_bind. intros []; inv_done. Qed.

Lemma process_notification_inv {E} n (R : E → Back → Prop) :
  triple inv (process_notification n) (λ _, inv) R.
Proof.
  unfold process_notification. inv_bind. intros [sink|]; apply triple_weaken; [|inv_done].
  inv_bind. intros [|[|]]; [inv_done|apply drop_handler_inv..].
Qed.

Lemma process_subscription_response_inv {E} n (R : E → Back → Prop) :
  triple inv (process_subscription_response n) (λ _, inv) R.
Proof.
  unfold process_subscription_response. inv_bind. intros [r|]; apply triple_weaken; [|inv_done].
  inv_bind. intros [sink|]; apply triple_weaken; [|inv_done].
  inv_bind. intros [|[|]]; inv_done.
Qed.

(** The [expect] of the close response: a subscription found by its identifier is
    always there. *)
Lemma process_subscription_close_response_inv n :
  triple inv (process_subscription_close_response n) (λ _, inv) err_inv.
Proof.
  unfold process_subscription_close_response. inv_bind. intros [r|]; [|apply triple_weaken; inv_done].
  eapply (triple_bind _ _ _ (λ o b, inv b ∧ is_Some o)).
  - apply triple_on_manager. intros b [W Hr]. rewrite get_request_id_lookup in Hr.
    by destruct (remove_subscription_wf r _ _ W (eq_sym Hr)).
  - intros o b [W Ho]. destruct Ho as [[[[u sink] n'] s] ->]. by apply triple_effect_inv.
Qed.

Lemma unsubscribe_request_no_panic (Hs : sub_ids_read) u n s e :
  unsubscribe_request u n s ≠ Err e.
Proof.
  unfold unsubscribe_request, ArrayParams.insert, ParamsBuilder.insert, mbind, SM_bind.
  unfold ParamsBuilder.write.
  destruct (events_text _) as [t []] eqn:E; [|done]. cbn.
  destruct (Hs _ _ E) as [node Hn].
  unfold ArrayParams.to_rpc_params. rewrite (build_commas "["%char "]"%char [t]) by done.
  unfold de_raw. cbn [join] in *. by rewrite Hn.
Qed.

Lemma build_unsubscribe_message_inv (Hs : sub_ids_read) r s :
  triple (λ b, inv b ∧ Some r = subscriptions (bk_manager b) !! s)
    (build_unsubscribe_message r s) (λ _, inv) err_inv.
Proof.
  unfold build_unsubscribe_message.
  eapply (triple_bind _ _ _ (λ _, inv)).
  - apply triple_on_manager. intros b [W Hr].
    by destruct (unsubscribe_wf r s _ W (eq_sym Hr)).
  - intros [[[[u sink] n] s']|]; [|inv_done]. inv_bind. intros _ b W. cbn.
    destruct (unsubscribe_request u n s') eqn:E; [done|].
    by apply unsubscribe_request_no_panic in E.
Qed.

Lemma bad_request_inv {A} e : triple inv (bad_request (A := A) e) (λ _, inv) err_inv.
Proof. apply triple_throw_inv. discriminate. Qed.

Lemma new_subscription_lookup i u s o n m b :
  wf m → insert_subscription i u s o n m = (Ok (), b) → wf b ∧ Some i = subscriptions b !! s.
Proof.
  intros W E. pose proof (insert_subscription_wf i u s o n m W) as W'. rewrite E in W'.
  split; [done|]. unfold insert_subscription in E. case_match; simplify_eq.
  cbn. by rewrite lookup_insert_eq.
Qed.

Lemma process_single_response_inv (Hs : sub_ids_read) rp max_cap :
  triple inv (process_single_response rp max_cap) (λ _, inv) err_inv.
Proof.
  unfold process_single_response. inv_bind. intros st. apply triple_weaken.
  destruct st; [| |apply bad_request_inv..].
  { inv_bind. intros [[h|]|]; [|inv_done|apply bad_request_inv]. inv_bind. intros ?. inv_done. }
  inv_bind. intros [[[u h] n]|]; [|apply bad_request_inv].
  destruct (success_try_from rp) as [sc|e]; [|inv_bind; intros ?; inv_done].
  destruct (SubscriptionId.deserialize _) as [s|]; [|inv_bind; intros ?; inv_done].
  inv_bind. intros ch.
  eapply (triple_bind _ _ _ (λ r b, inv b ∧
    (is_ok r = true → Some (Id.into_owned (rp_id rp)) = subscriptions (bk_manager b) !! s))).
  { apply triple_on_manager. intros b W.
    destruct (insert_subscription _ _ _ _ _ _) as [[[]|] m] eqn:E; cbn.
    - apply new_subscription_lookup in E as [W' E]; [|done]. split; [done|by intros _].
    - split; [|done]. pose proof (insert_subscription_wf (Id.into_owned (rp_id rp)) u s ch n _ W) as W'.
      by rewrite E in W'. }
  intros [?|sink]; cbn [is_ok].
  - eapply triple_bind.
    { apply (triple_on_world (λ m, wf m ∧ (true = true → Some _ = subscriptions m !! s))). }
    intros []; cbn beta.
    + intros b [W _]. done.
    + eapply triple_bind.
      { apply (triple_effect (λ m, wf m ∧ (true = true → Some _ = subscriptions m !! s))). }
      intros ?. eapply triple_conseq; [by apply build_unsubscribe_message_inv| |done..].
      intros b [W E]. split; [done|]. by apply E.
  - eapply (triple_conseq inv); [|by intros ? []|intros ??; exact id|intros ??; exact id].
    inv_bind. intros ?. inv_bind. intros ?. inv_bind. intros ?. inv_done.
Qed.

Lemma recv_single_inv (Hs : sub_ids_read) raw max_cap :
  triple inv (recv_single raw max_cap) (λ _, inv) err_inv.
Proof.
  unfold recv_single. case_match.
  { eapply triple_bind; [by apply process_single_response_inv|]. intros []; inv_done. }
  case_match. { eapply triple_bind; [apply process_subscription_response_inv|]. intros []; inv_done. }
  case_match. { eapply triple_bind; [apply process_subscription_close_response_inv|]. intros ?; inv_done. }
  case_match; [|inv_done].
  eapply triple_bind; [apply process_notification_inv|]. intros ?; inv_done.
Qed.

Lemma scan_element_inv raw r st : triple inv (scan_element raw r st) (λ _, inv) err_inv.
Proof.
  destruct st as [batch range notif msgs]. unfold scan_element. case_match.
  { case_match; [inv_done|apply bad_request_inv]. }
  case_match. { eapply triple_bind; [apply process_subscription_response_inv|]. intros []; inv_done. }
  case_match. { eapply triple_bind; [apply process_subscription_close_response_inv|]. intros ?; inv_done. }
  case_match; [|inv_done].
  eapply triple_bind; [apply process_notification_inv|]. intros ?; inv_done.
Qed.
Lemma scan_batch_inv raw rs st : triple inv (scan_batch raw rs st) (λ _, inv) err_inv.
Proof.
  revert st. induction rs as [|r rs IH]; intros st; cbn; [inv_done|].
  eapply triple_bind; [apply scan_element_inv|]. intros; apply IH.
Qed.

Lemma process_batch_response_inv rps range :
  triple inv (process_batch_response rps range) (λ _, inv) err_any.
Proof.
  unfold process_batch_response. inv_bind. intros [h|]; [|by intros b W].
  case_match; [|inv_bind; intros ? b W; done].
  inv_bind. intros ?. inv_done.
Qed.

Lemma recv_batch_inv raw : triple inv (recv_batch raw) (λ _, inv) err_inv.
Proof.
  unfold recv_batch. case_match; [|inv_done]. case_match; try inv_done.
  eapply triple_bind; [apply scan_batch_inv|]. intros st.
  destruct (bs_range st) as [rg|]; [|case_match; inv_done].
  eapply triple_bind; [|intros; inv_done]. intros b W. unfold sm_catch.
  pose proof (process_batch_response_inv (bs_batch st) (rg.1, wrapping_add u64_max rg.2 1) b W) as Hp.
  destruct (process_batch_response _ _ _) as [[] b']; done.
Qed.

Lemma handle_backend_messages_inv (Hs : sub_ids_read) m max_cap :
  triple inv (handle_backend_messages m max_cap) (λ _, inv) err_inv.
Proof.
  assert (∀ raw, triple inv (handle_recv_message raw max_cap) (λ _, inv) err_inv) as Hr.
  { intros raw. unfold handle_recv_message. case_match; [|inv_done].
    case_decide; [by apply recv_single_inv|]. case_decide; [apply recv_batch_inv|inv_done]. }
  destruct m as [[[]|]|]; cbn; auto; inv_done.
Qed.

Lemma send_raw_inv raw : triple inv (send_raw tr_send raw) (λ _, inv) err_inv.
Proof. apply (triple_send wf). auto. Qed.

Lemma handle_frontend_messages_inv (Hs : sub_ids_read) m max_cap :
  triple inv (handle_frontend_messages tr_send m max_cap) (λ _, inv) err_inv.
Proof.
  destruct m as [bt|raw|rq|sb|rg|me|si]; cbn [handle_frontend_messages].
  - inv_bind. intros []; [apply send_raw_inv|]. inv_bind. intros ?. inv_done.
  - apply send_raw_inv.
  - inv_bind. intros [|[]]; [apply send_raw_inv| |inv_done]. inv_bind. intros ?. inv_done.
  - inv_bind. intros []; [apply send_raw_inv|]. inv_bind. intros ?. inv_done.
  - inv_bind. intros ch. inv_bind. intros [].
    + inv_bind. intros []; inv_done.
    + inv_bind. intros ?. inv_bind. intros ?. inv_done.
  - apply drop_handler_inv.
  - inv_bind. intros [r|]; [|apply triple_weaken; inv_done].
    eapply (triple_bind _ _ _ (λ _, inv)).
    + eapply triple_conseq; [by apply build_unsubscribe_message_inv| |done..].
      intros b [W E]. rewrite get_request_id_lookup in E. by split.
    + intros []; [apply send_raw_inv|inv_done].
Qed.

(** C7: in every state the background task can reach, whatever the server sends
    and the frontend asks for, in whatever order, the reverse lookup and the table
    of requests agree, and the task never panics: the [expect] on a subscription
    that the server closes, the only one of the handlers that data from the server
    can reach, always finds its request.  (Arithmetic wraps, as in a release build;
    see [range_end_wraps].) *)
Theorem reachable_wf_no_panic (max_cap : nat) (f : option Failure) (b : Back) :
  sub_ids_read → reachable max_cap f b → wf (bk_manager b) ∧ f ≠ Some FPanic.
Proof.
  intros Hs Hr. induction Hr as [w t|b e Hr [W _]]; [done|].
  destruct e as [m|m|h|h|h]; cbn; try done.
  - pose proof (handle_frontend_messages_inv Hs m max_cap b W) as H.
    destruct (handle_frontend_messages _ _ _ _) as [[] b']; [done|].
    destruct H as [Hn W']. split; [done|]. by intros [= ->].
  - pose proof (handle_backend_messages_inv Hs m max_cap b W) as H.
    destruct (handle_backend_messages _ _ _) as [[] b']; [done|].
    destruct H as [Hn W']. split; [done|]. by intros [= ->].
Qed.
End Events.

(** ** Batches *)
Section BatchProps.
Context {J : SerdeJson} {X : HttpExtensions}.
Context {Tr : Type}.
Notation Back := (Back (X := X) (Tr := Tr)).

Definition has_number (rp : RawResponse) (n : N) : Prop :=
  Id.try_parse_inner_as_number (rp_id rp) = Ok n.

Lemma response_into_owned_id (rp : RawResponse) : response_into_owned rp = rp.
Proof. by destruct rp as [? [|[]] [] ?]. Qed.

Definition widen_all (rg : option Range) (ns : list N) : option Range :=
  foldl (λ r n, Some (widen r n)) rg ns.

Lemma widen_spec (r : Range) n : (r.1 <= r.2)%N →
  let r' := widen (Some r) n in
  r'.1 ∈ [r.1; n] ∧ r'.2 ∈ [r.2; n] ∧
  (r'.1 <= r.1)%N ∧ (r'.1 <= n)%N ∧ (r.2 <= r'.2)%N ∧ (n <= r'.2)%N.
Proof.
  intros Hr r'. subst r'. unfold widen. destruct r as [x y]; cbv [default id]; cbn [fst snd] in *.
  rewrite !elem_of_cons. destruct (decide (n < x)%N); cbn [fst snd];
    (destruct (decide (y < n)%N); cbn [fst snd]; split_and!; first [lia | by auto]).
Qed.

Lemma widen_all_spec (r : Range) ns : (r.1 <= r.2)%N →
  ∃ r' : Range, widen_all (Some r) ns = Some r' ∧ (r'.1 ∈ r.1 :: ns) ∧ (r'.2 ∈ r.2 :: ns) ∧
    (r'.1 <= r.1)%N ∧ (r.2 <= r'.2)%N ∧ ∀ n, n ∈ ns → (r'.1 <= n <= r'.2)%N.
Proof.
  revert r. induction ns as [|n ns IH]; intros r Hr.
  { exists r. split_and!; try done; try apply list_elem_of_here. by intros ? ?%elem_of_nil. }
  change (widen_all (Some r) (n :: ns)) with (widen_all (Some (widen (Some r) n)) ns).
  destruct (widen_spec r n Hr) as (W1 & W2 & W3 & W4 & W5 & W6).
  destruct (IH (widen (Some r) n)) as (r' & -> & H1 & H2 & H3 & H4 & H5); [lia|].
  exists r'. rewrite elem_of_cons in H1, H2. rewrite !elem_of_cons, elem_of_nil in W1, W2.
  rewrite !elem_of_cons. split_and!; [done| | |lia|lia|].
  { destruct H1 as [E|?]; [|auto]. rewrite E. destruct W1 as [->|[->|[]]]; auto. }
  { destruct H2 as [E|?]; [|auto]. rewrite E. destruct W2 as [->|[->|[]]]; auto. }
  intros m [->|Hm]%elem_of_cons; [lia|by apply H5].
Qed.

Lemma widen_all_range start n ns : (0 < n)%N → ns ≡ₚ range_ids (start, (start + n)%N) →
  widen_all None ns = Some (start, (start + n - 1)%N).
Proof.
  intros Hn Hp.
  assert (∀ m, m ∈ ns ↔ (start <= m < start + n)%N) as He.
  { intros m. rewrite Hp. apply elem_of_range_ids. }
  destruct ns as [|m ns].
  { by destruct (proj1 (elem_of_nil start) (proj2 (He start) ltac:(lia))). }
  cbn. assert (widen None m = (m, m)) as ->.
  { unfold widen. cbn [default fst snd]. by repeat case_decide. }
  destruct (widen_all_spec (m, m) ns) as ([a b] & E & H1 & H2 & H3 & H4 & H5); [cbn; lia|].
  unfold widen_all in E. rewrite E. cbn in *.
  apply He in H1, H2. destruct H1, H2.
  pose proof (proj2 (He start) ltac:(lia)) as [Es|Es]%elem_of_cons;
  pose proof (proj2 (He (start + n - 1)%N) ltac:(lia)) as [Ee|Ee]%elem_of_cons;
    try (apply H5 in Es); try (apply H5 in Ee); repeat f_equal; lia.
Qed.

Lemma scan_batch_responses raw texts rps ns batch rg g ms (b : Back) :
  Forall2 (λ t rp, response_deserialize de_raw t = Some rp) texts rps →
  Forall2 has_number rps ns →
  scan_batch raw texts (MkBatchScan batch rg g ms) b =
  (Ok (MkBatchScan (batch ++ rps) (widen_all rg ns) g ms), b).
Proof.
  intros Ht. revert ns batch rg. induction Ht as [|t rp texts rps Ht _ IH]; intros ns batch rg Hn.
  - inversion Hn; subst. cbn. by rewrite app_nil_r.
  - inversion Hn as [|? n ? ns' Hh Hns]; subst. cbn [scan_batch]. unfold mbind, SM_bind, scan_element.
    rewrite Ht, Hh. cbn. rewrite response_into_owned_id, (IH ns') by done. by rewrite <-app_assoc.
Qed.

Lemma fill_responses_spec start rps ns l :
  Forall2 has_number rps ns → NoDup ns →
  Forall (λ n, (start <= n < start + N.of_nat (length l))%N) ns →
  ∃ l', fill_responses start rps l = Ok l' ∧ length l' = length l ∧
    (∀ i n rp, ns !! i = Some n → rps !! i = Some rp → l' !! N.to_nat (n - start) = Some rp) ∧
    (∀ p, (start + N.of_nat p)%N ∉ ns → l' !! p = l !! p).
Proof.
  intros Hf. revert l. induction Hf as [|rp n rps ns Hh Hf IH]; intros l Hnd Hb.
  { exists l. split_and!; done. }
  apply NoDup_cons in Hnd as [Hni Hnd]. apply Forall_cons in Hb as [Hn Hb].
  cbn [fill_responses]. unfold has_number in Hh. rewrite Hh. cbn.
  unfold checked_sub. rewrite decide_True by lia. cbn.
  destruct (lookup_lt_is_Some_2 l (N.to_nat (n - start)) ltac:(lia)) as [x ->]. cbn.
  destruct (IH (<[N.to_nat (n - start) := rp]> l)) as (l' & -> & Hl & H1 & H2); [done|by rewrite length_insert|].
  rewrite length_insert in Hl. exists l'. split_and!; try done.
  - intros [|i] m rp' Hm Hrp; cbn in *; simplify_eq.
    + rewrite H2; [|by replace (start + N.of_nat (N.to_nat (m - start)))%N with m by lia].
      apply list_lookup_insert_eq. lia.
    + by eapply H1.
  - intros p [Hp1 Hp2]%not_elem_of_cons. rewrite H2 by done.
    apply list_lookup_insert_ne. lia.
Qed.

(** All places are filled when the numbers are those of the range. *)
Lemma fill_responses_range start n rps ns :
  Forall2 has_number rps ns → ns ≡ₚ range_ids (start, (start + n)%N) →
  ∃ rs, fill_responses start rps (replicate (N.to_nat n) placeholder) = Ok rs ∧
    Forall2 has_number rs (range_ids (start, (start + n)%N)) ∧ rs ≡ₚ rps.
Proof.
  intros Hf Hp. set (ids := range_ids _) in *.
  assert (NoDup ns) as Hnd by (rewrite Hp; apply range_ids_NoDup).
  assert (length ids = N.to_nat n) as Hli by (unfold ids; rewrite length_range_ids; cbn; lia).
  pose proof (Forall2_length _ _ _ Hf) as Hlf. pose proof (Permutation_length Hp) as Hlp.
  destruct (fill_responses_spec start rps ns (replicate (N.to_nat n) placeholder))
    as (rs & E & Hl & H1 & _); [done..| |].
  { apply Forall_forall. intros m Hm. rewrite Hp in Hm. apply elem_of_range_ids in Hm.
    rewrite length_replicate. cbn in Hm. lia. }
  rewrite length_replicate in Hl.
  assert (∀ p rp, rs !! p = Some rp → has_number rp (start + N.of_nat p)%N ∧ rp ∈ rps) as Hrs.
  { intros p rp Hrp. pose proof (lookup_lt_Some _ _ _ Hrp) as Hlt.
    assert ((start + N.of_nat p)%N ∈ ns) as [i Hi]%list_elem_of_lookup.
    { rewrite Hp. apply elem_of_range_ids; cbn. lia. }
    destruct (Forall2_lookup_r _ _ _ _ _ Hf Hi) as (rp' & Hrp' & Hnum).
    pose proof (H1 _ _ _ Hi Hrp') as Hq.
    replace (N.to_nat (start + N.of_nat p - start)) with p in Hq by lia.
    rewrite Hrp in Hq. injection Hq as <-. split; [done|]. by eapply list_elem_of_lookup_2. }
  exists rs. split; [done|]. split.
  - apply Forall2_same_length_lookup_2; [by rewrite Hli|]. intros p rp m Hrp Hm.
    destruct (Hrs _ _ Hrp) as [Hnum _]. unfold ids, range_ids in Hm.
    apply list_lookup_fmap_Some in Hm as (k & -> & [-> ?]%lookup_seq). exact Hnum.
  - apply submseteq_length_Permutation; [|lia]. apply NoDup_submseteq.
    + apply NoDup_alt. intros i j rp Hi Hj.
      destruct (Hrs _ _ Hi) as [Ni _], (Hrs _ _ Hj) as [Nj _]. unfold has_number in *.
      rewrite Ni in Nj. injection Nj. lia.
    + intros rp [p Hrp]%list_elem_of_lookup. by apply (Hrs p).
Qed.

Lemma complete_pending_batch_hit (r : Range) h m : batches m !! r = Some h →
  complete_pending_batch r m =
  (Some h, MkRequestManager (requests m) (subscriptions m) (delete r (batches m))
             (notification_handlers m)).
Proof. intros E. unfold complete_pending_batch. by rewrite E. Qed.

(** The answer to a pending batch, all of whose calls are answered. *)
Lemma recv_batch_answered raw texts rps rs ns start n h (b : Back) :
  json_read raw = Some (NArr texts) →
  Forall2 (λ t rp, response_deserialize de_raw t = Some rp) texts rps → Forall2 has_number rps ns →
  ns ≡ₚ range_ids (start, (start + n)%N) → (0 < n)%N → (start + n <= u64_max)%N →
  batches (bk_manager b) !! (start, (start + n)%N) = Some h → w_oneshots (bk_world b) !! h = Some Waiting →
  fill_responses start rps (replicate (N.to_nat n) placeholder) = Ok rs →
  recv_batch raw b =
    (Ok [], MkBack
       (MkRequestManager (requests (bk_manager b)) (subscriptions (bk_manager b))
          (delete (start, (start + n)%N) (batches (bk_manager b))) (notification_handlers (bk_manager b)))
       (MkWorld (<[h := Sent (RBatch (Ok rs))]> (w_oneshots (bk_world b))) (w_chans (bk_world b)))
       (bk_tr b)).
Proof.
  intros Hr Ht Hf Hp Hn Hmax Hb Hh Hfill. unfold recv_batch. rewrite Hr. unfold mbind, SM_bind.
  rewrite (scan_batch_responses _ _ rps ns) by done. rewrite (widen_all_range start n) by done.
  cbn [bs_range bs_batch bs_messages fst snd app].
  replace (wrapping_add u64_max (start + n - 1) 1) with (start + n)%N.
  2: { unfold wrapping_add. rewrite N.mod_small by lia. lia. }
  unfold sm_catch, process_batch_response, mbind, SM_bind, on_manager. cbn [fst snd].
  pose proof (complete_pending_batch_hit (start, (start + n)%N) h (bk_manager b) Hb) as E.
  rewrite E. cbn [fst snd]. replace (start + n - start)%N with n by lia. rewrite Hfill.
  unfold on_world, os_send. cbn. by rewrite Hh.
Qed.

(** C6: when every call of a pending batch is answered, in whatever order, the
    frontend gets all the answers, each at the place of its call, exactly once;
    the batch is no longer pending and nothing else changes. *)
Theorem batch_response_in_order (raw : string) (texts : list string) (rps : list RawResponse)
    (ns : list N) (start n : N) (h : nat) (b : Back) :
  json_read raw = Some (NArr texts) →
  Forall2 (λ t rp, response_deserialize de_raw t = Some rp) texts rps →
  Forall2 has_number rps ns →
  ns ≡ₚ range_ids (start, (start + n)%N) → (0 < n)%N → (start + n <= u64_max)%N →
  batches (bk_manager b) !! (start, (start + n)%N) = Some h →
  w_oneshots (bk_world b) !! h = Some Waiting →
  ∃ rs,
    recv_batch raw b =
      (Ok [], MkBack
         (MkRequestManager (requests (bk_manager b)) (subscriptions (bk_manager b))
            (delete (start, (start + n)%N) (batches (bk_manager b)))
            (notification_handlers (bk_manager b)))
         (MkWorld (<[h := Sent (RBatch (Ok rs))]> (w_oneshots (bk_world b))) (w_chans (bk_world b)))
         (bk_tr b)) ∧
    Forall2 has_number rs (range_ids (start, (start + n)%N)) ∧ rs ≡ₚ rps.
Proof.
  intros Hr Ht Hf Hp Hn Hmax Hb Hh.
  destruct (fill_responses_range start n rps ns Hf Hp) as (rs & Hfill & Hrs & Hperm).
  exists rs. split; [|done]. by apply (recv_batch_answered raw texts rps rs ns).
Qed.
End BatchProps.

(** Runs the monadic operations of a handler. *)
Ltac run :=
  cbv [mbind SM_bind mret SM_ret on_manager on_world ask effect reply sm_result sm_throw
       bad_request]; cbn.

(** ** Calls *)
Section CallProps.
Context {J : SerdeJson} {X : HttpExtensions}.
Context {Tr : Type} (tr_send : string → Tr → Result string unit * Tr).
Notation Back := (Back (X := X) (Tr := Tr)).

(** The state with another table of requests, and with other channels. *)
Definition with_requests (r : gmap Id Kind) (b : Back) : Back :=
  MkBack (MkRequestManager r (subscriptions (bk_manager b)) (batches (bk_manager b))
            (notification_handlers (bk_manager b))) (bk_world b) (bk_tr b).
Definition with_world (w : World) (b : Back) : Back := MkBack (bk_manager b) w (bk_tr b).

Lemma id_into_owned_id i : Id.into_owned i = i.
Proof. by destruct i. Qed.

(** A text that starts like an object and reads as a response. *)
Definition is_response (raw : string) (rp : RawResponse) : Prop :=
  first_non_whitespace raw = Some "{"%char ∧ response_deserialize de_raw raw = Some rp.

Lemma recv_response raw rp max_cap (b : Back) : is_response raw rp →
  handle_backend_messages (Some (Ok (Text raw))) max_cap b =
  match process_single_response rp max_cap b with
  | (Ok (Some unsub), b') => (Ok [FRequest unsub], b')
  | (Ok None, b') => (Ok [], b')
  | (Err e, b') => (Err e, b')
  end.
Proof.
  intros [Hf Hr]. cbn. unfold handle_recv_message. rewrite Hf, decide_True by done.
  unfold recv_single. rewrite Hr, response_into_owned_id. unfold mbind, SM_bind.
  by destruct (process_single_response _ _ _) as [[[]|] ?].
Qed.

(** The answer to a call nobody waits for, as an unsubscribe call. *)
Lemma receive_ack raw rp max_cap (b : Back) : is_response raw rp →
  requests (bk_manager b) !! rp_id rp = Some (PendingMethodCall None) →
  handle_backend_messages (Some (Ok (Text raw))) max_cap b =
    (Ok [], with_requests (delete (rp_id rp) (requests (bk_manager b))) b).
Proof.
  intros Hr Hp. rewrite (recv_response _ rp) by done. unfold process_single_response. rewrite id_into_owned_id.
  unfold mbind, SM_bind, ask, request_status. rewrite Hp. unfold on_manager, complete_pending_call. by rewrite Hp.
Qed.

(** A response reaches the caller that waits under its identifier, and only
    that caller; the identifier is then free again.  A response nobody waits for
    changes nothing and is reported with its identifier. *)
Theorem call_response_routed raw rp max_cap (b : Back) :
  is_response raw rp →
  let r := handle_backend_messages (Some (Ok (Text raw))) max_cap b in
  match requests (bk_manager b) !! rp_id rp with
  | Some (PendingMethodCall (Some h)) =>
    r = (Ok [], with_world (snd (os_send h (RCall (Ok rp)) (bk_world b)))
                  (with_requests (delete (rp_id rp) (requests (bk_manager b))) b))
  | Some (PendingMethodCall None) =>
    r = (Ok [], with_requests (delete (rp_id rp) (requests (bk_manager b))) b)
  | None | Some (Subscription _) =>
    r = (Err (FError (ErrInvalidRequestId (NotPendingRequest (Id.fmt (rp_id rp))))), b)
  | Some (PendingSubscription _) =>
    bk_tr (snd r) = bk_tr b ∧ batches (bk_manager (snd r)) = batches (bk_manager b)
  end.
Proof.
  intros Hr r. unfold r. rewrite (recv_response _ rp) by done.
  unfold process_single_response. rewrite id_into_owned_id.
  unfold mbind, SM_bind, ask, request_status.
  destruct (requests (bk_manager b) !! rp_id rp) as [[[h|]|[[u h] n]|]|] eqn:E; try done.
  - unfold on_manager, complete_pending_call. rewrite E. unfold reply, on_world. cbn.
    by destruct (os_send _ _ _).
  - unfold on_manager, complete_pending_call. by rewrite E.
  - unfold on_manager, complete_pending_subscription. rewrite E.
    destruct (success_try_from rp) as [sc|e]; [|unfold reply, on_world; cbn; by destruct (os_send _ _ _)].
    destruct (SubscriptionId.deserialize _) as [s|];
      [|unfold reply, on_world; cbn; by destruct (os_send _ _ _)].
    unfold on_world, on_manager, insert_subscription. cbn.
    destruct (vacant _ _ && vacant _ _); cbn.
    + unfold reply, on_world; cbn. destruct (os_send _ _ _) as [[] ?]; [done|]. cbn.
      unfold build_unsubscribe_message, unsubscribe. run. rewrite !lookup_insert_eq. cbn.
      by destruct (unsubscribe_request _ _ _) as [[]|].
    + run. by destruct (os_send _ _ _).
Qed.

(** The identifier of a request that is still pending is refused: the caller
    learns it is occupied, nothing is sent and the table stays as it is; otherwise
    the request is sent once and waits under its identifier. *)
Theorem call_request_admitted raw id h max_cap (b : Back) :
  handle_frontend_messages tr_send (FRequest (MkRequestMessage raw id (Some h))) max_cap b =
  match requests (bk_manager b) !! id with
  | Some _ =>
    (Ok (), with_world (snd (os_send h (RCall (Err (Occupied (Id.fmt id)))) (bk_world b))) b)
  | None =>
    send_raw tr_send raw
      (with_requests (<[id := PendingMethodCall (Some h)]> (requests (bk_manager b))) b)
  end.
Proof.
  cbn [handle_frontend_messages rm_id rm_send_back rm_raw]. unfold mbind, SM_bind, on_manager.
  unfold insert_pending_call. destruct (requests (bk_manager b) !! id) eqn:E.
  - rewrite (proj2 (vacant_Some _ _)) by eauto. unfold reply, on_world. cbn.
    by destruct (os_send _ _ _).
  - rewrite (proj2 (vacant_None _ _)) by done. done.
Qed.

(** ** Subscriptions *)

(** What the table holds for an active subscription. *)
Definition active (b : Back) (s : SubscriptionId) (i u : Id) (c : nat) (unsub : string) : Prop :=
  subscriptions (bk_manager b) !! s = Some i ∧
  requests (bk_manager b) !! i = Some (Subscription (u, c, unsub)).

(** The answer to a subscribe call, by its payload and the state of the table. *)
Definition subscribed (max_cap : nat) (i u : Id) (h : nat) (unsub : string) (s : SubscriptionId)
    (b : Back) : Back :=
  let m := bk_manager b in
  let w := bk_world b in
  let c := fresh (dom (w_chans w)) in
  MkBack (MkRequestManager (<[i := Subscription (u, c, unsub)]> (delete i (requests m)))
            (<[s := i]> (subscriptions m)) (batches m) (notification_handlers m))
    (MkWorld (<[h := Sent (RSub (Ok (c, s)))]> (w_oneshots w)) (<[c := Chan.new max_cap]> (w_chans w)))
    (bk_tr b).

Lemma subscribe_accepted raw rp res sid max_cap (b : Back) u h unsub :
  is_response raw rp → rp_payload rp = Success res → SubscriptionId.deserialize res = Some sid →
  requests (bk_manager b) !! rp_id rp = Some (PendingSubscription (u, h, unsub)) →
  w_oneshots (bk_world b) !! h = Some Waiting → subscriptions (bk_manager b) !! sid = None →
  handle_backend_messages (Some (Ok (Text raw))) max_cap b =
    (Ok [], subscribed max_cap (rp_id rp) u h unsub sid b) ∧
  active (subscribed max_cap (rp_id rp) u h unsub sid b) sid (rp_id rp) u (fresh (dom (w_chans (bk_world b)))) unsub.
Proof.
  intros Hr Hp Hd Hq Hh Es. rewrite (recv_response _ rp) by done. unfold process_single_response. rewrite id_into_owned_id.
  unfold request_status, complete_pending_subscription, success_try_from. rewrite Hp. run. rewrite Hq. run. rewrite Hq. run.
  rewrite Hd. run. unfold insert_subscription; cbn. unfold vacant at 1. rewrite lookup_delete_eq. cbn.
  rewrite (proj2 (vacant_None _ _)) by done. run. unfold os_send; cbn. rewrite Hh. run.
  split; [done|]. unfold active; cbn. by rewrite !lookup_insert_eq.
Qed.

(** What the oneshot [h] holds once its sender was used: the reply, or nothing when
    the caller has gone away. *)
Definition told (h : nat) (r : Reply) (os : gmap nat Oneshot) : gmap nat Oneshot :=
  match os !! h with Some Waiting => <[h := Sent r]> os | Some RxDropped => <[h := TxDropped]> os | _ => os end.
Definition waits (h : nat) (w : World) : bool :=
  match w_oneshots w !! h with Some Waiting => true | _ => false end.
Lemma os_send_told h r w : os_send h r w = (waits h w, MkWorld (told h r (w_oneshots w)) (w_chans w)).
Proof. unfold os_send, told, waits. destruct w as [os chs]. cbn. by destruct (os !! h) as [[]|]. Qed.
(** The subscription was accepted for a caller that has gone away: its slot is a
    call nobody waits for, and both ends of its channel are dropped. *)
Definition abandoned (max_cap : nat) (i : Id) (h : nat) (s : SubscriptionId) (b : Back) : Back :=
  let m := bk_manager b in
  let w := bk_world b in
  let c := fresh (dom (w_chans w)) in
  MkBack (MkRequestManager (<[i := PendingMethodCall None]> (requests m)) (subscriptions m) (batches m) (notification_handlers m))
    (MkWorld (told h (RSub (Ok (c, s))) (w_oneshots w)) (<[c := Chan.drop_tx (Chan.drop_rx (Chan.new max_cap))]> (w_chans w)))
    (bk_tr b).
Lemma unsubscribe_request_id u unsub s msg : unsubscribe_request u unsub s = Ok (Some msg) →
  rm_id msg = u ∧ rm_send_back msg = None.
Proof.
  unfold unsubscribe_request. destruct (ArrayParams.insert _ _) as [[] ?]; [|done].
  destruct (ArrayParams.to_rpc_params _); [|done]. cbn. destruct (json_write _); cbn; [|done]. by intros [= <-].
Qed.
Lemma subscribe_abandoned raw rp res sid max_cap (b : Back) u h unsub :
  is_response raw rp → rp_payload rp = Success res → SubscriptionId.deserialize res = Some sid →
  requests (bk_manager b) !! rp_id rp = Some (PendingSubscription (u, h, unsub)) →
  waits h (bk_world b) = false → subscriptions (bk_manager b) !! sid = None →
  handle_backend_messages (Some (Ok (Text raw))) max_cap b =
    (match unsubscribe_request u unsub sid with
     | Ok (Some msg) => Ok [FRequest msg] | Ok None => Ok [] | Err _ => Err FPanic
     end, abandoned max_cap (rp_id rp) h sid b).
Proof.
  intros Hr Hp Hd Hq Hh Es. rewrite (recv_response _ rp) by done. unfold process_single_response. rewrite id_into_owned_id.
  unfold request_status, complete_pending_subscription, success_try_from. rewrite Hp. run. rewrite Hq. run. rewrite Hq. run.
  rewrite Hd. run. unfold insert_subscription; cbn. unfold vacant at 1. rewrite lookup_delete_eq. cbn.
  rewrite (proj2 (vacant_None _ _)) by done. run. rewrite os_send_told. unfold waits in *. cbn. rewrite Hh. run.
  unfold build_unsubscribe_message, unsubscribe. run. rewrite !lookup_insert_eq. run.
  unfold chan_drop_rx, chan_drop_tx, chan_update. cbn. rewrite !lookup_insert_eq. cbn. rewrite !lookup_insert_eq. cbn.
  unfold abandoned, set_subscriptions, set_requests. cbn. rewrite delete_insert_id, !insert_insert_eq, insert_delete_eq by done.
  by destruct (unsubscribe_request _ _ _) as [[]|].
Qed.
(** The unsubscribe call the task is given then. *)
Lemma abandoned_unsubscribe max_cap i h s (b : Back) u unsub msg :
  is_Some (requests (bk_manager b) !! i) → unsubscribe_request u unsub s = Ok (Some msg) →
  let b' := abandoned max_cap i h s b in
  handle_frontend_messages tr_send (FRequest msg) max_cap b' =
    match requests (bk_manager b) !! u with
    | Some _ => (Ok (), b')
    | None => send_raw tr_send (rm_raw msg)
                (with_requests (<[u := PendingMethodCall None]> (requests (bk_manager b'))) b')
    end.
Proof.
  intros [k Hi] Hm b'. destruct (unsubscribe_request_id _ _ _ _ Hm) as [Ei Eb].
  cbn [handle_frontend_messages]. run. rewrite Ei, Eb. unfold insert_pending_call, b', abandoned at 1. cbn.
  destruct (decide (u = i)) as [->|Hne].
  - rewrite Hi, (proj2 (vacant_Some _ _)) by (rewrite lookup_insert_eq; eauto). by run.
  - destruct (requests (bk_manager b) !! u) eqn:Eu.
    + rewrite (proj2 (vacant_Some _ _)) by (rewrite lookup_insert_ne by done; eauto). by run.
    + rewrite (proj2 (vacant_None _ _)) by (by rewrite lookup_insert_ne). by run.
Qed.

(** C33: all outcomes of the answer to a subscribe call.  The slot of the call is
    taken in every one of them.  With an error, an identifier that does not parse,
    or one that is in use, no subscription is created and the caller, if it still
    waits, gets that error.  With a new identifier a caller that waits gets a fresh
    queue and the subscription is active.  A caller that has gone away is
    unsubscribed: the subscription is undone, and the task is given the unsubscribe
    call; that call goes to the server only when the slot reserved for it at the
    time of the subscribe call is no longer taken: while it is, the task refuses
    its own message, sends nothing, and the server keeps the subscription. *)
Theorem subscribe_answered raw rp max_cap (b : Back) u h unsub :
  is_response raw rp →
  requests (bk_manager b) !! rp_id rp = Some (PendingSubscription (u, h, unsub)) →
  let '(r, b') := handle_backend_messages (Some (Ok (Text raw))) max_cap b in
  let refused e :=
    r = Ok [] ∧ requests (bk_manager b') = delete (rp_id rp) (requests (bk_manager b)) ∧
    subscriptions (bk_manager b') = subscriptions (bk_manager b) ∧
    w_oneshots (bk_world b') = told h (RSub (Err e)) (w_oneshots (bk_world b)) in
  bk_tr b' = bk_tr b ∧
  match rp_payload rp with
  | PayloadError e => refused (ErrCall e)
  | Success res =>
    match SubscriptionId.deserialize res with
    | None => refused (ErrParseError (json_errmsg res))
    | Some s =>
      match subscriptions (bk_manager b) !! s, w_oneshots (bk_world b) !! h with
      | Some _, _ => refused ErrInvalidSubscriptionId
      | None, Some Waiting =>
        r = Ok [] ∧ b' = subscribed max_cap (rp_id rp) u h unsub s b ∧
        active b' s (rp_id rp) u (fresh (dom (w_chans (bk_world b)))) unsub
      | None, _ =>
        b' = abandoned max_cap (rp_id rp) h s b ∧
        match unsubscribe_request u unsub s with
        | Ok (Some msg) =>
          r = Ok [FRequest msg] ∧
          handle_frontend_messages tr_send (FRequest msg) max_cap b' =
            match requests (bk_manager b) !! u with
            | Some _ => (Ok (), b')
            | None => send_raw tr_send (rm_raw msg)
                        (with_requests (<[u := PendingMethodCall None]> (requests (bk_manager b'))) b')
            end
        | Ok None => r = Ok []
        | Err _ => r = Err FPanic
        end
      end
    end
  end.
Proof.
  intros Hr Hq. destruct (rp_payload rp) as [res|e] eqn:Ep.
  1: destruct (SubscriptionId.deserialize res) as [s|] eqn:Ed; [destruct (subscriptions (bk_manager b) !! s) as [j|] eqn:Es|].
  2: { destruct (waits h (bk_world b)) eqn:Hh; unfold waits in Hh.
       - assert (w_oneshots (bk_world b) !! h = Some Waiting) as Hw by (by destruct (_ !! h) as [[]|]).
         destruct (subscribe_accepted raw rp res s max_cap b u h unsub) as [-> H]; try done. by rewrite Hw.
       - rewrite (subscribe_abandoned raw rp res s max_cap b u h unsub) by done. split; [done|].
         destruct (w_oneshots (bk_world b) !! h) as [[]|]; try done; (split; [done|]);
           destruct (unsubscribe_request u unsub s) as [[msg|]|] eqn:Em; try done;
           (split; [done|]); by apply (abandoned_unsubscribe _ _ _ _ _ _ unsub); [eauto|]. }
  all: rewrite (recv_response _ rp) by done; unfold process_single_response; rewrite id_into_owned_id;
    unfold request_status, complete_pending_subscription, success_try_from; rewrite Ep; run; rewrite Hq; run; rewrite Hq; run.
  - rewrite Ed. run. unfold insert_subscription; cbn. unfold vacant at 1. rewrite lookup_delete_eq. cbn.
    rewrite (proj2 (vacant_Some _ _)) by eauto. run. rewrite os_send_told. run.
    by rewrite chan_drop_rx_oneshots, chan_drop_tx_oneshots.
  - rewrite Ed. run. rewrite os_send_told. by run.
  - rewrite os_send_told. run. by destruct e.
Qed.
(** A text that starts like an object and reads as a subscription message. *)
Definition is_subscription_message (raw : string) (n : Notification (SubscriptionPayload string)) : Prop :=
  first_non_whitespace raw = Some "{"%char ∧ response_deserialize de_raw raw = None ∧
  subscription_response_deserialize de_raw raw = Some n.

Lemma notification_queued raw n max_cap (b : Back) i u c unsub cap queue closed lagged :
  is_subscription_message raw n → active b (sp_subscription (nf_params n)) i u c unsub →
  w_chans (bk_world b) !! c = Some (MkChan cap queue closed false lagged) →
  let store ch := with_world (MkWorld (w_oneshots (bk_world b)) (<[c := ch]> (w_chans (bk_world b)))) b in
  handle_backend_messages (Some (Ok (Text raw))) max_cap b =
    if closed then (Ok [FSubscriptionClosed (sp_subscription (nf_params n))], b)
    else if decide (length queue < cap)
    then (Ok [], store (MkChan cap (queue ++ [sp_value (nf_params n)]) false false lagged))
    else (Ok [FSubscriptionClosed (sp_subscription (nf_params n))], store (MkChan cap queue false false true)).
Proof.
  intros (Hf & Hn & Hr) [Hsub Hreq] Hc store. unfold handle_backend_messages, handle_recv_message.
  rewrite Hf, decide_True by done. unfold recv_single. rewrite Hn, Hr.
  assert (∀ s, SubscriptionId.into_owned s = s) as Hs by (by intros []).
  unfold process_subscription_response. rewrite Hs. run.
  rewrite get_request_id_lookup, Hsub. run. unfold as_subscription_mut. rewrite Hreq. run.
  unfold chan_send, chan_update. rewrite Hc. cbn. destruct closed; cbn.
  - rewrite insert_id by done. by destruct b as [m [] t].
  - by case_decide.
Qed.

(** C25: a message of an active subscription goes to the end of the queue of that
    subscription while there is room; when the queue is full the subscription is
    marked as lagged, and then, as when its stream is gone, the task is told to
    close it.  A message of any other subscription is ignored. *)
Theorem subscription_message_delivered raw n max_cap (b : Back) :
  is_subscription_message raw n →
  let s := sp_subscription (nf_params n) in
  let v := sp_value (nf_params n) in
  let r := handle_backend_messages (Some (Ok (Text raw))) max_cap b in
  (subscriptions (bk_manager b) !! s = None → r = (Ok [], b)) ∧
  ∀ i u c unsub cap queue closed lagged,
    active b s i u c unsub →
    w_chans (bk_world b) !! c = Some (MkChan cap queue closed false lagged) →
    let store ch := with_world (MkWorld (w_oneshots (bk_world b)) (<[c := ch]> (w_chans (bk_world b)))) b in
    r = if closed then (Ok [FSubscriptionClosed s], b)
        else if decide (length queue < cap)
        then (Ok [], store (MkChan cap (queue ++ [v]) false false lagged))
        else (Ok [FSubscriptionClosed s], store (MkChan cap queue false false true)).
Proof.
  intros H s v r. split.
  - destruct H as (Hf & Hn & Hr). intros Hnone. unfold r, handle_backend_messages, handle_recv_message.
    rewrite Hf, decide_True by done. unfold recv_single. rewrite Hn, Hr.
    assert (SubscriptionId.into_owned s = s) as Hs by (by destruct s).
    unfold process_subscription_response. fold s. rewrite Hs. run. by rewrite get_request_id_lookup, Hnone.
  - intros i u c unsub cap queue closed lagged Ha Hc. by apply (notification_queued raw n max_cap b i u c unsub).
Qed.

(** The subscription is forgotten, its stream ended. *)
Definition forgotten (s : SubscriptionId) (i : Id) (c : nat) (b : Back) : Back :=
  MkBack (snd (unsubscribe i s (bk_manager b))) (chan_drop_tx c (bk_world b)) (bk_tr b).
Lemma close_active max_cap (b : Back) s i u c unsub msg :
  active b s i u c unsub → unsubscribe_request u unsub s = Ok (Some msg) →
  handle_frontend_messages tr_send (FSubscriptionClosed s) max_cap b = send_raw tr_send (rm_raw msg) (forgotten s i c b) ∧
  subscriptions (bk_manager (forgotten s i c b)) !! s = None.
Proof.
  intros [Hsub Hreq] Hmsg. unfold forgotten, unsubscribe. rewrite Hreq, Hsub. split; [|cbn; apply lookup_delete_eq].
  cbn [handle_frontend_messages]. run. rewrite get_request_id_lookup, Hsub. run.
  unfold build_unsubscribe_message, unsubscribe. run. rewrite Hreq, Hsub. run. by rewrite Hmsg.
Qed.

(** Closing an active subscription, because its stream was dropped, lagged
    behind or was unsubscribed, sends one unsubscribe call under the reserved
    identifier, ends the stream, and forgets the subscription; closing it again,
    or one that is unknown, does nothing. *)
Theorem subscription_closed max_cap (b : Back) s i u c unsub msg :
  active b s i u c unsub →
  unsubscribe_request u unsub s = Ok (Some msg) →
  let b1 := MkBack (snd (unsubscribe i s (bk_manager b))) (chan_drop_tx c (bk_world b)) (bk_tr b) in
  handle_frontend_messages tr_send (FSubscriptionClosed s) max_cap b = send_raw tr_send (rm_raw msg) b1 ∧
  rm_id msg = u ∧
  subscriptions (bk_manager b1) !! s = None ∧
  requests (bk_manager b1) !! i = Some (PendingMethodCall None) ∧
  (∀ b2, subscriptions (bk_manager b2) !! s = None →
     handle_frontend_messages tr_send (FSubscriptionClosed s) max_cap b2 = (Ok (), b2)).
Proof.
  intros Ha Hmsg b1. destruct (close_active max_cap b s i u c unsub msg Ha Hmsg) as [H1 H2].
  split_and!; [exact H1| |exact H2| |].
  - by apply unsubscribe_request_id in Hmsg as [? _].
  - destruct Ha as [Hsub Hreq]. unfold b1, unsubscribe. rewrite Hreq, Hsub. cbn. apply lookup_insert_eq.
  - intros b2 Hb. cbn [handle_frontend_messages]. run. by rewrite get_request_id_lookup, Hb.
Qed.

(** A subscriber that gave up before the answer arrived: the task builds the
    unsubscribe call, but the identifier reserved for it is occupied, so the call
    is refused without a trace and the server keeps sending. *)
Lemma dropped_subscriber_not_unsubscribed raw rp max_cap (b : Back) u h unsub s res msg :
  is_response raw rp → rp_payload rp = Success res → SubscriptionId.deserialize res = Some s →
  requests (bk_manager b) !! rp_id rp = Some (PendingSubscription (u, h, unsub)) →
  requests (bk_manager b) !! u = Some (PendingMethodCall None) →
  subscriptions (bk_manager b) !! s = None →
  w_oneshots (bk_world b) !! h = Some RxDropped →
  unsubscribe_request u unsub s = Ok (Some msg) →
  let '(r, b') := handle_backend_messages (Some (Ok (Text raw))) max_cap b in
  r = Ok [FRequest msg] ∧
  handle_frontend_messages tr_send (FRequest msg) max_cap b' = (Ok (), b').
Proof.
  intros Hr Hp Hd Hq Hu Hs Hh Hm.
  rewrite (subscribe_abandoned raw rp res s max_cap b u h unsub), Hm by (done || unfold waits; by rewrite Hh).
  split; [done|]. rewrite (abandoned_unsubscribe _ _ _ _ _ u unsub) by eauto. by rewrite Hu.
Qed.
End CallProps.

(** ** The hypothesis holds of the reference reader *)
Lemma ref_sub_ids_read : sub_ids_read (J := ref_json).
Proof.
  intros [n|s] t E.
  - assert (t = to_dec n) as ->.
    { cbn in E. injection E as <-. rewrite append_nil_r. destruct n; reflexivity. }
    destruct (read_num_to_dec n) as [node Hn].
    apply (ref_read_singleton _ node); [intros f; by apply read_value_nat|..];
      unfold to_dec; pose proof (N_to_uint_nonnil n); by destruct (N.to_uint n).
  - assert (t = print_str s) as ->.
    { cbn in E. injection E as <-. by rewrite append_nil_r. }
    apply (ref_read_singleton _ (NStr s)); try reflexivity.
    intros f. apply read_value_str.
Qed.

(** ** A run on concrete messages *)
Section Run.
#[local] Existing Instance ref_json.
#[local] Existing Instance ref_ext.
Notation Back := (Back (X := ref_ext) (Tr := list string)).

Definition run_events (es : list Event) (b : Back) : Back :=
  foldl (λ b e, snd (run_event log_send 2 e b)) b es.
Definition b0 : Back :=
  MkBack RequestManager.new (MkWorld {[0 := Waiting; 1 := Waiting; 2 := Waiting]} ∅) [].
Definition msg (s : string) : option (Result string ReceivedMessage) := Some (Ok (Text (q s))).

(** A subscription is requested, accepted as number 7, gets two messages. *)
Definition ev_subscribe : Event :=
  EvFront (FSubscribe (MkSubscriptionMessage "sub" (IdNumber 0) (IdNumber 1) "unsub" 0)).
Definition ev_accepted : Event := EvBack (msg "{'jsonrpc':'2.0','id':0,'result':7}").
Definition note : string := "{'jsonrpc':'2.0','method':'n','params':{'subscription':7,'result':'x'}}".
Definition b_active : Back := run_events [ev_subscribe; ev_accepted] b0.
Definition b_full : Back := run_events [EvBack (msg note); EvBack (msg note)] b_active.
Definition unsub_text : string := q "{'jsonrpc':'2.0','id':1,'method':'unsub','params':[7]}".

(** The whole life of a subscription that lags: the third message is refused, the
    subscription is closed and unsubscribed once. *)
Example lagging_subscription :
  active b_active (SubNum 7) (IdNumber 0) (IdNumber 1) 0 "unsub" ∧
  handle_backend_messages (msg note) 2 b_full =
    (Ok [FSubscriptionClosed (SubNum 7)], run_events [EvBack (msg note)] b_full) ∧
  bk_tr (run_events [EvBack (msg note); EvFront (FSubscriptionClosed (SubNum 7));
                     EvFront (FSubscriptionClosed (SubNum 7))] b_full) = ["sub"; unsub_text].
Proof. vm_compute. split_and!; reflexivity. Qed.

(** After the server acknowledged the unsubscribe call, under its own identifier,
    the slot of the subscribe call is still taken. *)
Example unsubscribed_slot_stays :
  requests (bk_manager (run_events
    [EvFront (FSubscriptionClosed (SubNum 7)); EvBack (msg "{'jsonrpc':'2.0','id':1,'result':true}")]
    b_active)) !! IdNumber 0 = Some (PendingMethodCall None).
Proof. vm_compute. reflexivity. Qed.

(** A close message inside a batch is looked up in the text of the batch, so it is
    taken for a plain notification and the subscription stays. *)
Example close_in_batch_ignored :
  active (run_events [EvBack (msg "[{'jsonrpc':'2.0','method':'n','params':{'subscription':7,'error':'e'}}]")]
            b_active) (SubNum 7) (IdNumber 0) (IdNumber 1) 0 "unsub" ∧
  subscriptions (bk_manager (run_events
    [EvBack (msg "{'jsonrpc':'2.0','method':'n','params':{'subscription':7,'error':'e'}}")] b_active)) = ∅.
Proof. vm_compute. split_and!; reflexivity. Qed.

Lemma reachable_wf_no_panic_witness : wf (bk_manager b_active).
Proof.
  refine (proj1 (reachable_wf_no_panic log_send 2 None b_active ref_sub_ids_read _)).
  assert (reachable log_send 2 None (run_events [ev_subscribe] b0)) as H1.
  { exact (reach_step log_send 2 b0 ev_subscribe (reach_init _ _ _ _)). }
  exact (reach_step log_send 2 _ ev_accepted H1).
Defined.

Definition ref_rp (n : N) (res : string) : RawResponse := response_new (Success res) (IdNumber n).
Lemma batch_response_in_order_witness :
  ∃ rs, (∃ b', recv_batch (q "[{'jsonrpc':'2.0','id':6,'result':1},{'jsonrpc':'2.0','id':5,'result':2}]")
     (MkBack (MkRequestManager ∅ ∅ {[(5%N, 7%N) := 0]} ∅) (bk_world b0) ([] : list string)) = (Ok [], b')) ∧
    Forall2 has_number rs [5%N; 6%N].
Proof.
  destruct (batch_response_in_order
    (q "[{'jsonrpc':'2.0','id':6,'result':1},{'jsonrpc':'2.0','id':5,'result':2}]")
    [q "{'jsonrpc':'2.0','id':6,'result':1}"; q "{'jsonrpc':'2.0','id':5,'result':2}"]
    [ref_rp 6 "1"; ref_rp 5 "2"] [6%N; 5%N] 5 2 0
    (MkBack (MkRequestManager ∅ ∅ {[(5%N, 7%N) := 0]} ∅) (bk_world b0) ([] : list string)))
    as (rs & E & F & _);
    [by vm_compute| |by repeat constructor|apply Permutation_swap|done|done|by vm_compute|by vm_compute|].
  { do 2 (apply Forall2_cons; split; [by vm_compute|]). apply Forall2_nil_2. }
  exists rs. split; [by eexists|exact F].
Defined.

Lemma call_response_routed_witness :
  requests (bk_manager (snd (handle_backend_messages (msg "{'jsonrpc':'2.0','id':3,'result':1}") 2
    (run_events [EvFront (FRequest (MkRequestMessage "r" (IdNumber 3) (Some 1)))] b0)))) = ∅.
Proof.
  pose proof (call_response_routed (q "{'jsonrpc':'2.0','id':3,'result':1}") (ref_rp 3 "1") 2
    (run_events [EvFront (FRequest (MkRequestMessage "r" (IdNumber 3) (Some 1)))] b0)
    ltac:(split; vm_compute; reflexivity)) as H.
  change (let r := handle_backend_messages (msg "{'jsonrpc':'2.0','id':3,'result':1}") 2
    (run_events [EvFront (FRequest (MkRequestMessage "r" (IdNumber 3) (Some 1)))] b0) in
    r = (Ok [], with_world (snd (os_send 1 (RCall (Ok (ref_rp 3 "1")))
      (bk_world (run_events [EvFront (FRequest (MkRequestMessage "r" (IdNumber 3) (Some 1)))] b0))))
      (with_requests (delete (IdNumber 3) (requests (bk_manager (run_events [EvFront (FRequest (MkRequestMessage "r" (IdNumber 3) (Some 1)))] b0))))
        (run_events [EvFront (FRequest (MkRequestMessage "r" (IdNumber 3) (Some 1)))] b0)))) in H.
  cbv zeta in H. rewrite H. by vm_compute.
Defined.

(** The largest identifier in a batch: the end of its range wraps around, and no
    batch is found.  A build with overflow checks panics there. *)
Example range_end_wraps :
  fst (handle_backend_messages (msg "[{'jsonrpc':'2.0','id':18446744073709551615,'result':1}]") 2 b0) =
    Err (FError (ErrInvalidRequestId (NotPendingRequest "18446744073709551615..0"))).
Proof. vm_compute. reflexivity. Qed.

(** One subscriber waits; another has gone away, and its unsubscribe call is refused. *)
Definition b_gone : Back := run_events [ev_subscribe; EvGiveUp 0] b0.
Lemma subscribe_answered_witness :
  bk_tr (snd (handle_backend_messages (msg "{'jsonrpc':'2.0','id':0,'result':7}") 2
    (run_events [ev_subscribe] b0))) = ["sub"] ∧
  let '(r, b') := handle_backend_messages (msg "{'jsonrpc':'2.0','id':0,'result':7}") 2 b_gone in
  r = Ok [FRequest (MkRequestMessage unsub_text (IdNumber 1) None)] ∧
  handle_frontend_messages log_send (FRequest (MkRequestMessage unsub_text (IdNumber 1) None)) 2 b' = (Ok (), b') ∧
  bk_tr b' = ["sub"].
Proof.
  pose proof (λ b, subscribe_answered log_send (q "{'jsonrpc':'2.0','id':0,'result':7}") (ref_rp 0 "7") 2
    b (IdNumber 1) 0 "unsub" ltac:(split; vm_compute; reflexivity)) as H. unfold msg. split.
  - specialize (H (run_events [ev_subscribe] b0) ltac:(vm_compute; reflexivity)).
    destruct (handle_backend_messages _ 2 (run_events [ev_subscribe] b0)) as [r b']. destruct H as [H _]. exact H.
  - specialize (H b_gone ltac:(vm_compute; reflexivity)).
    destruct (handle_backend_messages _ 2 b_gone) as [r b'].
    change (bk_tr b_gone) with ["sub"] in H.
    change (w_oneshots (bk_world b_gone) !! 0) with (Some RxDropped) in H.
    change (requests (bk_manager b_gone) !! IdNumber 1) with (Some (PendingMethodCall None)) in H.
    change (unsubscribe_request (IdNumber 1) "unsub" (SubNum 7)) with
      (Ok (E := Panicked) (Some (MkRequestMessage unsub_text (IdNumber 1) None))) in H.
    destruct H as (Ht & _ & Hr & Hf). split; [exact Hr|]. split; [exact Hf|exact Ht].
Defined.

Definition note_value : Notification (SubscriptionPayload string) :=
  MkNotification V2 "n" (MkSubscriptionPayload (SubNum 7) (q "'x'")) ext_new.
Lemma subscription_message_delivered_witness :
  fst (handle_backend_messages (msg note) 2 b_full) = Ok [FSubscriptionClosed (SubNum 7)].
Proof.
  destruct (subscription_message_delivered (q note) note_value 2 b_full
    ltac:(split_and!; vm_compute; reflexivity)) as [_ H].
  specialize (H (IdNumber 0) (IdNumber 1) 0 "unsub" 2 [q "'x'"; q "'x'"] false false
    ltac:(split; vm_compute; reflexivity) ltac:(vm_compute; reflexivity)).
  unfold msg. rewrite H. reflexivity.
Defined.

Lemma subscription_closed_witness :
  bk_tr (snd (handle_frontend_messages log_send (FSubscriptionClosed (SubNum 7)) 2 b_active)) =
  ["sub"; unsub_text].
Proof.
  destruct (subscription_closed log_send 2 b_active (SubNum 7) (IdNumber 0) (IdNumber 1) 0 "unsub"
    (MkRequestMessage unsub_text (IdNumber 1) None)
    ltac:(split; vm_compute; reflexivity) ltac:(vm_compute; reflexivity)) as [H _].
  rewrite H. by vm_compute.
Defined.
End Run.
