(* ===== verification/MethodResponse.v ===== *)
(** Responses on the server: [core/src/server/method_response.rs].

    A [MethodResponse] holds the text of a response.  The text is written through
    a [BoundedWriter], so that a result that is too large is noticed while it is
    serialised and becomes an error; [BatchResponseBuilder] joins the responses of
    a batch under the same limit.  [expect] is an [Err Panic]. *)
From stdpp Require Import base gmap strings list.
From Stdlib Require Import Ascii.
From S2P Require Import Prelude Serde RefJson Errors Params Wire.

(** ** The bounded writer *)
Record BoundedWriter : Type := MkBoundedWriter { bw_max_len : N; bw_buf : string }.
Inductive WriteError : Type := WeIo | WeCustom.

Module BoundedWriter.
Definition new (max_len : N) : BoundedWriter := MkBoundedWriter max_len "".
Definition into_bytes (w : BoundedWriter) : string := bw_buf w.
Definition write (buf : string) (w : BoundedWriter) : Result WriteError N * BoundedWriter :=
  let len := (slen (bw_buf w) + slen buf)%N in
  if decide (len <= bw_max_len w)%N
  then (Ok (slen buf), MkBoundedWriter (bw_max_len w) (bw_buf w +:+ buf))
  else (Err WeIo, w).
End BoundedWriter.

(** [serde_json::to_writer(&mut writer, v)]: the first error stops it. *)
Fixpoint to_writer (es : list SerEvent) (w : BoundedWriter) : Result WriteError unit * BoundedWriter :=
  match es with
  | [] => (Ok (), w)
  | Chunk s :: es' =>
    match BoundedWriter.write s w with
    | (Ok _, w') => to_writer es' w'
    | (Err e, w') => (Err e, w')
    end
  | Custom :: _ => (Err WeCustom, w)
  end.

(** ** Notifications about processed responses *)
Inductive NotifyMsg : Type := NotifyOk | NotifyErr.
Inductive MethodResponseError : Type := MrClosed | MrJsonRpcError.
(** What [notify] sends. *)
Definition notify (is_success : bool) : NotifyMsg := if is_success then NotifyOk else NotifyErr.
(** [MethodResponseFuture]: nothing yet, a message, or a sender that is gone. *)
Definition response_future (o : option (option NotifyMsg)) : option (Result MethodResponseError unit) :=
  match o with
  | Some (Some NotifyOk) => Some (Ok ())
  | Some (Some NotifyErr) => Some (Err MrJsonRpcError)
  | Some None => Some (Err MrClosed)
  | None => None
  end.

(** ** Responses *)
Inductive ResponseKind : Type := RkMethodCall | RkSubscription | RkBatch | RkNotification.
Inductive MethodResponseResult : Type := MrSuccess | MrFailed (code : Z).

Module MethodResponseResult.
Definition is_success (r : MethodResponseResult) : bool :=
  match r with MrSuccess => true | MrFailed _ => false end.
Definition is_error (r : MethodResponseResult) : bool :=
  match r with MrFailed _ => true | MrSuccess => false end.
Definition as_error_code (r : MethodResponseResult) : option Z :=
  match r with MrFailed e => Some e | MrSuccess => None end.
End MethodResponseResult.

(** [ResponsePayload] of the server: [on_exit] is the handle of the notification. *)
Record MrPayload (T : Type) : Type := MkMrPayload {
  mp_inner : ResponsePayload T;
  mp_on_exit : option nat
}.
Arguments MkMrPayload {T} _ _. Arguments mp_inner {T} _. Arguments mp_on_exit {T} _.

Module MrPayload.
Definition from {T} (inner : ResponsePayload T) : MrPayload T := MkMrPayload inner None.
Definition success {T} (t : T) : MrPayload T := from (ResponsePayload.success t).
Definition error {T} (e : ErrorObject) : MrPayload T := from (ResponsePayload.error e).
Definition from_code {T} (c : ErrorCode) : MrPayload T := error (ErrorObject.from c).
(** [tx] is the sender of the new channel; an earlier one is dropped. *)
Definition notify_on_completion {T} (tx : nat) (p : MrPayload T) : MrPayload T :=
  MkMrPayload (mp_inner p) (Some tx).
Definition into_owned {T} (p : MrPayload T) : MrPayload T :=
  MkMrPayload (ResponsePayload.into_owned (mp_inner p)) (mp_on_exit p).
End MrPayload.

Section Records.
Context {J : SerdeJson} {X : HttpExtensions}.
Record MethodResponse : Type := MkMethodResponse {
  mr_json : string;
  mr_success_or_error : MethodResponseResult;
  mr_kind : ResponseKind;
  mr_on_close : option nat;
  mr_extensions : Extensions
}.
Record BatchResponseBuilder : Type := MkBatchResponseBuilder {
  bb_result : string;
  bb_max_response_size : N;
  bb_extensions : Extensions
}.
(** [BatchResponse]. *)
Record SerializedBatch : Type := MkSerializedBatch {
  sb_json : string;
  sb_extensions : Extensions
}.

(** [to_raw_value(&Response::new(payload, id)).expect(..)] for an error payload. *)
Definition error_json (id : Id) (err : ErrorObject) : Result Panicked string :=
  ok_or (json_write (response_serialize (λ _ : unit, SerNull) (response_new (PayloadError err) id)))
    Panic.
Definition batch_response_error (id : Id) (err : ErrorObject) : Result Panicked string :=
  error_json id err.
End Records.

Module MethodResponse.
Section Ops.
Context {J : SerdeJson} {X : HttpExtensions}.
Definition is_success (m : MethodResponse) : bool :=
  MethodResponseResult.is_success (mr_success_or_error m).
Definition is_error (m : MethodResponse) : bool :=
  MethodResponseResult.is_error (mr_success_or_error m).
Definition is_subscription (m : MethodResponse) : bool :=
  match mr_kind m with RkSubscription => true | _ => false end.
Definition is_method_call (m : MethodResponse) : bool :=
  match mr_kind m with RkMethodCall => true | _ => false end.
Definition is_notification (m : MethodResponse) : bool :=
  match mr_kind m with RkNotification => true | _ => false end.
Definition is_batch (m : MethodResponse) : bool :=
  match mr_kind m with RkBatch => true | _ => false end.
Definition into_parts (m : MethodResponse) : string * option nat * Extensions :=
  (mr_json m, mr_on_close m, mr_extensions m).
Definition as_error_code (m : MethodResponse) : option Z :=
  MethodResponseResult.as_error_code (mr_success_or_error m).
Definition from_batch (b : SerializedBatch) : MethodResponse :=
  MkMethodResponse (sb_json b) MrSuccess RkBatch None (sb_extensions b).
Definition with_extensions (e : Extensions) (m : MethodResponse) : MethodResponse :=
  MkMethodResponse (mr_json m) (mr_success_or_error m) (mr_kind m) (mr_on_close m) e.
Definition set_kind (k : ResponseKind) (m : MethodResponse) : MethodResponse :=
  MkMethodResponse (mr_json m) (mr_success_or_error m) k (mr_on_close m) (mr_extensions m).

Definition response {T} (ser : T → Ser) (id : Id) (rp : MrPayload T) (max_response_size : N)
    : Result Panicked MethodResponse :=
  let success_or_error :=
    match mp_inner rp with
    | PayloadError e => MrFailed (ErrorObject.code e)
    | Success _ => MrSuccess
    end in
  let kind := RkMethodCall in
  let '(r, writer) :=
    to_writer (json_events (response_serialize ser (response_new (mp_inner rp) id)))
      (BoundedWriter.new max_response_size) in
  match r with
  | Ok _ =>
    json ← ok_or (de_raw (BoundedWriter.into_bytes writer)) Panic;
    Ok (MkMethodResponse json success_or_error kind (mp_on_exit rp) ext_new)
  | Err WeIo =>
    let data := json_write (SerStr ("Exceeded max limit of " +:+ to_dec max_response_size)) in
    let err_code := OVERSIZED_RESPONSE_CODE in
    json ← error_json id (ErrorObject.borrowed err_code OVERSIZED_RESPONSE_MSG data);
    Ok (MkMethodResponse json (MrFailed err_code) kind (mp_on_exit rp) ext_new)
  | Err WeCustom =>
    let err := InternalError in
    json ← error_json id (ErrorObject.from err);
    Ok (MkMethodResponse json (MrFailed (ErrorCode.code err)) kind (mp_on_exit rp) ext_new)
  end.

Definition subscription_response {T} (ser : T → Ser) (id : Id) (result : MrPayload T)
    (max_response_size : N) : Result Panicked MethodResponse :=
  rp ← response ser id result max_response_size; Ok (set_kind RkSubscription rp).

Definition error (id : Id) (err : ErrorObject) : Result Panicked MethodResponse :=
  let err_code := ErrorObject.code err in
  json ← error_json id err;
  Ok (MkMethodResponse json (MrFailed err_code) RkMethodCall None ext_new).
Definition subscription_error (id : Id) (err : ErrorObject) : Result Panicked MethodResponse :=
  rp ← error id err; Ok (set_kind RkSubscription rp).

Definition notification : MethodResponse :=
  MkMethodResponse "null" MrSuccess RkNotification None ext_new.
End Ops.
End MethodResponse.

Module BatchResponseBuilder.
Section Ops.
Context {J : SerdeJson} {X : HttpExtensions}.
Definition new_with_limit (limit : N) : BatchResponseBuilder :=
  MkBatchResponseBuilder "[" limit ext_new.

(** The inner result is the [Err] that ends the batch early. *)
Definition append (rp : MethodResponse) (b : BatchResponseBuilder)
    : Result Panicked (Result MethodResponse unit * BatchResponseBuilder) :=
  let len := (slen (mr_json rp) + slen (bb_result b) + 1)%N in
  let ext := ext_extend (bb_extensions b) (mr_extensions rp) in
  let b := MkBatchResponseBuilder (bb_result b) (bb_max_response_size b) ext in
  if decide (bb_max_response_size b < len)%N then
    e ← MethodResponse.error IdNull (reject_too_big_batch_response (bb_max_response_size b));
    Ok (Err e, b)
  else
    Ok (Ok (), MkBatchResponseBuilder (bb_result b +:+ mr_json rp +:+ ",")
                 (bb_max_response_size b) ext).

Definition is_empty (b : BatchResponseBuilder) : bool := bool_decide (slen (bb_result b) <= 1)%N.

Definition finish (b : BatchResponseBuilder) : Result Panicked SerializedBatch :=
  if decide (slen (bb_result b) = 1)%N then
    json ← batch_response_error IdNull (ErrorObject.from InvalidRequest);
    Ok (MkSerializedBatch json (bb_extensions b))
  else
    json ← ok_or (de_raw (drop_last (bb_result b) +:+ "]")) Panic;
    Ok (MkSerializedBatch json (bb_extensions b)).
End Ops.
End BatchResponseBuilder.

(** ** The writer and the limit *)
Lemma to_writer_spec es max buf : (slen buf <= max)%N →
  let '(t, ok) := events_text es in
  if decide (slen buf + slen t <= max)%N
  then to_writer es (MkBoundedWriter max buf) =
       (if ok then Ok () else Err WeCustom, MkBoundedWriter max (buf +:+ t))
  else fst (to_writer es (MkBoundedWriter max buf)) = Err WeIo.
Proof.
  revert buf. induction es as [|[s|] es IH]; intros buf Hb; cbn [events_text to_writer].
  - rewrite slen_nil, decide_True by lia. by rewrite append_nil_r.
  - unfold BoundedWriter.write; cbn [bw_buf bw_max_len].
    destruct (events_text es) as [t ok]. rewrite slen_append.
    destruct (decide (slen buf + slen s <= max)%N) as [H1|H1].
    + specialize (IH (buf +:+ s) ltac:(by rewrite slen_append)). rewrite slen_append in IH.
      rewrite append_assoc' in IH. repeat case_decide; try done; lia.
    + rewrite decide_False by lia. done.
  - rewrite slen_nil, decide_True by lia. by rewrite append_nil_r.
Qed.

Section Props.
Context {J : SerdeJson} {X : HttpExtensions}.

(** Error responses are written. *)
Definition errors_write (id : Id) : Prop := ∀ e, ∃ t, error_json id e = Ok t.

(** The text of a response, up to an error of the user's serialiser, and whether
    there was none. *)
Definition doc {T} (ser : T → Ser) (id : Id) (rp : MrPayload T) : string * bool :=
  events_text (json_events (response_serialize ser (response_new (mp_inner rp) id))).

Definition oversized (max : N) : ErrorObject :=
  ErrorObject.borrowed OVERSIZED_RESPONSE_CODE OVERSIZED_RESPONSE_MSG
    (json_write (SerStr ("Exceeded max limit of " +:+ to_dec max))).

(** C38: a call gets exactly its serialised response when that fits the limit, and
    the oversized error, with its code and its identifier, when it does not; a
    result that cannot be serialised is an internal error.  The writer that stops
    at the limit is thus equivalent to measuring the whole text, and a response
    that is no error is never longer than the limit. *)
Theorem response_limit {T} (ser : T → Ser) (id : Id) (rp : MrPayload T) (max : N) :
  errors_write id → (snd (doc ser id rp) = true → is_Some (json_read (fst (doc ser id rp)))) →
  ∃ m, MethodResponse.response ser id rp max = Ok m ∧
    MethodResponse.is_method_call m = true ∧ mr_on_close m = mp_on_exit rp ∧
    let '(t, ok) := doc ser id rp in
    (if decide (slen t <= max)%N then
       if ok then
         mr_json m = t ∧
         MethodResponse.as_error_code m =
           match mp_inner rp with PayloadError e => Some (ErrorObject.code e) | Success _ => None end
       else
         error_json id (ErrorObject.from InternalError) = Ok (mr_json m) ∧
         MethodResponse.as_error_code m = Some INTERNAL_ERROR_CODE
     else
       error_json id (oversized max) = Ok (mr_json m) ∧
       MethodResponse.as_error_code m = Some OVERSIZED_RESPONSE_CODE) ∧
    (MethodResponse.is_success m = true → (slen (mr_json m) <= max)%N).
Proof.
  intros He Hr. unfold MethodResponse.response, doc in *.
  pose proof (to_writer_spec
    (json_events (response_serialize ser (response_new (mp_inner rp) id))) max "" ltac:(rewrite slen_nil; lia)) as Hw.
  unfold BoundedWriter.new. destruct (events_text _) as [t ok]. cbn [fst snd] in Hr.
  change (slen "" + slen t)%N with (slen t) in Hw. case_decide as Hd.
  - rewrite Hw. cbn [String.append BoundedWriter.into_bytes bw_buf]. destruct ok.
    + destruct (Hr eq_refl) as [n Hn]. unfold de_raw. rewrite Hn. cbn.
      eexists. split; [reflexivity|]. by destruct (mp_inner rp).
    + destruct (He (ErrorObject.from InternalError)) as [j Hj].
      rewrite Hj. cbn. eexists. split; [reflexivity|]. done.
  - destruct (to_writer _ _) as [r w]. cbn in Hw. subst r.
    destruct (He (oversized max)) as [j Hj]. unfold oversized in *.
    rewrite Hj. cbn. eexists. split; [reflexivity|]. done.
Qed.

(** A response that fits. *)
Lemma response_fits {T} (ser : T → Ser) (id : Id) (rp : MrPayload T) (max : N) (t : string) :
  doc ser id rp = (t, true) → (slen t <= max)%N → is_Some (json_read t) →
  MethodResponse.response ser id rp max = Ok (MkMethodResponse t
    (match mp_inner rp with PayloadError e => MrFailed (ErrorObject.code e) | Success _ => MrSuccess end)
    RkMethodCall (mp_on_exit rp) ext_new).
Proof.
  intros Hd Hl [n Hn]. unfold doc in Hd. unfold MethodResponse.response, BoundedWriter.new.
  pose proof (to_writer_spec
    (json_events (response_serialize ser (response_new (mp_inner rp) id))) max "" ltac:(rewrite slen_nil; lia)) as Hw.
  rewrite Hd in Hw. change (slen "" + slen t)%N with (slen t) in Hw. rewrite decide_True in Hw by done.
  rewrite Hw. cbn [String.append BoundedWriter.into_bytes bw_buf]. unfold de_raw. by rewrite Hn.
Qed.

(** ** The batch builder *)

(** Appends until the limit is exceeded. *)
Fixpoint append_all (rs : list MethodResponse) (b : BatchResponseBuilder)
    : Result Panicked (Result MethodResponse unit * BatchResponseBuilder) :=
  match rs with
  | [] => Ok (Ok (), b)
  | r :: rs' =>
    '(o, b') ← BatchResponseBuilder.append r b;
    match o with Ok _ => append_all rs' b' | Err e => Ok (Err e, b') end
  end.

(** Length of the text of the batch. *)
Definition batch_len (rs : list MethodResponse) : N :=
  (1 + slen (commas (mr_json <$> rs)))%N.

Lemma batch_len_text rs : rs ≠ [] →
  slen ("[" +:+ join (mr_json <$> rs) +:+ "]") = batch_len rs.
Proof.
  intros Hne. unfold batch_len. rewrite commas_join by (by destruct rs).
  slen_norm. lia.
Qed.

(** The builder after the texts [ts]. *)
Definition builder (ts : list string) (limit : N) (ext : Extensions) : BatchResponseBuilder :=
  MkBatchResponseBuilder ("[" +:+ commas ts) limit ext.

Lemma append_spec ts limit ext r (He : errors_write IdNull) : ∃ ext' e,
  MethodResponse.error IdNull (reject_too_big_batch_response limit) = Ok e ∧
  BatchResponseBuilder.append r (builder ts limit ext) =
    if decide (1 + slen (commas (ts ++ [mr_json r])) <= limit)%N
    then Ok (Ok (), builder (ts ++ [mr_json r]) limit ext')
    else Ok (Err e, builder ts limit ext').
Proof.
  destruct (He (reject_too_big_batch_response limit)) as [j Hj].
  unfold BatchResponseBuilder.append, builder; cbn [bb_result bb_max_response_size bb_extensions].
  assert (commas (ts ++ [mr_json r]) = commas ts +:+ mr_json r +:+ ",") as Hc by (by rewrite commas_app).
  assert (slen (commas (ts ++ [mr_json r])) = slen (commas ts) + slen (mr_json r) + 1)%N as Hn.
  { rewrite Hc. slen_norm. lia. }
  assert (slen ("[" +:+ commas ts) = 1 + slen (commas ts))%N as Hl by (rewrite slen_append; done).
  unfold MethodResponse.error. rewrite Hj. cbn [mbind result_bind]. eexists _, _. split; [done|].
  case_decide; [by rewrite decide_False by lia|]. rewrite decide_True by lia.
  by rewrite Hc, append_assoc'.
Qed.

Lemma append_all_spec rs ts limit ext (He : errors_write IdNull) :
  (1 + slen (commas ts) <= limit)%N →
  if decide (1 + slen (commas (ts ++ (mr_json <$> rs))) <= limit)%N
  then ∃ ext', append_all rs (builder ts limit ext) =
         Ok (Ok (), builder (ts ++ (mr_json <$> rs)) limit ext')
  else ∃ e b', append_all rs (builder ts limit ext) = Ok (Err e, b') ∧
         MethodResponse.error IdNull (reject_too_big_batch_response limit) = Ok e.
Proof.
  revert ts ext. induction rs as [|r rs IH]; intros ts ext Hb; cbn [append_all].
  { cbn [fmap list_fmap]. rewrite app_nil_r. rewrite decide_True by done. by exists ext. }
  destruct (append_spec ts limit ext r He) as (ext' & e & E & ->).
  replace (ts ++ (mr_json <$> r :: rs)) with ((ts ++ [mr_json r]) ++ (mr_json <$> rs))
    by (by rewrite <-app_assoc).
  destruct (decide (1 + slen (commas (ts ++ [mr_json r])) <= limit)%N) as [H1|H1].
  - cbn. by apply IH.
  - rewrite decide_False; [eexists _, _; by split|]. rewrite commas_app, slen_append. lia.
Qed.

Lemma finish_spec rs limit ext (He : errors_write IdNull) :
  is_Some (json_read ("[" +:+ join (mr_json <$> rs) +:+ "]")) → (batch_len rs <= limit)%N →
  ∃ sb, BatchResponseBuilder.finish (builder (mr_json <$> rs) limit ext) = Ok sb ∧
    match rs with
    | [] => batch_response_error IdNull (ErrorObject.from InvalidRequest) = Ok (sb_json sb)
    | _ => sb_json sb = "[" +:+ join (mr_json <$> rs) +:+ "]" ∧ (slen (sb_json sb) <= limit)%N
    end.
Proof.
  intros [n Hn] Hl. unfold BatchResponseBuilder.finish, builder. cbn [bb_result bb_extensions].
  destruct rs as [|r rs].
  - rewrite decide_True by done. destruct (He (ErrorObject.from InvalidRequest)) as [j Hj].
    unfold batch_response_error. rewrite Hj. by eexists.
  - rewrite decide_False; [|cbn [fmap list_fmap commas]; slen_norm; lia].
    rewrite commas_join by done. rewrite <-append_assoc', drop_last_append.
    rewrite append_assoc'. unfold de_raw. rewrite Hn. eexists. split; [done|]. cbn [sb_json].
    split; [done|]. by rewrite batch_len_text.
Qed.

(** The responses of a batch are joined into one JSON array, in order, when
    its text fits the limit; otherwise the batch is answered by the error of the
    limit, with a null identifier, and the array is never longer than the limit.
    A batch without responses gives the invalid request error. *)
Theorem batch_response_limit (rs : list MethodResponse) (limit : N) :
  errors_write IdNull → (1 <= limit)%N →
  is_Some (json_read ("[" +:+ join (mr_json <$> rs) +:+ "]")) →
  ∃ o b', append_all rs (BatchResponseBuilder.new_with_limit limit) = Ok (o, b') ∧
    if decide (batch_len rs <= limit)%N then
      o = Ok () ∧ ∃ sb, BatchResponseBuilder.finish b' = Ok sb ∧
        match rs with
        | [] => batch_response_error IdNull (ErrorObject.from InvalidRequest) = Ok (sb_json sb)
        | _ => sb_json sb = "[" +:+ join (mr_json <$> rs) +:+ "]" ∧ (slen (sb_json sb) <= limit)%N
        end
    else
      ∃ e, o = Err e ∧
        MethodResponse.error IdNull (reject_too_big_batch_response limit) = Ok e.
Proof.
  intros He Hl Hn.
  pose proof (append_all_spec rs [] limit ext_new He ltac:(cbn [commas]; rewrite slen_nil; lia)) as Ha.
  change (slen (commas ([] ++ (mr_json <$> rs)))) with (slen (commas (mr_json <$> rs))) in Ha.
  fold (batch_len rs) in Ha. change (builder [] limit ext_new) with
    (BatchResponseBuilder.new_with_limit limit) in Ha. cbn [app] in Ha. case_decide.
  - destruct Ha as [ext' ->]. eexists _, _. split; [done|]. split; [done|].
    by apply finish_spec.
  - destruct Ha as (e & b' & -> & E). eexists _, _. split; [done|]. by exists e.
Qed.
End Props.

(** ** Witnesses *)
Section Witnesses.
#[local] Existing Instance ref_json.
#[local] Existing Instance ref_ext.

Lemma ref_errors_write id : errors_write id.
Proof. intros [c m [d|]]; destruct id; eexists; reflexivity. Qed.

Lemma response_limit_witness :
  ∃ m, MethodResponse.response SerStr (IdNumber 1) (MrPayload.success "a") 36 = Ok m ∧
    MethodResponse.as_error_code m = Some OVERSIZED_RESPONSE_CODE.
Proof.
  destruct (response_limit SerStr (IdNumber 1) (MrPayload.success "a") 36
    (ref_errors_write _) ltac:(intros _; vm_compute; eauto)) as (m & Hm & _ & _ & Hd).
  exists m. split; [exact Hm|].
  change (doc SerStr (IdNumber 1) (MrPayload.success "a"))
    with (q "{'jsonrpc':'2.0','id':1,'result':'a'}", true) in Hd.
  apply Hd.
Defined.

Definition ref_mr (t : string) : MethodResponse := MkMethodResponse t MrSuccess RkMethodCall None ext_new.
Lemma batch_response_limit_witness :
  ∃ b' sb, append_all [ref_mr "1"; ref_mr "22"] (BatchResponseBuilder.new_with_limit 6) = Ok (Ok (), b') ∧
    BatchResponseBuilder.finish b' = Ok sb ∧ sb_json sb = "[1,22]".
Proof.
  destruct (batch_response_limit [ref_mr "1"; ref_mr "22"] 6 (ref_errors_write _) ltac:(done)
    ltac:(vm_compute; eauto)) as (o & b' & E & H).
  rewrite decide_True in H by (vm_compute; done).
  destruct H as [-> (sb & Hf & Hs & _)]. by exists b', sb.
Defined.
End Witnesses.
