(* ===== verification/Subscription.v ===== *)
(** Subscriptions on the server: [core/src/server/subscription.rs],
    [core/src/server/helpers.rs] and [core/src/server/error.rs].

    The shared objects live in a [SrvWorld] and are named by handles: the channel
    of a connection, the table of subscribers of a method, the channel that tells
    a subscription it was unsubscribed, the oneshot that answers a subscribe call,
    and the semaphore of a connection. *)
From stdpp Require Import base gmap strings list.
From S2P Require Import Prelude Serde RefJson Errors Params Wire MethodResponse.

Definition ConnectionId : Type := N.

(** [IdProvider] is implemented outside: [next_id] is a function of its state. *)
Record SubscriptionKey : Type := MkSubscriptionKey {
  sk_conn_id : N;
  sk_sub_id : SubscriptionId
}.
#[export] Instance SubscriptionKey_eq_dec : EqDecision SubscriptionKey.
Proof. solve_decision. Defined.
#[export] Instance SubscriptionKey_countable : Countable SubscriptionKey.
Proof.
  refine (inj_countable' (λ k, (sk_conn_id k, sk_sub_id k))
    (λ p, MkSubscriptionKey p.1 p.2) _). by intros [].
Defined.

(** ** Messages *)
Inductive SubscriptionMessage : Type :=
| Complete (json : string)
| NeedsData (json : string).
Inductive SubscriptionError : Type :=
| SubErrString (s : string)
| SubErrJson (json : string).
Inductive SubscriptionCloseResponse : Type :=
| CloseNone
| CloseNotif (m : SubscriptionMessage)
| CloseNotifErr (e : SubscriptionError).

Definition subscription_error_serialize (e : SubscriptionError) : Ser :=
  match e with SubErrString s => SerStr s | SubErrJson json => SerRaw json end.

(** [IntoSubscriptionCloseResponse] of a [Result] and of the unit. *)
Definition result_into_response (r : Result SubscriptionError unit) : SubscriptionCloseResponse :=
  match r with Ok _ => CloseNone | Err e => CloseNotifErr e end.
Definition unit_into_response (_ : unit) : SubscriptionCloseResponse := CloseNone.

(** Errors of the sinks; the message comes back. *)
Inductive TrySendError : Type := TsClosed (m : SubscriptionMessage) | TsFull (m : SubscriptionMessage).
Inductive DisconnectError : Type := Disconnect (m : SubscriptionMessage).
Inductive SendTimeoutError : Type :=
| StTimeout (m : SubscriptionMessage)
| StClosed (m : SubscriptionMessage).

Section Json.
Context {J : SerdeJson} {X : HttpExtensions}.

Definition subscription_response_ser (method : string) (sub_id : SubscriptionId) (result : Ser) : Ser :=
  notification_serialize (subscription_payload_serialize "result" id)
    (notification_new method (MkSubscriptionPayload sub_id result)).

(** [SubscriptionMessage::new]. *)
Definition subscription_message_new (method : string) (subscription : SubscriptionId) (result : Ser)
    : Result unit SubscriptionMessage :=
  json ← ok_or (json_write (subscription_response_ser method subscription result)) ();
  Ok (Complete json).

Definition sub_message_to_json (msg : SubscriptionMessage) (sub_id : SubscriptionId) (method : string)
    : Result Panicked string :=
  match msg with
  | Complete msg => Ok msg
  | NeedsData result =>
    ok_or (json_write (subscription_response_ser method sub_id (SerRaw result))) Panic
  end.
Definition sub_err_to_json (error : SubscriptionError) (sub_id : SubscriptionId) (method : string)
    : Result Panicked string :=
  ok_or (json_write
    (notification_serialize (subscription_payload_serialize "error" id)
       (notification_new method (MkSubscriptionPayload sub_id (subscription_error_serialize error)))))
    Panic.

(** [prepare_error]. *)
Definition prepare_error (data : string) : Id * ErrorCode :=
  match invalid_request_deserialize data with
  | Some r => (inv_id r, InvalidRequest)
  | None => (IdNull, ParseError)
  end.
End Json.

(** ** Shared objects *)

(** The bounded channel of a connection; the receiver is the transport. *)
Record ConnChan : Type := MkConnChan {
  cc_cap : nat;
  cc_queue : list string;
  cc_closed : bool
}.
Record MethodSink : Type := MkMethodSink {
  ms_tx : nat;
  ms_max_response_size : N
}.
Record Semaphore : Type := MkSemaphore { sem_max : N; sem_available : N }.

Section World.
Context {J : SerdeJson} {X : HttpExtensions}.

(** The oneshot that answers a subscribe call. *)
Inductive Answer : Type :=
| AwWaiting
| AwRxDropped
| AwDropped
| AwSent (m : MethodResponse).

Record SrvWorld : Type := MkSrvWorld {
  sw_chans : gmap nat ConnChan;
  sw_subscribers : gmap nat (gmap SubscriptionKey (MethodSink * nat));
  (** The unsubscribe channels whose receiver is alive. *)
  sw_active : gset nat;
  sw_answers : gmap nat Answer;
  sw_semaphores : gmap nat Semaphore;
  (** The next handle of an unsubscribe channel. *)
  sw_next : nat
}.

Definition set_chans c (w : SrvWorld) : SrvWorld :=
  MkSrvWorld c (sw_subscribers w) (sw_active w) (sw_answers w) (sw_semaphores w) (sw_next w).
Definition set_subscribers s (w : SrvWorld) : SrvWorld :=
  MkSrvWorld (sw_chans w) s (sw_active w) (sw_answers w) (sw_semaphores w) (sw_next w).
Definition set_active a (w : SrvWorld) : SrvWorld :=
  MkSrvWorld (sw_chans w) (sw_subscribers w) a (sw_answers w) (sw_semaphores w) (sw_next w).
Definition set_answers a (w : SrvWorld) : SrvWorld :=
  MkSrvWorld (sw_chans w) (sw_subscribers w) (sw_active w) a (sw_semaphores w) (sw_next w).
Definition set_semaphores s (w : SrvWorld) : SrvWorld :=
  MkSrvWorld (sw_chans w) (sw_subscribers w) (sw_active w) (sw_answers w) s (sw_next w).

(** A channel that does not exist counts as closed. *)
Definition get_chan (h : nat) (w : SrvWorld) : ConnChan := default (MkConnChan 0 [] true) (sw_chans w !! h).
Definition subscribers_of (h : nat) (w : SrvWorld) : gmap SubscriptionKey (MethodSink * nat) :=
  default ∅ (sw_subscribers w !! h).

(** ** [MethodSink] *)
Definition method_sink_new (tx : nat) : MethodSink := MkMethodSink tx u32_max.
Definition method_sink_new_with_limit (tx : nat) (max_response_size : N) : MethodSink :=
  MkMethodSink tx max_response_size.
Definition sink_is_closed (s : MethodSink) (w : SrvWorld) : bool := cc_closed (get_chan (ms_tx s) w).
Definition sink_capacity (s : MethodSink) (w : SrvWorld) : nat :=
  cc_cap (get_chan (ms_tx s) w) - length (cc_queue (get_chan (ms_tx s) w)).
(** [closed] of the sender: [None] is waiting. *)
Definition sink_closed (s : MethodSink) (w : SrvWorld) : option unit := if sink_is_closed s w then Some () else None.
Definition sink_max_capacity (s : MethodSink) (w : SrvWorld) : nat := cc_cap (get_chan (ms_tx s) w).

Definition enqueue (s : MethodSink) (msg : string) (w : SrvWorld) : SrvWorld :=
  let c := get_chan (ms_tx s) w in
  set_chans (<[ms_tx s := MkConnChan (cc_cap c) (cc_queue c ++ [msg]) (cc_closed c)]> (sw_chans w)) w.

Definition sink_try_send (s : MethodSink) (msg : string) (w : SrvWorld)
    : Result TrySendError unit * SrvWorld :=
  if sink_is_closed s w then (Err (TsClosed (Complete msg)), w)
  else if decide (0 < sink_capacity s w) then (Ok (), enqueue s msg w)
  else (Err (TsFull (Complete msg)), w).
(** [send] waits while the channel is full: [None]. *)
Definition sink_send (s : MethodSink) (msg : string) (w : SrvWorld)
    : option (Result DisconnectError unit * SrvWorld) :=
  match sink_try_send s msg w with
  | (Ok _, w') => Some (Ok (), w')
  | (Err (TsClosed m), w') => Some (Err (Disconnect m), w')
  | (Err (TsFull _), _) => None
  end.
(** [send_timeout]: when the channel is still full at the deadline. *)
Definition sink_send_timeout (s : MethodSink) (msg : string) (w : SrvWorld)
    : Result SendTimeoutError unit * SrvWorld :=
  match sink_try_send s msg w with
  | (Ok _, w') => (Ok (), w')
  | (Err (TsClosed m), w') => (Err (StClosed m), w')
  | (Err (TsFull m), w') => (Err (StTimeout m), w')
  end.
(** [send_error]; [None] is waiting. *)
Definition sink_send_error (s : MethodSink) (id : Id) (err : ErrorObject) (w : SrvWorld)
    : Result Panicked (option (Result DisconnectError unit * SrvWorld)) :=
  json ← error_json id err; Ok (sink_send s json w).
(** [has_capacity]. *)
Definition sink_has_capacity (s : MethodSink) (w : SrvWorld) : option (Result DisconnectError unit) :=
  if sink_is_closed s w then Some (Err (Disconnect (NeedsData "null")))
  else if decide (0 < sink_capacity s w) then Some (Ok ()) else None.

(** ** [BoundedSubscriptions] *)
Definition bounded_new (max_subscriptions : N) : Semaphore :=
  MkSemaphore max_subscriptions max_subscriptions.
(** The permit is the handle of its semaphore. *)
Definition acquire (h : nat) (w : SrvWorld) : option nat * SrvWorld :=
  match sw_semaphores w !! h with
  | Some s =>
    if decide (0 < sem_available s)%N
    then (Some h, set_semaphores
                    (<[h := MkSemaphore (sem_max s) (sem_available s - 1)]> (sw_semaphores w)) w)
    else (None, w)
  | None => (None, w)
  end.
Definition bounded_max (h : nat) (w : SrvWorld) : N :=
  match sw_semaphores w !! h with Some s => sem_max s | None => 0%N end.
(** A permit that is dropped goes back. *)
Definition release (h : nat) (w : SrvWorld) : SrvWorld :=
  match sw_semaphores w !! h with
  | Some s =>
    set_semaphores (<[h := MkSemaphore (sem_max s) (sem_available s + 1)]> (sw_semaphores w)) w
  | None => w
  end.

(** ** Answers of subscribe calls *)
Definition answer_send (h : nat) (m : MethodResponse) (w : SrvWorld) : bool * SrvWorld :=
  match sw_answers w !! h with
  | Some AwWaiting => (true, set_answers (<[h := AwSent m]> (sw_answers w)) w)
  | Some AwRxDropped => (false, set_answers (<[h := AwDropped]> (sw_answers w)) w)
  | _ => (false, w)
  end.
Definition answer_drop (h : nat) (w : SrvWorld) : SrvWorld :=
  match sw_answers w !! h with
  | Some AwWaiting | Some AwRxDropped => set_answers (<[h := AwDropped]> (sw_answers w)) w
  | _ => w
  end.

(** ** [PendingSubscriptionSink] *)
Record PendingSubscriptionSink : Type := MkPending {
  ps_inner : MethodSink;
  ps_method : string;
  ps_subscribers : nat;
  ps_uniq_sub : SubscriptionKey;
  ps_id : Id;
  ps_subscribe : nat;
  ps_permit : nat
}.
Record SubscriptionSink : Type := MkSubscriptionSink {
  ss_inner : MethodSink;
  ss_method : string;
  ss_subscribers : nat;
  ss_uniq_sub : SubscriptionKey;
  ss_unsubscribe : nat;
  ss_permit : nat
}.

Definition pending_connection_id (p : PendingSubscriptionSink) : ConnectionId := sk_conn_id (ps_uniq_sub p).
Definition pending_capacity (p : PendingSubscriptionSink) : SrvWorld → nat := sink_capacity (ps_inner p).
Definition pending_max_capacity (p : PendingSubscriptionSink) : SrvWorld → nat := sink_max_capacity (ps_inner p).
Definition pending_method_name (p : PendingSubscriptionSink) : string := ps_method p.

(** A pending sink that goes out of scope. *)
Definition pending_drop (p : PendingSubscriptionSink) (w : SrvWorld) : SrvWorld :=
  release (ps_permit p) (answer_drop (ps_subscribe p) w).

(** [reject]: the answer is sent to the connection, then to the caller.  [None]
    while the channel of the connection is full. *)
Definition reject (p : PendingSubscriptionSink) (err : ErrorObject) (w : SrvWorld)
    : Result Panicked (option SrvWorld) :=
  rp ← MethodResponse.subscription_error (ps_id p) err;
  Ok (match sink_send (ps_inner p) (mr_json rp) w with
      | None => None
      | Some (_, w1) =>
        let '(_, w2) := answer_send (ps_subscribe p) rp w1 in
        Some (release (ps_permit p) w2)
      end).

(** [accept], in the steps another task can see. *)
Definition accept_response (p : PendingSubscriptionSink) : Result Panicked MethodResponse :=
  MethodResponse.subscription_response SubscriptionId.serialize (ps_id p)
    (MrPayload.success (sk_sub_id (ps_uniq_sub p))) (ms_max_response_size (ps_inner p)).
Inductive AcceptError : Type := AeClosed | AePanic.
Definition accept_insert (p : PendingSubscriptionSink) (w : SrvWorld) : SubscriptionSink * SrvWorld :=
  let h := sw_next w in
  let old := subscribers_of (ps_subscribers p) w !! ps_uniq_sub p in
  let w := MkSrvWorld (sw_chans w)
    (<[ps_subscribers p := <[ps_uniq_sub p := (ps_inner p, h)]> (subscribers_of (ps_subscribers p) w)]>
       (sw_subscribers w))
    ({[h]} ∪ match old with Some (_, o) => sw_active w ∖ {[o]} | None => sw_active w end)
    (sw_answers w) (sw_semaphores w) (S h) in
  (MkSubscriptionSink (ps_inner p) (ps_method p) (ps_subscribers p) (ps_uniq_sub p) h (ps_permit p), w).
Definition accept (p : PendingSubscriptionSink) (w : SrvWorld)
    : option (Result AcceptError SubscriptionSink * SrvWorld) :=
  match accept_response p with
  | Err _ => Some (Err AePanic, pending_drop p w)
  | Ok response =>
    let success := MethodResponse.is_success response in
    match sink_send (ps_inner p) (mr_json response) w with
    | None => None
    | Some (Err _, w1) => Some (Err AeClosed, pending_drop p w1)
    | Some (Ok _, w1) =>
      match answer_send (ps_subscribe p) response w1 with
      | (false, w2) => Some (Err AeClosed, release (ps_permit p) w2)
      | (true, w2) =>
        if success then
          let '(sink, w3) := accept_insert p w2 in Some (Ok sink, w3)
        else Some (Err AePanic, release (ps_permit p) w2)
      end
    end
  end.

(** ** [SubscriptionSink] *)
Definition is_unsubscribed (h : nat) (w : SrvWorld) : bool := bool_decide (h ∉ sw_active w).
Definition unsubscribed (h : nat) (w : SrvWorld) : option unit := if is_unsubscribed h w then Some () else None.
Definition is_active_subscription (s : SubscriptionSink) (w : SrvWorld) : bool :=
  negb (is_unsubscribed (ss_unsubscribe s) w).
Definition sub_is_closed (s : SubscriptionSink) (w : SrvWorld) : bool :=
  sink_is_closed (ss_inner s) w || negb (is_active_subscription s w).
(** [closed]: a select over both. *)
Definition sub_closed (s : SubscriptionSink) (w : SrvWorld) : option unit :=
  match sink_closed (ss_inner s) w with Some _ => Some () | None => unsubscribed (ss_unsubscribe s) w end.
Definition sub_subscription_id (s : SubscriptionSink) : SubscriptionId := sk_sub_id (ss_uniq_sub s).
Definition sub_method_name (s : SubscriptionSink) : string := ss_method s.
Definition sub_connection_id (s : SubscriptionSink) : ConnectionId := sk_conn_id (ss_uniq_sub s).
Definition sub_capacity (s : SubscriptionSink) : SrvWorld → nat := sink_capacity (ss_inner s).
Definition sub_max_capacity (s : SubscriptionSink) : SrvWorld → nat := sink_max_capacity (ss_inner s).

Definition sub_json (s : SubscriptionSink) (msg : SubscriptionMessage) : Result Panicked string :=
  sub_message_to_json msg (sk_sub_id (ss_uniq_sub s)) (ss_method s).
Definition sub_send (s : SubscriptionSink) (msg : SubscriptionMessage) (w : SrvWorld)
    : Result Panicked (option (Result DisconnectError unit * SrvWorld)) :=
  if sub_is_closed s w then Ok (Some (Err (Disconnect msg), w))
  else json ← sub_json s msg; Ok (sink_send (ss_inner s) json w).
Definition sub_send_timeout (s : SubscriptionSink) (msg : SubscriptionMessage) (w : SrvWorld)
    : Result Panicked (Result SendTimeoutError unit * SrvWorld) :=
  if sub_is_closed s w then Ok (Err (StClosed msg), w)
  else json ← sub_json s msg; Ok (sink_send_timeout (ss_inner s) json w).
Definition sub_try_send (s : SubscriptionSink) (msg : SubscriptionMessage) (w : SrvWorld)
    : Result Panicked (Result TrySendError unit * SrvWorld) :=
  if sub_is_closed s w then Ok (Err (TsClosed msg), w)
  else json ← sub_json s msg; Ok (sink_try_send (ss_inner s) json w).

(** Removes an entry of the table, and with it the receiver of its channel. *)
Definition remove_subscriber (tbl : nat) (key : SubscriptionKey) (w : SrvWorld) : bool * SrvWorld :=
  match subscribers_of tbl w !! key with
  | Some (_, h) =>
    (true, set_active (sw_active w ∖ {[h]})
             (set_subscribers (<[tbl := delete key (subscribers_of tbl w)]> (sw_subscribers w)) w))
  | None => (false, w)
  end.
(** [drop] of a sink, or of a clone of it; [last] says whether the permit is not
    shared any more. *)
Definition sub_drop (s : SubscriptionSink) (last : bool) (w : SrvWorld) : SrvWorld :=
  let w :=
    if is_active_subscription s w
    then snd (remove_subscriber (ss_subscribers s) (ss_uniq_sub s) w) else w in
  if last then release (ss_permit s) w else w.
End World.

(** ** The subscriptions of a server as a transition system

    The pending sinks and the sinks that are alive, next to the world.  A step is
    one of the operations of the user's callback, of the server that takes a
    permit for a subscribe call, or of the connection. *)
Section System.
Context {J : SerdeJson} {X : HttpExtensions}.

Record Sys : Type := MkSys {
  sy_world : SrvWorld;
  sy_pending : list PendingSubscriptionSink;
  sy_sinks : list SubscriptionSink
}.

Inductive sys_step : Sys → Sys → Prop :=
| StepSubscribe w ps ss h p w' :
    acquire h w = (Some h, w') → ps_permit p = h →
    sys_step (MkSys w ps ss) (MkSys w' (p :: ps) ss)
| StepTooMany w ps ss h w' :
    acquire h w = (None, w') → sys_step (MkSys w ps ss) (MkSys w' ps ss)
| StepAccept w ps1 p ps2 ss sink w' :
    accept p w = Some (Ok sink, w') →
    sys_step (MkSys w (ps1 ++ p :: ps2) ss) (MkSys w' (ps1 ++ ps2) (sink :: ss))
| StepAcceptFails w ps1 p ps2 ss e w' :
    accept p w = Some (Err e, w') →
    sys_step (MkSys w (ps1 ++ p :: ps2) ss) (MkSys w' (ps1 ++ ps2) ss)
| StepReject w ps1 p ps2 ss err w' :
    reject p err w = Ok (Some w') →
    sys_step (MkSys w (ps1 ++ p :: ps2) ss) (MkSys w' (ps1 ++ ps2) ss)
| StepPendingDrop w ps1 p ps2 ss :
    sys_step (MkSys w (ps1 ++ p :: ps2) ss) (MkSys (pending_drop p w) (ps1 ++ ps2) ss)
| StepSend w ps ss s msg r w' :
    s ∈ ss → sub_send s msg w = Ok (Some (r, w')) →
    sys_step (MkSys w ps ss) (MkSys w' ps ss)
| StepTrySend w ps ss s msg r w' :
    s ∈ ss → sub_try_send s msg w = Ok (r, w') →
    sys_step (MkSys w ps ss) (MkSys w' ps ss)
| StepCloneDrop w ps ss s :
    s ∈ ss → sys_step (MkSys w ps ss) (MkSys (sub_drop s false w) ps ss)
| StepDrop w ps ss1 s ss2 :
    sys_step (MkSys w ps (ss1 ++ s :: ss2)) (MkSys (sub_drop s true w) ps (ss1 ++ ss2))
| StepUnsubscribe w ps ss tbl key :
    sys_step (MkSys w ps ss) (MkSys (snd (remove_subscriber tbl key w)) ps ss)
| StepReceive w ps ss h c :
    (** The transport takes messages from its channel, or closes it. *)
    sys_step (MkSys w ps ss) (MkSys (set_chans (<[h := c]> (sw_chans w)) w) ps ss).

(** Permits of the semaphore [h] in use. *)
Definition held (h : nat) (s : Sys) : N :=
  N.of_nat (length (filter (λ x, x = h) ((ps_permit <$> sy_pending s) ++ (ss_permit <$> sy_sinks s)))).
Definition available (h : nat) (w : SrvWorld) : option (N * N) :=
  (λ s, (sem_max s, sem_available s)) <$> sw_semaphores w !! h.
Definition permits_ok (s : Sys) : Prop :=
  ∀ h m a, available h (sy_world s) = Some (m, a) → (a + held h s = m)%N.

(** The semaphores after an operation, in terms of those before. *)
Lemma sink_try_send_semaphores s msg w : sw_semaphores (snd (sink_try_send s msg w)) = sw_semaphores w.
Proof. unfold sink_try_send. by repeat case_match. Qed.
Lemma sink_send_semaphores s msg w r w' :
  sink_send s msg w = Some (r, w') → sw_semaphores w' = sw_semaphores w.
Proof.
  unfold sink_send. pose proof (sink_try_send_semaphores s msg w) as E.
  destruct (sink_try_send s msg w) as [[|[]] w1]; cbn in E; intros; by simplify_eq.
Qed.
Lemma answer_send_semaphores h m w : sw_semaphores (snd (answer_send h m w)) = sw_semaphores w.
Proof. unfold answer_send. by repeat case_match. Qed.
Lemma answer_drop_semaphores h w : sw_semaphores (answer_drop h w) = sw_semaphores w.
Proof. unfold answer_drop. by repeat case_match. Qed.
Lemma remove_subscriber_semaphores t k w : sw_semaphores (snd (remove_subscriber t k w)) = sw_semaphores w.
Proof. unfold remove_subscriber. by repeat case_match. Qed.
Lemma accept_insert_semaphores p w : sw_semaphores (snd (accept_insert p w)) = sw_semaphores w.
Proof. done. Qed.

Lemma available_same h w w' : sw_semaphores w' = sw_semaphores w → available h w' = available h w.
Proof. unfold available. by intros ->. Qed.
Lemma available_release h h' w :
  available h (release h' w) =
  if decide (h = h') then (λ p, (p.1, p.2 + 1)%N) <$> available h w else available h w.
Proof.
  unfold release, available. destruct (sw_semaphores w !! h') as [s|] eqn:E; cbn.
  - case_decide as Hd; subst; [by rewrite lookup_insert_eq, E|by rewrite lookup_insert_ne].
  - case_decide as Hd; subst; by rewrite ?E.
Qed.

(** [accept] leaves the permit with the sink, or gives it back. *)
Lemma accept_ok_permit p w sink w' : accept p w = Some (Ok sink, w') →
  ss_permit sink = ps_permit p ∧ sw_semaphores w' = sw_semaphores w.
Proof.
  unfold accept. destruct (accept_response p) as [rp|]; [|done].
  destruct (sink_send _ _ _) as [[[[]|[]] w1]|] eqn:Es; try done.
  apply sink_send_semaphores in Es.
  pose proof (answer_send_semaphores (ps_subscribe p) rp w1) as Ea.
  destruct (answer_send _ _ _) as [[] w2]; [|by intros [=]].
  destruct (MethodResponse.is_success rp); [|by intros [=]].
  intros [= <- <-]. cbn in *. split; [done|]. congruence.
Qed.
Lemma accept_err_permit p w e w' : accept p w = Some (Err e, w') →
  ∃ w0, w' = release (ps_permit p) w0 ∧ sw_semaphores w0 = sw_semaphores w.
Proof.
  unfold accept. destruct (accept_response p) as [rp|].
  2: { intros. simplify_eq. eexists. split; [done|]. apply answer_drop_semaphores. }
  destruct (sink_send _ _ _) as [[[[]|[]] w1]|] eqn:Es; try done;
    apply sink_send_semaphores in Es.
  - pose proof (answer_send_semaphores (ps_subscribe p) rp w1) as Ea.
    destruct (answer_send _ _ _) as [[] w2]; cbn in Ea.
    + case_match; [done|]. intros. simplify_eq. eexists. split; [done|]. congruence.
    + intros. simplify_eq. eexists. split; [done|]. congruence.
  - intros. simplify_eq. eexists. split; [done|]. rewrite answer_drop_semaphores. done.
Qed.
Lemma reject_permit p err w w' : reject p err w = Ok (Some w') →
  ∃ w0, w' = release (ps_permit p) w0 ∧ sw_semaphores w0 = sw_semaphores w.
Proof.
  unfold reject. destruct (MethodResponse.subscription_error _ _) as [rp|]; [|done]. cbn.
  destruct (sink_send _ _ _) as [[r w1]|] eqn:Es; [|done]. apply sink_send_semaphores in Es.
  pose proof (answer_send_semaphores (ps_subscribe p) rp w1) as Ea.
  destruct (answer_send _ _ _) as [ok w2]; cbn in Ea. intros. simplify_eq.
  eexists. split; [done|]. congruence.
Qed.

Lemma count_perm (h : nat) (l l' : list nat) : l ≡ₚ l' →
  length (filter (λ x, x = h) l) = length (filter (λ x, x = h) l').
Proof. by intros ->. Qed.
Lemma held_take h w ps ss p w' :
  held h (MkSys w' (p :: ps) ss) = (held h (MkSys w ps ss) + if decide (ps_permit p = h) then 1 else 0)%N.
Proof.
  unfold held; cbn [sy_pending sy_sinks fmap list_fmap app].
  rewrite filter_cons. case_decide; cbn [length]; lia.
Qed.
Lemma held_move h w ps1 p ps2 ss sink w' : ss_permit sink = ps_permit p →
  held h (MkSys w' (ps1 ++ ps2) (sink :: ss)) = held h (MkSys w (ps1 ++ p :: ps2) ss).
Proof.
  intros E. unfold held; cbn. rewrite E. f_equal. apply count_perm.
  rewrite ?fmap_app, ?fmap_cons. solve_Permutation.
Qed.
Lemma held_give h w ps1 p ps2 ss w' :
  held h (MkSys w (ps1 ++ p :: ps2) ss) =
  (held h (MkSys w' (ps1 ++ ps2) ss) + if decide (ps_permit p = h) then 1 else 0)%N.
Proof.
  rewrite <-(held_take h w' (ps1 ++ ps2) ss p w). unfold held; cbn [sy_pending sy_sinks]. f_equal.
  apply count_perm. rewrite ?fmap_cons, ?fmap_app, ?fmap_cons. solve_Permutation.
Qed.
Lemma held_give_sink h w ps ss1 s ss2 w' :
  held h (MkSys w ps (ss1 ++ s :: ss2)) =
  (held h (MkSys w' ps (ss1 ++ ss2)) + if decide (ss_permit s = h) then 1 else 0)%N.
Proof.
  assert (held h (MkSys w ps (ss1 ++ s :: ss2)) =
    N.of_nat (length (filter (λ x, x = h) (ss_permit s :: (ps_permit <$> ps) ++ (ss_permit <$> ss1 ++ ss2))))) as ->.
  { unfold held; cbn [sy_pending sy_sinks]. f_equal. apply count_perm.
    rewrite ?fmap_app, ?fmap_cons. solve_Permutation. }
  unfold held; cbn [sy_pending sy_sinks fmap list_fmap app].
  rewrite filter_cons. case_decide; cbn [length]; lia.
Qed.
Lemma acquire_available h h' o w w' : acquire h' w = (o, w') →
  available h w' =
  match o with
  | Some _ => if decide (h = h') then (λ p, (p.1, p.2 - 1)%N) <$> available h w else available h w
  | None => available h w
  end ∧ (o = Some h' → ∃ m a, available h' w = Some (m, a) ∧ (0 < a)%N).
Proof.
  unfold acquire, available. destruct (sw_semaphores w !! h') as [s|] eqn:E;
    [|intros; by simplify_eq].
  destruct (decide (0 < sem_available s)%N) as [Ha|]; intros; simplify_eq; [|done]. cbn.
  split; [|intros _; eauto].
  case_decide; subst; [by rewrite lookup_insert_eq, E|by rewrite lookup_insert_ne].
Qed.
Lemma acquire_handle h o w w' : acquire h w = (Some o, w') → o = h.
Proof. unfold acquire. repeat case_match; naive_solver. Qed.

(** Giving a permit back keeps the balance. *)
Lemma permits_give_back w0 ps1 p ps2 ss w :
  permits_ok (MkSys w (ps1 ++ p :: ps2) ss) → sw_semaphores w0 = sw_semaphores w →
  permits_ok (MkSys (release (ps_permit p) w0) (ps1 ++ ps2) ss).
Proof.
  intros Hok E h m a. cbn. rewrite available_release, (available_same h w w0) by done.
  specialize (Hok h). rewrite (held_give _ _ _ _ _ _ (release (ps_permit p) w0)) in Hok. cbn in Hok.
  destruct (available h w) as [[m' a']|]; [|by destruct (decide (h = _))].
  specialize (Hok _ _ eq_refl). repeat case_decide; cbn; intros; simplify_eq; lia.
Qed.
Lemma permits_same s w' : permits_ok s → sw_semaphores w' = sw_semaphores (sy_world s) →
  permits_ok (MkSys w' (sy_pending s) (sy_sinks s)).
Proof.
  intros Hok E h m a. cbn. rewrite (available_same h (sy_world s) w') by done. apply Hok.
Qed.

Lemma sys_step_permits s s' : sys_step s s' → permits_ok s → permits_ok s'.
Proof.
  intros Hs Hok. destruct Hs.
  - intros h' m a. cbn. destruct (acquire_available h' h (Some h) w w') as [Ea Hp]; [done|].
    rewrite Ea, (held_take _ w). specialize (Hok h'). cbn in Hok.
    destruct (Hp eq_refl) as (m0 & a0 & E0 & ?). rewrite H0.
    repeat case_decide; subst; try done.
    + rewrite E0 in *. specialize (Hok _ _ eq_refl). cbn. intros. simplify_eq. lia.
    + intros E. specialize (Hok _ _ E). lia.
  - apply (permits_same (MkSys w ps ss)); [done|]. cbn. unfold acquire in H.
    by repeat case_match; simplify_eq.
  - destruct (accept_ok_permit _ _ _ _ H) as [Ep Ew]. intros h m a. cbn.
    rewrite (available_same h w w') by done. rewrite (held_move h w ps1 p ps2) by done. apply Hok.
  - destruct (accept_err_permit _ _ _ _ H) as (w0 & -> & E). by eapply permits_give_back.
  - destruct (reject_permit _ _ _ _ H) as (w0 & -> & E). by eapply permits_give_back.
  - eapply permits_give_back; [done|]. apply answer_drop_semaphores.
  - apply (permits_same (MkSys w ps ss)); [done|]. cbn. unfold sub_send in H0.
    case_match; [by simplify_eq|]. destruct (sub_json s msg); [|done]. cbn in H0.
    injection H0. apply sink_send_semaphores.
  - apply (permits_same (MkSys w ps ss)); [done|]. cbn. unfold sub_try_send in H0.
    case_match; [by simplify_eq|]. destruct (sub_json s msg); [|done]. cbn in H0.
    injection H0 as E. pose proof (sink_try_send_semaphores (ss_inner s) t w) as E'.
    by rewrite E in E'.
  - apply (permits_same (MkSys w ps ss)); [done|]. cbn. unfold sub_drop.
    case_match; [apply remove_subscriber_semaphores|done].
  - intros h m a. cbn. specialize (Hok h). unfold sub_drop.
    set (w1 := if is_active_subscription s w then _ else _).
    assert (sw_semaphores w1 = sw_semaphores w) as E.
    { unfold w1. case_match; [apply remove_subscriber_semaphores|done]. }
    rewrite available_release, (available_same h w w1) by done.
    rewrite (held_give_sink _ _ _ _ _ _ (release (ss_permit s) w1)) in Hok. cbn in Hok.
    destruct (available h w) as [[m' a']|]; [|by destruct (decide (h = _))].
    specialize (Hok _ _ eq_refl). repeat case_decide; cbn; intros; simplify_eq; lia.
  - apply (permits_same (MkSys w ps ss)); [done|]. apply remove_subscriber_semaphores.
  - by apply (permits_same (MkSys w ps ss)).
Qed.

(** The limit of a semaphore never changes. *)
Lemma sys_step_max s s' h m a : sys_step s s' → available h (sy_world s) = Some (m, a) →
  ∃ a', available h (sy_world s') = Some (m, a').
Proof.
  assert (∀ w0 w p, sw_semaphores w0 = sw_semaphores w → available h w = Some (m, a) →
    ∃ a', available h (release p w0) = Some (m, a')) as Hrel.
  { intros w0 w p E Ha. rewrite available_release, (available_same h w w0), Ha by done.
    case_decide; cbn; eauto. }
  intros Hs Ha. destruct Hs; cbn in *.
  - destruct (acquire_available h h0 _ w w' H) as [-> _]. rewrite Ha. case_decide; cbn; eauto.
  - destruct (acquire_available h h0 _ w w' H) as [-> _]. eauto.
  - destruct (accept_ok_permit _ _ _ _ H) as [_ E]. exists a. by rewrite (available_same h w w').
  - destruct (accept_err_permit _ _ _ _ H) as (w0 & -> & E). eauto.
  - destruct (reject_permit _ _ _ _ H) as (w0 & -> & E). eauto.
  - eapply Hrel; [apply answer_drop_semaphores|done].
  - exists a. rewrite (available_same h w w'); [done|]. unfold sub_send in H0.
    case_match; [by simplify_eq|]. destruct (sub_json s msg); [|done]. cbn in H0.
    injection H0. apply sink_send_semaphores.
  - exists a. rewrite (available_same h w w'); [done|]. unfold sub_try_send in H0.
    case_match; [by simplify_eq|]. destruct (sub_json s msg); [|done]. cbn in H0.
    injection H0 as E. pose proof (sink_try_send_semaphores (ss_inner s) t w) as E'.
    by rewrite E in E'.
  - exists a. rewrite (available_same h w); [done|]. unfold sub_drop.
    case_match; [apply remove_subscriber_semaphores|done].
  - unfold sub_drop. eapply Hrel; [|done]. case_match; [apply remove_subscriber_semaphores|done].
  - exists a. rewrite (available_same h w); [done|]. apply remove_subscriber_semaphores.
  - eauto.
Qed.

(** C17: a connection never has more subscriptions, pending or accepted, than its
    limit, and a subscribe call is refused only when it has exactly that many:
    every way a subscription can end, rejected, dropped before it was accepted,
    an accept that fails, a sink that is dropped, gives its permit back once. *)
Theorem subscriptions_bounded (w : SrvWorld) (s : Sys) (h : nat) (max : N) :
  sw_semaphores w !! h = Some (bounded_new max) →
  (∀ h' sem, sw_semaphores w !! h' = Some sem → sem_available sem = sem_max sem) →
  rtc sys_step (MkSys w [] []) s →
  ∃ a, available h (sy_world s) = Some (max, a) ∧ (a + held h s = max)%N ∧
    (fst (acquire h (sy_world s)) = None ↔ held h s = max).
Proof.
  intros Hh Hall Hr.
  assert (permits_ok s ∧ ∃ a, available h (sy_world s) = Some (max, a)) as [Hok [a Ha]].
  { remember (MkSys w [] []) as s0 eqn:E.
    assert (permits_ok s0 ∧ ∃ a, available h (sy_world s0) = Some (max, a)) as H0.
    { subst. split.
      - intros h' m a. unfold available; cbn. destruct (sw_semaphores w !! h') eqn:E'; [|done].
        cbn. intros [= <- <-]. unfold held; cbn. rewrite (Hall _ _ E'). lia.
      - exists max. unfold available; cbn. by rewrite Hh. }
    clear E. induction Hr as [|x y z Hxy _ IH]; [done|]. destruct H0 as [Hp [a Ha]]. apply IH.
    split; [by eapply sys_step_permits|]. by eapply sys_step_max. }
  exists a. split; [done|]. pose proof (Hok _ _ _ Ha) as Hs. split; [done|].
  unfold acquire, available in *. destruct (sw_semaphores (sy_world s) !! h) as [sem|]; [|done].
  cbn in Ha. injection Ha as <- <-. case_decide; cbn; split; try done; lia.
Qed.
(** ** Active subscriptions and the tables *)

(** The table entry of a sink. *)
Definition entry (s : SubscriptionSink) : nat * SubscriptionKey := (ss_subscribers s, ss_uniq_sub s).
Definition lookup_entry (w : SrvWorld) (e : nat * SubscriptionKey) : option (MethodSink * nat) :=
  subscribers_of e.1 w !! e.2.
#[local] Arguments lookup_entry : simpl never.
#[local] Arguments entry : simpl never.

Record tables_ok (w : SrvWorld) (ss : list SubscriptionSink) : Prop := {
  tok_entry e ms h : lookup_entry w e = Some (ms, h) →
    h ∈ sw_active w ∧ ∃ s, s ∈ ss ∧ ss_unsubscribe s = h ∧ entry s = e;
  tok_sink s : s ∈ ss → ss_unsubscribe s < sw_next w ∧
    (ss_unsubscribe s ∈ sw_active w → lookup_entry w (entry s) = Some (ss_inner s, ss_unsubscribe s));
  tok_nodup : NoDup (ss_unsubscribe <$> ss)
}.

Lemma sinks_same_handle ss s s' : NoDup (ss_unsubscribe <$> ss) → s ∈ ss → s' ∈ ss →
  ss_unsubscribe s = ss_unsubscribe s' → s = s'.
Proof.
  intros Hnd [i Hi]%list_elem_of_lookup [j Hj]%list_elem_of_lookup E.
  assert (i = j) as ->; [|congruence].
  eapply NoDup_lookup; [exact Hnd|rewrite list_lookup_fmap, Hi; done|].
  by rewrite list_lookup_fmap, Hj, E.
Qed.

(** Entries with the same handle are the same entry. *)
Lemma entry_unique w ss e e' ms ms' h : tables_ok w ss →
  lookup_entry w e = Some (ms, h) → lookup_entry w e' = Some (ms', h) → e = e'.
Proof.
  intros T He He'. destruct (tok_entry _ _ T _ _ _ He) as (_ & s & Hs & E & <-).
  destruct (tok_entry _ _ T _ _ _ He') as (_ & s' & Hs' & E' & <-).
  f_equal. eapply sinks_same_handle; eauto using tok_nodup. congruence.
Qed.

Lemma lookup_entry_insert w t m e act next ch an sem :
  lookup_entry (MkSrvWorld ch (<[t := m]> (sw_subscribers w)) act an sem next) e =
  if decide (e.1 = t) then m !! e.2 else lookup_entry w e.
Proof.
  unfold lookup_entry, subscribers_of; cbn. destruct e as [t' k]; cbn.
  case_decide; subst; [by rewrite lookup_insert_eq|by rewrite lookup_insert_ne].
Qed.

Lemma remove_subscriber_ok w ss t k : tables_ok w ss → tables_ok (snd (remove_subscriber t k w)) ss.
Proof.
  intros T. unfold remove_subscriber.
  destruct (subscribers_of t w !! k) as [[ms h]|] eqn:E; [|done]. cbn.
  change (lookup_entry w (t, k) = Some (ms, h)) in E.
  assert (∀ e v, lookup_entry (set_active (sw_active w ∖ {[h]})
      (set_subscribers (<[t := delete k (subscribers_of t w)]> (sw_subscribers w)) w)) e = Some v ↔
    lookup_entry w e = Some v ∧ e ≠ (t, k)) as He.
  { intros [t' k'] v. unfold set_active, set_subscribers; cbn [sw_chans sw_subscribers sw_answers sw_semaphores sw_next].
    rewrite lookup_entry_insert. cbn. case_decide; subst.
    - rewrite lookup_delete_Some. unfold lookup_entry; cbn. naive_solver.
    - naive_solver. }
  split; cbn [sw_active sw_next set_active set_subscribers].
  - intros e ms' h' [Hl Hne]%He. destruct (tok_entry _ _ T _ _ _ Hl) as [Ha Hs].
    split; [|done]. apply elem_of_difference. split; [done|]. rewrite elem_of_singleton. intros ->.
    apply Hne. by eapply entry_unique.
  - intros s Hs. destruct (tok_sink _ _ T s Hs) as [Hn Hl]. split; [done|].
    intros [Ha Hne]%elem_of_difference. apply He. split; [by apply Hl|]. intros Ee.
    specialize (Hl Ha). rewrite Ee, E in Hl. injection Hl as _ ->. set_solver.
  - apply T.
Qed.

Lemma accept_insert_ok w ss p : tables_ok w ss →
  tables_ok (snd (accept_insert p w)) (fst (accept_insert p w) :: ss).
Proof.
  intros T. unfold accept_insert; cbn.
  set (t := ps_subscribers p). set (k := ps_uniq_sub p). set (h := sw_next w).
  set (act := match subscribers_of t w !! k with Some (_, o) => sw_active w ∖ {[o]} | None => sw_active w end).
  assert (∀ e ms h', lookup_entry w e = Some (ms, h') → e ≠ (t, k) → h' ∈ act) as Hact.
  { intros e ms h' Hl Hne. destruct (tok_entry _ _ T _ _ _ Hl) as [Ha _]. unfold act.
    destruct (subscribers_of t w !! k) as [[ms' o]|] eqn:Eo; [|done].
    apply elem_of_difference. split; [done|]. rewrite elem_of_singleton. intros ->.
    apply Hne. by eapply (entry_unique w ss). }
  assert (∀ s, s ∈ ss → ss_unsubscribe s ∈ act → lookup_entry w (entry s) = Some (ss_inner s, ss_unsubscribe s) ∧ entry s ≠ (t, k)) as Hold.
  { intros s Hs Ha. destruct (tok_sink _ _ T s Hs) as [_ Hl]. unfold act in Ha.
    destruct (subscribers_of t w !! k) as [[ms' o]|] eqn:Eo.
    - apply elem_of_difference in Ha as [Ha Hne]. specialize (Hl Ha). split; [done|].
      intros Ee. rewrite Ee in Hl. unfold lookup_entry in Hl; cbn in Hl. rewrite Eo in Hl.
      injection Hl as _ ->. set_solver.
    - specialize (Hl Ha). split; [done|]. intros Ee. rewrite Ee in Hl.
      unfold lookup_entry in Hl; cbn in Hl. congruence. }
  split; cbn [sw_active sw_next].
  - intros [t' k'] ms h'. rewrite lookup_entry_insert; cbn. case_decide as Ht; subst.
    + rewrite lookup_insert. case_decide as Hk; subst.
      * intros [= <- <-]. split; [set_solver|]. eexists. split; [by left|]. done.
      * intros Hl. assert (lookup_entry w (t, k') = Some (ms, h')) as Hl' by done.
        destruct (tok_entry _ _ T _ _ _ Hl') as (_ & s & Hs & ? & ?).
        split; [apply elem_of_union_r, (Hact _ _ _ Hl'); naive_solver|].
        exists s. split; [by right|done].
    + intros Hl. assert (lookup_entry w (t', k') = Some (ms, h')) as Hl' by done.
      destruct (tok_entry _ _ T _ _ _ Hl') as (_ & s & Hs & ? & ?).
      split; [apply elem_of_union_r, (Hact _ _ _ Hl'); naive_solver|].
      exists s. split; [by right|done].
  - intros s [->|Hs]%elem_of_cons; cbn.
    + split; [lia|]. intros _. unfold entry, lookup_entry, subscribers_of; cbn.
      rewrite lookup_insert_eq; cbn. by rewrite lookup_insert_eq.
    + destruct (tok_sink _ _ T s Hs) as [Hn _]. split; [lia|].
      intros [Eh%elem_of_singleton|Ha]%elem_of_union; [unfold h in Eh; lia|].
      destruct (Hold s Hs Ha) as [Hl Hne]. rewrite lookup_entry_insert. case_decide as Ht; [|done].
      destruct (entry s) as [t' k'] eqn:Ee; cbn in Ht; subst t'. cbn.
      rewrite lookup_insert_ne by naive_solver. exact Hl.
  - cbn. apply NoDup_cons. split; [|apply T]. intros (s & E & Hs)%list_elem_of_fmap.
    destruct (tok_sink _ _ T s Hs) as [Hn _]. unfold h in E. lia.
Qed.

(** What the invariant depends on. *)
Definition tables (w : SrvWorld) := (sw_subscribers w, sw_active w, sw_next w).
#[local] Arguments tables : simpl never.

Lemma tables_same w w' ss : tables w' = tables w → tables_ok w ss → tables_ok w' ss.
Proof.
  unfold tables. intros [= Es Ea En] T. assert (∀ e, lookup_entry w' e = lookup_entry w e) as El.
  { intros e. unfold lookup_entry, subscribers_of. by rewrite Es. }
  split; [| |apply T].
  - intros e ms h. rewrite El, Ea. apply T.
  - intros s. rewrite El, Ea, En. apply T.
Qed.
Lemma release_tables h w : tables (release h w) = tables w.
Proof. unfold release. by case_match. Qed.
Lemma acquire_tables h w : tables (snd (acquire h w)) = tables w.
Proof. unfold acquire. by repeat case_match. Qed.
Lemma answer_drop_tables h w : tables (answer_drop h w) = tables w.
Proof. unfold answer_drop. by repeat case_match. Qed.
Lemma answer_send_tables h m w : tables (snd (answer_send h m w)) = tables w.
Proof. unfold answer_send. by repeat case_match. Qed.
Lemma sink_try_send_tables s msg w : tables (snd (sink_try_send s msg w)) = tables w.
Proof. unfold sink_try_send. by repeat case_match. Qed.
Lemma sink_send_tables s msg w r w' : sink_send s msg w = Some (r, w') → tables w' = tables w.
Proof.
  unfold sink_send. pose proof (sink_try_send_tables s msg w) as E.
  destruct (sink_try_send s msg w) as [[|[]] w1]; cbn in E; intros; congruence.
Qed.
Lemma pending_drop_tables p w : tables (pending_drop p w) = tables w.
Proof. unfold pending_drop. by rewrite release_tables, answer_drop_tables. Qed.
Lemma reject_tables p err w w' : reject p err w = Ok (Some w') → tables w' = tables w.
Proof.
  unfold reject. destruct (MethodResponse.subscription_error _ _) as [rp|]; [|done]. cbn.
  destruct (sink_send _ _ _) as [[r w1]|] eqn:Es; [|done]. apply sink_send_tables in Es.
  pose proof (answer_send_tables (ps_subscribe p) rp w1) as Ea.
  destruct (answer_send _ _ _) as [ok w2]; cbn in Ea. intros [= <-].
  by rewrite release_tables, Ea.
Qed.
Lemma accept_tables p w r w' : accept p w = Some (r, w') →
  match r with
  | Err _ => tables w' = tables w
  | Ok sink => ∃ w0, tables w0 = tables w ∧ accept_insert p w0 = (sink, w')
  end.
Proof.
  unfold accept. destruct (accept_response p) as [rp|];
    [|intros [= <- <-]; apply pending_drop_tables].
  destruct (sink_send _ _ _) as [[[[]|[]] w1]|] eqn:Es; try done; apply sink_send_tables in Es.
  - pose proof (answer_send_tables (ps_subscribe p) rp w1) as Ea.
    destruct (answer_send _ _ _) as [[] w2]; cbn in Ea.
    + case_match; intros [= <- <-]; [|by rewrite release_tables, Ea].
      exists w2. split; [congruence|done].
    + intros [= <- <-]. by rewrite release_tables, Ea.
  - intros [= <- <-]. by rewrite pending_drop_tables.
Qed.
Lemma sub_send_tables s msg w r w' : sub_send s msg w = Ok (Some (r, w')) → tables w' = tables w.
Proof.
  unfold sub_send. case_match; [by intros; simplify_eq|]. destruct (sub_json s msg); [|done]. cbn.
  intros [= E]. by eapply sink_send_tables.
Qed.
Lemma sub_try_send_tables s msg w r w' : sub_try_send s msg w = Ok (r, w') → tables w' = tables w.
Proof.
  unfold sub_try_send. case_match; [by intros; simplify_eq|]. destruct (sub_json s msg); [|done]. cbn.
  intros [= E]. pose proof (sink_try_send_tables (ss_inner s) t w) as E'. by rewrite E in E'.
Qed.

Lemma active_spec s w : is_active_subscription s w = true ↔ ss_unsubscribe s ∈ sw_active w.
Proof.
  unfold is_active_subscription, is_unsubscribed. rewrite negb_true_iff, bool_decide_eq_false.
  destruct (decide (ss_unsubscribe s ∈ sw_active w)); naive_solver.
Qed.

(** After the drop of a sink no entry is left that is its own. *)
Lemma sub_drop_inactive ss s last w : tables_ok w ss → s ∈ ss →
  tables_ok (sub_drop s last w) ss ∧ ss_unsubscribe s ∉ sw_active (sub_drop s last w).
Proof.
  intros T Hs. unfold sub_drop.
  assert (∀ w1, tables_ok w1 ss ∧ ss_unsubscribe s ∉ sw_active w1 →
    tables_ok (if last then release (ss_permit s) w1 else w1) ss ∧
    ss_unsubscribe s ∉ sw_active (if last then release (ss_permit s) w1 else w1)) as Hlast.
  { intros w1 [T1 Hn]. destruct last; [|done]. pose proof (release_tables (ss_permit s) w1) as E.
    split; [by eapply tables_same|]. injection E as _ -> _. done. }
  apply Hlast. destruct (is_active_subscription s w) eqn:Ea.
  - split; [by apply remove_subscriber_ok|]. apply active_spec in Ea.
    destruct (tok_sink _ _ T s Hs) as [_ Hl]. specialize (Hl Ea).
    unfold lookup_entry, entry in Hl; cbn in Hl. unfold remove_subscriber. rewrite Hl. cbn. set_solver.
  - split; [done|]. by rewrite <-active_spec, Ea.
Qed.

Lemma tables_ok_shrink w ss1 s ss2 : tables_ok w (ss1 ++ s :: ss2) →
  ss_unsubscribe s ∉ sw_active w → tables_ok w (ss1 ++ ss2).
Proof.
  intros T Hn. split.
  - intros e ms h Hl. destruct (tok_entry _ _ T _ _ _ Hl) as (Ha & s' & Hs & E & Ee).
    split; [done|]. exists s'. split; [|done]. subst h.
    apply elem_of_app in Hs as [|[->|]%elem_of_cons]; [..|apply elem_of_app; by right];
      [apply elem_of_app; by left|done].
  - intros s' Hs. apply T. rewrite elem_of_app in *. rewrite elem_of_cons. naive_solver.
  - eapply sublist_NoDup; [apply T|]. rewrite !fmap_app, fmap_cons.
    apply sublist_app; [done|]. by apply sublist_cons.
Qed.

Lemma sys_step_tables s s' : sys_step s s' →
  tables_ok (sy_world s) (sy_sinks s) → tables_ok (sy_world s') (sy_sinks s').
Proof.
  intros Hs T. destruct Hs; cbn in *.
  - eapply tables_same; [|done]. pose proof (acquire_tables h w) as E. by rewrite H in E.
  - eapply tables_same; [|done]. pose proof (acquire_tables h w) as E. by rewrite H in E.
  - destruct (accept_tables _ _ _ _ H) as (w0 & E & Ei).
    pose proof (accept_insert_ok w0 ss p (tables_same _ _ _ E T)) as T'. by rewrite Ei in T'.
  - by eapply tables_same; [apply (accept_tables _ _ _ _ H)|].
  - by eapply tables_same; [eapply reject_tables|].
  - by eapply tables_same; [apply pending_drop_tables|].
  - by eapply tables_same; [eapply sub_send_tables|].
  - by eapply tables_same; [eapply sub_try_send_tables|].
  - by apply (sub_drop_inactive ss s false w).
  - destruct (sub_drop_inactive (ss1 ++ s :: ss2) s true w T) as [T' Hn].
    { apply elem_of_app. right. by left. }
    by eapply tables_ok_shrink.
  - by apply remove_subscriber_ok.
  - by eapply tables_same; [|done].
Qed.

(** The invariant holds in every state that is reached from no subscriptions. *)
Lemma reached_tables w s : sw_active w = ∅ → sw_subscribers w = ∅ → rtc sys_step (MkSys w [] []) s →
  tables_ok (sy_world s) (sy_sinks s).
Proof.
  intros Ha Hs Hr. remember (MkSys w [] []) as s0 eqn:E.
  assert (tables_ok (sy_world s0) (sy_sinks s0)) as T0.
  { subst. split; [|intros s0 []%elem_of_nil|constructor].
    intros e ms h. unfold lookup_entry, subscribers_of; cbn. rewrite Hs, lookup_empty; cbn.
    by rewrite lookup_empty. }
  clear E. induction Hr as [|x y z Hxy _ IH]; [done|]. eapply IH, sys_step_tables; eauto.
Qed.

(** A handle that is used and not active stays so: handles are never used again. *)
Definition over (h : nat) (w : SrvWorld) : Prop := h < sw_next w ∧ h ∉ sw_active w.
Lemma over_same h w w' : tables w' = tables w → over h w → over h w'.
Proof. unfold tables, over. by intros [= _ -> ->]. Qed.
Lemma over_remove h t k w : over h w → over h (snd (remove_subscriber t k w)).
Proof. unfold over, remove_subscriber. case_match; [|done]. case_match. cbn. set_solver. Qed.
Lemma over_drop h s last w : over h w → over h (sub_drop s last w).
Proof.
  intros H. unfold sub_drop. set (w1 := if is_active_subscription s w then _ else _).
  assert (over h w1) as H1 by (unfold w1; case_match; [by apply over_remove|done]).
  destruct last; [|done]. by eapply over_same; [apply release_tables|].
Qed.
Lemma sys_step_over h s s' : sys_step s s' → over h (sy_world s) → over h (sy_world s').
Proof.
  intros Hs Ho. destruct Hs; cbn in *.
  - eapply over_same; [|done]. pose proof (acquire_tables h0 w) as E. by rewrite H in E.
  - eapply over_same; [|done]. pose proof (acquire_tables h0 w) as E. by rewrite H in E.
  - destruct (accept_tables _ _ _ _ H) as (w0 & E & Ei). apply (over_same _ _ _ E) in Ho.
    destruct Ho as [Hn Ha]. injection Ei as <- <-. split; cbn; [lia|]. intros [Eh%elem_of_singleton|Hi]%elem_of_union; [lia|].
    apply Ha. case_match; [|done]. case_match. set_solver.
  - by eapply over_same; [apply (accept_tables _ _ _ _ H)|].
  - by eapply over_same; [eapply reject_tables|].
  - by eapply over_same; [apply pending_drop_tables|].
  - by eapply over_same; [eapply sub_send_tables|].
  - by eapply over_same; [eapply sub_try_send_tables|].
  - by apply (over_drop h s false).
  - by apply (over_drop h s true).
  - by apply over_remove.
  - done.
Qed.

(** C18: The end of a subscription is final.  Once it is unsubscribed, or its sink or
    any clone of the sink is dropped, whatever happens afterwards, on this
    connection or another: [closed] is done, every way to send gives the message
    back and writes nothing, and dropping a sink of it changes no table. *)
Theorem subscription_end_final (w : SrvWorld) (s s' : Sys) (sink : SubscriptionSink) :
  sw_active w = ∅ → sw_subscribers w = ∅ → rtc sys_step (MkSys w [] []) s → sink ∈ sy_sinks s →
  is_active_subscription sink (sub_drop sink false (sy_world s)) = false ∧
  is_active_subscription sink (snd (remove_subscriber (ss_subscribers sink) (ss_uniq_sub sink) (sy_world s))) = false ∧
  (is_active_subscription sink (sy_world s) = false → rtc sys_step s s' →
   let w' := sy_world s' in
   sub_closed sink w' = Some () ∧ sub_drop sink false w' = w' ∧
   ∀ msg, sub_send sink msg w' = Ok (Some (Err (Disconnect msg), w')) ∧
          sub_try_send sink msg w' = Ok (Err (TsClosed msg), w') ∧
          sub_send_timeout sink msg w' = Ok (Err (StClosed msg), w')).
Proof.
  intros Ha Hs Hr Hin. pose proof (reached_tables _ _ Ha Hs Hr) as T. split; [|split].
  - destruct (sub_drop_inactive _ _ false _ T Hin) as [_ Hn]. apply not_true_is_false. by rewrite active_spec.
  - apply not_true_is_false. rewrite active_spec. intros Hact.
    apply (tok_sink _ _ (remove_subscriber_ok _ _ (ss_subscribers sink) (ss_uniq_sub sink) T) _ Hin) in Hact.
    unfold lookup_entry, entry, remove_subscriber in Hact; cbn [fst snd] in Hact.
    destruct (subscribers_of _ (sy_world s) !! _) as [[ms h]|] eqn:El; [|cbn in Hact; congruence].
    unfold subscribers_of in Hact; cbn in Hact. rewrite lookup_insert_eq in Hact; cbn in Hact. by rewrite lookup_delete_eq in Hact.
  - intros Hi Hr' w'. assert (over (ss_unsubscribe sink) w') as [_ Ho].
    { subst w'. assert (over (ss_unsubscribe sink) (sy_world s)) as Ho.
      { split; [by apply (tok_sink _ _ T)|]. rewrite <-active_spec. congruence. }
      clear - Hr' Ho. induction Hr' as [|x y z Hxy _ IH]; [done|]. by eapply IH, sys_step_over. }
    assert (is_active_subscription sink w' = false) as Hf by (apply not_true_is_false; by rewrite active_spec).
    assert (sub_is_closed sink w' = true) as Hc by (unfold sub_is_closed; by rewrite Hf, orb_true_r).
    unfold sub_closed, unsubscribed, is_unsubscribed. rewrite bool_decide_eq_true_2 by done.
    unfold sub_drop. rewrite Hf. split; [by case_match|]. split; [done|].
    intros msg. unfold sub_send, sub_try_send, sub_send_timeout. by rewrite Hc.
Qed.

(** Removing the entry of a table ends exactly the subscription of that table and
    key: it reports success iff such a subscription was active, afterwards every
    send on a sink of it gives the message back and writes nothing, every other
    subscription is as active as before, and a second removal reports failure. *)
Lemma remove_subscriber_exact (w : SrvWorld) (s : Sys) (tbl : nat) (key : SubscriptionKey) :
  sw_active w = ∅ → sw_subscribers w = ∅ → rtc sys_step (MkSys w [] []) s →
  let '(ok, w') := remove_subscriber tbl key (sy_world s) in
  (ok = true ↔ ∃ sink, sink ∈ sy_sinks s ∧ ss_subscribers sink = tbl ∧ ss_uniq_sub sink = key ∧
     is_active_subscription sink (sy_world s) = true) ∧
  (∀ sink, sink ∈ sy_sinks s → ss_subscribers sink = tbl → ss_uniq_sub sink = key →
     ∀ msg, sub_send sink msg w' = Ok (Some (Err (Disconnect msg), w')) ∧
            sub_try_send sink msg w' = Ok (Err (TsClosed msg), w')) ∧
  (∀ sink, sink ∈ sy_sinks s → (ss_subscribers sink, ss_uniq_sub sink) ≠ (tbl, key) →
     is_active_subscription sink w' = is_active_subscription sink (sy_world s)) ∧
  fst (remove_subscriber tbl key w') = false.
Proof.
  intros Ha Hs Hr.
  pose proof (reached_tables _ _ Ha Hs Hr) as T.
  pose proof (remove_subscriber_ok _ _ tbl key T) as T'.
  destruct (remove_subscriber tbl key (sy_world s)) as [ok w'] eqn:Er. cbn in T'.
  assert (lookup_entry w' (tbl, key) = None) as Hnone.
  { unfold remove_subscriber in Er. unfold lookup_entry.
    destruct (subscribers_of tbl (sy_world s) !! key) as [[ms h]|] eqn:El; simplify_eq; [|done].
    unfold subscribers_of; cbn. rewrite lookup_insert_eq; cbn. apply lookup_delete_eq. }
  assert (ok = true ↔ ∃ v, lookup_entry (sy_world s) (tbl, key) = Some v) as Hok.
  { unfold remove_subscriber in Er. unfold lookup_entry; cbn [fst snd].
    destruct (subscribers_of tbl (sy_world s) !! key) as [[ms h]|] eqn:El; simplify_eq; naive_solver. }
  split; [|split; [|split]].
  - rewrite Hok. split.
    + intros [[ms h] Hl]. destruct (tok_entry _ _ T _ _ _ Hl) as (Hact & sink & Hin & <- & He).
      unfold entry in He. injection He as <- <-. exists sink. by rewrite active_spec.
    + intros (sink & Hin & <- & <- & Hact%active_spec). eexists. by apply (tok_sink _ _ T sink Hin).
  - intros sink Hin <- <- msg. assert (sub_is_closed sink w' = true) as Hc.
    { unfold sub_is_closed. apply orb_true_iff. right. apply negb_true_iff.
      destruct (is_active_subscription sink w') eqn:E; [|done]. apply active_spec in E.
      apply (tok_sink _ _ T' sink Hin) in E. unfold entry in E. congruence. }
    unfold sub_send, sub_try_send. by rewrite Hc.
  - intros sink Hin Hne. apply eq_bool_prop_intro. rewrite !Is_true_true, !active_spec.
    unfold remove_subscriber in Er.
    destruct (subscribers_of tbl (sy_world s) !! key) as [[ms h]|] eqn:El; simplify_eq; [|done].
    cbn. change (lookup_entry (sy_world s) (tbl, key) = Some (ms, h)) in El.
    rewrite elem_of_difference, elem_of_singleton. split; [by intros []|]. intros Hact. split; [done|].
    intros Eh. apply (tok_sink _ _ T sink Hin) in Hact. rewrite Eh in Hact. apply Hne.
    exact (entry_unique _ _ _ _ _ _ _ T Hact El).
  - unfold remove_subscriber. unfold lookup_entry in Hnone; cbn in Hnone. by rewrite Hnone.
Qed.
End System.

(** ** Delivery *)
Section Delivery.
Context {J : SerdeJson} {X : HttpExtensions}.

(** The text of a message is read as the notification with its value. *)
Lemma subscription_text_decode method sub_id value :
  let ser := subscription_response_ser method sub_id (SerRaw value) in
  faithful ser → SubscriptionId.in_range sub_id →
  subscription_response_deserialize de_raw (text_of ser) =
    Some (notification_new method (MkSubscriptionPayload sub_id value)).
Proof.
  intros ser F Hr. pose proof (subscription_response_decode SerRaw de_raw
    (notification_new method (MkSubscriptionPayload sub_id value))) as E.
  assert (notification_serialize (subscription_payload_serialize "result" SerRaw)
    (notification_new method (MkSubscriptionPayload sub_id value)) = ser) as Es by done.
  rewrite Es in E. apply E; [done..|]. cbn. apply de_raw_faithful.
  unfold ser, subscription_response_ser, notification_serialize in F; cbn in F.
  destruct (faithful_map _ F) as [_ Fs]. split_Forall. cbn in *.
  match goal with F : faithful (subscription_payload_serialize _ _ _) |- _ =>
    unfold subscription_payload_serialize in F; destruct (faithful_map _ F) as [_ Fs] end.
  by split_Forall.
Qed.
(** A message for an active subscription with room goes to the end of the channel. *)
Lemma sub_send_enqueues (s : SubscriptionSink) (value : string) (w : SrvWorld) :
  let ser := subscription_response_ser (ss_method s) (sk_sub_id (ss_uniq_sub s)) (SerRaw value) in
  faithful ser → sub_is_closed s w = false → 0 < sink_capacity (ss_inner s) w →
  sub_send s (NeedsData value) w = Ok (Some (Ok (), enqueue (ss_inner s) (text_of ser) w)).
Proof.
  intros ser F Hc Hcap. assert (sink_is_closed (ss_inner s) w = false) as Ho.
  { unfold sub_is_closed in Hc. by apply orb_false_iff in Hc as [? _]. }
  unfold sub_send, sub_json, sub_message_to_json. rewrite Hc. fold ser.
  rewrite (faithful_write _ F). cbn. unfold sink_send, sink_try_send. rewrite Ho. by rewrite decide_True.
Qed.

(** A message sent on an active subscription of an open connection with room
    in its channel puts exactly one text at the end of that channel, changes no
    other channel, and the text is read by the peer as the notification of this
    method and subscription with this value. *)
Theorem sink_message_read_by_client (s : SubscriptionSink) (result : string) (w : SrvWorld) :
  let ser := subscription_response_ser (ss_method s) (sk_sub_id (ss_uniq_sub s)) (SerRaw result) in
  faithful ser → SubscriptionId.in_range (sk_sub_id (ss_uniq_sub s)) →
  sub_is_closed s w = false → 0 < sink_capacity (ss_inner s) w →
  ∃ text w', sub_send s (NeedsData result) w = Ok (Some (Ok (), w')) ∧
    cc_queue (get_chan (ms_tx (ss_inner s)) w') = cc_queue (get_chan (ms_tx (ss_inner s)) w) ++ [text] ∧
    (∀ h, h ≠ ms_tx (ss_inner s) → sw_chans w' !! h = sw_chans w !! h) ∧
    subscription_response_deserialize de_raw text =
      Some (notification_new (ss_method s) (MkSubscriptionPayload (sk_sub_id (ss_uniq_sub s)) result)).
Proof.
  intros ser F Hr Hc Hcap. exists (text_of ser), (enqueue (ss_inner s) (text_of ser) w).
  split; [by apply sub_send_enqueues|]. split; [|split].
  - unfold enqueue, get_chan; cbn. by rewrite lookup_insert_eq.
  - intros h Hne. unfold enqueue; cbn. by rewrite lookup_insert_ne.
  - by apply subscription_text_decode.
Qed.
End Delivery.

(** ** Witnesses *)
Section SubWitnesses.
#[local] Existing Instance ref_json.
#[local] Existing Instance ref_ext.

Definition ex_key : SubscriptionKey := MkSubscriptionKey 7 (SubNum 3).
Definition ex_pending : PendingSubscriptionSink :=
  MkPending (method_sink_new 0) "tick" 0 ex_key (IdNumber 1) 0 0.
Definition ex_world : SrvWorld :=
  MkSrvWorld {[0 := MkConnChan 2 [] false]} ∅ ∅ {[0 := AwWaiting]} {[0 := bounded_new 1]} 0.
Definition ex_taken : SrvWorld := snd (acquire 0 ex_world).
Definition ex_sink : SubscriptionSink := MkSubscriptionSink (method_sink_new 0) "tick" 0 ex_key 0 0.
Definition ex_accepted : SrvWorld :=
  match accept ex_pending ex_taken with Some (_, w) => w | None => ex_world end.

Lemma ex_accept : accept ex_pending ex_taken = Some (Ok ex_sink, ex_accepted).
Proof. vm_compute. reflexivity. Qed.
Lemma ex_reach : rtc sys_step (MkSys ex_world [] []) (MkSys ex_accepted [] [ex_sink]).
Proof.
  eapply rtc_l; [by apply (StepSubscribe ex_world [] [] 0 ex_pending ex_taken)|].
  eapply rtc_l; [apply (StepAccept ex_taken [] ex_pending [] [] ex_sink ex_accepted ex_accept)|].
  apply rtc_refl.
Qed.

(** One permit, one subscription: the next subscribe call is refused. *)
Lemma subscriptions_bounded_witness :
  fst (acquire 0 ex_accepted) = None ↔ held 0 (MkSys ex_accepted [] [ex_sink]) = 1%N.
Proof.
  destruct (subscriptions_bounded ex_world (MkSys ex_accepted [] [ex_sink]) 0 1 eq_refl) as (a & _ & _ & H).
  - intros h' sem. unfold ex_world; cbn [sw_semaphores].
    intros [<- <-]%lookup_singleton_Some. reflexivity.
  - apply ex_reach.
  - exact H.
Defined.

Lemma subscription_end_final_witness :
  let w' := sub_drop ex_sink false ex_accepted in
  sub_closed ex_sink ex_accepted = None ∧ sub_closed ex_sink w' = Some () ∧
  sub_send ex_sink (NeedsData "42") w' = Ok (Some (Err (Disconnect (NeedsData "42")), w')).
Proof.
  split; [vm_compute; reflexivity|].
  destruct (subscription_end_final ex_world (MkSys (sub_drop ex_sink false ex_accepted) [] [ex_sink])
    (MkSys (sub_drop ex_sink false ex_accepted) [] [ex_sink]) ex_sink) as (_ & _ & H).
  - reflexivity.
  - reflexivity.
  - eapply rtc_r; [apply ex_reach|]. apply StepCloneDrop, list_elem_of_here.
  - apply list_elem_of_here.
  - destruct (H eq_refl (rtc_refl _ _)) as (Hc & _ & Hs). split; [exact Hc|]. apply Hs.
Defined.

(** The answer of [accept] is written before the entry is made: an unsubscribe
    call processed between the two reports failure, and the subscription stays. *)
Example unsubscribe_before_insert :
  let w1 := match sink_send (ps_inner ex_pending) "accepted" ex_taken with
            | Some (_, w) => w | None => ex_taken end in
  let '(ok, w2) := remove_subscriber 0 ex_key w1 in
  let '(s, w3) := accept_insert ex_pending w2 in
  ok = false ∧ is_active_subscription s w3 = true.
Proof. vm_compute. done. Qed.

Lemma sink_message_read_by_client_witness :
  ∃ text, subscription_response_deserialize de_raw text =
    Some (notification_new "tick" (MkSubscriptionPayload (SubNum 3) "42")).
Proof.
  destruct (sink_message_read_by_client ex_sink "42" ex_accepted) as (text & w' & _ & _ & _ & E).
  - vm_compute. repeat (split; eauto).
  - vm_compute. discriminate.
  - vm_compute. reflexivity.
  - vm_compute. lia.
  - exists text. exact E.
Defined.
End SubWitnesses.
