(* ===== verification/RpcModule.v ===== *)
(** The registry of methods: [core/src/server/rpc_module.rs],
    [core/src/server/mod.rs] and [core/src/id_providers.rs].

    Methods are functions registered under a name.  A callback works on the
    shared objects of the server and on a state [U] of the user's own.  What the
    user registers is a function of the parameters and the extensions; the
    callbacks the server runs are built from it here.  A subscribe call has two
    halves that run concurrently: the future that waits for the subscription to
    be accepted or rejected, and the task that runs the user's future and sends
    the closing notification; both are in [SubscribeCall]. *)
From stdpp Require Import base gmap strings list.
From S2P Require Import Prelude Serde RefJson Errors Params Wire ClientCore MethodResponse Subscription.

(** ** Identifiers of subscriptions: [rand] gives the numbers and characters. *)
Module IdProvider.
Definition random_integer (random : N) : SubscriptionId :=
  SubNum (N.land random (N.shiftr u64_max 11)).
Definition random_string (len : nat) (sample : list Ascii.ascii) : SubscriptionId :=
  SubStr (String.string_of_list_ascii (take len sample)).
Definition noop : SubscriptionId := SubNum 0.
End IdProvider.

(** ** [IntoResponse]: what a method may return; values are what they serialise to. *)
Class IntoResponse (R : Type) := into_response : R → MrPayload Ser.
#[export] Instance into_response_payload : IntoResponse (MrPayload Ser) := id.
#[export] Instance into_response_inner : IntoResponse (ResponsePayload Ser) := MrPayload.from.
#[export] Instance into_response_error : IntoResponse ErrorObject := MrPayload.error.
#[export] Instance into_response_result : IntoResponse (Result ErrorObject Ser) := λ r,
  match r with Ok t => MrPayload.success t | Err e => MrPayload.error e end.
#[export] Instance into_response_option : IntoResponse (option Ser) := λ o,
  MrPayload.success (serialize o).
#[export] Instance into_response_ser : IntoResponse Ser := MrPayload.success.

(** ** Callbacks *)
Section Callbacks.
Context {J : SerdeJson} {X : HttpExtensions} {XC : ExtKey ConnectionId} {U : Type}.

(** The state of the server process: the shared objects and the user's state. *)
Definition W : Type := SrvWorld * U.
Definition srv {A} (f : SrvWorld → A * SrvWorld) : SM W Panicked A := λ w,
  let '(a, s) := f (fst w) in (Ok a, (s, snd w)).

(** [SubscriptionState]: [st_sub_id] is what [id_provider.next_id()] returns. *)
Record SubscriptionState : Type := MkSubscriptionState {
  st_conn_id : ConnectionId;
  st_sub_id : SubscriptionId;
  st_permit : nat
}.

(** The channel from the future of a subscribe call to its task. *)
Inductive Accepted : Type := AcOpen | AcSent | AcDropped.
(** The task: [try_join] of the user's future, finished or not, and of the
    channel; then the closing notification; then nothing. *)
Inductive SubTask : Type :=
| TkJoin (user : option SubscriptionCloseResponse)
| TkSending (json : string)
| TkDone.
Record SubscribeCall : Type := MkSubscribeCall {
  sc_id : Id;
  sc_rx : nat;
  sc_extensions : Extensions;
  sc_accepted : Accepted;
  sc_sub_id : SubscriptionId;
  sc_method : string;
  sc_sink : MethodSink;
  sc_task : SubTask
}.

Inductive MethodCallback : Type :=
| McSync (cb : Id → Params → N → Extensions → SM W Panicked MethodResponse)
| McAsync (cb : Id → Params → ConnectionId → N → Extensions → SM W Panicked MethodResponse)
| McSubscription (cb : Id → Params → MethodSink → SubscriptionState → Extensions →
                       SM W Panicked SubscribeCall)
| McUnsubscription (cb : Id → Params → ConnectionId → N → Extensions → SM W Panicked MethodResponse).

Inductive MethodKind : Type := MkSubscriptionK | MkUnsubscriptionK | MkMethodCallK | MkNotFoundK.
Definition method_kind_fmt (k : MethodKind) : string :=
  match k with
  | MkSubscriptionK => "subscription"
  | MkMethodCallK => "method call"
  | MkNotFoundK => "method not found"
  | MkUnsubscriptionK => "unsubscription"
  end.

(** [Methods].  The iteration order of the hash map is that of [map_to_list]. *)
Record Methods : Type := MkMethods {
  m_callbacks : gmap string MethodCallback;
  m_extensions : Extensions
}.
End Callbacks.
Arguments W {X} U. Arguments MethodCallback {X} U. Arguments Methods {X} U.

Module Methods.
Section Ops.
Context {J : SerdeJson} {X : HttpExtensions} {U : Type}.
Implicit Types self other : Methods U.

Definition new : Methods U := MkMethods ∅ ext_new.
Definition set_callbacks c self : Methods U := MkMethods c (m_extensions self).
Definition verify_method_name (name : string) self : Result RegisterMethodError unit :=
  if vacant (m_callbacks self) name then Ok () else Err (AlreadyRegistered name).
Definition verify_and_insert (name : string) (callback : MethodCallback U) self
    : Result RegisterMethodError (Methods U) :=
  match m_callbacks self !! name with
  | Some _ => Err (AlreadyRegistered name)
  | None => Ok (set_callbacks (<[name := callback]> (m_callbacks self)) self)
  end.
Fixpoint verify_all (names : list string) self : Result RegisterMethodError unit :=
  match names with
  | [] => Ok ()
  | name :: names' => _ ← verify_method_name name self; verify_all names' self
  end.
Definition merge other self : Result RegisterMethodError (Methods U) :=
  _ ← verify_all (map_to_list (m_callbacks other)).*1 self;
  Ok (set_callbacks
    (foldl (λ cs kv, <[kv.1 := kv.2]> cs) (m_callbacks self) (map_to_list (m_callbacks other))) self).
Definition method (name : string) self : option (MethodCallback U) := m_callbacks self !! name.
Definition method_with_name (name : string) self : option (string * MethodCallback U) :=
  (λ cb, (name, cb)) <$> m_callbacks self !! name.
Definition method_names self : list string := (map_to_list (m_callbacks self)).*1.
Definition extensions_mut (f : Extensions → Extensions) self : Methods U :=
  MkMethods (m_callbacks self) (f (m_extensions self)).
Definition remove_method (name : string) self : option (MethodCallback U) * Methods U :=
  (m_callbacks self !! name, set_callbacks (delete name (m_callbacks self)) self).
End Ops.
End Methods.

(** A user callback of a method: it returns what it passes to [into_response]. *)
Definition UserFn {X : HttpExtensions} (U A : Type) : Type := Params → Extensions → SM (W U) Panicked A.

Module RpcModule.
Section Ops.
Context {J : SerdeJson} {X : HttpExtensions} {U : Type}.
Implicit Types self : Methods U.

(** The response of a user function. *)
Definition respond {R} `{IntoResponse R} (callback : UserFn U R) (id : Id) (params : Params)
    (max_response_size : N) (extensions : Extensions) : SM (W U) Panicked MethodResponse :=
  r ← callback params extensions;
  rp ← sm_result (MethodResponse.response serialize id (into_response r) max_response_size);
  mret (MethodResponse.with_extensions extensions rp).

(** The callbacks of the registrations; a panic of a blocking closure is the [Err]
    of the join handle. *)
Definition sync_callback {R} `{IntoResponse R} (callback : UserFn U R) : MethodCallback U :=
  McSync (λ id params max ext, respond callback id params max ext).
Definition async_callback {R} `{IntoResponse R} (callback : UserFn U R) : MethodCallback U :=
  McAsync (λ id params _ max ext, respond callback id params max ext).
Definition blocking_callback {R} `{IntoResponse R} (callback : UserFn U R) : MethodCallback U :=
  McAsync (λ id params _ max ext w,
    match respond callback id params max ext w with
    | (Ok r, w') => (Ok r, w')
    | (Err Panic, w') =>
      (MethodResponse.with_extensions ext <$>
         MethodResponse.error IdNull (ErrorObject.from InternalError), w')
    end).
Definition register_method {R} `{IntoResponse R} (method_name : string) (callback : UserFn U R) self
    : Result RegisterMethodError (Methods U) :=
  Methods.verify_and_insert method_name (sync_callback callback) self.
Definition register_async_method {R} `{IntoResponse R} (method_name : string)
    (callback : UserFn U R) self : Result RegisterMethodError (Methods U) :=
  Methods.verify_and_insert method_name (async_callback callback) self.
Definition register_blocking_method {R} `{IntoResponse R} (method_name : string)
    (callback : UserFn U R) self : Result RegisterMethodError (Methods U) :=
  Methods.verify_and_insert method_name (blocking_callback callback) self.

(** The unsubscribe callback of the table [subscribers]. *)
Definition unsubscribe_callback (subscribers : nat) (id : Id) (params : Params) (conn_id : ConnectionId)
    (max_response_size : N) (extensions : Extensions) : SM (W U) Panicked MethodResponse :=
  match one (λ raw, ok_or (SubscriptionId.deserialize raw) (json_errmsg raw)) params with
  | Err _ =>
    rp ← sm_result (MethodResponse.response SerBool id (MrPayload.success false) max_response_size);
    mret (MethodResponse.with_extensions extensions rp)
  | Ok sub_id =>
    let key := MkSubscriptionKey conn_id (SubscriptionId.into_owned sub_id) in
    result ← srv (remove_subscriber subscribers key);
    sm_result (MethodResponse.response SerBool id (MrPayload.success result) max_response_size)
  end.

(** [subscribers] is the handle of the new table. *)
Definition verify_and_register_unsubscribe (subscribe_name unsubscribe_name : string)
    (subscribers : nat) self : Result RegisterMethodError (Methods U) :=
  if decide (subscribe_name = unsubscribe_name) then Err (SubscriptionNameConflict subscribe_name)
  else
    _ ← Methods.verify_method_name subscribe_name self;
    _ ← Methods.verify_method_name unsubscribe_name self;
    Ok (Methods.set_callbacks
          (<[unsubscribe_name := McUnsubscription (unsubscribe_callback subscribers)]>
             (m_callbacks self)) self).

(** The new oneshot of a subscribe call. *)
Definition new_answer (w : SrvWorld) : nat * SrvWorld :=
  let h := fresh (dom (sw_answers w)) in
  (h, set_answers (<[h := AwWaiting]> (sw_answers w)) w).

(** [register_subscription]: the callback of the user gets the pending sink and
    its future is handed to a task.  [callback] is what it does before the first
    [await]. *)
Definition subscribe_callback (notif_method_name : string) (subscribers : nat)
    (callback : PendingSubscriptionSink → UserFn U unit)
    (id : Id) (params : Params) (method_sink : MethodSink) (conn : SubscriptionState)
    (extensions : Extensions) : SM (W U) Panicked SubscribeCall :=
  let uniq_sub := MkSubscriptionKey (st_conn_id conn) (st_sub_id conn) in
  rx ← srv new_answer;
  let sink := MkPending method_sink notif_method_name subscribers uniq_sub (Id.into_owned id) rx
                (st_permit conn) in
  _ ← callback sink (params_into_owned params) extensions;
  mret (MkSubscribeCall (Id.into_owned id) rx extensions AcOpen (st_sub_id conn) notif_method_name
          method_sink (TkJoin None)).
(** [register_subscription_raw]: no task. *)
Definition subscribe_raw_callback (notif_method_name : string) (subscribers : nat)
    (callback : PendingSubscriptionSink → UserFn U unit)
    (id : Id) (params : Params) (method_sink : MethodSink) (conn : SubscriptionState)
    (extensions : Extensions) : SM (W U) Panicked SubscribeCall :=
  let uniq_sub := MkSubscriptionKey (st_conn_id conn) (st_sub_id conn) in
  rx ← srv new_answer;
  let sink := MkPending method_sink notif_method_name subscribers uniq_sub (Id.into_owned id) rx
                (st_permit conn) in
  _ ← callback sink params extensions;
  mret (MkSubscribeCall (Id.into_owned id) rx extensions AcDropped (st_sub_id conn) notif_method_name
          method_sink TkDone).

Definition register_subscription_with
    (cb : string → nat → (PendingSubscriptionSink → UserFn U unit) →
          Id → Params → MethodSink → SubscriptionState → Extensions → SM (W U) Panicked SubscribeCall)
    (subscribe_name notif_name unsubscribe_name : string) (subscribers : nat)
    (callback : PendingSubscriptionSink → UserFn U unit) self
    : Result RegisterMethodError unit * Methods U :=
  match verify_and_register_unsubscribe subscribe_name unsubscribe_name subscribers self with
  | Err e => (Err e, self)
  | Ok self1 =>
    match Methods.verify_and_insert subscribe_name
            (McSubscription (cb notif_name subscribers callback)) self1 with
    | Err e => (Err e, self1)
    | Ok self2 => (Ok (), self2)
    end
  end.
Definition register_subscription := register_subscription_with subscribe_callback.
Definition register_subscription_raw := register_subscription_with subscribe_raw_callback.

Definition register_alias (alias existing_method : string) self
    : Result RegisterMethodError (Methods U) :=
  _ ← Methods.verify_method_name alias self;
  callback ← ok_or (m_callbacks self !! existing_method) (MethodNotFoundErr existing_method);
  Ok (Methods.set_callbacks (<[alias := callback]> (m_callbacks self)) self).
End Ops.
End RpcModule.

(** [RpcModule] with its context: callbacks are given it when they are registered. *)
Record RpcModule {X : HttpExtensions} (U Context : Type) : Type := MkRpcModule {
  rm_ctx : Context;
  rm_methods : Methods U
}.
Arguments MkRpcModule {X U Context}. Arguments rm_ctx {X U Context}. Arguments rm_methods {X U Context}.
Module WithContext.
Section Ops.
Context {J : SerdeJson} {X : HttpExtensions} {U C : Type}.
Definition from_arc (ctx : C) : RpcModule U C := MkRpcModule ctx Methods.new.
Definition new (ctx : C) : RpcModule U C := from_arc ctx.
Definition remove_context (self : RpcModule U C) : RpcModule U unit := MkRpcModule () (rm_methods self).
Definition into_methods (self : RpcModule U C) : Methods U := rm_methods self.
Definition deref (self : RpcModule U C) : Methods U := rm_methods self.
Definition with_methods (r : Result RegisterMethodError (Methods U)) (self : RpcModule U C)
    : Result RegisterMethodError (RpcModule U C) :=
  methods ← r; Ok (MkRpcModule (rm_ctx self) methods).
Definition register_method {R} `{IntoResponse R} (method_name : string) (callback : C → UserFn U R) (self : RpcModule U C) :=
  with_methods (RpcModule.register_method method_name (callback (rm_ctx self)) (rm_methods self)) self.
Definition register_async_method {R} `{IntoResponse R} (method_name : string) (callback : C → UserFn U R) (self : RpcModule U C) :=
  with_methods (RpcModule.register_async_method method_name (callback (rm_ctx self)) (rm_methods self)) self.
End Ops.
(** What is registered before the context is removed keeps it; what is registered
    afterwards under the same name is refused, and does not replace it. *)
Lemma context_kept {J : SerdeJson} {X : HttpExtensions} {U C R R'} `{IntoResponse R} `{IntoResponse R'} name (ctx : C)
    (callback : C → UserFn U R) (later : unit → UserFn U R') (m m' : RpcModule U C) :
  rm_ctx m = ctx → register_method name callback m = Ok m' →
  m_callbacks (into_methods (remove_context m')) !! name = Some (RpcModule.sync_callback (callback ctx)) ∧
  register_method name later (remove_context m') = Err (AlreadyRegistered name).
Proof.
  intros <-. unfold register_method, RpcModule.register_method, Methods.verify_and_insert, with_methods.
  destruct (m_callbacks (rm_methods m) !! name) eqn:E; [done|]. intros [= <-]. cbn. by rewrite lookup_insert_eq.
Qed.
End WithContext.

(** ** The two halves of a subscribe call *)
Module SubscribeCall.
Section Ops.
Context {J : SerdeJson} {X : HttpExtensions}.
Definition set_accepted (a : Accepted) (c : SubscribeCall) : SubscribeCall :=
  MkSubscribeCall (sc_id c) (sc_rx c) (sc_extensions c) a (sc_sub_id c) (sc_method c) (sc_sink c)
    (sc_task c).
Definition set_task (t : SubTask) (c : SubscribeCall) : SubscribeCall :=
  MkSubscribeCall (sc_id c) (sc_rx c) (sc_extensions c) (sc_accepted c) (sc_sub_id c) (sc_method c)
    (sc_sink c) t.

(** The future of the call; [None] while it waits.  [accepted_tx] is dropped when
    the future ends. *)
Definition poll (c : SubscribeCall) (w : SrvWorld)
    : option (Result Panicked MethodResponse * SubscribeCall) :=
  let close a := match sc_accepted c with AcOpen => a | b => b end in
  match sw_answers w !! sc_rx c with
  | Some (AwSent rp) =>
    let c' := set_accepted (close (if MethodResponse.is_success rp then AcSent else AcDropped)) c in
    Some (Ok (MethodResponse.with_extensions (sc_extensions c) rp), c')
  | Some AwDropped | None =>
    let c' := set_accepted (close AcDropped) c in
    Some (MethodResponse.with_extensions (sc_extensions c) <$>
            MethodResponse.error (sc_id c) (ErrorObject.from InternalError), c')
  | _ => None
  end.
(** The future is dropped before it is ready: the connection went away. *)
Definition cancel (c : SubscribeCall) (w : SrvWorld) : SubscribeCall * SrvWorld :=
  (set_accepted (match sc_accepted c with AcOpen => AcDropped | b => b end) c,
   match sw_answers w !! sc_rx c with
   | Some AwWaiting => set_answers (<[sc_rx c := AwRxDropped]> (sw_answers w)) w
   | _ => w
   end).
(** The user's future ends with [r]. *)
Definition user_done (r : SubscriptionCloseResponse) (c : SubscribeCall) : SubscribeCall :=
  match sc_task c with TkJoin None => set_task (TkJoin (Some r)) c | _ => c end.
(** The task, as far as it gets. *)
Definition task_send (json : string) (c : SubscribeCall) (w : SrvWorld) : SubscribeCall * SrvWorld :=
  match sink_send (sc_sink c) json w with
  | None => (set_task (TkSending json) c, w)
  | Some (_, w') => (set_task TkDone c, w')
  end.
Definition poll_task (c : SubscribeCall) (w : SrvWorld) : Result Panicked (SubscribeCall * SrvWorld) :=
  match sc_task c with
  | TkDone => Ok (c, w)
  | TkSending json => Ok (task_send json c w)
  | TkJoin user =>
    match sc_accepted c, user with
    | AcDropped, _ => Ok (set_task TkDone c, w)
    | AcSent, Some CloseNone => Ok (set_task TkDone c, w)
    | AcSent, Some (CloseNotif msg) =>
      json ← sub_message_to_json msg (sc_sub_id c) (sc_method c); Ok (task_send json c w)
    | AcSent, Some (CloseNotifErr err) =>
      json ← sub_err_to_json err (sc_sub_id c) (sc_method c); Ok (task_send json c w)
    | _, _ => Ok (c, w)
    end
  end.
End Ops.
End SubscribeCall.

(** ** Calls without a server

    [Methods::call] and its companions run a method directly.  An [await] on a
    subscribe call runs other tasks; [rest] is what they have done when the call
    is woken.  A call that is never woken ends in [StForever]. *)
Inductive MethodsError : Type :=
| MeParse (text : string)
| MeJsonRpc (e : ErrorObject)
| MeInvalidSubscriptionId (s : string).
Inductive Stop : Type := StPanic | StForever.

Section Direct.
Context {J : SerdeJson} {X : HttpExtensions} {XC : ExtKey ConnectionId} {U : Type}.
Context (rest : SubscribeCall → W U → W U).

Definition panics {A} (m : SM (W U) Panicked A) : SM (W U) Stop A := sm_catch m (λ _, StPanic).
Definition await (c : SubscribeCall) : SM (W U) Stop MethodResponse := λ w,
  let w' := rest c w in
  match SubscribeCall.poll c (fst w') with
  | Some (r, _) => (map_err (λ _, StPanic) r, w')
  | None => (Err StForever, w')
  end.

(** [mock_subscription_permit] and [mpsc::channel]. *)
Definition mock_permit (w : SrvWorld) : nat * SrvWorld :=
  let h := fresh (dom (sw_semaphores w)) in
  (h, set_semaphores (<[h := MkSemaphore 1 0]> (sw_semaphores w)) w).
Definition new_chan (cap : nat) (w : SrvWorld) : nat * SrvWorld :=
  let h := fresh (dom (sw_chans w)) in
  (h, set_chans (<[h := MkConnChan cap [] false]> (sw_chans w)) w).
(** [rx.recv()]: nothing when the channel is empty. *)
Definition recv (h : nat) (w : SrvWorld) : option (string * SrvWorld) :=
  let c := get_chan h w in
  match cc_queue c with
  | [] => None
  | m :: q => Some (m, set_chans (<[h := MkConnChan (cc_cap c) q (cc_closed c)]> (sw_chans w)) w)
  end.
(** The sender of the channel stays alive in [inner_call]: without a message it
    waits for ever. *)
Definition recv_one (h : nat) : SM (W U) Stop unit := λ w,
  match recv h (fst w) with
  | Some (_, s) => (Ok (), (s, snd w))
  | None => (Err StForever, w)
  end.

(** The text of the response, the notification about it, the channel. *)
Definition inner_call (self : Methods U) (req : Request) (buf_size : nat) (permit : nat)
    (random : N) : SM (W U) Stop (string * option (nat * NotifyMsg) * nat) :=
  if decide (buf_size = 0) then sm_throw StPanic else
  tx ← panics (srv (new_chan buf_size));
  let params := params_new (rq_params req) in
  let max_response_size := usize_max in
  let conn_id : ConnectionId := 0%N in
  let ext := ext_insert conn_id (m_extensions self) in
  let id := rq_id req in
  response ←
    match Methods.method (rq_method req) self with
    | None => panics (sm_result (MethodResponse.error id (ErrorObject.from MethodNotFound)))
    | Some (McSync cb) => panics (cb id params max_response_size ext)
    | Some (McAsync cb) =>
      panics (cb (Id.into_owned id) (params_into_owned params) conn_id max_response_size ext)
    | Some (McSubscription cb) =>
      let conn_state := MkSubscriptionState conn_id (IdProvider.random_integer random) permit in
      c ← panics (cb id params (method_sink_new tx) conn_state ext);
      res ← await c;
      _ ← recv_one tx;
      mret res
    | Some (McUnsubscription cb) => panics (cb id params conn_id max_response_size ext)
    end;
  let is_success := MethodResponse.is_success response in
  let '(rp, notif, _) := MethodResponse.into_parts response in
  mret (rp, (λ n, (n, notify is_success)) <$> notif, tx).

(** [params] is the outcome of [to_rpc_params]. *)
Definition call {T} (de : string → option T) (self : Methods U) (method : string)
    (params : Result string (option string)) (random : N) : SM (W U) Stop (Result MethodsError T) :=
  match params with
  | Err e => mret (Err (MeParse e))
  | Ok params =>
    let req := request_new method params (IdNumber 0) in
    permit ← panics (srv mock_permit);
    '(rp, _, _) ← inner_call self req 1 permit random;
    mret (rp ← ok_or (response_deserialize de rp) (MeParse (json_errmsg rp));
          sc_result <$> map_err MeJsonRpc (success_try_from rp))
  end.
Definition raw_json_request (self : Methods U) (request : string) (buf_size : nat) (random : N)
    : SM (W U) Stop (Result string (string * nat)) :=
  match request_deserialize request with
  | None => mret (Err (json_errmsg request))
  | Some req =>
    permit ← panics (srv mock_permit);
    '(resp, _, rx) ← inner_call self req buf_size permit random;
    mret (Ok (resp, rx))
  end.

(** [Subscription], for tests of modules. *)
Record DirectSubscription : Type := MkDirectSubscription { ds_rx : nat; ds_sub_id : SubscriptionId }.
Definition subscribe (self : Methods U) (sub_method : string) (params : Result string (option string))
    (buf_size : nat) (random : N) : SM (W U) Stop (Result MethodsError DirectSubscription) :=
  match params with
  | Err e => mret (Err (MeParse e))
  | Ok params =>
    let req := request_new sub_method params (IdNumber 0) in
    permit ← panics (srv mock_permit);
    '(resp, _, rx) ← inner_call self req buf_size permit random;
    mret (rp ← ok_or (response_deserialize de_raw resp) (MeParse (json_errmsg resp));
          as_success ← map_err MeJsonRpc (success_try_from rp);
          let raw := sc_result as_success in
          sub_id ← ok_or (SubscriptionId.deserialize raw) (MeParse (json_errmsg raw));
          Ok (MkDirectSubscription rx (SubscriptionId.into_owned sub_id)))
  end.
Definition subscribe_unbounded (self : Methods U) (sub_method : string)
    (params : Result string (option string)) (random : N) :=
  subscribe self sub_method params (N.to_nat u32_max) random.

(** [close]: the receiver takes no new messages. *)
Definition ds_close (s : DirectSubscription) (w : SrvWorld) : SrvWorld :=
  let c := get_chan (ds_rx s) w in
  set_chans (<[ds_rx s := MkConnChan (cc_cap c) (cc_queue c) true]> (sw_chans w)) w.
(** [next] on a message: the outer option is the end of the stream. *)
Definition ds_decode {T} (de : string → option T) (raw : string)
    : option (Result MethodsError (T * SubscriptionId)) :=
  match subscription_response_deserialize de raw with
  | Some r => Some (Ok (sp_value (nf_params r), SubscriptionId.into_owned (sp_subscription (nf_params r))))
  | None =>
    match subscription_error_deserialize de_raw raw with
    | Some _ => None
    | None => Some (Err (MeParse (json_errmsg raw)))
    end
  end.
(** [None] while nothing has arrived. *)
Definition ds_next {T} (de : string → option T) (s : DirectSubscription) (w : SrvWorld)
    : option (option (Result MethodsError (T * SubscriptionId)) * SrvWorld) :=
  match recv (ds_rx s) w with
  | Some (raw, w') => Some (ds_decode de raw, w')
  | None => if cc_closed (get_chan (ds_rx s) w) then Some (None, w) else None
  end.
End Direct.

(** ** Registration *)
Section Registration.
Context {J : SerdeJson} {X : HttpExtensions} {U : Type}.
Implicit Types self other m : Methods U.

Lemma vacant_spec self name : vacant (m_callbacks self) name = true ↔ m_callbacks self !! name = None.
Proof. unfold vacant. by destruct (_ !! _). Qed.

Lemma verify_all_spec names self :
  match Methods.verify_all names self with
  | Ok _ => Forall (λ n, m_callbacks self !! n = None) names
  | Err e => ∃ n, e = AlreadyRegistered n ∧ n ∈ names ∧ is_Some (m_callbacks self !! n)
  end.
Proof.
  induction names as [|n names IH]; cbn; [constructor|].
  unfold Methods.verify_method_name. destruct (vacant _ n) eqn:E; cbn.
  - apply vacant_spec in E. destruct (Methods.verify_all names self); [by constructor|].
    destruct IH as (n' & -> & ? & ?). exists n'. split; [done|]. split; [by right|done].
  - exists n. split; [done|]. split; [by left|]. unfold vacant in E.
    destruct (m_callbacks self !! n); [by eexists|done].
Qed.

Lemma foldl_insert_union {A} (l : list (string * A)) (m : gmap string A) :
  NoDup l.*1 → foldl (λ cs kv, <[kv.1 := kv.2]> cs) m l = list_to_map l ∪ m.
Proof.
  revert m. induction l as [|[k v] l IH]; intros m; cbn; [by rewrite (left_id ∅ _)|].
  intros [Hk Hnd]%NoDup_cons. rewrite IH by done. rewrite <-insert_union_l, <-insert_union_r; [done|].
  by apply not_elem_of_list_to_map_1.
Qed.

(** Merging registers all methods of the other module or none: it succeeds
    iff no name is taken, the result then has exactly the methods of both, and a
    failure names a method that both have. *)
Theorem merge_all_or_none self other :
  match Methods.merge other self with
  | Ok m =>
    m_callbacks self ##ₘ m_callbacks other ∧
    (∀ name, Methods.method name m =
       match Methods.method name self with Some cb => Some cb | None => Methods.method name other end) ∧
    m_extensions m = m_extensions self
  | Err e => ∃ name, e = AlreadyRegistered name ∧
      is_Some (Methods.method name self) ∧ is_Some (Methods.method name other)
  end.
Proof.
  unfold Methods.merge, Methods.method. pose proof (verify_all_spec (map_to_list (m_callbacks other)).*1 self) as H.
  destruct (Methods.verify_all _ _) as [[]|e]; cbn.
  - assert (m_callbacks self ##ₘ m_callbacks other) as Hd.
    { apply map_disjoint_spec. intros n x y Hx Hy. rewrite Forall_forall in H.
      rewrite (H n) in Hx; [done|]. apply list_elem_of_fmap. exists (n, y). split; [done|].
      by apply elem_of_map_to_list. }
    split; [done|]. split; [|done]. intros n.
    rewrite foldl_insert_union by apply NoDup_fst_map_to_list. rewrite list_to_map_to_list.
    rewrite map_union_comm by done. rewrite lookup_union.
    by destruct (m_callbacks self !! n), (m_callbacks other !! n).
  - destruct H as (n & -> & Hn & Hs). exists n. split; [done|]. split; [done|].
    apply list_elem_of_fmap in Hn as ([n' cb] & -> & Hin). apply elem_of_map_to_list in Hin. by eexists.
Qed.

(** A subscription is registered with both its methods or not at all: the
    subscribe and the unsubscribe name differ and are free, both methods then
    share the table of subscribers, every other method stays, and an error leaves
    the module as it was. *)
Theorem subscription_registered_both_or_none (sub notif unsub : string) (tbl : nat) callback self :
  let '(r, m) := RpcModule.register_subscription sub notif unsub tbl callback self in
  match r with
  | Ok _ =>
    sub ≠ unsub ∧ Methods.method sub self = None ∧ Methods.method unsub self = None ∧
    Methods.method sub m = Some (McSubscription (RpcModule.subscribe_callback notif tbl callback)) ∧
    Methods.method unsub m = Some (McUnsubscription (RpcModule.unsubscribe_callback tbl)) ∧
    (∀ name, name ≠ sub → name ≠ unsub → Methods.method name m = Methods.method name self)
  | Err e =>
    m = self ∧ (e = SubscriptionNameConflict sub ∧ sub = unsub ∨
      (∃ name, e = AlreadyRegistered name ∧ (name = sub ∨ name = unsub) ∧
         is_Some (Methods.method name self)))
  end.
Proof.
  unfold RpcModule.register_subscription, RpcModule.register_subscription_with.
  unfold RpcModule.verify_and_register_unsubscribe, Methods.verify_method_name, Methods.verify_and_insert,
    Methods.method, vacant.
  case_decide as Hne; [subst; split; [done|]; by left|].
  destruct (m_callbacks self !! sub) as [cb|] eqn:Es; cbn;
    [split; [done|]; right; exists sub; rewrite Es; eauto|].
  destruct (m_callbacks self !! unsub) as [cb|] eqn:Eu; cbn;
    [split; [done|]; right; exists unsub; rewrite Eu; eauto|].
  rewrite lookup_insert_ne, Es by done. cbn. split_and!; try done.
  - by rewrite lookup_insert_eq.
  - by rewrite lookup_insert_ne, lookup_insert_eq by done.
  - intros. by rewrite !lookup_insert_ne by done.
Qed.
End Registration.

(** ** Unsubscribe and subscribe calls *)
Section Calls.
Context {J : SerdeJson} {X : HttpExtensions} {XC : ExtKey ConnectionId} {U : Type}.

(** C16: an unsubscribe call with a subscription identifier ends exactly the
    subscription with that identifier of the method and of the connection the
    call came from: the answer is [true] iff it was active, its sinks send nothing
    any more, no other subscription is touched, in particular none of another
    connection, and a second call is answered [false]. *)
Theorem unsubscribe_call_exact (w0 : SrvWorld) (s : Sys) (u : U) (tbl : nat) (id : Id)
    (params : Params) (sub_id : SubscriptionId) (conn_id : ConnectionId) (max : N) (ext : Extensions) :
  sw_active w0 = ∅ → sw_subscribers w0 = ∅ → rtc sys_step (MkSys w0 [] []) s →
  one (λ raw, ok_or (SubscriptionId.deserialize raw) (json_errmsg raw)) params = Ok sub_id →
  let key := MkSubscriptionKey conn_id sub_id in
  let call w := RpcModule.unsubscribe_callback tbl id params conn_id max ext w in
  let answer b := MethodResponse.response SerBool id (MrPayload.success b) max in
  ∃ ok w', call (sy_world s, u) = (answer ok, (w', u)) ∧
    (ok = true ↔ ∃ sink, sink ∈ sy_sinks s ∧ ss_subscribers sink = tbl ∧ ss_uniq_sub sink = key ∧
       is_active_subscription sink (sy_world s) = true) ∧
    (∀ sink, sink ∈ sy_sinks s → ss_subscribers sink = tbl → ss_uniq_sub sink = key →
       ∀ msg, sub_send sink msg w' = Ok (Some (Err (Disconnect msg), w'))) ∧
    (∀ sink, sink ∈ sy_sinks s → ss_subscribers sink ≠ tbl ∨ ss_uniq_sub sink ≠ key →
       is_active_subscription sink w' = is_active_subscription sink (sy_world s)) ∧
    fst (call (w', u)) = answer false.
Proof.
  intros Ha Hs Hr Hp key call answer.
  pose proof (remove_subscriber_exact w0 s tbl key Ha Hs Hr) as H.
  destruct (remove_subscriber tbl key (sy_world s)) as [ok w'] eqn:Er.
  destruct H as (H1 & H2 & H3 & H4). exists ok, w'.
  assert (∀ w b w2, remove_subscriber tbl key w = (b, w2) → call (w, u) = (answer b, (w2, u))) as Hc.
  { intros w b w2 E. unfold call, RpcModule.unsubscribe_callback. rewrite Hp.
    replace (SubscriptionId.into_owned sub_id) with sub_id by (by destruct sub_id). fold key.
    unfold mbind, SM_bind, srv; cbn. by rewrite E. }
  split; [by apply Hc|]. split; [done|]. split; [|split].
  - intros sink Hin Et Ek msg. by apply H2.
  - intros sink Hin Hne. apply H3; [done|]. naive_solver.
  - destruct (remove_subscriber tbl key w') as [b w2] eqn:E. cbn in H4. subst b.
    by rewrite (Hc _ _ _ E).
Qed.

(** What [accept] and [reject] leave in the oneshot and in the channel. *)
Lemma sink_send_answers s msg w r w' : sink_send s msg w = Some (r, w') → sw_answers w' = sw_answers w.
Proof. unfold sink_send, sink_try_send. repeat case_match; intros; by simplify_eq. Qed.
Lemma release_answers h w : sw_answers (release h w) = sw_answers w.
Proof. unfold release. by case_match. Qed.
Lemma sink_send_ok s msg w w' : sink_send s msg w = Some (Ok (), w') → w' = enqueue s msg w.
Proof. unfold sink_send, sink_try_send. repeat case_match; intros; by simplify_eq. Qed.

Lemma accept_answer p w sink w' : accept p w = Some (Ok sink, w') →
  ∃ rp, accept_response p = Ok rp ∧ MethodResponse.is_success rp = true ∧
    sw_answers w' !! ps_subscribe p = Some (AwSent rp) ∧
    sw_chans w' = sw_chans (enqueue (ps_inner p) (mr_json rp) w).
Proof.
  unfold accept. destruct (accept_response p) as [rp|]; [|done].
  destruct (sink_send _ _ _) as [[[[]|[]] w1]|] eqn:Es; try done.
  pose proof (sink_send_answers _ _ _ _ _ Es) as Ea. apply sink_send_ok in Es as ->.
  unfold answer_send. destruct (sw_answers _ !! _) as [[]|] eqn:E; try done.
  destruct (MethodResponse.is_success rp) eqn:Hs; [|done]. intros [= <- <-].
  exists rp. split_and!; [done|done| |done]. cbn. apply lookup_insert_eq.
Qed.
Lemma reject_answer p err w w' : sw_answers w !! ps_subscribe p = Some AwWaiting →
  reject p err w = Ok (Some w') →
  ∃ rp, MethodResponse.subscription_error (ps_id p) err = Ok rp ∧
    sw_answers w' !! ps_subscribe p = Some (AwSent rp).
Proof.
  intros Hw. unfold reject. destruct (MethodResponse.subscription_error _ _) as [rp|]; [|done]. cbn.
  destruct (sink_send _ _ _) as [[r w1]|] eqn:Es; [|done]. apply sink_send_answers in Es.
  unfold answer_send. rewrite Es, Hw. intros [= <-].
  exists rp. split; [done|]. rewrite release_answers. cbn. apply lookup_insert_eq.
Qed.
Lemma subscription_error_code id err rp : MethodResponse.subscription_error id err = Ok rp →
  MethodResponse.as_error_code rp = Some (ErrorObject.code err) ∧
  MethodResponse.is_subscription rp = true ∧ MethodResponse.is_success rp = false.
Proof.
  unfold MethodResponse.subscription_error, MethodResponse.error.
  destruct (error_json _ _); [|done]. by intros [= <-].
Qed.

(** C28: a subscribe call is answered by what the user does with the pending sink,
    and only an accepted subscription gets a closing notification.  Accepted: the
    answer is the text already written to the connection, and when the user's
    future ends with a message, exactly its notification is sent.  Rejected: the
    error of the user.  Dropped: an internal error.  In the last two cases the
    task ends without a word. *)
Theorem subscribe_call_outcomes (c : SubscribeCall) (p : PendingSubscriptionSink) (w w' : SrvWorld)
    (r : SubscriptionCloseResponse) :
  sc_rx c = ps_subscribe p → sw_answers w !! ps_subscribe p = Some AwWaiting →
  sc_accepted c = AcOpen → sc_task c = TkJoin (Some r) →
  (∀ sink, accept p w = Some (Ok sink, w') →
     ∃ rp c', SubscribeCall.poll c w' = Some (Ok rp, c') ∧ MethodResponse.is_success rp = true ∧
       cc_queue (get_chan (ms_tx (ps_inner p)) w') =
         cc_queue (get_chan (ms_tx (ps_inner p)) w) ++ [mr_json rp] ∧
       SubscribeCall.poll_task c' w' =
         match r with
         | CloseNone => Ok (SubscribeCall.set_task TkDone c', w')
         | CloseNotif m => (λ json, SubscribeCall.task_send json c' w') <$>
             sub_message_to_json m (sc_sub_id c) (sc_method c)
         | CloseNotifErr e => (λ json, SubscribeCall.task_send json c' w') <$>
             sub_err_to_json e (sc_sub_id c) (sc_method c)
         end) ∧
  (∀ err, reject p err w = Ok (Some w') →
     ∃ rp c', SubscribeCall.poll c w' = Some (Ok rp, c') ∧
       MethodResponse.as_error_code rp = Some (ErrorObject.code err) ∧
       SubscribeCall.poll_task c' w' = Ok (SubscribeCall.set_task TkDone c', w')) ∧
  (w' = pending_drop p w →
     ∃ e c', SubscribeCall.poll c w' = Some (e, c') ∧
       e = MethodResponse.with_extensions (sc_extensions c) <$>
             MethodResponse.error (sc_id c) (ErrorObject.from InternalError) ∧
       SubscribeCall.poll_task c' w' = Ok (SubscribeCall.set_task TkDone c', w')).
Proof.
  intros Erx Hw Ha Ht. split; [|split].
  - intros sink (rp & _ & Hs & Hr & Hch)%accept_answer.
    unfold SubscribeCall.poll. rewrite Erx, Hr, Ha, Hs.
    eexists _, _. split; [done|]. split; [done|]. split.
    + unfold get_chan. rewrite Hch. unfold enqueue; cbn. by rewrite lookup_insert_eq.
    + unfold SubscribeCall.poll_task; cbn. rewrite Ht. destruct r as [|m|e]; [done|..];
        by destruct (_ : Result Panicked string).
  - intros err (rp & (Hc & _ & Hf)%subscription_error_code & Hr)%reject_answer; [|done].
    unfold SubscribeCall.poll. rewrite Erx, Hr, Ha, Hf.
    eexists _, _. split; [done|]. split; [done|]. unfold SubscribeCall.poll_task; cbn. by rewrite Ht.
  - intros ->. unfold SubscribeCall.poll, pending_drop, answer_drop.
    rewrite Erx, release_answers, Hw. cbn. rewrite lookup_insert_eq, Ha.
    eexists _, _. split; [done|]. split; [done|]. unfold SubscribeCall.poll_task; cbn. by rewrite Ht.
Qed.
End Calls.

(** ** Direct calls *)
Section DirectCalls.
Context {J : SerdeJson} {X : HttpExtensions} {XC : ExtKey ConnectionId} {U : Type}.
Context (rest : SubscribeCall → W U → W U).

Lemma respond_text {R T} `{IntoResponse R} (ser : T → Ser) (p : ResponsePayload T) callback id params max ext
    (w w' : W U) (r : R) :
  let s := response_serialize ser (response_new p id) in
  callback params ext w = (Ok r, w') → mp_inner (into_response r) = payload_map ser p →
  faithful s → events_text (json_events s) = (text_of s, true) → (slen (text_of s) <= max)%N →
  ∃ m, RpcModule.respond callback id params max ext w = (Ok m, w') ∧ mr_json m = text_of s ∧
    mr_kind m = RkMethodCall.
Proof.
  intros s Hcb Hp F He Hl. unfold RpcModule.respond, mbind, SM_bind. rewrite Hcb. unfold sm_result.
  assert (doc serialize id (into_response r) = (text_of s, true)) as Hd.
  { unfold doc. rewrite Hp. rewrite <-He. unfold s. by destruct p. }
  erewrite response_fits; [|exact Hd|done|].
  - by eexists.
  - unfold s, response_serialize in *. destruct (faithful_map _ F) as [-> _]. by eexists.
Qed.

(** The registrations a call finds without a panic of its own. *)
Definition callbacks_of {R} `{IntoResponse R} (callback : UserFn U R) : list (option (MethodCallback U)) :=
  Some <$> [RpcModule.sync_callback callback; RpcModule.async_callback callback;
            RpcModule.blocking_callback callback].
Lemma plain_callbacks {R} `{IntoResponse R} (callback : UserFn U R) (o : option (MethodCallback U)) :
  o = Some (McSync (λ id ps max x, RpcModule.respond callback id ps max x)) ∨
    o = Some (McAsync (λ id ps _ max x, RpcModule.respond callback id ps max x)) →
  o ∈ callbacks_of callback.
Proof. intros [-> | ->]; [by left|right; by left]. Qed.
Lemma call_registered {R T} `{IntoResponse R} (ser : T → Ser) (de : string → option T)
    (self : Methods U) (name : string) (callback : UserFn U R) (ps : option string) (random : N)
    (w w' : W U) (r : R) (p : ResponsePayload T) :
  let s := response_serialize ser (response_new p (IdNumber 0)) in
  let ext := ext_insert (0%N : ConnectionId) (m_extensions self) in
  let w1 := (snd (new_chan 1 (snd (mock_permit (fst w)))), snd w) in
  Methods.method name self ∈ callbacks_of callback →
  callback (params_new ps) ext w1 = (Ok r, w') → mp_inner (into_response r) = payload_map ser p →
  faithful s → events_text (json_events s) = (text_of s, true) → (slen (text_of s) <= usize_max)%N →
  payload_ok ser de p →
  call rest de self name (Ok ps) random w =
    (Ok (match p with Success t => Ok t | PayloadError e => Err (MeJsonRpc e) end), w').
Proof.
  intros s ext w1 Hreg Hcb Hp F He Hl Hok. unfold callbacks_of in Hreg. cbn in Hreg. rewrite !elem_of_cons in Hreg.
  pose proof (respond_text ser p callback (IdNumber 0) (params_new ps) usize_max ext w1 w' r Hcb Hp F He Hl)
    as (m & Hm & Hj & _).
  unfold call, mbind, SM_bind, panics, srv, sm_catch.
  destruct (mock_permit (fst w)) as [permit w0] eqn:E0. cbn [fst snd map_err].
  unfold inner_call. rewrite decide_False by done.
  unfold mbind, SM_bind, panics, srv, sm_catch. cbn [fst snd].
  destruct (new_chan 1 w0) as [tx w2] eqn:E1. cbn [fst snd map_err].
  change (rq_method (request_new name ps (IdNumber 0))) with name.
  assert ((w2, snd w) = w1) as -> by (unfold w1; cbn [snd]; by rewrite E1).
  assert (response_deserialize de (text_of s) = Some (on_wire (response_new p (IdNumber 0)))) as Hdec.
  { apply response_decode; [done|vm_compute; discriminate|done]. }
  destruct Hreg as [-> | [-> | [-> | []%elem_of_nil]]]; cbn [RpcModule.sync_callback RpcModule.async_callback RpcModule.blocking_callback rq_id rq_params request_new Id.into_owned];
    change (params_into_owned (params_new ps)) with (params_new ps); fold ext; rewrite Hm;
    cbn [map_err MethodResponse.into_parts]; rewrite Hj; fold s; cbn;
    rewrite Hdec; unfold on_wire; destruct p as [t|[]]; done.
Qed.

(** Calling a registered method without a server gives its result back: the
    value or the error the callback returned, after it went through the text of a
    response, with the effects of the callback and no others. *)
Theorem direct_call_returns {R T} `{IntoResponse R} (ser : T → Ser) (de : string → option T)
    (self : Methods U) (name : string) (callback : UserFn U R) (ps : option string) (random : N)
    (w w' : W U) (r : R) (p : ResponsePayload T) :
  let s := response_serialize ser (response_new p (IdNumber 0)) in
  let ext := ext_insert (0%N : ConnectionId) (m_extensions self) in
  let w1 := (snd (new_chan 1 (snd (mock_permit (fst w)))), snd w) in
  RpcModule.register_method name callback Methods.new = Ok self ∨
    RpcModule.register_async_method name callback Methods.new = Ok self →
  callback (params_new ps) ext w1 = (Ok r, w') → mp_inner (into_response r) = payload_map ser p →
  faithful s → events_text (json_events s) = (text_of s, true) → (slen (text_of s) <= usize_max)%N →
  payload_ok ser de p →
  call rest de self name (Ok ps) random w =
    (Ok (match p with Success t => Ok t | PayloadError e => Err (MeJsonRpc e) end), w').
Proof.
  intros s ext w1 Hreg. apply call_registered.
  assert (∀ c, Methods.verify_and_insert name c Methods.new = Ok self → Methods.method name self = Some c) as Hi.
  { intros c. unfold Methods.verify_and_insert. cbn. rewrite lookup_empty. intros [= <-]. cbn.
    apply lookup_insert_eq. }
  apply plain_callbacks. destruct Hreg as [Hreg|Hreg]; [left|right]; exact (Hi _ Hreg).
Qed.
End DirectCalls.

(** ** Witnesses *)
Section ModuleWitnesses.
#[local] Existing Instance ref_json.
#[local] Existing Instance ref_ext.

(** The connection is kept as a string with its number. *)
#[local] Instance ref_conn_key : ExtKey ConnectionId := {|
  ext_get := λ l, head l ≫= parse_u64;
  ext_insert := λ c (l : list string), to_dec c :: l
|}.

Lemma unsubscribe_call_exact_witness :
  ∃ w', RpcModule.unsubscribe_callback (U := unit) 0 (IdNumber 5) (params_new (Some "[3]")) 7%N 100 []
      (ex_accepted, ()) =
    (MethodResponse.response SerBool (IdNumber 5) (MrPayload.success true) 100, (w', ())).
Proof.
  destruct (unsubscribe_call_exact ex_world (MkSys ex_accepted [] [ex_sink]) () 0 (IdNumber 5)
    (params_new (Some "[3]")) (SubNum 3) 7%N 100 [] eq_refl eq_refl ex_reach) as (ok & w' & E & H & _).
  - vm_compute. reflexivity.
  - exists w'. cbn [sy_world] in E. rewrite E. f_equal. replace ok with true; [reflexivity|].
    symmetry. apply H. exists ex_sink. split; [by left|]. split; [done|]. split; [done|].
    vm_compute. reflexivity.
Defined.

Definition ex_call : SubscribeCall :=
  MkSubscribeCall (IdNumber 1) 0 [] AcOpen (SubNum 3) "tick" (method_sink_new 0)
    (TkJoin (Some (CloseNotif (NeedsData "9")))).
Lemma subscribe_call_outcomes_witness :
  ∃ rp c', SubscribeCall.poll ex_call ex_accepted = Some (Ok rp, c') ∧
    SubscribeCall.poll_task c' ex_accepted =
      (λ json, SubscribeCall.task_send json c' ex_accepted) <$>
        sub_message_to_json (NeedsData "9") (SubNum 3) "tick".
Proof.
  destruct (subscribe_call_outcomes ex_call ex_pending ex_taken ex_accepted (CloseNotif (NeedsData "9"))
    eq_refl ltac:(vm_compute; reflexivity) eq_refl eq_refl) as (H & _).
  destruct (H _ ex_accept) as (rp & c' & E1 & _ & _ & E2). exists rp, c'. split; [exact E1|exact E2].
Defined.

(** A module with one method that adds one to its parameter. *)
Definition ex_inc : UserFn unit (Result ErrorObject Ser) := λ params _,
  mret (SerInt ∘ Z.succ <$> one (λ raw, ok_or (de_i32 raw) (json_errmsg raw)) params).
Definition ex_module : Methods unit :=
  default Methods.new (result_ok (RpcModule.register_method "inc" ex_inc Methods.new)).
Lemma direct_call_returns_witness :
  call (λ _ w, w) de_i32 ex_module "inc" (Ok (Some "[41]")) 0 (ex_world, ()) =
    (Ok (Ok 42%Z), (snd (new_chan 1 (snd (mock_permit ex_world))), ())).
Proof.
  apply (direct_call_returns (λ _ w, w) SerInt de_i32 ex_module "inc" ex_inc (Some "[41]") 0
    (ex_world, ()) _ (Ok (SerInt 42)) (Success 42%Z)).
  - left. reflexivity.
  - vm_compute. reflexivity.
  - reflexivity.
  - vm_compute. repeat (split; eauto).
  - vm_compute. reflexivity.
  - vm_compute. discriminate.
  - vm_compute. reflexivity.
Defined.

(** A subscription whose callback drops the pending sink: the call itself is
    answered, but the direct call waits for a message that never comes. *)
Definition ex_dropping : Methods unit :=
  snd (RpcModule.register_subscription "sub" "notif" "unsub" 0
    (λ p _ _, srv (λ w, ((), pending_drop p w))) Methods.new).
Example direct_subscribe_dropped_waits :
  fst (subscribe (λ _ w, w) ex_dropping "sub" (Ok None) 4 0 (ex_world, ())) = Err StForever.
Proof. vm_compute. reflexivity. Qed.
End ModuleWitnesses.
