(* ===== verification/RpcService.v ===== *)
(** The service of the server and the entry of a message:
    [server/src/middleware/rpc.rs], [handle_rpc_call] of [server/src/server.rs] and
    [deserialize_with_ext] of [server/src/utils.rs].

    [RpcServiceT] is what the transports need from a service; the middleware a
    user puts around it implements the same interface.  [RpcService] is the
    implementation that runs the registered methods. *)
From stdpp Require Import base gmap strings list.
From S2P Require Import Prelude Serde RefJson Errors Params Wire Middleware MethodResponse Subscription RpcModule.

(** A service on the state [S]; [Stop] is a panic or a call nobody answers. *)
Class RpcServiceT {J : SerdeJson} {X : HttpExtensions} (S : Type) := {
  svc_call : Request → SM S Stop MethodResponse;
  svc_batch : Batch → SM S Stop MethodResponse;
  svc_notification : MwNotification → SM S Stop MethodResponse
}.

Section Service.
Context {J : SerdeJson} {X : HttpExtensions} {U : Type}.
Context (rest : SubscribeCall → W U → W U).

Inductive RpcServiceCfg : Type :=
| OnlyCalls
| CallsAndSubscriptions (bounded_subscriptions : nat) (sink : MethodSink)
    (next_id : SM (W U) Panicked SubscriptionId).
Record RpcService : Type := MkRpcService {
  rs_conn_id : ConnectionId;
  rs_methods : Methods U;
  rs_max_response_body_size : N;
  rs_cfg : RpcServiceCfg
}.

Definition result_panics {A} (r : Result Panicked A) : SM (W U) Stop A := panics (sm_result r).
(** An error response that carries the extensions of the request. *)
Definition error_ext (id : Id) (err : ErrorObject) (ext : Extensions) : SM (W U) Stop MethodResponse :=
  result_panics (MethodResponse.with_extensions ext <$> MethodResponse.error id err).

Definition service_call (s : RpcService) (req : Request) : SM (W U) Stop MethodResponse :=
  let conn_id := rs_conn_id s in
  let max_response_body_size := rs_max_response_body_size s in
  let id := rq_id req in
  let extensions := rq_extensions req in
  let params := params_new (rq_params req) in
  match Methods.method_with_name (rq_method req) (rs_methods s) with
  | None => error_ext id (ErrorObject.from MethodNotFound) extensions
  | Some (_, method) =>
    match method with
    | McAsync callback =>
      panics (callback (Id.into_owned id) (params_into_owned params) conn_id max_response_body_size extensions)
    | McSync callback => panics (callback id params max_response_body_size extensions)
    | McSubscription callback =>
      match rs_cfg s with
      | OnlyCalls => error_ext id (ErrorObject.from InternalError) extensions
      | CallsAndSubscriptions bounded_subscriptions sink next_id =>
        p ← panics (srv (acquire bounded_subscriptions));
        match p with
        | Some p =>
          sub_id ← panics next_id;
          c ← panics (callback id params sink (MkSubscriptionState conn_id sub_id p) extensions);
          await rest c
        | None => λ w,
          let max := bounded_max bounded_subscriptions (fst w) in
          error_ext id (reject_too_many_subscriptions max) extensions w
        end
      end
    | McUnsubscription callback =>
      match rs_cfg s with
      | OnlyCalls => error_ext id (ErrorObject.from InternalError) extensions
      | CallsAndSubscriptions _ _ _ =>
        panics (callback id params conn_id max_response_body_size extensions)
      end
    end
  end.

Definition service_notification (n : MwNotification) : SM (W U) Stop MethodResponse :=
  mret (MethodResponse.with_extensions (nf_extensions n) MethodResponse.notification).

(** The loop of [batch]: an early answer, or the builder and whether there was a
    notification. *)
Fixpoint batch_loop (call : Request → SM (W U) Stop MethodResponse)
    (entries : list (Result BatchEntryErr BatchEntry)) (batch_rp : BatchResponseBuilder)
    (got_notification : bool)
    : SM (W U) Stop (MethodResponse + BatchResponseBuilder * bool) :=
  let append rp k : SM (W U) Stop (MethodResponse + BatchResponseBuilder * bool) :=
    '(r, b) ← result_panics (BatchResponseBuilder.append rp batch_rp);
    match r with Err err => mret (inl err) | Ok _ => k b end in
  match entries with
  | [] => mret (inr (batch_rp, got_notification))
  | Ok (BeCall req) :: es =>
    rp ← call req;
    append rp (λ b, batch_loop call es b got_notification)
  | Ok (BeNotification n) :: es =>
    _ ← service_notification n;
    batch_loop call es batch_rp true
  | Err e :: es =>
    '(err, id) ← result_panics (BatchEntryErr.into_parts e);
    rp ← result_panics (MethodResponse.error id err);
    append rp (λ b, batch_loop call es b got_notification)
  end.
Definition service_batch (s : RpcService) (batch : Batch) : SM (W U) Stop MethodResponse :=
  r ← batch_loop (service_call s) (b_inner batch)
        (BatchResponseBuilder.new_with_limit (rs_max_response_body_size s)) false;
  match r with
  | inl err => mret err
  | inr (batch_rp, got_notification) =>
    if BatchResponseBuilder.is_empty batch_rp && got_notification
    then mret MethodResponse.notification
    else rp ← result_panics (BatchResponseBuilder.finish batch_rp);
         mret (MethodResponse.from_batch rp)
  end.

(** The service as the transports see it. *)
Definition rpc_service (s : RpcService) : RpcServiceT (W U) := {|
  svc_call := service_call s;
  svc_batch := service_batch s;
  svc_notification := service_notification
|}.
End Service.
Arguments RpcServiceCfg {X} U. Arguments RpcService {X} U.

(** ** The entry of a message *)
Inductive BatchRequestConfig : Type := BrcDisabled | BrcLimit (limit : N) | BrcUnlimited.
#[export] Instance BatchRequestConfig_eq_dec : EqDecision BatchRequestConfig.
Proof. solve_decision. Defined.

Section Entry.
Context {J : SerdeJson} {X : HttpExtensions}.

(** [deserialize_with_ext::call] and [notif]. *)
Definition call_from_slice (data : string) (extensions : Extensions) : option Request :=
  req ← request_deserialize data;
  Some (MkRequest (rq_jsonrpc req) (rq_id req) (rq_method req) (rq_params req) extensions).
Definition notif_from_slice (data : string) (extensions : Extensions) : option MwNotification :=
  notif ← mw_notification_deserialize data;
  Some (MkNotification (nf_jsonrpc notif) (nf_method notif) (nf_params notif) extensions).

(** [Vec<&RawValue>]. *)
Definition de_raw_vec (raw : string) : option (list string) :=
  match json_read raw with Some (NArr items) => Some items | _ => None end.

(** An element of a batch. *)
Definition batch_entry (extensions : Extensions) (call : string) : Result BatchEntryErr BatchEntry :=
  match call_from_slice call extensions with
  | Some req => Ok (BeCall req)
  | None =>
    match notif_from_slice call extensions with
    | Some notif => Ok (BeNotification notif)
    | None =>
      let id := match invalid_request_deserialize call with Some err => inv_id err | None => IdNull end in
      Err (BatchEntryErr.new id (ErrorObject.from InvalidRequest))
    end
  end.

Definition handle_rpc_call {S : Type} {svc : RpcServiceT S} (body : string) (is_single : bool)
    (batch_config : BatchRequestConfig) (extensions : Extensions) : SM S Stop MethodResponse :=
  let error id err : SM S Stop MethodResponse :=
    sm_catch (sm_result (MethodResponse.error id err)) (λ _, StPanic) in
  if is_single then
    match call_from_slice body extensions with
    | Some req => svc_call req
    | None =>
      match notif_from_slice body extensions with
      | Some notif => svc_notification notif
      | None => let '(id, code) := prepare_error body in error id (ErrorObject.from code)
      end
    end
  else
    match batch_config with
    | BrcDisabled => error IdNull (ErrorObject.borrowed BATCHES_NOT_SUPPORTED_CODE BATCHES_NOT_SUPPORTED_MSG None)
    | _ =>
      let max_len := match batch_config with BrcLimit limit => limit | _ => usize_max end in
      match de_raw_vec body with
      | Some unchecked_batch =>
        if decide (max_len < N.of_nat (length unchecked_batch))%N
        then error IdNull (reject_too_big_batch_request max_len)
        else svc_batch (Batch.from (batch_entry extensions <$> unchecked_batch))
      | None => error IdNull (ErrorObject.from ParseError)
      end
    end.
End Entry.

(** ** Batches *)
Section BatchProps.
Context {J : SerdeJson} {X : HttpExtensions} {U : Type}.
Context (rest : SubscribeCall → W U → W U).
Context (call : Request → SM (W U) Stop MethodResponse).

(** The specification: the entries one after the other, and their responses. *)
Definition run_entry (e : Result BatchEntryErr BatchEntry) : SM (W U) Stop (option MethodResponse) :=
  match e with
  | Ok (BeCall req) => rp ← call req; mret (Some rp)
  | Ok (BeNotification n) => _ ← service_notification n; mret None
  | Err e =>
    '(err, id) ← result_panics (BatchEntryErr.into_parts e);
    rp ← result_panics (MethodResponse.error id err); mret (Some rp)
  end.
Fixpoint run_entries (es : list (Result BatchEntryErr BatchEntry)) : SM (W U) Stop (list MethodResponse) :=
  match es with
  | [] => mret []
  | e :: es' =>
    o ← run_entry e; rs ← run_entries es';
    mret (match o with Some r => r :: rs | None => rs end)
  end.
Definition has_notification (es : list (Result BatchEntryErr BatchEntry)) : bool :=
  existsb (λ e, match e with Ok (BeNotification _) => true | _ => false end) es.

(** One more response in the builder, or the error of the limit. *)
Lemma append_step (He : errors_write IdNull) ts limit ext r w k : ∃ ext' e,
  MethodResponse.error IdNull (reject_too_big_batch_response limit) = Ok e ∧
  (('(r, b) ← result_panics (BatchResponseBuilder.append r (builder ts limit ext));
    match r with Err err => mret (inl err) | Ok _ => k b end)
    : SM (W U) Stop (MethodResponse + BatchResponseBuilder * bool)) w =
  if decide (1 + slen (commas (ts ++ [mr_json r])) <= limit)%N
  then k (builder (ts ++ [mr_json r]) limit ext') w else (Ok (inl e), w).
Proof.
  destruct (append_spec ts limit ext r He) as (ext' & e & E & Ha). exists ext', e. split; [done|].
  unfold result_panics, panics, sm_catch, sm_result, mbind, SM_bind. rewrite Ha. by case_decide.
Qed.

(** A prefix of the entries, as the loop runs it. *)
Lemma batch_loop_cons (He : errors_write IdNull) e es o ts limit ext got w w1 :
  run_entry e w = (Ok o, w1) →
  match o with
  | None => batch_loop call (e :: es) (builder ts limit ext) got w =
              batch_loop call es (builder ts limit ext) true w1
  | Some r => ∃ ext' err, MethodResponse.error IdNull (reject_too_big_batch_response limit) = Ok err ∧
      batch_loop call (e :: es) (builder ts limit ext) got w =
      if decide (1 + slen (commas (ts ++ [mr_json r])) <= limit)%N
      then batch_loop call es (builder (ts ++ [mr_json r]) limit ext') got w1 else (Ok (inl err), w1)
  end.
Proof.
  destruct e as [[req|n]|e]; cbn [run_entry batch_loop].
  - intros (r & w2 & E & E')%bind_ok. injection E' as <- <-.
    rewrite (bind_step _ _ _ _ _ E).
    exact (append_step He ts limit ext r w2 (λ b, batch_loop call es b got)).
  - intros (a & w2 & E & E')%bind_ok. injection E' as <- <-. by rewrite (bind_step _ _ _ _ _ E).
  - intros ([err i] & w2 & E & (rp & w3 & E2 & E3)%bind_ok)%bind_ok. injection E3 as <- <-.
    rewrite (bind_step _ _ _ _ _ E). cbn. rewrite (bind_step _ _ _ _ _ E2).
    exact (append_step He ts limit ext rp w3 (λ b, batch_loop call es b got)).
Qed.

Lemma batch_loop_run (He : errors_write IdNull) es1 es2 ts limit ext got w w' rs :
  run_entries es1 w = (Ok rs, w') → (1 + slen (commas (ts ++ (mr_json <$> rs))) <= limit)%N →
  ∃ ext', batch_loop call (es1 ++ es2) (builder ts limit ext) got w =
    batch_loop call es2 (builder (ts ++ (mr_json <$> rs)) limit ext') (got || has_notification es1) w'.
Proof.
  revert ts ext got w rs. induction es1 as [|e es1 IH]; intros ts ext got w rs.
  { intros [= <- <-] _. cbn. rewrite app_nil_r, orb_false_r. by exists ext. }
  cbn [run_entries app]. intros (o & w1 & Ho & (rs' & w2 & Hr & H)%bind_ok)%bind_ok Hl.
  injection H as <- <-. pose proof (batch_loop_cons He e (es1 ++ es2) o ts limit ext got w w1 Ho) as Hc.
  destruct o as [r|].
  - destruct Hc as (ext' & err & _ & ->). cbn [fmap list_fmap] in Hl.
    rewrite (cons_middle (mr_json r)), app_assoc in Hl. rewrite decide_True.
    + destruct (IH (ts ++ [mr_json r]) ext' got w1 rs' Hr Hl) as [ext2 ->].
      exists ext2. rewrite <-app_assoc. destruct e as [[req|n]|e]; [done| |done].
      by apply bind_ok in Ho as (? & ? & _ & E).
    + rewrite commas_app, slen_append in Hl. lia.
  - rewrite Hc. destruct (IH ts ext true w1 rs' Hr Hl) as [ext2 ->]. exists ext2. cbn [fmap list_fmap].
    destruct e as [[req|n]|e]; cbn [run_entry] in Ho.
    + apply bind_ok in Ho as (? & ? & _ & E). done.
    + unfold has_notification; cbn. by rewrite orb_true_r.
    + apply bind_ok in Ho as ([] & ? & _ & (? & ? & _ & E)%bind_ok). done.
Qed.
End BatchProps.

Section ServiceProps.
Context {J : SerdeJson} {X : HttpExtensions} {U : Type}.
Context (rest : SubscribeCall → W U → W U).

(** All responses fit: the answer is made of them. *)
Lemma batch_answer (s : RpcService U) entries rs w w' :
  let limit := rs_max_response_body_size s in
  errors_write IdNull → run_entries (service_call rest s) entries w = (Ok rs, w') → (batch_len rs <= limit)%N →
  is_Some (json_read ("[" +:+ join (mr_json <$> rs) +:+ "]")) →
  ∃ m, service_batch rest s (Batch.from entries) w = (Ok m, w') ∧
    match rs with
    | [] =>
      if has_notification entries then MethodResponse.is_notification m = true
      else MethodResponse.is_batch m = true ∧
           batch_response_error IdNull (ErrorObject.from InvalidRequest) = Ok (mr_json m)
    | _ => MethodResponse.is_batch m = true ∧
           mr_json m = "[" +:+ join (mr_json <$> rs) +:+ "]" ∧ (slen (mr_json m) <= limit)%N
    end.
Proof.
  intros limit He Hr Hf Hj. unfold service_batch, Batch.from; cbn [b_inner]. fold limit.
  change (BatchResponseBuilder.new_with_limit limit) with (builder [] limit ext_new).
  destruct (batch_loop_run (service_call rest s) He entries [] [] limit ext_new false w w' rs Hr Hf)
    as [ext' E]. rewrite app_nil_r in E. cbn [app orb batch_loop] in E.
  rewrite (bind_step _ _ _ _ _ E).
  destruct (finish_spec rs limit ext' He Hj Hf) as (sb & Hb & Hs).
  assert (∀ g, (rp ← result_panics (U := U) (BatchResponseBuilder.finish (builder (mr_json <$> rs) limit ext'));
    mret (MethodResponse.from_batch rp) : SM (W U) Stop MethodResponse) g = (Ok (MethodResponse.from_batch sb), g)) as Hfin.
  { intros g. unfold result_panics, panics, sm_catch, sm_result, mbind, SM_bind. by rewrite Hb. }
  destruct rs as [|r rs].
  - assert (BatchResponseBuilder.is_empty (builder (mr_json <$> []) limit ext') = true) as -> by done.
    cbn [andb]. destruct (has_notification entries); [by eexists|]. rewrite Hfin. by eexists.
  - assert (BatchResponseBuilder.is_empty (builder (mr_json <$> r :: rs) limit ext') = false) as ->.
    { apply bool_decide_eq_false. unfold builder. cbn [bb_result fmap list_fmap commas]. slen_norm. lia. }
    cbn [andb]. rewrite Hfin. by eexists.
Qed.

(** C8: a batch runs its entries in order, each once, and answers with the array
    of their responses in that order; notifications have none.  Only
    notifications: no answer; no entries: the invalid request error.  At the first
    response that does not fit the limit the batch ends with the error of the
    limit, and the entries after it are not run. *)
Theorem batch_runs_in_order (s : RpcService U) (entries : list (Result BatchEntryErr BatchEntry)) (w : W U) :
  let run := run_entries (service_call rest s) in
  let limit := rs_max_response_body_size s in
  errors_write IdNull → (1 <= limit)%N →
  (∀ rs w', run entries w = (Ok rs, w') → (batch_len rs <= limit)%N →
     is_Some (json_read ("[" +:+ join (mr_json <$> rs) +:+ "]")) →
     ∃ m, service_batch rest s (Batch.from entries) w = (Ok m, w') ∧
       match rs with
       | [] =>
         if has_notification entries then MethodResponse.is_notification m = true
         else MethodResponse.is_batch m = true ∧
              batch_response_error IdNull (ErrorObject.from InvalidRequest) = Ok (mr_json m)
       | _ => MethodResponse.is_batch m = true ∧
              mr_json m = "[" +:+ join (mr_json <$> rs) +:+ "]" ∧ (slen (mr_json m) <= limit)%N
       end) ∧
  (∀ es1 e es2 rs1 r w1 w2, entries = es1 ++ e :: es2 →
     run es1 w = (Ok rs1, w1) → (batch_len rs1 <= limit)%N →
     run_entry (service_call rest s) e w1 = (Ok (Some r), w2) → (limit < batch_len (rs1 ++ [r]))%N →
     ∃ m, service_batch rest s (Batch.from entries) w = (Ok m, w2) ∧
       MethodResponse.error IdNull (reject_too_big_batch_response limit) = Ok m).
Proof.
  intros run limit He Hl. split.
  - intros rs w' Hr Hf Hj. by apply batch_answer.
  - intros es1 e es2 rs1 r w1 w2 -> Hr Hf Hrun Hlt. unfold service_batch, Batch.from; cbn [b_inner]. fold limit.
    change (BatchResponseBuilder.new_with_limit limit) with (builder [] limit ext_new).
    destruct (batch_loop_run (service_call rest s) He es1 (e :: es2) [] limit ext_new false w w1 rs1 Hr Hf)
      as [ext' E]. cbn [app orb] in E.
    destruct (batch_loop_cons (service_call rest s) He e es2 (Some r) (mr_json <$> rs1) limit ext'
      (has_notification es1) w1 w2 Hrun) as (ext2 & err & Herr & E2).
    rewrite decide_False in E2.
    + exists err. split; [|done]. rewrite E2 in E. by rewrite (bind_step _ _ _ _ _ E).
    + unfold batch_len in Hlt. rewrite fmap_app in Hlt. cbn in Hlt. lia.
Qed.
End ServiceProps.

(** ** From the text of the client to the service *)
Section EntryProps.
Context {J : SerdeJson} {X : HttpExtensions}.

(** The entry with the extensions of the connection. *)
Definition with_ext (ext : Extensions) (e : BatchEntry) : BatchEntry :=
  match e with
  | BeCall r => BeCall (MkRequest (rq_jsonrpc r) (rq_id r) (rq_method r) (rq_params r) ext)
  | BeNotification n => BeNotification (MkNotification (nf_jsonrpc n) (nf_method n) (nf_params n) ext)
  end.
(** What a client must write for the entry to be read back: numbers in range, and
    no [null] as parameters, which is read as no parameters. *)
Definition entry_ok (e : BatchEntry) : Prop :=
  faithful (BatchEntry.serialize e) ∧
  match e with
  | BeCall r => Id.in_range (rq_id r) ∧ ∀ p, rq_params r = Some p → json_read p ≠ Some NNull
  | BeNotification n => ∀ p, nf_params n = Some p → json_read p ≠ Some NNull
  end.

Lemma call_from_slice_decode ext r : entry_ok (BeCall r) →
  call_from_slice (text_of (request_serialize r)) ext =
    Some (MkRequest (rq_jsonrpc r) (rq_id r) (rq_method r) (rq_params r) ext).
Proof. intros (F & Hid & Hp). unfold call_from_slice. by rewrite request_decode. Qed.

Lemma notification_no_call {T} (ser : T → Ser) n ext : faithful (notification_serialize ser n) →
  call_from_slice (text_of (notification_serialize ser n)) ext = None.
Proof.
  intros F. unfold call_from_slice, request_deserialize, notification_serialize in *.
  destruct (faithful_map _ F) as [-> _]. cbn [mbind option_bind].
  destruct (struct_entries _ _ _) as [m|] eqn:Em; [|done]. cbn.
  destruct (m !! "jsonrpc" ≫= _); [|done]. cbn.
  rewrite (struct_entries_missing _ _ _ _ "id" Em); [done|]. destruct n; solve_fields.
Qed.

Lemma mw_notification_no_call n ext : faithful (mw_notification_serialize n) →
  call_from_slice (text_of (mw_notification_serialize n)) ext = None.
Proof. apply notification_no_call. Qed.

Lemma notif_from_slice_decode ext n : entry_ok (BeNotification n) →
  notif_from_slice (text_of (mw_notification_serialize n)) ext =
    Some (MkNotification (nf_jsonrpc n) (nf_method n) (nf_params n) ext).
Proof.
  intros (F & Hp). unfold notif_from_slice, mw_notification_deserialize, notification_deserialize.
  cbn [BatchEntry.serialize] in F. unfold mw_notification_serialize, notification_serialize in *.
  destruct n as [v m p x]; cbn in *. destruct (faithful_map _ F) as [-> Fs]. split_Forall; cbn in *.
  decode_struct. rewrite TwoPointZero.version_decode by done; cbn. rewrite de_str_faithful by done; cbn.
  unfold de_option. destruct p as [raw|]; cbn in *.
  - match goal with F : faithful (SerRaw raw) |- _ => destruct (faithful_raw _ F) as [-> [nd Hn]] end.
    specialize (Hp raw eq_refl). rewrite Hn in *. destruct nd; [done|..]; unfold de_raw; by rewrite Hn.
  - by rewrite faithful_null.
Qed.

Lemma batch_entry_decode ext e : entry_ok e →
  batch_entry ext (text_of (BatchEntry.serialize e)) = Ok (with_ext ext e).
Proof.
  intros H. unfold batch_entry. destruct e as [r|n]; cbn [BatchEntry.serialize].
  - by rewrite call_from_slice_decode.
  - rewrite mw_notification_no_call by apply H. by rewrite notif_from_slice_decode.
Qed.

(** The text of a batch, entry by entry. *)
Lemma batch_text_decode ext (b : list BatchEntry) : let texts := Batch.serialize (Batch.from (Ok <$> b)) in
  Forall entry_ok b → faithful texts →
  ∃ items, de_raw_vec (text_of texts) = Some items ∧ length items = length b ∧
    batch_entry ext <$> items = Ok <$> (with_ext ext <$> b).
Proof.
  intros texts Hb F. exists ((text_of ∘ BatchEntry.serialize) <$> b). split; [|split; [apply length_fmap|]].
  { unfold texts, Batch.serialize, Batch.from in *; cbn [b_inner] in *. unfold de_raw_vec.
    destruct (faithful_seq _ F) as [-> _]. f_equal. rewrite <-!list_fmap_compose. by apply list_fmap_ext. }
  rewrite <-!list_fmap_compose. clear F texts. induction Hb as [|x l Hx _ IH]; [done|].
  rewrite !fmap_cons, IH. f_equal. cbn. by apply batch_entry_decode.
Qed.
(** The entries a batch may have. *)
Definition batch_limit (config : BatchRequestConfig) : N :=
  match config with BrcDisabled => 0%N | BrcLimit l => l | BrcUnlimited => usize_max end.
Lemma handle_batch {S : Type} {svc : RpcServiceT S} ext config (b : list BatchEntry) :
  let texts := Batch.serialize (Batch.from (Ok <$> b)) in
  Forall entry_ok b → faithful texts → config ≠ BrcDisabled → (N.of_nat (length b) <= batch_limit config)%N →
  handle_rpc_call (text_of texts) false config ext = svc_batch (Batch.from (Ok <$> (with_ext ext <$> b))).
Proof.
  intros texts Hb F Hc Hl. destruct (batch_text_decode ext b Hb F) as (items & Hv & Hlen & Hm).
  fold texts in Hv. unfold handle_rpc_call. rewrite Hv, Hlen, Hm. destruct config as [|l|]; [done|..]; cbn in Hl; by rewrite decide_False by lia.
Qed.

(** C32: what a client sends reaches the service as it was meant: a request as a
    call, a notification as a notification, a batch as a batch with the same
    entries in the same order, all with the extensions of the connection.  A
    batch that is not allowed, or has more entries than the limit, is answered
    with an error and never reaches the service. *)
Theorem message_reaches_service {S : Type} {svc : RpcServiceT S} (ext : Extensions) (config : BatchRequestConfig)
    (e : BatchEntry) (b : list BatchEntry) (s : S) :
  let texts := Batch.serialize (Batch.from (Ok <$> b)) in
  let limit := batch_limit config in
  entry_ok e → Forall entry_ok b → faithful texts → errors_write IdNull →
  handle_rpc_call (text_of (BatchEntry.serialize e)) true config ext =
    match with_ext ext e with BeCall r => svc_call r | BeNotification n => svc_notification n end ∧
  (if decide (N.of_nat (length b) <= limit ∧ config ≠ BrcDisabled)%N
   then handle_rpc_call (text_of texts) false config ext = svc_batch (Batch.from (Ok <$> (with_ext ext <$> b)))
   else ∃ m, handle_rpc_call (text_of texts) false config ext s = (Ok m, s) ∧
     MethodResponse.as_error_code m =
       Some (if decide (config = BrcDisabled) then BATCHES_NOT_SUPPORTED_CODE else TOO_BIG_BATCH_REQUEST_CODE)).
Proof.
  intros texts limit He Hb F Hw. split.
  { unfold handle_rpc_call. destruct e as [r|n]; cbn [BatchEntry.serialize with_ext].
    - by rewrite call_from_slice_decode.
    - rewrite mw_notification_no_call by apply He. by rewrite notif_from_slice_decode. }
  assert (∀ err, ∃ m, sm_catch (S := S) (sm_result (MethodResponse.error IdNull err)) (λ _, StPanic) s = (Ok m, s) ∧
    MethodResponse.as_error_code m = Some (ErrorObject.code err)) as Herr.
  { intros err. destruct (Hw err) as [j Hj]. unfold sm_catch, sm_result, MethodResponse.error.
    rewrite Hj. by eexists. }
  case_decide as Hd; [by apply handle_batch; destruct Hd|].
  destruct (batch_text_decode ext b Hb F) as (items & Hv & Hlen & _).
  fold texts in Hv. unfold handle_rpc_call. rewrite Hv, Hlen. destruct config as [|l|]; cbn in limit; subst limit; [apply Herr|..].
  - rewrite decide_True by (destruct (decide (l < N.of_nat (length b))%N); [done|]; destruct Hd; split; [lia|done]).
    rewrite decide_False by done. apply Herr.
  - rewrite decide_True by (destruct (decide (usize_max < N.of_nat (length b))%N); [done|]; destruct Hd; split; [lia|done]).
    rewrite decide_False by done. apply Herr.
Qed.
End EntryProps.

(** ** Calls from end to end *)
Section CallProps.
Context {J : SerdeJson} {X : HttpExtensions} {U : Type}.
Context (rest : SubscribeCall → W U → W U).

Lemma error_ext_spec id err ext (w : W U) t : error_json id err = Ok t →
  error_ext id err ext w =
    (Ok (MkMethodResponse t (MrFailed (ErrorObject.code err)) RkMethodCall None ext), w).
Proof. intros E. unfold error_ext, result_panics, panics, sm_catch, sm_result, MethodResponse.error. by rewrite E. Qed.

(** An error response that can be read back is read back with its identifier. *)
Lemma error_json_decode {T} (de : string → option T) id err :
  let s := response_serialize (λ _ : unit, SerNull) (response_new (PayloadError err) id) in
  faithful s → Id.in_range id → eo_ok err →
  error_json id err = Ok (text_of s) ∧
  response_deserialize de (text_of s) = Some (response_new (PayloadError err) id).
Proof.
  intros s F Hi He. split; [unfold error_json, s in *; by rewrite (faithful_write _ F)|].
  assert (s = response_serialize (λ _ : T, SerNull) (response_new (PayloadError err) id)) as E by done.
  rewrite E in *. by rewrite (response_decode (λ _ : T, SerNull) de).
Qed.

(** The text of a request for a registered method, as the server handles it. *)
Lemma handle_request (s : RpcService U) config q ext :
  entry_ok (BeCall q) →
  handle_rpc_call (svc := rpc_service rest s) (text_of (request_serialize q)) true config ext =
    service_call rest s (MkRequest (rq_jsonrpc q) (rq_id q) (rq_method q) (rq_params q) ext).
Proof. intros Hq. unfold handle_rpc_call. by rewrite call_from_slice_decode. Qed.

Lemma service_call_registered {R T} `{IntoResponse R} (ser : T → Ser) (de : string → option T) (s : RpcService U)
    (q : Request) (callback : UserFn U R) (w w' : W U) (r : R) (p : ResponsePayload T) :
  let rp := response_serialize ser (response_new p (rq_id q)) in
  let respond := RpcModule.respond callback in
  Methods.method (rq_method q) (rs_methods s) = Some (McSync (λ id ps max x, respond id ps max x)) ∨
    Methods.method (rq_method q) (rs_methods s) = Some (McAsync (λ id ps _ max x, respond id ps max x)) →
  callback (params_new (rq_params q)) (rq_extensions q) w = (Ok r, w') → mp_inner (into_response r) = payload_map ser p →
  faithful rp → events_text (json_events rp) = (text_of rp, true) →
  (slen (text_of rp) <= rs_max_response_body_size s)%N → payload_ok ser de p → Id.in_range (rq_id q) →
  ∃ m, service_call rest s q w = (Ok m, w') ∧ mr_json m = text_of rp ∧ mr_kind m = RkMethodCall ∧
    response_deserialize de (mr_json m) = Some (response_new p (rq_id q)).
Proof.
  intros rp respond Hreg Hcb Hp F He Hl Hok Hid.
  destruct (respond_text ser p callback (rq_id q) (params_new (rq_params q))
    (rs_max_response_body_size s) (rq_extensions q) w w' r Hcb Hp F He Hl) as (m & Hm & Hj & Hk).
  exists m. unfold service_call, Methods.method_with_name. unfold Methods.method in Hreg. split_and!.
  - assert (Id.into_owned (rq_id q) = rq_id q) as -> by (by destruct (rq_id q)).
    assert (params_into_owned (params_new (rq_params q)) = params_new (rq_params q)) as -> by done.
    destruct Hreg as [-> | ->]; cbn; unfold panics, sm_catch, respond; by rewrite Hm.
  - done.
  - done.
  - rewrite Hj. by rewrite (response_decode ser de).
Qed.

(** C1: a call makes the round trip: the text of the client's request, given to
    the server, runs the method of that name once on the parameters of the request,
    and the text of the answer is read by the client as the response with the
    identifier of the request and the result, or the error, the method returned.
    A name that is not registered gives the method-not-found error under that
    identifier, and nothing is run. *)
Theorem call_over_the_wire {R T} `{IntoResponse R} (ser : T → Ser) (de : string → option T) (s : RpcService U)
    (config : BatchRequestConfig) (q : Request) (callback : UserFn U R) (ext : Extensions)
    (w w' : W U) (r : R) (p : ResponsePayload T) :
  let rp := response_serialize ser (response_new p (rq_id q)) in
  let nf A : ResponsePayload A := PayloadError (ErrorObject.from MethodNotFound) in
  let server := handle_rpc_call (svc := rpc_service rest s) (text_of (request_serialize q)) true config ext in
  let respond := RpcModule.respond callback in
  entry_ok (BeCall q) →
  (Methods.method (rq_method q) (rs_methods s) = Some (McSync (λ id ps max x, respond id ps max x)) ∨
   Methods.method (rq_method q) (rs_methods s) = Some (McAsync (λ id ps _ max x, respond id ps max x)) →
   callback (params_new (rq_params q)) ext w = (Ok r, w') → mp_inner (into_response r) = payload_map ser p →
   faithful rp → events_text (json_events rp) = (text_of rp, true) →
   (slen (text_of rp) <= rs_max_response_body_size s)%N → payload_ok ser de p →
   ∃ m, server w = (Ok m, w') ∧
     response_deserialize de (mr_json m) = Some (response_new p (rq_id q))) ∧
  (Methods.method (rq_method q) (rs_methods s) = None →
   faithful (response_serialize (λ _ : unit, SerNull) (response_new (nf unit) (rq_id q))) →
   ∃ m, server w = (Ok m, w) ∧
     response_deserialize de (mr_json m) = Some (response_new (nf T) (rq_id q))).
Proof.
  intros rp nf server respond Hq. unfold server. rewrite handle_request by done. split.
  - intros. destruct (service_call_registered ser de s
      (MkRequest (rq_jsonrpc q) (rq_id q) (rq_method q) (rq_params q) ext) callback w w' r p)
      as (m & Hm & _ & _ & Hd); [done..|apply Hq|]. by exists m.
  - unfold service_call, Methods.method_with_name, Methods.method. cbn [rq_method rq_id rq_params rq_extensions].
    intros -> F. cbn [fmap option_fmap option_map].
    destruct (error_json_decode de (rq_id q) (ErrorObject.from MethodNotFound)) as [E D];
      [done|apply Hq|done|]. rewrite (error_ext_spec _ _ _ _ _ E). by eexists.
Qed.

(** A subscribe call runs only on a connection that can carry subscriptions
    and that has a permit left, which it takes; otherwise it is refused, with the
    error that says which, and nothing changes.  An unsubscribe call needs no
    permit. *)
Theorem subscription_calls_guarded (s : RpcService U) (req : Request) (w : W U) :
  errors_write (rq_id req) →
  let id := rq_id req in
  let ps := params_new (rq_params req) in
  let refused code := ∃ m, service_call rest s req w = (Ok m, w) ∧
    MethodResponse.as_error_code m = Some code ∧ mr_extensions m = rq_extensions req in
  (∀ cb, Methods.method (rq_method req) (rs_methods s) = Some (McSubscription cb) →
     match rs_cfg s with
     | OnlyCalls => refused INTERNAL_ERROR_CODE
     | CallsAndSubscriptions sem sink next_id =>
       match acquire sem (fst w) with
       | (None, _) => refused TOO_MANY_SUBSCRIPTIONS_CODE
       | (Some permit, w1) =>
         service_call rest s req w =
           (sub_id ← panics next_id;
            c ← panics (cb id ps sink (MkSubscriptionState (rs_conn_id s) sub_id permit) (rq_extensions req));
            await rest c) (w1, snd w)
       end
     end) ∧
  (∀ cb, Methods.method (rq_method req) (rs_methods s) = Some (McUnsubscription cb) →
     match rs_cfg s with
     | OnlyCalls => refused INTERNAL_ERROR_CODE
     | CallsAndSubscriptions _ _ _ =>
       service_call rest s req w =
         panics (cb id ps (rs_conn_id s) (rs_max_response_body_size s) (rq_extensions req)) w
     end).
Proof.
  intros He id ps refused.
  assert (∀ err, error_ext id err (rq_extensions req) w = service_call rest s req w →
    refused (ErrorObject.code err)) as Href.
  { intros err E. destruct (He err) as [j Hj]. unfold refused. rewrite <-E.
    rewrite (error_ext_spec _ _ _ _ _ Hj). by eexists. }
  unfold service_call, Methods.method_with_name, Methods.method in *. split; intros cb Hcb.
  - rewrite Hcb in *. cbn [fmap option_fmap option_map] in *. destruct (rs_cfg s) as [|sem sink next_id].
    + by apply (Href (ErrorObject.from InternalError)).
    + destruct (acquire sem (fst w)) as [[permit|] w1] eqn:Ea.
      * unfold mbind at 1, SM_bind at 1, panics at 1, srv, sm_catch. by rewrite Ea.
      * assert (w1 = fst w) as -> by (unfold acquire in Ea; repeat case_match; by simplify_eq).
        apply (Href (reject_too_many_subscriptions (bounded_max sem (fst w)))).
        unfold mbind, SM_bind, panics, srv, sm_catch. rewrite Ea. by destruct w.
  - rewrite Hcb in *. cbn [fmap option_fmap option_map] in *. destruct (rs_cfg s) as [|sem sink next_id].
    + by apply (Href (ErrorObject.from InternalError)).
    + done.
Qed.
End CallProps.

(** ** Witnesses *)
Section ServiceWitnesses.
#[local] Existing Instance ref_json.
#[local] Existing Instance ref_ext.

Definition ex_service : RpcService unit := MkRpcService 7%N ex_module 1000 OnlyCalls.
Definition ex_rest : SubscribeCall → W unit → W unit := λ _ w, w.
Definition ex_request (id : N) (name params : string) : Request :=
  MkRequest V2 (IdNumber id) name (Some params) [].

Lemma call_over_the_wire_witness :
  ∃ m, handle_rpc_call (svc := rpc_service ex_rest ex_service)
      (q "{'jsonrpc':'2.0','id':1,'method':'inc','params':[41]}") true BrcUnlimited [] (ex_world, ()) =
      (Ok m, (ex_world, ())) ∧
    response_deserialize de_i32 (mr_json m) = Some (response_new (Success 42%Z) (IdNumber 1)).
Proof.
  destruct (call_over_the_wire ex_rest SerInt de_i32 ex_service BrcUnlimited (ex_request 1 "inc" "[41]")
    ex_inc [] (ex_world, ()) (ex_world, ()) (Ok (SerInt 42)) (Success 42%Z)) as [H _].
  - split; [vm_compute; repeat (split; eauto)|]. split; [vm_compute; discriminate|].
    intros p [= <-]. vm_compute. discriminate.
  - apply H.
    + left. reflexivity.
    + vm_compute. reflexivity.
    + reflexivity.
    + vm_compute. repeat (split; eauto).
    + vm_compute. reflexivity.
    + vm_compute. discriminate.
    + vm_compute. reflexivity.
Defined.

Definition ex_notification : MwNotification := MkNotification V2 "inc" (Some "[1]") [].
Lemma message_reaches_service_witness :
  handle_rpc_call (svc := rpc_service ex_rest ex_service)
    (q "[{'jsonrpc':'2.0','id':1,'method':'inc','params':[1]},{'jsonrpc':'2.0','method':'inc','params':[1]}]")
    false (BrcLimit 2) [] =
  service_batch ex_rest ex_service
    (Batch.from [Ok (BeCall (ex_request 1 "inc" "[1]")); Ok (BeNotification ex_notification)]).
Proof.
  assert (entry_ok (BeCall (ex_request 1 "inc" "[1]"))) as H1.
  { split; [vm_compute; repeat (split; eauto)|]. split; [vm_compute; discriminate|].
    intros p [= <-]. vm_compute. discriminate. }
  assert (entry_ok (BeNotification ex_notification)) as H2.
  { split; [vm_compute; repeat (split; eauto)|]. intros p [= <-]. vm_compute. discriminate. }
  destruct (message_reaches_service (svc := rpc_service ex_rest ex_service) [] (BrcLimit 2)
    (BeCall (ex_request 1 "inc" "[1]")) [BeCall (ex_request 1 "inc" "[1]"); BeNotification ex_notification]
    (ex_world, ()) H1 ltac:(constructor; [exact H1|constructor; [exact H2|constructor]])
    ltac:(vm_compute; repeat (split; eauto)) (ref_errors_write _)) as [_ H].
  rewrite decide_True in H by (split; [vm_compute|]; discriminate). exact H.
Defined.

Definition ex_batch : list (Result BatchEntryErr BatchEntry) :=
  [Ok (BeCall (ex_request 1 "inc" "[1]")); Ok (BeNotification ex_notification);
   Ok (BeCall (ex_request 2 "dec" "[1]"))].
Lemma batch_runs_in_order_witness :
  ∃ m, service_batch ex_rest ex_service (Batch.from ex_batch) (ex_world, ()) = (Ok m, (ex_world, ())) ∧
    mr_json m = q "[{'jsonrpc':'2.0','id':1,'result':2},{'jsonrpc':'2.0','id':2,'error':{'code':-32601,'message':'Method not found'}}]".
Proof.
  destruct (batch_runs_in_order ex_rest ex_service ex_batch (ex_world, ()) (ref_errors_write _)
    ltac:(vm_compute; discriminate)) as [H _].
  edestruct H as (m & E & Hm); [vm_compute; reflexivity|vm_compute; discriminate|vm_compute; eauto|].
  exists m. split; [exact E|]. destruct Hm as (_ & Hm & _). rewrite Hm. vm_compute. reflexivity.
Defined.

Lemma subscription_calls_guarded_witness :
  ∃ m, service_call ex_rest (MkRpcService 7%N ex_dropping 1000 OnlyCalls) (ex_request 1 "sub" "[]") (ex_world, ()) =
      (Ok m, (ex_world, ())) ∧ MethodResponse.as_error_code m = Some INTERNAL_ERROR_CODE.
Proof.
  destruct (subscription_calls_guarded ex_rest (MkRpcService 7%N ex_dropping 1000 OnlyCalls)
    (ex_request 1 "sub" "[]") (ex_world, ()) (ref_errors_write _)) as [H _].
  edestruct H as (m & E & Hc & _); [reflexivity|]. exists m. split; [exact E|exact Hc].
Defined.

(** A subscribe call inside a batch is answered twice: once on the connection when
    it is accepted, and once more inside the answer of the batch. *)
Definition ex_subs : Methods unit :=
  snd (RpcModule.register_subscription "sub" "notif" "unsub" 0
    (λ p _ _, srv (λ w, match accept p w with Some (_, w') => ((), w') | None => ((), w) end)) Methods.new).
Example subscription_in_batch_answered_twice :
  let s := MkRpcService 7%N ex_subs 1000
    (CallsAndSubscriptions 0 (method_sink_new 0) (mret (SubNum 3))) in
  let '(r, w) := service_batch ex_rest s (Batch.from [Ok (BeCall (ex_request 1 "sub" "[]"))]) (ex_world, ()) in
  (mr_json <$> r) = Ok (q "[{'jsonrpc':'2.0','id':1,'result':3}]") ∧
  cc_queue (get_chan 0 (fst w)) = [q "{'jsonrpc':'2.0','id':1,'result':3}"].
Proof. vm_compute. done. Qed.
End ServiceWitnesses.
