(* ===== verification/Http.v ===== *)
(** HTTP on the server: [core/src/http_helpers.rs],
    [server/src/transport/http.rs] and the middleware [authority.rs],
    [host_filter.rs] and [proxy_get_request.rs] of [server/src/middleware/http].

    The [http], [http_body_util] and [route_recognizer] crates are parameters:
    the class [HttpLibs].  A header value is what its [to_str] returns. *)
From stdpp Require Import base gmap strings list.
From Stdlib Require Import Ascii.
From S2P Require Import Prelude Serde RefJson Errors Params Wire Middleware MethodResponse Subscription RpcModule RpcService.

(** ** The crates behind *)
Inductive HttpMethod : Type := MPost | MGet | MOther (name : string).
#[export] Instance HttpMethod_eq_dec : EqDecision HttpMethod.
Proof. solve_decision. Defined.
(** [HeaderMap]: names in lower case, repeated names allowed. *)
Notation HeaderMap := (list (string * option string)) (only parsing).
(** A frame of a body, or the error that ends it. *)
Inductive Frame : Type := FData (data : string) | FTrailers | FError (text : string).
(** [Uri], as far as it is looked at. *)
Record UriAuthority : Type := MkUriAuthority { ua_str : string; ua_host : string }.
Record Uri : Type := MkUri {
  uri_scheme : option string;
  uri_authority : option UriAuthority;
  uri_path : string;
  uri_query : option string
}.

Class HttpLibs := {
  (** [http_body_util::Limited], on the frames of a body. *)
  limited : N → list Frame → list Frame;
  (** [Uri::from_str]. *)
  uri_parse : string → option Uri;
  (** [route_recognizer::Router]: the values added, under patterns; the value of
      the pattern that recognises a path. *)
  router_recognize : ∀ {A}, list (string * A) → string → option A
}.
(** What is relied on: a body within the limit is left as it is, another one
    ends in an error before more than the limit is handed out. *)
Definition frame_len (f : Frame) : N := match f with FData d => slen d | _ => 0%N end.
Definition frames_len (fs : list Frame) : N := foldr (λ f n, frame_len f + n)%N 0%N fs.
Definition limited_law (L : HttpLibs) : Prop := ∀ max fs,
  if decide (frames_len fs <= max)%N then limited max fs = fs
  else ∃ fs1 e, limited max fs = fs1 ++ [FError e] ∧ fs1 `prefix_of` fs ∧ (frames_len fs1 <= max)%N.

(** ** [http_helpers] *)
Inductive HttpError : Type := HeTooLarge | HeMalformed | HeStream (text : string).

Definition headers_get_all (name : string) (h : HeaderMap) : list (option string) :=
  snd <$> filter (λ kv, kv.1 = name) h.
Definition headers_insert (name value : string) (h : HeaderMap) : HeaderMap :=
  filter (λ kv, kv.1 ≠ name) h ++ [(name, Some value)].
Definition read_header_value (h : HeaderMap) (name : string) : option string :=
  match headers_get_all name h with [v] => v | _ => None end.
Definition read_header_content_length (h : HeaderMap) : option N :=
  length ← read_header_value h "content-length"; parse_unsigned u32_max length.

(** The first byte, within 128, that is no white space: its index and whether it
    opens an object. *)
Fixpoint find_start (n : nat) (s : string) : option (nat * ascii) :=
  match n, s with
  | S n', String c s' =>
    if is_ascii_whitespace c then (λ p, (S p.1, p.2)) <$> find_start n' s' else Some (0, c)
  | _, _ => None
  end.
Definition json_start (data : string) : option (nat * bool) :=
  match find_start 128 data with
  | Some (i, "{"%char) => Some (i, true)
  | Some (i, "["%char) => Some (i, false)
  | _ => None
  end.

(** The loop over the frames. *)
Fixpoint read_frames (fs : list Frame) (received_data : string) (is_single : option bool)
    : Result HttpError (string * option bool) :=
  match fs with
  | [] => Ok (received_data, is_single)
  | FError e :: _ => Err (HeStream e)
  | FTrailers :: fs' => read_frames fs' received_data is_single
  | FData data :: fs' =>
    if decide (received_data = "") then
      match json_start data with
      | Some (skip, single) => read_frames fs' (received_data +:+ drop_str skip data) (Some single)
      | None => Err HeMalformed
      end
    else read_frames fs' (received_data +:+ data) is_single
  end.
Definition read_body {L : HttpLibs} (headers : HeaderMap) (body : list Frame) (max_body_size : N)
    : Result HttpError (string * bool) :=
  let body_size := default 0%N (read_header_content_length headers) in
  if decide (max_body_size < body_size)%N then Err HeTooLarge
  else
    '(received_data, is_single) ← read_frames (limited max_body_size body) "" None;
    match is_single with
    | Some single => if decide (received_data = "") then Err HeMalformed else Ok (received_data, single)
    | None => Err HeMalformed
    end.

(** ** Requests and responses *)
Section Types.
Context {X : HttpExtensions}.
Record HttpRequest : Type := MkHttpRequest {
  hq_method : HttpMethod;
  hq_uri : Uri;
  hq_headers : HeaderMap;
  hq_extensions : Extensions;
  hq_body : list Frame
}.
Record HttpResponse : Type := MkHttpResponse {
  hr_status : N;
  hr_content_type : string;
  hr_body : string;
  hr_extensions : Extensions
}.
End Types.

Definition ascii_lower (c : ascii) : ascii :=
  if decide (65 <= N_of_ascii c <= 90)%N then ascii_of_N (N_of_ascii c + 32) else c.
Fixpoint eq_ignore_ascii_case (a b : string) : bool :=
  match a, b with
  | EmptyString, EmptyString => true
  | String c a', String d b' => bool_decide (ascii_lower c = ascii_lower d) && eq_ignore_ascii_case a' b'
  | _, _ => false
  end.
Definition is_json (content_type : option (option string)) : bool :=
  match content_type with
  | Some (Some content) =>
    existsb (eq_ignore_ascii_case content)
      ["application/json"; "application/json; charset=utf-8"; "application/json;charset=utf-8";
       "application/json-rpc"; "application/json-rpc;charset=utf-8"; "application/json-rpc; charset=utf-8"]
  | _ => false
  end.
(** [headers().get]: the first value. *)
Definition content_type_is_json {X : HttpExtensions} (request : HttpRequest) : bool :=
  is_json (head (headers_get_all "content-type" (hq_headers request))).

Definition newline : string := String "010"%char "".
Module response.
Section Ops.
Context {J : SerdeJson} {X : HttpExtensions}.
Definition JSON : string := "application/json; charset=utf-8".
Definition TEXT : string := "text/plain".
Definition from_template (status : N) (body content_type : string) : HttpResponse :=
  MkHttpResponse status content_type body ext_new.
Definition internal_error : Result Panicked HttpResponse :=
  error ← error_json IdNull (ErrorObject.from InternalError); Ok (from_template 500 error JSON).
Definition error_response (error : ErrorObject) : Result Panicked HttpResponse :=
  error ← ok_or (json_write (ErrorObject.serialize error)) Panic; Ok (from_template 500 error JSON).
Definition host_not_allowed : HttpResponse :=
  from_template 403 ("Provided Host header is not whitelisted." +:+ newline) TEXT.
Definition method_not_allowed : HttpResponse :=
  from_template 405 ("Used HTTP Method is not allowed. POST is required" +:+ newline) TEXT.
Definition too_large (limit : N) : Result Panicked HttpResponse :=
  error ← error_json IdNull (reject_too_big_request limit); Ok (from_template 413 error JSON).
Definition malformed : Result Panicked HttpResponse :=
  error ← error_json IdNull (ErrorObject.from ParseError); Ok (from_template 400 error JSON).
Definition ok_response (body : string) : HttpResponse := from_template 200 body JSON.
Definition from_method_response (rp : MethodResponse) : HttpResponse :=
  let '(body, _, extensions) := MethodResponse.into_parts rp in
  MkHttpResponse 200 JSON body (ext_extend ext_new extensions).
Definition unsupported_content_type : HttpResponse :=
  from_template 415 ("Supplied content type is not allowed. Content-Type: application/json is required" +:+ newline) TEXT.
Definition too_many_requests : HttpResponse :=
  from_template 429 "Too many connections. Please try again later." TEXT.
Definition denied : HttpResponse := from_template 403 "" TEXT.
End Ops.
End response.

(** ** A JSON-RPC call over HTTP *)
Section Call.
Context {J : SerdeJson} {X : HttpExtensions} {L : HttpLibs}.

Definition http_panics {S A} (r : Result Panicked A) : SM S Stop A := sm_catch (sm_result r) (λ _, StPanic).
Definition call_with_service {S : Type} {svc : RpcServiceT S} (request : HttpRequest)
    (batch_config : BatchRequestConfig) (max_request_size : N) : SM S Stop HttpResponse :=
  match hq_method request with
  | MPost =>
    if content_type_is_json request then
      match read_body (hq_headers request) (hq_body request) max_request_size with
      | Ok (body, is_single) =>
        rp ← handle_rpc_call body is_single batch_config (hq_extensions request);
        mret (response.from_method_response rp)
      | Err HeTooLarge => http_panics (response.too_large max_request_size)
      | Err HeMalformed => http_panics response.malformed
      | Err (HeStream _) => http_panics response.internal_error
      end
    else mret response.unsupported_content_type
  | _ => mret response.method_not_allowed
  end.
End Call.

(** ** Authorities *)
Inductive Port : Type := PortDefault | PortAny | PortFixed (p : N).
#[export] Instance Port_eq_dec : EqDecision Port.
Proof. solve_decision. Defined.
Record Authority : Type := MkAuthority { au_host : string; au_port : Port }.
#[export] Instance Authority_eq_dec : EqDecision Authority.
Proof. solve_decision. Defined.
Inductive AuthorityError : Type := AeInvalidUri | AeInvalidPort (port : string) | AeMissingHost.

Definition default_port (scheme : option string) : option N :=
  match scheme with
  | Some s =>
    if decide (s = "http" ∨ s = "ws") then Some 80%N
    else if decide (s = "https" ∨ s = "wss") then Some 443%N
    else if decide (s = "ftp") then Some 21%N else None
  | None => None
  end.
(** [str::split_once(':')]. *)
Fixpoint split_colon (s : string) : option (string * string) :=
  match s with
  | EmptyString => None
  | String c s' =>
    if decide (c = ":"%char) then Some ("", s') else (λ p, (String c p.1, p.2)) <$> split_colon s'
  end.

Module Authority.
Section Ops.
Context {X : HttpExtensions} {L : HttpLibs}.
Definition inner_from_str (value : string) : Result AuthorityError Authority :=
  uri ← ok_or (uri_parse value) AeInvalidUri;
  authority ← ok_or (uri_authority uri) AeMissingHost;
  let host := ua_host authority in
  let maybe_port := drop_str (String.length host) (ua_str authority) in
  port ←
    match split_colon maybe_port with
    | Some (_, p) =>
      if decide (p = "*") then Ok PortAny
      else
        port_u16 ← ok_or (parse_unsigned u16_max p) (AeInvalidPort p);
        match default_port (uri_scheme uri) with
        | Some d => if decide (d = port_u16) then Ok PortDefault else Ok (PortFixed port_u16)
        | None => Ok (PortFixed port_u16)
        end
    | None => Ok PortDefault
    end;
  Ok (MkAuthority host port).
Definition from_http_request (request : HttpRequest) : option Authority :=
  let host_header := inner_from_str <$> read_header_value (hq_headers request) "host" in
  let uri := (λ a, inner_from_str (ua_str a)) <$> uri_authority (hq_uri request) in
  match host_header, uri with
  | Some (Ok a1), Some (Ok a2) => if decide (a1 = a2) then Some a1 else None
  | Some (Ok a), _ => Some a
  | _, Some (Ok a) => Some a
  | _, _ => None
  end.
End Ops.
End Authority.

(** ** The filter of hosts *)
Module WhitelistedHosts.
Section Ops.
Context {L : HttpLibs}.
(** [uniq_hosts]: the ports of a host, in the order they were given. *)
Definition add_port (a : Authority) (m : gmap string (list Port)) : gmap string (list Port) :=
  <[au_host a := default [] (m !! au_host a) ++ [au_port a]]> m.
Definition uniq_hosts (value : list Authority) : gmap string (list Port) :=
  foldl (λ m a, add_port a m) ∅ value.
(** The routes of the router. *)
Definition from (value : list Authority) : list (string * list Port) := map_to_list (uniq_hosts value).
Definition port_allowed (p other : Port) : bool :=
  match p, other with
  | PortAny, _ => true
  | PortDefault, PortDefault => true
  | PortFixed p1, PortFixed p2 => bool_decide (p1 = p2)
  | _, _ => false
  end.
Definition recognize (routes : list (string * list Port)) (other : Authority) : bool :=
  match router_recognize routes (au_host other) with
  | Some ports => existsb (λ p, port_allowed p (au_port other)) ports
  | None => false
  end.
End Ops.
End WhitelistedHosts.

Module HostFilter.
Section Ops.
Context {J : SerdeJson} {X : HttpExtensions} {L : HttpLibs}.
(** [HostFilterLayer::new], from the texts of the authorities. *)
Fixpoint collect (allow_only : list string) : Result AuthorityError (list Authority) :=
  match allow_only with
  | [] => Ok []
  | a :: l => x ← Authority.inner_from_str a; xs ← collect l; Ok (x :: xs)
  end.
Definition new (allow_only : list string) : Result AuthorityError (option (list (string * list Port))) :=
  (Some ∘ WhitelistedHosts.from) <$> collect allow_only.
Definition disable : option (list (string * list Port)) := None.
Definition call {S} (filter : option (list (string * list Port)))
    (inner : HttpRequest → SM S Stop HttpResponse) (request : HttpRequest) : SM S Stop HttpResponse :=
  match Authority.from_http_request request with
  | None => http_panics response.malformed
  | Some authority =>
    if match filter with None => true | Some f => WhitelistedHosts.recognize f authority end
    then inner request else mret response.host_not_allowed
  end.
End Ops.
End HostFilter.

(** ** The proxy of GET requests *)
Inductive ProxyGetRequestError : Type := DuplicatedPath (s : string) | InvalidPath (s : string).

Module ProxyGetRequest.
Section Ops.
Context {J : SerdeJson} {X : HttpExtensions} {L : HttpLibs}.
Fixpoint insert_all (pairs : list (string * string)) (methods : gmap string string)
    : Result ProxyGetRequestError (gmap string string) :=
  match pairs with
  | [] => Ok methods
  | (path, method) :: pairs' =>
    if starts_with "/"%char path then
      match methods !! path with
      | Some path => Err (DuplicatedPath path)
      | None => insert_all pairs' (<[path := method]> methods)
      end
    else Err (InvalidPath path)
  end.
Definition new (pairs : list (string * string)) : Result ProxyGetRequestError (gmap string string) :=
  insert_all pairs ∅.

(** The request for the inner service. *)
Definition proxied (method : string) (req : HttpRequest) : Result Panicked HttpRequest :=
  uri ← match uri_query (hq_uri req) with
        | Some query => ok_or (uri_parse ("/?" +:+ query)) Panic
        | None => Ok (MkUri None None "/" None)
        end;
  let headers := headers_insert "accept" "application/json"
                   (headers_insert "content-type" "application/json" (hq_headers req)) in
  bytes ← ok_or (json_write (request_serialize (request_new method None (IdNumber 0)))) Panic;
  Ok (MkHttpRequest MPost uri headers (hq_extensions req) [FData bytes]).
Definition internal_proxy_error (bytes : string) : Result Panicked HttpResponse :=
  let error :=
    default (ErrorObject.from InternalError)
      (n ← json_read bytes; m ← struct_entries false ["error"] n; m !! "error" ≫= ErrorObject.deserialize) in
  body ← ok_or (json_write (ErrorObject.serialize error)) Panic;
  Ok (response.from_template 500 body "application/json; charset=utf-8").
(** The response, stripped to its result or its error. *)
Definition strip (res : HttpResponse) : Result Panicked HttpResponse :=
  let bytes := hr_body res in
  r ← match (n ← json_read bytes; m ← struct_entries false ["result"] n; m !! "result" ≫= de_raw) with
      | Some result => Ok (response.ok_response result)
      | None => internal_proxy_error bytes
      end;
  Ok (MkHttpResponse (hr_status r) (hr_content_type r) (hr_body r) (ext_extend (Wire.ext_new) (hr_extensions res))).
Definition call {S} (methods : gmap string string) (inner : HttpRequest → SM S Stop HttpResponse)
    (req : HttpRequest) : SM S Stop HttpResponse :=
  match methods !! uri_path (hq_uri req), hq_method req with
  | Some method, MGet =>
    req' ← http_panics (proxied method req);
    res ← inner req';
    http_panics (strip res)
  | _, _ => inner req
  end.
End Ops.
End ProxyGetRequest.

(** ** [ConnectionGuard] and the [ServerHandle] of [server/src/future.rs] *)
Module ConnectionGuard.
Definition new (limit : N) : Semaphore := MkSemaphore limit limit.
Definition try_acquire (g : Semaphore) : option Semaphore :=
  if decide (0 < sem_available g)%N then Some (MkSemaphore (sem_max g) (sem_available g - 1)) else None.
(** A permit that is dropped. *)
Definition drop_permit (g : Semaphore) : Semaphore := MkSemaphore (sem_max g) (sem_available g + 1).
Definition available_connections (g : Semaphore) : N := sem_available g.
Definition max_connections (g : Semaphore) : N := sem_max g.
End ConnectionGuard.

(** ** Bodies *)
Section BodyProps.
Context {L : HttpLibs}.

Lemma drop_str_app i a b : i <= String.length a → drop_str i (a +:+ b) = drop_str i a +:+ b.
Proof.
  revert a. induction i as [|i IH]; intros a Hi; [done|]. destruct a as [|c a]; cbn in *; [lia|].
  apply IH. lia.
Qed.

(** Leading white space. *)
Fixpoint all_ws (s : string) : bool :=
  match s with EmptyString => true | String c s' => is_ascii_whitespace c && all_ws s' end.
Definition opens (single : bool) (t : string) : Prop :=
  ∃ t', t = String (if single then "{" else "[")%char t'.

Lemma find_start_spec n s i c : find_start n s = Some (i, c) →
  ∃ ws t, s = ws +:+ String c t ∧ all_ws ws = true ∧ String.length ws = i ∧ drop_str i s = String c t ∧ i < n.
Proof.
  revert s i. induction n as [|n IH]; intros s i; [done|]. destruct s as [|d s]; cbn; [done|].
  destruct (is_ascii_whitespace d) eqn:Ew.
  - destruct (find_start n s) as [[j c']|] eqn:E; [|done]. cbn. intros [= <- <-].
    destruct (IH s j E) as (ws & t & -> & Hw & <- & Hd & Hn). exists (String d ws), t.
    cbn. rewrite Ew. split_and!; [done|done|done|done|lia].
  - intros [= <- <-]. exists "", s. cbn. split_and!; [done..|lia].
Qed.

Lemma json_start_spec d i single : json_start d = Some (i, single) →
  i <= String.length d ∧ opens single (drop_str i d) ∧
  ∃ ws, all_ws ws = true ∧ d = ws +:+ drop_str i d.
Proof.
  unfold json_start. destruct (find_start 128 d) as [[j c]|] eqn:E; [|done].
  destruct (find_start_spec _ _ _ _ E) as (ws & t & Hd & Hw & Hl & Ht & _).
  assert (j <= String.length d) as Hj by (subst d; rewrite length_append; lia).
  intros H. assert (i = j ∧ c = (if single then "{" else "[")%char) as [-> Hc].
  { destruct c as [[][][][][][][][]]; by simplify_eq. }
  split; [done|]. split; [exists t; congruence|]. exists ws. split; [done|]. by rewrite Ht.
Qed.

Definition is_error_frame (f : Frame) : bool := match f with FError _ => true | _ => false end.
Definition frame_data (f : Frame) : list string := match f with FData d => [d] | _ => [] end.
(** The chunks of data, and the text of a body. *)
Definition chunks (fs : list Frame) : list string := fs ≫= frame_data.
Definition concat_str : list string → string := foldr String.append "".

Lemma slen_concat fs : slen (concat_str (chunks fs)) = frames_len fs.
Proof.
  induction fs as [|[d| |e] fs IH]; cbn; [done| |exact IH|exact IH].
  unfold frames_len, chunks in *. cbn. rewrite slen_append. cbn in IH. lia.
Qed.

Lemma read_frames_more fs t single : Forall (λ f, is_error_frame f = false) fs → t ≠ "" →
  read_frames fs t single = Ok (t +:+ concat_str (chunks fs), single).
Proof.
  intros Hf. revert t. induction Hf as [|[d| |e] fs He _ IH]; intros t Ht; cbn [read_frames].
  - by rewrite append_nil_r.
  - rewrite decide_False by done. rewrite IH by (destruct t; done). cbn. by rewrite append_assoc'.
  - by rewrite IH.
  - done.
Qed.
Lemma read_frames_first fs : Forall (λ f, is_error_frame f = false) fs →
  read_frames fs "" None =
  match chunks fs with
  | [] => Ok ("", None)
  | d :: ds =>
    match json_start d with
    | Some (i, single) => Ok (drop_str i (concat_str (chunks fs)), Some single)
    | None => Err HeMalformed
    end
  end.
Proof.
  intros Hf. induction Hf as [|[d| |e] fs He Hf IH]; cbn [read_frames]; [done| |exact IH|done].
  rewrite decide_True by done. change (chunks (FData d :: fs)) with (d :: chunks fs). cbv iota.
  destruct (json_start d) as [[i single]|] eqn:E; [|done].
  destruct (json_start_spec _ _ _ E) as (Hi & [t Ht] & _). cbn [String.append].
  rewrite read_frames_more; [|done|by rewrite Ht]. cbn [concat_str foldr]. by rewrite drop_str_app.
Qed.

Lemma read_frames_error fs e t single : ∃ err, read_frames (fs ++ [FError e]) t single = Err err ∧
  (err = HeMalformed ∨ ∃ e', err = HeStream e').
Proof.
  revert t single. induction fs as [|[d| |e'] fs IH]; intros t single; cbn [app read_frames]; eauto.
  case_decide; [|apply IH]. destruct (json_start d) as [[i s]|]; [apply IH|eauto].
Qed.

(** C31: a body is read whole, however it is cut into chunks, and without its
    leading white space: the text returned is what the chunks hold after that
    white space, is never longer than the limit, and opens an object or an array
    as the flag says.  Only the first chunk is inspected: if the object or array
    does not start there, within 128 bytes, the body is malformed.  A declared
    length over the limit is refused at once, an actual length over it while
    reading. *)
Theorem body_read_whole (headers : HeaderMap) (body : list Frame) (max : N) :
  limited_law L → Forall (λ f, is_error_frame f = false) body →
  let declared := default 0%N (read_header_content_length headers) in
  let r := read_body headers body max in
  if decide (max < declared)%N then r = Err HeTooLarge
  else if decide (frames_len body <= max)%N then
    match chunks body with
    | [] => r = Err HeMalformed
    | d :: _ =>
      match json_start d with
      | None => r = Err HeMalformed
      | Some (i, single) => ∃ ws t, r = Ok (t, single) ∧ concat_str (chunks body) = ws +:+ t ∧
          all_ws ws = true ∧ opens single t ∧ (slen t <= max)%N
      end
    end
  else r = Err HeMalformed ∨ ∃ e, r = Err (HeStream e).
Proof.
  intros HL Hf declared r. unfold r, read_body. fold declared. case_decide; [done|].
  specialize (HL max body). case_decide as Hlen.
  - rewrite HL, read_frames_first by done. pose proof (slen_concat body) as Hc.
    destruct (chunks body) as [|d ds]; [done|]. destruct (json_start d) as [[i single]|] eqn:E; [|done].
    destruct (json_start_spec _ _ _ E) as (Hi & [t Ht] & ws & Hw & Hd). cbn [mbind result_bind].
    cbn [concat_str foldr] in *. rewrite drop_str_app by done. rewrite Ht.
    rewrite decide_False by done. fold concat_str in *.
    exists ws, (String (if single then "{" else "[")%char t +:+ concat_str ds). split_and!.
    + done.
    + rewrite <-append_assoc'. f_equal. rewrite Hd at 1. by rewrite Ht.
    + done.
    + eexists. reflexivity.
    + rewrite Hd, Ht in Hc. change (foldr String.append "" ds) with (concat_str ds) in Hc.
      rewrite !slen_append in *. lia.
  - destruct HL as (fs1 & e & -> & _). destruct (read_frames_error fs1 e "" None) as (err & -> & He).
    cbn. destruct He as [->|[e' ->]]; eauto.
Qed.
End BodyProps.

(** ** Calls *)
Section CallProps.
Context {J : SerdeJson} {X : HttpExtensions} {L : HttpLibs} {S : Type} {svc : RpcServiceT S}.
Context (config : BatchRequestConfig) (max : N).

(** C20: the answer to an HTTP request, in the order of the checks.  Another method
    than POST, another content type than JSON, a declared length over the limit
    and a malformed body are refused with their status, and the service is not
    run.  Otherwise the service gets the text of the body and its answer becomes
    the body of a 200 response, whatever the answer says. *)
Theorem http_call_outcomes (req : HttpRequest) (s : S) :
  errors_write IdNull →
  let res := call_with_service req config max s in
  let refused status := ∃ r, res = (Ok r, s) ∧ hr_status r = status in
  (hq_method req ≠ MPost → refused 405%N) ∧
  (hq_method req = MPost → content_type_is_json req = false → refused 415%N) ∧
  (hq_method req = MPost → content_type_is_json req = true →
     match read_body (hq_headers req) (hq_body req) max with
     | Err HeTooLarge => refused 413%N
     | Err HeMalformed => refused 400%N
     | Err (HeStream _) => refused 500%N
     | Ok (text, single) =>
       match handle_rpc_call text single config (hq_extensions req) s with
       | (Ok m, s') => ∃ r, res = (Ok r, s') ∧ hr_status r = 200%N ∧ hr_body r = mr_json m ∧
           hr_content_type r = "application/json; charset=utf-8"
       | (Err e, s') => res = (Err e, s')
       end
     end).
Proof.
  intros He res refused. unfold refused, res, call_with_service. split; [|split].
  - destruct (hq_method req); [done|..]; intros _; eexists; split; reflexivity.
  - intros -> ->. eexists. split; reflexivity.
  - intros -> ->.
    assert (∀ err st, ∃ r, @http_panics S _ (error ← error_json IdNull err; Ok (response.from_template st error response.JSON)) s
      = (Ok r, s) ∧ hr_status r = st) as Hp.
    { intros err st. destruct (He err) as [j Hj]. unfold http_panics, sm_catch, sm_result. rewrite Hj. by eexists. }
    destruct (read_body _ _ _) as [[text single]|[]]; [|by apply Hp..].
    destruct (handle_rpc_call _ _ _ _ s) as [[m|e] s'] eqn:E; unfold mbind, SM_bind; rewrite E; [|done].
    eexists. split; [reflexivity|]. done.
Qed.
End CallProps.

(** ** The filter of hosts *)
Section FilterProps.
Context {J : SerdeJson} {X : HttpExtensions} {L : HttpLibs}.

(** Patterns without wildcards; the router finds them by equality, once it has
    stripped a slash that a path starts with.  The host of a URI has none. *)
Definition literal_char (c : ascii) : bool :=
  let n := N_of_ascii c in
  bool_decide (n = 46 ∨ n = 45 ∨ 48 <= n <= 57 ∨ 65 <= n <= 90 ∨ 97 <= n <= 122)%N.
Definition literal (s : string) : bool := forallb literal_char (String.list_ascii_of_string s).
Definition router_law : Prop :=
  (∀ (routes : list (string * list Port)) host, starts_with "/"%char host = false →
     NoDup routes.*1 → Forall (λ r, literal r.1 = true) routes →
     router_recognize routes host = (list_to_map routes : gmap string (list Port)) !! host) ∧
  (∀ value uri a, uri_parse value = Some uri → uri_authority uri = Some a → starts_with "/"%char (ua_host a) = false).

(** The host of a request comes from a URI. *)
Lemma inner_from_str_host value a : router_law → Authority.inner_from_str value = Ok a →
  starts_with "/"%char (au_host a) = false.
Proof.
  intros [_ HU]. unfold Authority.inner_from_str. destruct (uri_parse value) as [uri|] eqn:Eu; [|done]. cbn.
  destruct (uri_authority uri) as [ua|] eqn:Ea; [|done]. cbn. intros H.
  enough (au_host a = ua_host ua) as -> by (by eapply HU).
  match type of H with mbind _ ?r = _ => destruct r end; cbn in H; [by injection H as <-|done].
Qed.
Lemma request_host req a : router_law → Authority.from_http_request req = Some a → starts_with "/"%char (au_host a) = false.
Proof.
  intros HL. unfold Authority.from_http_request.
  destruct (read_header_value _ _) as [v|]; cbn; [destruct (Authority.inner_from_str v) as [a1|] eqn:E1|];
    (destruct (uri_authority _) as [u|]; cbn; [destruct (Authority.inner_from_str (ua_str u)) as [a2|] eqn:E2|]);
    repeat case_decide; intros [= <-]; by eapply inner_from_str_host.
Qed.

Lemma uniq_hosts_spec allow p host (m : gmap string (list Port)) :
  p ∈ default [] (foldl (λ m a, WhitelistedHosts.add_port a m) m allow !! host) ↔
  p ∈ default [] (m !! host) ∨ MkAuthority host p ∈ allow.
Proof.
  revert m. induction allow as [|[h q'] allow IH]; intros m; cbn [foldl].
  { rewrite elem_of_nil. naive_solver. }
  rewrite IH, elem_of_cons. unfold WhitelistedHosts.add_port; cbn.
  destruct (decide (h = host)) as [->|Hne].
  - rewrite lookup_insert_eq; cbn. rewrite elem_of_app, list_elem_of_singleton.
    naive_solver.
  - rewrite lookup_insert_ne by done. split; [intros []; auto|intros [|[[= -> ->]|]]; auto; congruence].
Qed.
Lemma uniq_hosts_dom allow host (m : gmap string (list Port)) :
  is_Some (foldl (λ m a, WhitelistedHosts.add_port a m) m allow !! host) →
  is_Some (m !! host) ∨ ∃ p, MkAuthority host p ∈ allow.
Proof.
  revert m. induction allow as [|[h q'] allow IH]; intros m; cbn [foldl]; [auto|].
  intros [[x Hx]|[p Hp]]%IH; [|right; exists p; by right].
  unfold WhitelistedHosts.add_port in Hx; cbn in Hx. destruct (decide (h = host)) as [->|Hne].
  - right. exists q'. by left.
  - rewrite lookup_insert_ne in Hx by done. left. by eexists.
Qed.

(** C21: with a list of hosts without wildcards, a request reaches the service iff
    its authority is known and the list has its host with its port, or with any
    port; all the ports given for one host count, in whatever order they were
    given.  Every other request is refused without running the service. *)
Theorem host_filter_exact {S : Type} (allow : list Authority) (inner : HttpRequest → SM S Stop HttpResponse)
    (req : HttpRequest) (s : S) :
  router_law → Forall (λ a, literal (au_host a) = true) allow → errors_write IdNull →
  let res := HostFilter.call (Some (WhitelistedHosts.from allow)) inner req s in
  match Authority.from_http_request req with
  | None => ∃ r, res = (Ok r, s) ∧ hr_status r = 400%N
  | Some a =>
    if decide (Exists (λ b, au_host b = au_host a ∧ WhitelistedHosts.port_allowed (au_port b) (au_port a) = true) allow)
    then res = inner req s
    else ∃ r, res = (Ok r, s) ∧ hr_status r = 403%N
  end.
Proof.
  intros HL Hlit He res. unfold res, HostFilter.call.
  destruct (Authority.from_http_request req) as [a|] eqn:Ha.
  2: { destruct (He (ErrorObject.from ParseError)) as [j Hj].
       unfold http_panics, sm_catch, sm_result, response.malformed. rewrite Hj. by eexists. }
  assert (WhitelistedHosts.recognize (WhitelistedHosts.from allow) a = true ↔
    Exists (λ b, au_host b = au_host a ∧ WhitelistedHosts.port_allowed (au_port b) (au_port a) = true) allow) as Hr.
  { unfold WhitelistedHosts.recognize, WhitelistedHosts.from, WhitelistedHosts.uniq_hosts.
    rewrite (proj1 HL); [|by eapply request_host|apply NoDup_fst_map_to_list|].
    2: { apply Forall_forall. intros [h ps] Hin%elem_of_map_to_list. cbn.
         destruct (uniq_hosts_dom allow h ∅) as [[x Hx]|[p Hp]]; [by eexists|by rewrite lookup_empty in Hx|].
         rewrite Forall_forall in Hlit. apply (Hlit _ Hp). }
    rewrite list_to_map_to_list, Exists_exists.
    pose proof (λ p, uniq_hosts_spec allow p (au_host a) ∅) as Hs. rewrite lookup_empty in Hs. cbn in Hs.
    transitivity (∃ p, p ∈ default [] (foldl (λ m a, WhitelistedHosts.add_port a m) ∅ allow !! au_host a) ∧
      WhitelistedHosts.port_allowed p (au_port a) = true).
    - destruct (_ !! au_host a) as [ps|]; cbn; [|split; [done|intros (? & []%elem_of_nil & _)]].
      rewrite existsb_exists. split; intros (p & Hp & ?); exists p; by rewrite list_elem_of_In in *.
    - split.
      + intros (p & [[]%elem_of_nil|Hp]%Hs & Hpa). by exists (MkAuthority (au_host a) p).
      + intros ([h p] & Hin & Hh & Hpa). cbn in *. subst h. exists p. split; [|done]. apply Hs. by right. }
  case_decide as Hd.
  - by rewrite (proj2 Hr Hd).
  - destruct (WhitelistedHosts.recognize _ _); [by destruct Hd; apply Hr|]. by eexists.
Qed.
End FilterProps.

(** ** The proxy *)
Section ProxyProps.
Context {J : SerdeJson} {X : HttpExtensions} {L : HttpLibs}.

Lemma proxy_insert_all pairs m :
  match ProxyGetRequest.insert_all pairs m with
  | Ok m' => Forall (λ p, starts_with "/"%char p.1 = true ∧ m !! p.1 = None) pairs ∧ NoDup pairs.*1 ∧
      m' = list_to_map pairs ∪ m
  | Err _ => True
  end.
Proof.
  revert m. induction pairs as [|[path method] pairs IH]; intros m; cbn.
  { split; [constructor|]. split; [constructor|]. by rewrite (left_id ∅ _). }
  destruct (starts_with _ path) eqn:Es; [|done]. destruct (m !! path) eqn:Em; [done|].
  specialize (IH (<[path := method]> m)). destruct (ProxyGetRequest.insert_all _ _); [|done].
  destruct IH as (Hf & Hnd & ->). rewrite Forall_forall in Hf.
  assert (path ∉ pairs.*1) as Hn.
  { intros ([p v] & -> & Hin)%list_elem_of_fmap. destruct (Hf _ Hin) as [_ Hx]. cbn in Hx.
    by rewrite lookup_insert_eq in Hx. }
  split; [|split].
  - constructor; [done|]. apply Forall_forall. intros [p v] Hin. destruct (Hf _ Hin) as [? Hx].
    split; [done|]. cbn in *. apply lookup_insert_None in Hx. naive_solver.
  - by constructor.
  - cbn. rewrite <-insert_union_l, <-insert_union_r; [done|]. by apply not_elem_of_list_to_map_1.
Qed.

Lemma get_all_insert n v h : headers_get_all n (headers_insert n v h) = [Some v].
Proof.
  unfold headers_get_all, headers_insert. rewrite filter_app, fmap_app.
  replace (filter (λ kv : string * option string, kv.1 = n) (filter (λ kv, kv.1 ≠ n) h)) with
    (@nil (string * option string)).
  - cbn. by rewrite decide_True.
  - induction h as [|x h IH]; [done|]. rewrite (filter_cons (λ kv, kv.1 ≠ n)).
    case_decide; [|done]. by rewrite filter_cons_False.
Qed.
Lemma get_all_insert_ne n m v h : n ≠ m → headers_get_all n (headers_insert m v h) = headers_get_all n h.
Proof.
  intros Hne. unfold headers_get_all, headers_insert. rewrite filter_app, fmap_app.
  rewrite (filter_cons_False (λ kv : string * option string, kv.1 = n)) by (cbn; congruence).
  rewrite app_nil_r. f_equal. induction h as [|x h IH]; [done|].
  rewrite (filter_cons (λ kv, kv.1 ≠ m)), (filter_cons _ x h). repeat case_decide; subst; try done.
  - rewrite filter_cons_True by done. by rewrite IH.
  - by rewrite filter_cons_False.
Qed.

(** The members the proxy looks for in a response. *)
Lemma entries_result a b c : struct_entries false ["result"]
  (NObj [("jsonrpc", a); ("id", b); ("result", c)]) = Some {["result" := c]}.
Proof. vm_compute. reflexivity. Qed.
Lemma entries_no_result a b c : struct_entries false ["result"]
  (NObj [("jsonrpc", a); ("id", b); ("error", c)]) = Some ∅.
Proof. vm_compute. reflexivity. Qed.
Lemma entries_error a b c : struct_entries false ["error"]
  (NObj [("jsonrpc", a); ("id", b); ("error", c)]) = Some {["error" := c]}.
Proof. vm_compute. reflexivity. Qed.

(** The response of the service, stripped. *)
Lemma strip_spec {T} (ser : T → Ser) (p : ResponsePayload T) id res :
  let rp := response_serialize ser (response_new p id) in
  faithful rp → (∀ e, p = PayloadError e → eo_ok e) → hr_body res = text_of rp →
  ∃ r, ProxyGetRequest.strip res = Ok r ∧
    match p with
    | Success t => hr_status r = 200%N ∧ hr_body r = text_of (ser t)
    | PayloadError e => hr_status r = 500%N ∧ hr_body r = text_of (ErrorObject.serialize e)
    end.
Proof.
  intros rp F He Hb. unfold ProxyGetRequest.strip, ProxyGetRequest.internal_proxy_error. rewrite Hb.
  unfold rp, response_serialize in *. destruct (faithful_map _ F) as [-> Fs]. clear F.
  destruct p as [t|e]; cbn in *; split_Forall; cbn in *.
  - rewrite entries_result. cbn [mbind option_bind]. rewrite lookup_singleton_eq. cbn.
    destruct (faithful_reads (ser t)) as [n Hn]; [done|]. unfold de_raw. rewrite Hn. by eexists.
  - rewrite entries_no_result, entries_error. cbn [mbind option_bind]. rewrite lookup_empty, lookup_singleton_eq. cbn.
    rewrite eo_decode by auto. cbn [default]. rewrite faithful_write by done. by eexists.
Qed.

(** A GET request to a configured path becomes one POST request that calls the
    method of that path without parameters, and is answered with the bare result,
    or with the bare error and status 500, of the response the service gives.
    Every other request goes through unchanged.  The layer exists only if all
    paths start with a slash and differ. *)
Theorem proxied_get {S T : Type} (ser : T → Ser) (pairs : list (string * string)) methods
    (inner : HttpRequest → SM S Stop HttpResponse) (req : HttpRequest) (s s' : S)
    (p : ResponsePayload T) (res : HttpResponse) :
  ProxyGetRequest.new pairs = Ok methods →
  (Forall (λ pm, starts_with "/"%char pm.1 = true) pairs ∧ NoDup pairs.*1) ∧
  (hq_method req ≠ MGet ∨ uri_path (hq_uri req) ∉ pairs.*1 →
     ProxyGetRequest.call methods inner req s = inner req s) ∧
  (∀ name, hq_method req = MGet → (uri_path (hq_uri req), name) ∈ pairs → uri_query (hq_uri req) = None →
     let call_text := request_serialize (request_new name None (IdNumber 0)) in
     let rp := response_serialize ser (response_new p (IdNumber 0)) in
     faithful call_text → faithful rp → (∀ e, p = PayloadError e → eo_ok e) → hr_body res = text_of rp →
     ∃ req', hq_method req' = MPost ∧ content_type_is_json req' = true ∧
       hq_body req' = [FData (text_of call_text)] ∧
       (inner req' s = (Ok res, s') →
        ∃ r, ProxyGetRequest.call methods inner req s = (Ok r, s') ∧
          match p with
          | Success t => hr_status r = 200%N ∧ hr_body r = text_of (ser t)
          | PayloadError e => hr_status r = 500%N ∧ hr_body r = text_of (ErrorObject.serialize e)
          end)).
Proof.
  intros Hnew. pose proof (proxy_insert_all pairs ∅) as Hi.
  unfold ProxyGetRequest.new in Hnew. rewrite Hnew in Hi. destruct Hi as (Hf & Hnd & Hm).
  rewrite (right_id ∅ _) in Hm. split; [|split].
  - split; [|done]. eapply Forall_impl; [exact Hf|]. naive_solver.
  - intros Hno. unfold ProxyGetRequest.call. destruct Hno as [Hg|Hp].
    + by destruct (methods !! _), (hq_method req).
    + rewrite Hm. by rewrite not_elem_of_list_to_map_1.
  - intros name Hg Hin Hq call_text rp Fc F He Hb.
    assert (methods !! uri_path (hq_uri req) = Some name) as Hl.
    { rewrite Hm. by apply elem_of_list_to_map. }
    assert (∃ req', ProxyGetRequest.proxied name req = Ok req' ∧ hq_method req' = MPost ∧
      content_type_is_json req' = true ∧ hq_body req' = [FData (text_of call_text)]) as (req' & E & ? & ? & ?).
    { unfold ProxyGetRequest.proxied. rewrite Hq. cbn [mbind result_bind]. fold call_text.
      rewrite (faithful_write _ Fc). eexists. split; [reflexivity|]. split; [done|]. split; [|done].
      unfold content_type_is_json; cbn [hq_headers]. by rewrite get_all_insert_ne, get_all_insert. }
    exists req'. split_and!; [done..|]. intros Hr.
    destruct (strip_spec ser p (IdNumber 0) res F He Hb) as (r & Es & Hres). exists r. split; [|done].
    unfold ProxyGetRequest.call. rewrite Hl, Hg. unfold mbind, SM_bind, http_panics, sm_catch, sm_result.
    rewrite E. cbn. rewrite Hr. by rewrite Es.
Qed.
End ProxyProps.

(** ** Witnesses *)
Section HttpWitnesses.
#[local] Existing Instance ref_json.
#[local] Existing Instance ref_ext.

(** A limited body: frames go through while the budget lasts. *)
Fixpoint ref_limited (max : N) (fs : list Frame) : list Frame :=
  match fs with
  | [] => []
  | f :: fs' =>
    if decide (frame_len f <= max)%N then f :: ref_limited (max - frame_len f) fs'
    else [FError "length limit exceeded"]
  end.
Definition ref_libs : HttpLibs := {|
  limited := ref_limited;
  uri_parse s :=
    if decide (s = "longusername:pw@host.io") then
      Some (MkUri None (Some (MkUriAuthority s "host.io")) "" None)
    else if decide (s = "host.io:80") then Some (MkUri None (Some (MkUriAuthority s "host.io")) "" None)
    else None;
  router_recognize A routes host := (list_to_map routes : gmap string A) !! host
|}.
#[local] Existing Instance ref_libs.

Lemma ref_limited_law : limited_law ref_libs.
Proof.
  intros max fs. cbn [limited ref_libs]. revert max. induction fs as [|f fs IH]; intros max.
  { by rewrite decide_True by (cbn; lia). }
  cbn [ref_limited]. change (frames_len (f :: fs)) with (frame_len f + frames_len fs)%N.
  destruct (decide (frame_len f <= max)%N) as [Hf|Hf].
  - specialize (IH (max - frame_len f)%N). repeat case_decide; try lia; [by rewrite IH|].
    destruct IH as (fs1 & e & -> & Hp & Hl). exists (f :: fs1), e. split; [done|].
    split; [by apply prefix_cons|]. change (frames_len (f :: fs1)) with (frame_len f + frames_len fs1)%N. lia.
  - rewrite decide_False by lia. exists [], "length limit exceeded". split; [done|].
    split; [apply prefix_nil|cbn; lia].
Qed.

Lemma ref_router_law : router_law (L := ref_libs).
Proof.
  split; [done|]. intros v uri a. cbn. repeat case_decide; intros [= <-]; cbn; by intros [= <-].
Qed.

Lemma body_read_whole_witness :
  ∃ ws t, read_body [] [FData (q " {'a'"); FTrailers; FData ":1}"] 20 = Ok (t, true) ∧
    concat_str [q " {'a'"; ":1}"] = ws +:+ t.
Proof.
  pose proof (body_read_whole [] [FData (q " {'a'"); FTrailers; FData ":1}"] 20 ref_limited_law
    ltac:(repeat constructor)) as H.
  rewrite decide_False in H by (vm_compute; discriminate).
  rewrite decide_True in H by (vm_compute; discriminate).
  change (chunks [FData (q " {'a'"); FTrailers; FData ":1}"]) with [q " {'a'"; ":1}"] in H.
  change (json_start (q " {'a'")) with (Some (1, true)) in H.
  destruct H as (ws & t & E & Ht & _). exists ws, t. split; [exact E|exact Ht].
Defined.

Definition ex_post (headers : list (string * option string)) (body : string) : HttpRequest :=
  MkHttpRequest MPost (MkUri None None "/" None) headers [] [FData body].
Lemma http_call_outcomes_witness :
  ∃ r, call_with_service (svc := rpc_service ex_rest ex_service)
      (ex_post [("content-type", Some "application/json")]
         (q "{'jsonrpc':'2.0','id':1,'method':'inc','params':[41]}")) BrcUnlimited 1000 (ex_world, ()) =
      (Ok r, (ex_world, ())) ∧ hr_status r = 200%N ∧ hr_body r = q "{'jsonrpc':'2.0','id':1,'result':42}".
Proof.
  destruct (http_call_outcomes (svc := rpc_service ex_rest ex_service) BrcUnlimited 1000
    (ex_post [("content-type", Some "application/json")]
         (q "{'jsonrpc':'2.0','id':1,'method':'inc','params':[41]}")) (ex_world, ()) (ref_errors_write _))
    as (_ & _ & H).
  specialize (H eq_refl ltac:(vm_compute; reflexivity)).
  change (read_body _ _ _) with
    (@Ok HttpError _ (q "{'jsonrpc':'2.0','id':1,'method':'inc','params':[41]}", true)) in H.
  cbv beta iota in H.
  destruct (handle_rpc_call _ _ _ _ _) as [[m|e] s'] eqn:E in H; [|vm_compute in E; discriminate].
  vm_compute in E. injection E as <- <-.
  destruct H as (r & E & Hs & Hb & _). exists r. split; [exact E|]. split; [exact Hs|exact Hb].
Defined.

Lemma host_filter_exact_witness :
  HostFilter.call (Some (WhitelistedHosts.from [MkAuthority "host.io" (PortFixed 80)]))
    (λ _, mret response.denied) (ex_post [("host", Some "host.io:80")] "") () = (Ok response.denied, ()).
Proof.
  pose proof (host_filter_exact (L := ref_libs) [MkAuthority "host.io" (PortFixed 80)] (λ _, mret response.denied)
    (ex_post [("host", Some "host.io:80")] "") ()
    ref_router_law ltac:(constructor; [vm_compute; reflexivity|constructor])
    (ref_errors_write _)) as H.
  change (Authority.from_http_request (ex_post [("host", Some "host.io:80")] ""))
    with (Some (MkAuthority "host.io" (PortFixed 80))) in H. cbv beta iota in H.
  rewrite decide_True in H by (constructor; vm_compute; split; reflexivity). exact H.
Defined.

Lemma proxied_get_witness :
  ∃ req', hq_method req' = MPost ∧
    hq_body req' = [FData (q "{'jsonrpc':'2.0','id':0,'method':'system_health'}")].
Proof.
  destruct (proxied_get SerInt [("/health", "system_health")] {["/health" := "system_health"]}
    (λ _, mret response.denied) (MkHttpRequest MGet (MkUri None None "/health" None) [] ext_new []) () ()
    (Success 1%Z) (MkHttpResponse 200 "" (q "{'jsonrpc':'2.0','id':0,'result':1}") ext_new)) as (_ & _ & H).
  - vm_compute. reflexivity.
  - destruct (H "system_health") as (req' & E1 & _ & E2 & _);
      [reflexivity|by left|reflexivity|vm_compute; repeat (split; eauto)|vm_compute; repeat (split; eauto)
      |discriminate|vm_compute; reflexivity|].
    exists req'. split; [exact E1|exact E2].
Defined.

(** The text of an authority with user information is cut at the length of the
    host: part of the user information is read as the port. *)
Example userinfo_read_as_port :
  Authority.inner_from_str "longusername:pw@host.io" = Err (AeInvalidPort "pw@host.io").
Proof. vm_compute. reflexivity. Qed.
(** A chunk of white space in front of the request makes the body malformed. *)
Example blank_first_chunk : read_body [] [FData " "; FData "{}"] 20 = Err HeMalformed.
Proof. vm_compute. reflexivity. Qed.
(** A body over the limit that does not declare its length is an error of the
    stream, not [HeTooLarge]. *)
Example undeclared_too_large :
  read_body [] [FData "{"; FData "}"] 1 = Err (HeStream "length limit exceeded").
Proof. vm_compute. reflexivity. Qed.
(** The error about a duplicated path names the method of the first pair. *)
Example duplicated_path_names_method :
  ProxyGetRequest.new [("/a", "m1"); ("/a", "m2")] = Err (DuplicatedPath "m1").
Proof. vm_compute. reflexivity. Qed.
End HttpWitnesses.
