(* ===== verification/WsServer.v ===== *)
(** WebSocket connections of the server: [server/src/transport/ws.rs] and
    [server/src/connection_manager.rs], with the encryption interface of
    [core/src/traits.rs].

    A connection has three parts that run concurrently: the loop that receives
    ([loop_step]), one task per message ([handle_message], then [msg_task_poll]
    until the answer is in the channel) and the task that empties the channel into
    the socket ([send_task_step]).  The socket ([soketto]) is seen through the
    events it delivers, stamped with the time. *)
From stdpp Require Import base gmap strings list.
From Stdlib Require Import Ascii.
From S2P Require Import Prelude Serde RefJson Errors Params Wire Middleware MethodResponse Subscription RpcModule RpcService Http.

(** ** Encryption of messages *)
Record MessageEncryption : Type := MkMessageEncryption {
  encrypt : string → Result string string;
  decrypt : string → Result string string
}.
Inductive MessageCryptoErrorPolicy : Type := SendError | CloseConnection | SkipMessage.
Definition crypto_policy_default : MessageCryptoErrorPolicy := SendError.

(** [String::from_utf8]: well-formed UTF-8. *)
Definition cont (c : ascii) : bool := bool_decide (128 <= N_of_ascii c <= 191)%N.
Fixpoint utf8_valid (s : string) : bool :=
  match s with
  | EmptyString => true
  | String a s1 =>
    let n := N_of_ascii a in
    if decide (n < 128)%N then utf8_valid s1
    else match s1 with
    | String b s2 =>
      let m := N_of_ascii b in
      if decide (194 <= n <= 223)%N then cont b && utf8_valid s2
      else match s2 with
      | String c s3 =>
        if decide (224 <= n <= 239)%N then
          cont b && cont c &&
          bool_decide ((n = 224 → 160 <= m) ∧ (n = 237 → m <= 159))%N && utf8_valid s3
        else match s3 with
        | String d s4 =>
          if decide (240 <= n <= 244)%N then
            cont b && cont c && cont d &&
            bool_decide ((n = 240 → 144 <= m) ∧ (n = 244 → m <= 143))%N && utf8_valid s4
          else false
        | EmptyString => false
        end
      | EmptyString => false
      end
    | EmptyString => false
    end
  end.

Inductive SokettoError : Type := SkClosed | SkMessageTooLarge (current maximum : N) | SkOther (text : string).

Section Ws.
Context {J : SerdeJson} {X : HttpExtensions}.

(** ** The sending side *)

(** [send_message]: the texts handed to the socket, and the outcome.  [socket] is
    what sending and flushing a text gives. *)
Definition send_message (socket : string → Result SokettoError unit) (response : string)
    (encryption : option MessageEncryption) (policy : MessageCryptoErrorPolicy)
    : list string * Result SokettoError unit :=
  match encryption with
  | Some enc =>
    match encrypt enc response with
    | Ok encrypted => ([encrypted], socket encrypted)
    | Err _ =>
      match policy with
      | SendError =>
        let err := ErrorObject.owned ENCRYPTION_ERROR_CODE ENCRYPTION_ERROR_MSG None in
        match error_json IdNull err with
        | Ok err_response => ([err_response], socket err_response)
        | Err _ => ([], Err SkClosed)
        end
      | CloseConnection => ([], Err SkClosed)
      | SkipMessage => ([], Err SkClosed)
      end
    end
  | None => ([response], socket response)
  end.

(** What wakes the task that sends. *)
Inductive SendEvent : Type := SeMessage (json : string) | SeNoMoreMessages | SePingTime | SeStop.
(** One turn: the texts sent, and whether the task goes on.  [ping] is the outcome
    of [send_ping]. *)
Definition send_task_step (socket : string → Result SokettoError unit) (ping : Result SokettoError unit)
    (encryption : option MessageEncryption) (policy : MessageCryptoErrorPolicy) (e : SendEvent)
    : list string * bool :=
  match e with
  | SeMessage response =>
    let '(texts, r) := send_message socket response encryption policy in (texts, is_ok r)
  | SeNoMoreMessages => ([], false)
  | SePingTime => ([], is_ok ping)
  | SeStop => ([], false)
  end.
(** After the loop the socket is closed, and the receiver of the channel too. *)
Definition send_task_end (chan : nat) (w : SrvWorld) : SrvWorld :=
  let c := get_chan chan w in
  set_chans (<[chan := MkConnChan (cc_cap c) (cc_queue c) true]> (sw_chans w)) w.

(** ** The receiving side *)
Record PingConfig : Type := MkPingConfig {
  pc_ping_interval : N;
  pc_inactive_limit : N;
  pc_max_failures : N
}.
(** What [try_recv] waits for. *)
Inductive WsEvent : Type :=
| EvData (data : string)
| EvPong
| EvError (e : SokettoError)
| EvEnd
| EvTick
| EvStop.
Inductive Receive : Type := RcvConnectionClosed | RcvStopped | RcvErr (e : SokettoError) | RcvOk (data : string).

(** [try_recv] on the events with their times: what it returns, the missed pings
    and the events left; [None] while it waits.  [last_active] is set to the time
    of the call first. *)
Fixpoint recv_loop (ping_config : option PingConfig) (last_active missed_pings : N)
    (events : list (N * WsEvent)) : option (Receive * N * list (N * WsEvent)) :=
  match events with
  | [] => None
  | (now, ev) :: events' =>
    match ev with
    | EvEnd => Some (RcvConnectionClosed, missed_pings, events')
    | EvData d => Some (RcvOk d, missed_pings, events')
    | EvPong => recv_loop ping_config now missed_pings events'
    | EvError e => Some (RcvErr e, missed_pings, events')
    | EvTick =>
      match ping_config with
      | Some p =>
        if decide (pc_inactive_limit p < now - last_active)%N then
          let missed_pings := (missed_pings + 1)%N in
          if decide (pc_max_failures p <= missed_pings)%N
          then Some (RcvConnectionClosed, missed_pings, events')
          else recv_loop ping_config last_active missed_pings events'
        else recv_loop ping_config last_active missed_pings events'
      | None => recv_loop ping_config last_active missed_pings events'
      end
    | EvStop => Some (RcvStopped, missed_pings, events')
    end
  end.
Definition try_recv (ping_config : option PingConfig) (now missed_pings : N) (events : list (N * WsEvent)) :=
  recv_loop ping_config now missed_pings events.

(** One turn of the loop of [background_task] on what was received. *)
Inductive Shutdown : Type := ShStopped | ShConnectionClosed.
Inductive LoopNext : Type :=
| LnBreak (r : Result SokettoError Shutdown)
| LnContinue
| LnSpawn (data : string).
(** [None]: the answer to a message that is too large waits for room. *)
Definition loop_step (max_request_body_size : N) (sink : MethodSink) (rcv : Receive) (w : SrvWorld)
    : Result Panicked (option (LoopNext * SrvWorld)) :=
  match rcv with
  | RcvConnectionClosed => Ok (Some (LnBreak (Ok ShConnectionClosed), w))
  | RcvStopped => Ok (Some (LnBreak (Ok ShStopped), w))
  | RcvOk data => Ok (Some (LnSpawn data, w))
  | RcvErr SkClosed => Ok (Some (LnBreak (Ok ShConnectionClosed), w))
  | RcvErr (SkMessageTooLarge _ _) =>
    match sink_send_error sink IdNull (reject_too_big_request max_request_body_size) w with
    | Err e => Err e
    | Ok None => Ok None
    | Ok (Some (Ok _, w')) => Ok (Some (LnContinue, w'))
    | Ok (Some (Err _, w')) => Ok (Some (LnBreak (Ok ShConnectionClosed), w'))
    end
  | RcvErr err => Ok (Some (LnBreak (Err err), w))
  end.

(** ** The task of a message *)
Inductive MsgTask : Type :=
| MtReturn
| MtSendError (json : string)
| MtSend (json : string) (on_close : option nat) (is_success : bool).

Definition decrypted (message_encryption : option MessageEncryption) (policy : MessageCryptoErrorPolicy)
    (data : string) : Result (option ErrorObject) string :=
  match message_encryption with
  | Some enc =>
    if utf8_valid data then
      match decrypt enc data with
      | Ok text => Ok text
      | Err _ =>
        match policy with
        | SendError =>
          Err (Some (ErrorObject.owned DECRYPTION_ERROR_CODE DECRYPTION_ERROR_MSG None))
        | CloseConnection => Err None
        | SkipMessage => Err None
        end
      end
    else Err (Some (ErrorObject.from ParseError))
  | None => Ok data
  end.
Definition send_error_task (err : ErrorObject) : Result Panicked MsgTask :=
  MtSendError <$> error_json IdNull err.
Definition handle_message {S : Type} {svc : RpcServiceT S} (message_encryption : option MessageEncryption)
    (policy : MessageCryptoErrorPolicy) (batch_config : BatchRequestConfig) (extensions : Extensions)
    (data : string) : SM S Stop MsgTask :=
  match decrypted message_encryption policy data with
  | Err None => mret MtReturn
  | Err (Some err) => http_panics (send_error_task err)
  | Ok decrypted_data =>
    match json_start decrypted_data with
    | None => http_panics (send_error_task (ErrorObject.from ParseError))
    | Some (idx, is_single) =>
      rp ← handle_rpc_call (drop_str idx decrypted_data) is_single batch_config extensions;
      if MethodResponse.is_method_call rp || MethodResponse.is_batch rp then
        let is_success := MethodResponse.is_success rp in
        let '(json, on_close, _) := MethodResponse.into_parts rp in
        mret (MtSend json on_close is_success)
      else mret MtReturn
    end
  end.

(** The end of the task: [None] while the channel is full; otherwise the
    notification about the response. *)
Definition msg_task_poll (sink : MethodSink) (t : MsgTask) (w : SrvWorld)
    : option (option (nat * NotifyMsg) * SrvWorld) :=
  match t with
  | MtReturn => Some (None, w)
  | MtSendError json => (λ '(_, w'), (None, w')) <$> sink_send sink json w
  | MtSend json on_close is_success =>
    match sink_send sink json w with
    | None => None
    | Some (Err _, w') => Some (None, w')
    | Some (Ok _, w') => Some ((λ n, (n, notify is_success)) <$> on_close, w')
    end
  end.

(** [graceful_shutdown] waits, after a stop, until one of these is true; then it
    stops the task that sends. *)
Definition shutdown_ready (result : Result SokettoError Shutdown)
    (pending_calls_done disconnected send_task_gone : bool) : bool :=
  match result with
  | Ok ShStopped => pending_calls_done || disconnected || send_task_gone
  | _ => true
  end.
End Ws.

(** ** [ConnectionManager]

    The iteration order of the hash map is that of [map_to_list].  A [send] that
    waits for room makes the operation wait: [None]. *)
Inductive NotificationError : Type :=
| NeConnectionNotFound (conn_id : ConnectionId)
| NeConnectionClosed
| NeSerializationError.

Module ConnectionManager.
Section Ops.
Context {J : SerdeJson} {X : HttpExtensions}.
Notation Connections := (gmap ConnectionId MethodSink).

Definition notification (method : string) (params : Ser) : Ser :=
  SerMap [("jsonrpc", SerStr "2.0"); ("method", SerStr method); ("params", params)].
Definition new : Connections := ∅.
Definition register_connection (conn_id : ConnectionId) (sink : MethodSink) (cs : Connections) : Connections :=
  <[conn_id := sink]> cs.
Definition unregister_connection (conn_id : ConnectionId) (cs : Connections) : Connections := delete conn_id cs.

(** [sink.send(json)] with its error mapped. *)
Definition send_closed (sink : MethodSink) (json : string) (w : SrvWorld)
    : option (Result NotificationError unit * SrvWorld) :=
  (λ '(r, w'), (map_err (λ _, NeConnectionClosed) r, w')) <$> sink_send sink json w.
Definition send_notification (conn_id : ConnectionId) (n : Ser) (cs : Connections) (w : SrvWorld)
    : option (Result NotificationError unit * SrvWorld) :=
  match cs !! conn_id with
  | Some sink =>
    match json_write n with
    | None => Some (Err NeSerializationError, w)
    | Some json => send_closed sink json w
    end
  | None => Some (Err (NeConnectionNotFound conn_id), w)
  end.
Fixpoint send_each (conn_ids : list ConnectionId) (json : string) (cs : Connections) (w : SrvWorld)
    : option (list (Result NotificationError unit) * SrvWorld) :=
  match conn_ids with
  | [] => Some ([], w)
  | conn_id :: ids =>
    '(r, w1) ← match cs !! conn_id with
               | Some sink => send_closed sink json w
               | None => Some (Err (NeConnectionNotFound conn_id), w)
               end;
    '(rs, w2) ← send_each ids json cs w1;
    Some (r :: rs, w2)
  end.
Definition send_to_connections (conn_ids : list ConnectionId) (n : Ser) (cs : Connections) (w : SrvWorld)
    : option (Result NotificationError (list (Result NotificationError unit)) * SrvWorld) :=
  match json_write n with
  | None => Some (Err NeSerializationError, w)
  | Some json => (λ '(rs, w'), (Ok rs, w')) <$> send_each conn_ids json cs w
  end.
(** The loop of a broadcast: how many were sent, which connections failed. *)
Fixpoint broadcast_loop (conns : list (ConnectionId * MethodSink)) (json : string)
    (filter : ConnectionId → bool) (sent_count : N) (failed_connections : list ConnectionId) (w : SrvWorld)
    : option (N * list ConnectionId * SrvWorld) :=
  match conns with
  | [] => Some (sent_count, failed_connections, w)
  | (conn_id, sink) :: conns' =>
    if filter conn_id then
      '(r, w') ← sink_send sink json w;
      match r with
      | Ok _ => broadcast_loop conns' json filter (sent_count + 1) failed_connections w'
      | Err _ => broadcast_loop conns' json filter sent_count (failed_connections ++ [conn_id]) w'
      end
    else broadcast_loop conns' json filter sent_count failed_connections w
  end.
(** [broadcast_filtered]: the count, and the connections a new task unregisters. *)
Definition broadcast_filtered (n : Ser) (filter : ConnectionId → bool) (cs : Connections) (w : SrvWorld)
    : option (Result NotificationError (N * list ConnectionId) * SrvWorld) :=
  match json_write n with
  | None => Some (Err NeSerializationError, w)
  | Some json =>
    (λ '(sent, failed, w'), (Ok (sent, failed), w')) <$> broadcast_loop (map_to_list cs) json filter 0 [] w
  end.
Definition broadcast_notification (n : Ser) (cs : Connections) (w : SrvWorld) :=
  broadcast_filtered n (λ _, true) cs w.
Definition cleanup (failed : list ConnectionId) (cs : Connections) : Connections :=
  foldl (λ cs id, unregister_connection id cs) cs failed.
Definition get_stats (cs : Connections) : N * list ConnectionId :=
  (N.of_nat (size cs), (map_to_list cs).*1).
Definition connection_count (cs : Connections) : N := N.of_nat (size cs).
Definition is_connection_active (conn_id : ConnectionId) (cs : Connections) : bool :=
  bool_decide (is_Some (cs !! conn_id)).
(** [connect], and the upgrade in [TowerServiceNoHttp]: the connection is
    registered before the upgrade, and taken out when its task ends. *)
Definition connect (conn_id : ConnectionId) (sink : MethodSink) (upgraded : bool)
    (background_task : Connections → Connections) (cs : Connections) : Connections :=
  let cs := register_connection conn_id sink cs in
  if upgraded then unregister_connection conn_id (background_task cs) else cs.
End Ops.
End ConnectionManager.

(** ** Messages *)
Section WsProps.
Context {J : SerdeJson} {X : HttpExtensions}.

(** What the encryption promises. *)
Definition encryption_law (enc : MessageEncryption) : Prop :=
  ∀ plain cipher, encrypt enc plain = Ok cipher → decrypt enc cipher = Ok plain.

(** A call over an encrypted connection is answered, once: the encrypted text
    of the client's request runs the method, the answer is put at the end of the
    channel of the connection, and what the socket gets for it is decrypted by the
    client to the response with its identifier and the result of the method. *)
Theorem encrypted_call_answered {U R T} `{IntoResponse R} rest (ser : T → Ser) (de : string → option T)
    (enc : MessageEncryption) (policy : MessageCryptoErrorPolicy) (s : RpcService U) (config : BatchRequestConfig)
    (q : Request) (callback : UserFn U R) (ext : Extensions) (sink : MethodSink) (socket : string → Result SokettoError unit)
    (data reply : string) (w w' : W U) (r : R) (p : ResponsePayload T) :
  let text := text_of (request_serialize q) in
  let rp := response_serialize ser (response_new p (rq_id q)) in
  let respond := RpcModule.respond callback in
  encryption_law enc → encrypt enc text = Ok data → utf8_valid data = true →
  entry_ok (BeCall q) → opens true text →
  Methods.method (rq_method q) (rs_methods s) = Some (McSync (λ id ps max x, respond id ps max x)) ∨
    Methods.method (rq_method q) (rs_methods s) = Some (McAsync (λ id ps _ max x, respond id ps max x)) →
  callback (params_new (rq_params q)) ext w = (Ok r, w') → mp_inner (into_response r) = payload_map ser p →
  faithful rp → events_text (json_events rp) = (text_of rp, true) →
  (slen (text_of rp) <= rs_max_response_body_size s)%N → payload_ok ser de p →
  sink_is_closed sink (fst w') = false → 0 < sink_capacity sink (fst w') →
  encrypt enc (text_of rp) = Ok reply →
  ∃ task notif, handle_message (svc := rpc_service rest s) (Some enc) policy config ext data w = (Ok task, w') ∧
    msg_task_poll sink task (fst w') = Some (notif, enqueue sink (text_of rp) (fst w')) ∧
    fst (send_message socket (text_of rp) (Some enc) policy) = [reply] ∧
    decrypt enc reply = Ok (text_of rp) ∧
    response_deserialize de (text_of rp) = Some (response_new p (rq_id q)).
Proof.
  intros text rp respond HL Hd Hu Hq [t Ht] Hreg Hcb Hp F He Hl Hok Hop Hcap Hrep.
  destruct (service_call_registered rest ser de s
    (MkRequest (rq_jsonrpc q) (rq_id q) (rq_method q) (rq_params q) ext) callback w w' r p)
    as (m & Hm & Hj & Hk & Hdec); [done..|apply Hq|].
  exists (MtSend (mr_json m) (mr_on_close m) (MethodResponse.is_success m)).
  exists ((λ n, (n, notify (MethodResponse.is_success m))) <$> mr_on_close m).
  split; [|split; [|split; [|split]]].
  - unfold handle_message, decrypted. rewrite Hu, (HL _ _ Hd).
    assert (json_start text = Some (0, true)) as -> by (by rewrite Ht).
    change (drop_str 0 text) with text.
    rewrite (bind_step _ _ _ m w'); [|unfold text; by rewrite handle_request].
    unfold MethodResponse.is_method_call. rewrite Hk. done.
  - cbn. rewrite Hj. fold rp. unfold sink_send, sink_try_send. rewrite Hop. by rewrite decide_True.
  - unfold send_message. by rewrite Hrep.
  - by apply HL.
  - by rewrite Hj in Hdec.
Qed.

(** C36: on an encrypted connection the plain text of an answer never reaches the
    socket: what is handed to it is an encrypted text or the fixed error about the
    encryption.  A message that cannot be decrypted never reaches the service;
    whether it is answered is the policy's choice. *)
Theorem encryption_failures {S : Type} {svc : RpcServiceT S} (enc : MessageEncryption)
    (policy : MessageCryptoErrorPolicy) (config : BatchRequestConfig) (ext : Extensions) (data response : string)
    (socket : string → Result SokettoError unit) (s : S) :
  errors_write IdNull →
  Forall (λ t, encrypt enc response = Ok t ∨
    error_json IdNull (ErrorObject.owned ENCRYPTION_ERROR_CODE ENCRYPTION_ERROR_MSG None) = Ok t)
    (fst (send_message socket response (Some enc) policy)) ∧
  (∀ e, encrypt enc response = Err e → policy ≠ SendError →
     send_message socket response (Some enc) policy = ([], Err SkClosed)) ∧
  (utf8_valid data = false ∨ (∃ e, decrypt enc data = Err e) →
   ∃ task, handle_message (Some enc) policy config ext data s = (Ok task, s) ∧
     if utf8_valid data then
       match policy with
       | SendError => send_error_task (ErrorObject.owned DECRYPTION_ERROR_CODE DECRYPTION_ERROR_MSG None) = Ok task
       | _ => task = MtReturn
       end
     else send_error_task (ErrorObject.from ParseError) = Ok task).
Proof.
  intros He. split; [|split].
  - unfold send_message. destruct (encrypt enc response) as [c|e]; [by constructor; [left|]|].
    destruct policy; [|constructor..]. destruct (error_json _ _) as [t|]; [|constructor].
    constructor; [by right|constructor].
  - intros e Hc Hp. unfold send_message. rewrite Hc. by destruct policy.
  - assert (∀ err, ∃ task, @http_panics S _ (send_error_task err) s = (Ok task, s) ∧ send_error_task err = Ok task) as Herr.
    { intros err. destruct (He err) as [t Ht]. unfold http_panics, sm_catch, sm_result, send_error_task.
      rewrite Ht. by eexists. }
    intros Hd. unfold handle_message, decrypted. destruct (utf8_valid data); [|apply Herr].
    destruct Hd as [|[e Hd]]; [done|]. rewrite Hd. destruct policy; [apply Herr|by eexists..].
Qed.
End WsProps.

(** ** Inactivity *)
Section Inactivity.
Context (p : PingConfig).

Definition late (last_active : N) (ev : N * WsEvent) : bool :=
  match ev with (now, EvTick) => bool_decide (pc_inactive_limit p < now - last_active)%N | _ => false end.
Definition is_tick (ev : N * WsEvent) : Prop := match ev.2 with EvTick => True | _ => False end.
(** Every tick comes within the limit after the last sign of life. *)
Fixpoint responsive (last_active : N) (events : list (N * WsEvent)) : Prop :=
  match events with
  | [] => True
  | (now, EvTick) :: evs => (now - last_active <= pc_inactive_limit p)%N ∧ responsive last_active evs
  | (now, EvPong) :: evs => responsive now evs
  | _ :: evs => False
  end.

Lemma recv_loop_ticks last missed evs : Forall is_tick evs → (missed < pc_max_failures p)%N →
  let n := N.of_nat (length (filter (λ e, late last e = true) evs)) in
  if decide (pc_max_failures p <= missed + n)%N
  then ∃ rest, recv_loop (Some p) last missed evs = Some (RcvConnectionClosed, pc_max_failures p, rest)
  else recv_loop (Some p) last missed evs = None.
Proof.
  intros Hf. revert missed. induction Hf as [|[now ev] evs Ht _ IH]; intros missed Hm; cbn zeta.
  { cbn. rewrite decide_False by lia. done. }
  destruct ev; try done. cbn [recv_loop]. rewrite filter_cons.
  assert (late last (now, EvTick) = bool_decide (pc_inactive_limit p < now - last)%N) as E by done.
  destruct (decide (pc_inactive_limit p < now - last)%N) as [Hl|Hl].
  - rewrite (decide_True (P := late _ _ = true)) by (rewrite E; by apply bool_decide_eq_true). cbn [length].
    destruct (decide (pc_max_failures p <= missed + 1)%N).
    + rewrite decide_True by lia. exists evs. do 2 f_equal. f_equal. lia.
    + specialize (IH (missed + 1)%N ltac:(lia)). cbn zeta in IH. repeat case_decide; try done; lia.
  - rewrite (decide_False (P := late _ _ = true)) by (rewrite E; by rewrite bool_decide_eq_true).
    by apply IH.
Qed.

(** C35: a peer that stays silent is disconnected: when nothing but ticks of the
    inactivity check arrive, the connection is closed exactly when the ticks that
    came later than the limit, with those missed before, reach the allowed number.
    A peer that answers in time is never disconnected, and loses none of the
    failures it is allowed. *)
Theorem silent_peer_disconnected (now missed : N) (evs : list (N * WsEvent)) :
  (missed < pc_max_failures p)%N →
  (Forall is_tick evs →
     ((∃ m rest, try_recv (Some p) now missed evs = Some (RcvConnectionClosed, m, rest)) ↔
      (pc_max_failures p <= missed + N.of_nat (length (filter (λ e, late now e = true) evs)))%N)) ∧
  (responsive now evs → ∀ d t rest,
     try_recv (Some p) now missed evs = None ∧
     try_recv (Some p) now missed (evs ++ (t, EvData d) :: rest) = Some (RcvOk d, missed, rest)).
Proof.
  intros Hm. split.
  - intros Ht. pose proof (recv_loop_ticks now missed evs Ht Hm) as H. cbn zeta in H. unfold try_recv.
    case_decide as Hd.
    + destruct H as [rest H]. split; [done|]. intros _. by eexists _, _.
    + rewrite H. split; [by intros (? & ? & ?)|done].
  - intros Hr d t rest. unfold try_recv. clear Hm. revert now Hr.
    induction evs as [|[t' ev] evs IH]; intros now Hr; [done|]. destruct ev; try done; cbn in *.
    + by apply IH.
    + destruct Hr as [Hl Hr]. rewrite !decide_False by lia. by apply IH.
Qed.
End Inactivity.

(** ** Broadcasts *)
Section Broadcast.
Context {J : SerdeJson} {X : HttpExtensions}.

(** Each connection has its own channel, which is closed or has room. *)
Definition ready (conns : list (ConnectionId * MethodSink)) (w : SrvWorld) : Prop :=
  NoDup ((λ c, ms_tx c.2) <$> conns) ∧
  Forall (λ c, sink_is_closed c.2 w = true ∨ 0 < sink_capacity c.2 w) conns.
Definition open (w : SrvWorld) (c : ConnectionId * MethodSink) : Prop := sink_is_closed c.2 w = false.
#[local] Instance open_dec w c : Decision (open w c).
Proof. unfold open. apply _. Defined.

Lemma get_chan_enqueue s json w h :
  get_chan h (enqueue s json w) =
  if decide (h = ms_tx s) then
    MkConnChan (cc_cap (get_chan h w)) (cc_queue (get_chan h w) ++ [json]) (cc_closed (get_chan h w))
  else get_chan h w.
Proof.
  unfold enqueue, get_chan; cbn. case_decide; subst; [by rewrite lookup_insert_eq|by rewrite lookup_insert_ne].
Qed.
Lemma ready_enqueue conns id sink json w : ready ((id, sink) :: conns) w → ready conns (enqueue sink json w) ∧
  Forall (λ c, open (enqueue sink json w) c ↔ open w c) conns.
Proof.
  intros [[Hn Hnd]%NoDup_cons [_ Hf]%Forall_cons].
  assert (∀ c, c ∈ conns → ms_tx c.2 ≠ ms_tx sink) as Hne.
  { intros c Hc E. apply Hn. apply list_elem_of_fmap. by exists c. }
  rewrite Forall_forall in Hf. split; [split; [done|]|]; apply Forall_forall; intros c Hc;
    specialize (Hne c Hc); specialize (Hf c Hc);
    unfold open, sink_is_closed, sink_capacity in *; rewrite !get_chan_enqueue, decide_False by done; done.
Qed.

Lemma broadcast_loop_spec json conns n failed w : ready conns w → ∃ w',
  ConnectionManager.broadcast_loop conns json (λ _, true) n failed w =
    Some (n + N.of_nat (length (filter (open w) conns)),
          failed ++ (filter (λ c, ¬ open w c) conns).*1, w')%N ∧
  ∀ h, get_chan h w' =
    if decide (h ∈ (λ c, ms_tx c.2) <$> filter (open w) conns) then
      MkConnChan (cc_cap (get_chan h w)) (cc_queue (get_chan h w) ++ [json]) (cc_closed (get_chan h w))
    else get_chan h w.
Proof.
  revert n failed w. induction conns as [|[id sink] conns IH]; intros n failed w Hr.
  { exists w. cbn. rewrite N.add_0_r, app_nil_r. split; [done|]. intros h. by rewrite decide_False by set_solver. }
  cbn [ConnectionManager.broadcast_loop]. pose proof Hr as [Hnd [Hc Hf]%Forall_cons]. cbn in Hc.
  unfold sink_send, sink_try_send. rewrite !filter_cons.
  destruct (sink_is_closed sink w) eqn:Ec.
  - rewrite (decide_False (P := open w (id, sink))) by (unfold open; cbn; congruence).
    rewrite (decide_True (P := ¬ open w (id, sink))) by (unfold open; cbn; congruence).
    cbn [mbind option_bind]. destruct (IH n (failed ++ [id]) w) as (w' & -> & Hw).
    { split; [by apply NoDup_cons in Hnd as [_ ?]|done]. }
    exists w'. rewrite <-app_assoc. split; [done|]. exact Hw.
  - destruct Hc as [|Hc]; [done|]. rewrite (decide_True (P := 0 < _)) by done.
    rewrite (decide_True (P := open w (id, sink))) by done.
    rewrite (decide_False (P := ¬ open w (id, sink))) by (unfold open; cbn; congruence).
    cbn [mbind option_bind]. destruct (ready_enqueue conns id sink json w Hr) as [Hr' Hopen].
    destruct (IH (n + 1)%N failed (enqueue sink json w) Hr') as (w' & -> & Hw).
    assert (filter (open (enqueue sink json w)) conns = filter (open w) conns) as Ef.
    { clear -Hopen. induction Hopen as [|c l Hc _ IHl]; [done|]. rewrite !filter_cons, IHl.
      repeat case_decide; naive_solver. }
    assert (filter (λ c, ¬ open (enqueue sink json w) c) conns = filter (λ c, ¬ open w c) conns) as Eg.
    { clear -Hopen. induction Hopen as [|c l Hc _ IHl]; [done|]. rewrite !filter_cons, IHl.
      repeat case_decide; naive_solver. }
    rewrite Ef in Hw |- *. rewrite Eg. exists w'. split; [do 3 f_equal; cbn [length]; lia|].
    intros h. rewrite Hw. rewrite !get_chan_enqueue. cbn [fmap list_fmap].
    assert (ms_tx sink ∉ (λ c, ms_tx c.2) <$> filter (open w) conns) as Hni.
    { intros (c & E & [_ Hin]%list_elem_of_filter)%list_elem_of_fmap. apply NoDup_cons in Hnd as [Hnd _].
      apply Hnd. apply list_elem_of_fmap. by exists c. }
    destruct (decide (h = ms_tx sink)) as [->|Hne].
    + rewrite (decide_False (P := _ ∈ _)) by done. rewrite decide_True by (by left). done.
    + repeat case_decide; set_solver.
Qed.

Lemma cleanup_lookup failed (cs : gmap ConnectionId MethodSink) id :
  ConnectionManager.cleanup failed cs !! id = if decide (id ∈ failed) then None else cs !! id.
Proof.
  revert cs. induction failed as [|x failed IH]; intros cs; cbn.
  { by rewrite decide_False by set_solver. }
  unfold ConnectionManager.cleanup in IH. rewrite IH. unfold ConnectionManager.unregister_connection.
  destruct (decide (x = id)) as [->|Hne].
  - rewrite lookup_delete_eq. rewrite (decide_True (P := id ∈ id :: _)) by (by left). by case_decide.
  - rewrite lookup_delete_ne by done. repeat case_decide; set_solver.
Qed.

(** A broadcast puts the notification exactly once at the end of the channel
    of every open connection, touches no other channel, and returns how many there
    were; the connections that were closed are exactly those the cleanup takes out
    of the manager. *)
Theorem broadcast_reaches_all (cs : gmap ConnectionId MethodSink) (n : Ser) (json : string) (w : SrvWorld) :
  json_write n = Some json → ready (map_to_list cs) w →
  ∃ sent failed w', ConnectionManager.broadcast_notification n cs w = Some (Ok (sent, failed), w') ∧
    sent = N.of_nat (length (filter (open w) (map_to_list cs))) ∧
    (∀ id sink, cs !! id = Some sink →
       get_chan (ms_tx sink) w' =
         if decide (open w (id, sink)) then
           let c := get_chan (ms_tx sink) w in MkConnChan (cc_cap c) (cc_queue c ++ [json]) (cc_closed c)
         else get_chan (ms_tx sink) w) ∧
    (∀ h, (∀ id sink, cs !! id = Some sink → ms_tx sink ≠ h) → get_chan h w' = get_chan h w) ∧
    (∀ id sink, ConnectionManager.cleanup failed cs !! id = Some sink ↔ cs !! id = Some sink ∧ open w (id, sink)).
Proof.
  intros Hj Hr. destruct (broadcast_loop_spec json (map_to_list cs) 0 [] w Hr) as (w' & E & Hw).
  unfold ConnectionManager.broadcast_notification, ConnectionManager.broadcast_filtered. rewrite Hj, E. cbn.
  eexists _, _, w'. split; [done|]. split; [lia|]. split; [|split].
  - intros id sink Hl. rewrite Hw.
    assert (ms_tx sink ∈ (λ c, ms_tx c.2) <$> filter (open w) (map_to_list cs) ↔ open w (id, sink)) as Hiff.
    { rewrite list_elem_of_fmap. split.
      - intros ([id' s'] & E' & [Ho Hin]%list_elem_of_filter). cbn in E'. unfold open in *; cbn in *.
        unfold sink_is_closed in *. by rewrite E'.
      - intros Ho. exists (id, sink). split; [done|]. apply list_elem_of_filter. split; [done|].
        by apply elem_of_map_to_list. }
    repeat case_decide; naive_solver.
  - intros h Hh. rewrite Hw. rewrite decide_False; [done|].
    intros ([id sink] & -> & [_ Hin%elem_of_map_to_list]%list_elem_of_filter)%list_elem_of_fmap.
    by eapply Hh.
  - intros id sink. rewrite cleanup_lookup.
    assert (∀ s, cs !! id = Some s → (id ∈ (filter (λ c, ¬ open w c) (map_to_list cs)).*1 ↔ ¬ open w (id, s))) as Hin.
    { intros s Hs. rewrite list_elem_of_fmap. split.
      - intros ([id' s'] & -> & [Ho Hin%elem_of_map_to_list]%list_elem_of_filter). cbn in *.
        rewrite Hs in Hin. by injection Hin as <-.
      - intros Ho. exists (id, s). split; [done|]. apply list_elem_of_filter. split; [done|].
        by apply elem_of_map_to_list. }
    split.
    + case_decide as Hd; [done|]. intros Hl. split; [done|]. destruct (decide (open w (id, sink))); [done|].
      by destruct Hd; apply Hin in Hl; apply Hl.
    + intros [Hl Ho]. rewrite decide_False; [done|]. rewrite (Hin _ Hl). by intros [].
Qed.
End Broadcast.

(** ** Witnesses *)
Section WsWitnesses.
#[local] Existing Instance ref_json.
#[local] Existing Instance ref_ext.

(** A marked text: what is not marked cannot be decrypted, what is empty cannot be
    encrypted. *)
Definition ex_enc : MessageEncryption :=
  MkMessageEncryption (λ t, if decide (t = "") then Err "empty" else Ok (String "#" t))
    (λ t, match t with String "#" t' => Ok t' | _ => Err "no mark" end).
Definition ex_socket : string → Result SokettoError unit := λ _, Ok ().
Definition ex_text : string := q "{'jsonrpc':'2.0','id':1,'method':'inc','params':[41]}".
Definition ex_reply : string := q "{'jsonrpc':'2.0','id':1,'result':42}".

Lemma encrypted_call_answered_witness :
  ∃ task notif,
    handle_message (svc := rpc_service ex_rest ex_service) (Some ex_enc) SendError BrcUnlimited []
      (String "#" ex_text) (ex_world, ()) = (Ok task, (ex_world, ())) ∧
    msg_task_poll (method_sink_new 0) task ex_world = Some (notif, enqueue (method_sink_new 0) ex_reply ex_world).
Proof.
  destruct (encrypted_call_answered ex_rest SerInt de_i32 ex_enc SendError ex_service BrcUnlimited
    (ex_request 1 "inc" "[41]") ex_inc [] (method_sink_new 0) ex_socket (String "#" ex_text) (String "#" ex_reply)
    (ex_world, ()) (ex_world, ()) (Ok (SerInt 42)) (Success 42%Z)) as (task & notif & E1 & E2 & _).
  - intros p c. unfold ex_enc; cbn. case_decide; [done|]. by intros [= <-].
  - vm_compute. reflexivity.
  - vm_compute. reflexivity.
  - split; [vm_compute; repeat (split; eauto)|]. split; [vm_compute; discriminate|].
    intros p [= <-]. vm_compute. discriminate.
  - vm_compute. eauto.
  - left. reflexivity.
  - vm_compute. reflexivity.
  - reflexivity.
  - vm_compute. repeat (split; eauto).
  - vm_compute. reflexivity.
  - vm_compute. discriminate.
  - vm_compute. reflexivity.
  - vm_compute. reflexivity.
  - vm_compute. lia.
  - vm_compute. reflexivity.
  - exists task, notif. split; [exact E1|exact E2].
Defined.

Lemma encryption_failures_witness :
  ∃ task, handle_message (svc := rpc_service ex_rest ex_service) (Some ex_enc) CloseConnection BrcUnlimited []
      "plain" (ex_world, ()) = (Ok task, (ex_world, ())) ∧ task = MtReturn.
Proof.
  destruct (encryption_failures (svc := rpc_service ex_rest ex_service) ex_enc CloseConnection BrcUnlimited []
    "plain" ex_reply ex_socket (ex_world, ()) (ref_errors_write _)) as (_ & _ & H).
  destruct H as (task & E & Ht); [right; eexists; reflexivity|]. exists task. split; [exact E|exact Ht].
Defined.

Definition ex_ping : PingConfig := MkPingConfig 30 40 2.
Lemma silent_peer_disconnected_witness :
  ∃ m rest, try_recv (Some ex_ping) 0 0 [(40, EvTick); (80, EvTick); (120, EvTick); (160, EvTick)]%N =
    Some (RcvConnectionClosed, m, rest).
Proof.
  destruct (silent_peer_disconnected ex_ping 0 0 [(40, EvTick); (80, EvTick); (120, EvTick); (160, EvTick)]%N
    ltac:(vm_compute; reflexivity)) as [H _].
  apply H; [repeat constructor|vm_compute; discriminate].
Defined.

Definition ex_conns : gmap ConnectionId MethodSink := {[7%N := method_sink_new 0]}.
Lemma broadcast_reaches_all_witness :
  ∃ failed w', ConnectionManager.broadcast_notification
    (ConnectionManager.notification "tick" (SerInt 1)) ex_conns ex_world = Some (Ok (1%N, failed), w').
Proof.
  destruct (broadcast_reaches_all ex_conns (ConnectionManager.notification "tick" (SerInt 1))
    (q "{'jsonrpc':'2.0','method':'tick','params':1}") ex_world) as (sent & failed & w' & E & Hs & _).
  - vm_compute. reflexivity.
  - assert (ready [(7%N, method_sink_new 0)] ex_world) as H
      by (split; [apply NoDup_singleton|constructor; [right; vm_compute; lia|constructor]]).
    exact H.
  - exists failed, w'. rewrite E, Hs. reflexivity.
Defined.

(** A connection whose upgrade fails stays registered. *)
Example failed_upgrade_stays_registered :
  ConnectionManager.is_connection_active 7%N
    (ConnectionManager.connect 7%N (method_sink_new 0) false id ConnectionManager.new) = true.
Proof. vm_compute. done. Qed.
End WsWitnesses.
