(* ===== verification/ServiceFrame.v ===== *)
(** What running a service does to the channels of the connections: a frame for the
    service of [server/src/middleware/rpc.rs], the entry of a message, a call over
    HTTP and the task of a message.

    Methods, subscriptions and the provider of identifiers are the user's code; what
    they have of a connection is a sink, with which a text can be put in its channel
    and nothing else.  When they keep to that, the service does. *)
From stdpp Require Import base gmap strings list.
From S2P Require Import Prelude Serde RefJson Errors Params Wire Middleware MethodResponse Subscription RpcModule RpcService Http WsServer.

(** ** Computations that keep a relation between the states before and after *)
Section Keeps.
Context {S : Type} (R : relation S) `{!PreOrder R}.
Definition sm_keeps {E A} (m : SM S E A) : Prop := ∀ s, R s (m s).2.

Lemma keeps_ret {E A} (a : A) : sm_keeps (mret a : SM S E A).
Proof. intros s. reflexivity. Qed.
Lemma keeps_result {E A} (r : Result E A) : sm_keeps (sm_result r).
Proof. intros s. reflexivity. Qed.
Lemma keeps_bind {E A B} (m : SM S E A) (f : A → SM S E B) :
  sm_keeps m → (∀ a, sm_keeps (f a)) → sm_keeps (m ≫= f).
Proof.
  intros Hm Hf s. unfold mbind, SM_bind. specialize (Hm s). destruct (m s) as [[a|e] s1]; [|done].
  cbn in Hm. etrans; [exact Hm|apply Hf].
Qed.
Lemma keeps_catch {E F A} (m : SM S E A) (f : E → F) : sm_keeps m → sm_keeps (sm_catch m f).
Proof. intros Hm s. unfold sm_catch. specialize (Hm s). by destruct (m s) as [[a|e] s1]. Qed.
End Keeps.
Create HintDb keeps discriminated.
#[export] Hint Resolve keeps_ret keeps_result keeps_bind keeps_catch : keeps.
#[export] Hint Extern 1 (PreOrder _) => typeclasses eauto : keeps.
#[export] Hint Unfold panics result_panics error_ext http_panics : keeps.
#[export] Hint Extern 2 (sm_keeps _ (match ?x with _ => _ end)) => destruct x : keeps.
#[export] Hint Extern 2 (sm_keeps _ (let '(_, _) := ?x in _)) => destruct x : keeps.

(** ** The interface: a service that keeps it, and what is built on one *)
Class ServiceKeeps {J : SerdeJson} {X : HttpExtensions} {S : Type} (R : relation S) (svc : RpcServiceT S) : Prop := {
  call_keeps req : sm_keeps R (svc_call req);
  batch_keeps b : sm_keeps R (svc_batch b);
  notification_keeps n : sm_keeps R (svc_notification n)
}.
#[export] Hint Resolve call_keeps batch_keeps notification_keeps : keeps.

Section Entry.
Context {J : SerdeJson} {X : HttpExtensions} {L : HttpLibs} {S : Type} {svc : RpcServiceT S}.
Context (R : relation S) `{!PreOrder R} `{!ServiceKeeps R svc}.

Lemma handle_rpc_call_keeps body is_single batch_config extensions :
  sm_keeps R (handle_rpc_call body is_single batch_config extensions).
Proof.
  unfold handle_rpc_call. destruct is_single.
  - destruct (call_from_slice body extensions); [auto with keeps|].
    destruct (notif_from_slice body extensions); [auto with keeps|]. destruct (prepare_error body); auto with keeps.
  - destruct batch_config; [auto with keeps|..]; (destruct (de_raw_vec body); [case_decide|]; auto with keeps).
Qed.
Lemma handle_message_keeps encryption policy batch_config extensions data :
  sm_keeps R (handle_message encryption policy batch_config extensions data).
Proof.
  unfold handle_message. destruct (decrypted encryption policy data) as [text|[err|]]; [|unfold http_panics; auto with keeps..].
  destruct (json_start text) as [[idx is_single]|]; [|unfold http_panics; auto with keeps].
  apply keeps_bind; [done|apply handle_rpc_call_keeps|]. intros rp. destruct (_ || _); [|auto with keeps].
  destruct (MethodResponse.into_parts rp) as [[json on_close] ext]. auto with keeps.
Qed.
Lemma call_with_service_keeps request batch_config max_request_size :
  sm_keeps R (call_with_service request batch_config max_request_size).
Proof.
  unfold call_with_service, http_panics. destruct (hq_method request); try (by auto with keeps).
  destruct (content_type_is_json request); [|auto with keeps].
  destruct (read_body _ _ _) as [[body is_single]|[]]; [|auto with keeps..].
  apply keeps_bind; [done|apply handle_rpc_call_keeps|auto with keeps].
Qed.
End Entry.

(** ** Channels that only grow *)
Section Growth.
Context {X : HttpExtensions}.
(** Texts are put at the end of a channel; it is neither read nor closed. *)
Definition chan_grows (c c' : ConnChan) : Prop :=
  cc_cap c' = cc_cap c ∧ cc_closed c' = cc_closed c ∧ cc_queue c `prefix_of` cc_queue c'.
(** So do all channels there are; there may be new ones. *)
Definition grows (w w' : SrvWorld) : Prop :=
  map_Forall (λ h c, match sw_chans w' !! h with Some c' => chan_grows c c' | None => False end) (sw_chans w).

#[export] Instance chan_grows_dec c c' : Decision (chan_grows c c').
Proof. unfold chan_grows. apply _. Defined.
#[export] Instance grows_dec w w' : Decision (grows w w').
Proof. unfold grows. apply map_Forall_dec. intros h c. destruct (sw_chans w' !! h); apply _. Defined.
#[export] Instance chan_grows_preorder : PreOrder chan_grows.
Proof.
  split; [by intros c|]. intros c1 c2 c3 (H1 & H2 & H3) (H4 & H5 & H6). split_and!; [congruence..|]. by etrans.
Qed.

Lemma grows_lookup w w' h c : grows w w' → sw_chans w !! h = Some c →
  ∃ c', sw_chans w' !! h = Some c' ∧ chan_grows c c'.
Proof. intros Hg Hc. specialize (Hg h c Hc). cbn in Hg. destruct (sw_chans w' !! h); [eauto|done]. Qed.
Lemma grows_intro w w' : (∀ h c, sw_chans w !! h = Some c → ∃ c', sw_chans w' !! h = Some c' ∧ chan_grows c c') → grows w w'.
Proof. intros H h c Hc. destruct (H h c Hc) as (c' & -> & Hg). exact Hg. Qed.
#[export] Instance grows_preorder : PreOrder grows.
Proof.
  split.
  - intros w. apply grows_intro. intros h c Hc. exists c. by split.
  - intros w1 w2 w3 H1 H2. apply grows_intro. intros h c Hc. destruct (grows_lookup _ _ _ _ H1 Hc) as (c1 & Hc1 & G1).
    destruct (grows_lookup _ _ _ _ H2 Hc1) as (c2 & Hc2 & G2). exists c2. split; [done|]. by etrans.
Qed.
(** The channels are one part of the world: what leaves them alone is no trouble. *)
Lemma grows_same w w' : sw_chans w' = sw_chans w → grows w w'.
Proof. intros E. apply grows_intro. intros h c Hc. rewrite E. exists c. by split. Qed.
Lemma grows_new h c w : sw_chans w !! h = None → grows w (set_chans (<[h := c]> (sw_chans w)) w).
Proof.
  intros Hn. apply grows_intro. intros h' c' Hc. cbn. rewrite lookup_insert_ne by congruence. exists c'. by split.
Qed.
Lemma grows_enqueue s msg w : grows w (enqueue s msg w).
Proof.
  apply grows_intro. intros h c Hc. unfold enqueue, get_chan; cbn. destruct (decide (h = ms_tx s)) as [->|Hn].
  - rewrite lookup_insert_eq, Hc. cbn. eexists. split; [done|]. split_and!; [done..|]. by apply prefix_app_r.
  - rewrite lookup_insert_ne by done. exists c. by split.
Qed.
(** Every operation of a sink is a send at most. *)
Lemma grows_try_send s msg w : grows w (snd (sink_try_send s msg w)).
Proof.
  unfold sink_try_send. destruct (sink_is_closed s w); [done|]. case_decide; [apply grows_enqueue|done].
Qed.
Lemma grows_send s msg w r w' : sink_send s msg w = Some (r, w') → grows w w'.
Proof.
  unfold sink_send. pose proof (grows_try_send s msg w) as H.
  destruct (sink_try_send s msg w) as [[|[]] w1]; intros [=]; by subst.
Qed.

(** *** The server's own operations *)
Lemma grows_acquire h w : grows w (acquire h w).2.
Proof. unfold acquire. destruct (sw_semaphores w !! h); [case_decide|]; by apply grows_same. Qed.
Lemma grows_new_answer w : grows w (RpcModule.new_answer w).2.
Proof. by apply grows_same. Qed.
Lemma grows_remove_subscriber tbl key w : grows w (remove_subscriber tbl key w).2.
Proof. unfold remove_subscriber. destruct (_ !! key) as [[]|]; by apply grows_same. Qed.
End Growth.

(** ** The service *)
Section Service.
Context {J : SerdeJson} {X : HttpExtensions} {U : Type}.
(** On the state of the process: the world and the user's state. *)
Definition grows_w (w w' : W U) : Prop := grows w.1 w'.1.
#[export] Instance grows_w_preorder : PreOrder grows_w.
Proof. split; [by intros w; unfold grows_w|]. intros w1 w2 w3. unfold grows_w. by etrans. Qed.

Definition callback_grows (cb : MethodCallback U) : Prop :=
  match cb with
  | McSync cb => ∀ id params max ext, sm_keeps grows_w (cb id params max ext)
  | McAsync cb | McUnsubscription cb => ∀ id params conn_id max ext, sm_keeps grows_w (cb id params conn_id max ext)
  | McSubscription cb => ∀ id params sink st ext, sm_keeps grows_w (cb id params sink st ext)
  end.
Definition methods_grow (m : Methods U) : Prop := map_Forall (λ _ cb, callback_grows cb) (m_callbacks m).
(** What the user's code promises to a server: methods, the rest of a subscription
    while its call waits, and the provider of identifiers only put texts in
    channels. *)
Class UserGrows (rest : SubscribeCall → W U → W U) (methods : Methods U)
    (next_id : SM (W U) Panicked SubscriptionId) : Prop := {
  rest_grows c w : grows_w w (rest c w);
  registered_grow : methods_grow methods;
  next_id_grows : sm_keeps grows_w next_id
}.
(** A service with this provider of identifiers, if it needs one. *)
Definition provided (next_id : SM (W U) Panicked SubscriptionId) (s : RpcService U) : Prop :=
  match rs_cfg s with OnlyCalls => True | CallsAndSubscriptions _ _ n => n = next_id end.
Lemma srv_keeps {A} (f : SrvWorld → A * SrvWorld) : (∀ w, grows w (f w).2) → sm_keeps grows_w (srv (U := U) f).
Proof. intros H [w u]. unfold srv, grows_w; cbn. specialize (H w). by destruct (f w). Qed.

Context (rest : SubscribeCall → W U → W U).
Lemma await_keeps c : (∀ c w, grows_w w (rest c w)) → sm_keeps grows_w (await rest c).
Proof. intros H w. unfold await. destruct (SubscribeCall.poll c (rest c w).1) as [[r ?]|]; apply H. Qed.
Lemma service_call_keeps next_id s req : UserGrows rest (rs_methods s) next_id → provided next_id s →
  sm_keeps grows_w (service_call rest s req).
Proof.
  intros [Hr Hm Hi] Hp. unfold service_call, Methods.method_with_name, error_ext, result_panics, panics.
  destruct (m_callbacks (rs_methods s) !! rq_method req) as [cb|] eqn:E; cbn; [|auto with keeps].
  specialize (Hm _ _ E). destruct cb as [cb|cb|cb|cb]; cbn in Hm; [auto with keeps..| |].
  - unfold provided in Hp. destruct (rs_cfg s) as [|sem sink n]; [auto with keeps|]. subst n.
    apply keeps_bind; [apply _|apply keeps_catch, srv_keeps, grows_acquire|]. intros [p|].
    + apply keeps_bind; [apply _|by apply keeps_catch|]. intros sub_id.
      apply keeps_bind; [apply _|by apply keeps_catch|]. intros c. by apply await_keeps.
    + intros w. exact (keeps_catch grows_w _ _ (keeps_result grows_w _) w).
  - destruct (rs_cfg s); auto with keeps.
Qed.
Lemma batch_loop_keeps call es b got : (∀ req, sm_keeps grows_w (call req)) →
  sm_keeps (E := Stop) grows_w (batch_loop call es b got).
Proof.
  intros Hc. revert b got. induction es as [|[[req|n]|e] es IH]; intros b got; cbn [batch_loop]; [auto with keeps|..].
  - apply keeps_bind; [apply _|done|]. intros rp. apply keeps_bind; [apply _|unfold result_panics, panics; auto with keeps|].
    intros [[] b']; auto with keeps.
  - apply keeps_bind; [apply _|unfold service_notification; auto with keeps|done].
  - apply keeps_bind; [apply _|unfold result_panics, panics; auto with keeps|]. intros [err id].
    apply keeps_bind; [apply _|unfold result_panics, panics; auto with keeps|]. intros rp.
    apply keeps_bind; [apply _|unfold result_panics, panics; auto with keeps|]. intros [[] b']; auto with keeps.
Qed.
Lemma service_batch_keeps next_id s batch : UserGrows rest (rs_methods s) next_id → provided next_id s →
  sm_keeps grows_w (service_batch rest s batch).
Proof.
  intros Hu Hp. unfold service_batch. apply keeps_bind; [apply _|by apply batch_loop_keeps; intros req; eapply service_call_keeps|].
  intros [err|[b got]]; [auto with keeps|]. destruct (_ && _); [auto with keeps|].
  apply keeps_bind; [apply _|unfold result_panics, panics; auto with keeps|auto with keeps].
Qed.
(** The service of the server promises what the methods promise. *)
Lemma rpc_service_keeps next_id s : UserGrows rest (rs_methods s) next_id → provided next_id s →
  ServiceKeeps grows_w (rpc_service rest s).
Proof.
  intros Hu Hp. split; intros; [by eapply service_call_keeps|by eapply service_batch_keeps|].
  cbn. unfold service_notification. auto with keeps.
Qed.
End Service.

(** ** Registered methods *)
Section Registered.
Context {J : SerdeJson} {X : HttpExtensions} {U : Type}.
(** A user's function that only puts texts in channels. *)
Definition user_fn_grows {A} (f : UserFn U A) : Prop := ∀ params ext, sm_keeps grows_w (f params ext).

Lemma respond_keeps {R} `{IntoResponse R} (f : UserFn U R) id params max ext :
  user_fn_grows f → sm_keeps grows_w (RpcModule.respond f id params max ext).
Proof. intros Hf. unfold RpcModule.respond. apply keeps_bind; [apply _|done|auto with keeps]. Qed.
Lemma plain_callbacks_grow {R} `{IntoResponse R} (f : UserFn U R) : user_fn_grows f →
  callback_grows (RpcModule.sync_callback f) ∧ callback_grows (RpcModule.async_callback f) ∧
  callback_grows (RpcModule.blocking_callback f).
Proof.
  intros Hf. split_and!; intros id params; [by intros ??; apply respond_keeps|by intros ???; apply respond_keeps|].
  intros conn max ext w. pose proof (respond_keeps f id params max ext Hf w) as Hw.
  by destruct (RpcModule.respond f id params max ext w) as [[r|[]] w'].
Qed.
Lemma unsubscribe_callback_grows tbl : callback_grows (U := U) (McUnsubscription (RpcModule.unsubscribe_callback tbl)).
Proof.
  intros id params conn max ext. unfold RpcModule.unsubscribe_callback. destruct (one _ params) as [sub_id|e].
  - apply keeps_bind; [apply _|apply srv_keeps, grows_remove_subscriber|auto with keeps].
  - auto with keeps.
Qed.
Lemma subscribe_callbacks_grow notif tbl (f : PendingSubscriptionSink → UserFn U unit) : (∀ p, user_fn_grows (f p)) →
  callback_grows (McSubscription (RpcModule.subscribe_callback notif tbl f)) ∧
  callback_grows (McSubscription (RpcModule.subscribe_raw_callback notif tbl f)).
Proof.
  intros Hf. split; intros id params sink st ext; (apply keeps_bind; [apply _|apply srv_keeps, grows_new_answer|]);
    intros rx; (apply keeps_bind; [apply _|apply Hf|auto with keeps]).
Qed.

(** The operations of the registry keep it. *)
Lemma new_grows : methods_grow (U := U) Methods.new.
Proof. apply map_Forall_empty. Qed.
Lemma insert_grows name cb (m : Methods U) : methods_grow m → callback_grows cb →
  methods_grow (Methods.set_callbacks (<[name := cb]> (m_callbacks m)) m).
Proof. intros Hm Hc. by apply map_Forall_insert_2. Qed.
Lemma verify_and_insert_grows name cb (m m' : Methods U) : methods_grow m → callback_grows cb →
  Methods.verify_and_insert name cb m = Ok m' → methods_grow m'.
Proof.
  intros Hm Hc. unfold Methods.verify_and_insert. destruct (m_callbacks m !! name); [done|]. intros [= <-].
  by apply insert_grows.
Qed.
Lemma register_subscription_grows sub notif unsub tbl (f : PendingSubscriptionSink → UserFn U unit) (m : Methods U) :
  methods_grow m → (∀ p, user_fn_grows (f p)) →
  methods_grow (RpcModule.register_subscription sub notif unsub tbl f m).2 ∧
  methods_grow (RpcModule.register_subscription_raw sub notif unsub tbl f m).2.
Proof.
  intros Hm Hf. destruct (subscribe_callbacks_grow notif tbl f Hf) as [H1 H2].
  unfold RpcModule.register_subscription, RpcModule.register_subscription_raw, RpcModule.register_subscription_with.
  destruct (RpcModule.verify_and_register_unsubscribe sub unsub tbl m) as [m1|e] eqn:E; [|done].
  assert (methods_grow m1) as Hm1.
  { unfold RpcModule.verify_and_register_unsubscribe in E. case_decide; [done|].
    destruct (Methods.verify_method_name sub m); [|done]. destruct (Methods.verify_method_name unsub m); [|done].
    injection E as <-. apply insert_grows; [done|apply unsubscribe_callback_grows]. }
  split; (destruct (Methods.verify_and_insert _ _ m1) eqn:E1; [|done]);
    eapply verify_and_insert_grows; [exact Hm1| |exact E1|exact Hm1| |exact E1]; done.
Qed.
Lemma merge_grows (other self m' : Methods U) : methods_grow other → methods_grow self →
  Methods.merge other self = Ok m' → methods_grow m'.
Proof.
  intros Ho Hs. unfold Methods.merge. destruct (Methods.verify_all _ self); [|done]. intros [= <-].
  unfold methods_grow; cbn. rewrite foldl_insert_union by apply NoDup_fst_map_to_list.
  rewrite list_to_map_to_list. by apply map_Forall_union_2.
Qed.
End Registered.
