(* ===== verification/Server.v ===== *)
(** The server: [server/src/server.rs] and the handles of [server/src/future.rs].

    The configuration and its builder, and the server as a transition system
    ([Server.step]): the accept loop, the connections [hyper] serves, the requests
    that arrive on them ([TowerServiceNoHttp.call]) and the tasks the requests
    start, each holding a permit of the [ConnectionGuard] until it is done.  What
    the tasks do to the channels and to the user's state is in [RpcService], [Http]
    and [WsServer]; here it is any change of that part of the state. *)
From stdpp Require Import base gmap strings list.
From S2P Require Import Prelude Serde RefJson Errors Params Wire Middleware MethodResponse Subscription RpcModule RpcService Http WsServer.

(** ** Configuration *)
Module PingConfig.
Definition default : PingConfig := MkPingConfig 30 40 1.
Definition new : PingConfig := default.
Definition ping_interval (ping_interval : N) (p : PingConfig) : PingConfig :=
  MkPingConfig ping_interval (pc_inactive_limit p) (pc_max_failures p).
Definition inactive_limit (inactivity_limit : N) (p : PingConfig) : PingConfig :=
  MkPingConfig (pc_ping_interval p) inactivity_limit (pc_max_failures p).
Definition max_failures (max : N) (p : PingConfig) : Result Panicked PingConfig :=
  if decide (0 < max)%N then Ok (MkPingConfig (pc_ping_interval p) (pc_inactive_limit p) max) else Err Panic.
End PingConfig.

Section Config.
Context {X : HttpExtensions} {U : Type}.
Record ServerConfigBuilder : Type := MkServerConfigBuilder {
  b_max_request_body_size : N;
  b_max_response_body_size : N;
  b_max_connections : N;
  b_max_subscriptions_per_connection : N;
  b_batch_requests_config : BatchRequestConfig;
  b_tokio_runtime : option nat;
  b_enable_http : bool;
  b_enable_ws : bool;
  b_message_buffer_capacity : N;
  b_ping_config : option PingConfig;
  b_id_provider : SM (W U) Panicked SubscriptionId;
  b_tcp_no_delay : bool;
  b_message_encryption : option MessageEncryption;
  b_message_crypto_error_policy : MessageCryptoErrorPolicy;
  b_connection_manager : option nat
}.
Record ServerConfig : Type := MkServerConfig {
  sc_max_request_body_size : N;
  sc_max_response_body_size : N;
  sc_max_connections : N;
  sc_max_subscriptions_per_connection : N;
  sc_batch_requests_config : BatchRequestConfig;
  sc_tokio_runtime : option nat;
  sc_enable_http : bool;
  sc_enable_ws : bool;
  sc_message_buffer_capacity : N;
  sc_ping_config : option PingConfig;
  sc_id_provider : SM (W U) Panicked SubscriptionId;
  sc_tcp_no_delay : bool;
  sc_message_encryption : option MessageEncryption;
  sc_message_crypto_error_policy : MessageCryptoErrorPolicy;
  sc_connection_manager : option nat
}.
End Config.
Arguments ServerConfigBuilder {X} U. Arguments ServerConfig {X} U.

Definition TEN_MB_SIZE_BYTES : N := 10 * 1024 * 1024.
Definition MAX_CONNECTIONS : N := 100.
Module ServerConfigBuilder.
Section Ops.
Context {X : HttpExtensions} {U : Type}.
Notation Builder := (ServerConfigBuilder U).
(** The default provider draws its numbers from [rand]: an argument. *)
Definition new (rand : SM (W U) Panicked SubscriptionId) : Builder :=
  MkServerConfigBuilder TEN_MB_SIZE_BYTES TEN_MB_SIZE_BYTES MAX_CONNECTIONS 1024 BrcUnlimited None true true
    1024 None rand true None crypto_policy_default None.
Definition max_request_body_size (size : N) (b : Builder) : Builder :=
  MkServerConfigBuilder size (b_max_response_body_size b) (b_max_connections b)
    (b_max_subscriptions_per_connection b) (b_batch_requests_config b) (b_tokio_runtime b) (b_enable_http b)
    (b_enable_ws b) (b_message_buffer_capacity b) (b_ping_config b) (b_id_provider b) (b_tcp_no_delay b)
    (b_message_encryption b) (b_message_crypto_error_policy b) (b_connection_manager b).
Definition max_response_body_size (size : N) (b : Builder) : Builder :=
  MkServerConfigBuilder (b_max_request_body_size b) size (b_max_connections b)
    (b_max_subscriptions_per_connection b) (b_batch_requests_config b) (b_tokio_runtime b) (b_enable_http b)
    (b_enable_ws b) (b_message_buffer_capacity b) (b_ping_config b) (b_id_provider b) (b_tcp_no_delay b)
    (b_message_encryption b) (b_message_crypto_error_policy b) (b_connection_manager b).
Definition max_connections (max : N) (b : Builder) : Builder :=
  MkServerConfigBuilder (b_max_request_body_size b) (b_max_response_body_size b) max
    (b_max_subscriptions_per_connection b) (b_batch_requests_config b) (b_tokio_runtime b) (b_enable_http b)
    (b_enable_ws b) (b_message_buffer_capacity b) (b_ping_config b) (b_id_provider b) (b_tcp_no_delay b)
    (b_message_encryption b) (b_message_crypto_error_policy b) (b_connection_manager b).
Definition max_subscriptions_per_connection (max : N) (b : Builder) : Builder :=
  MkServerConfigBuilder (b_max_request_body_size b) (b_max_response_body_size b) (b_max_connections b) max
    (b_batch_requests_config b) (b_tokio_runtime b) (b_enable_http b) (b_enable_ws b)
    (b_message_buffer_capacity b) (b_ping_config b) (b_id_provider b) (b_tcp_no_delay b)
    (b_message_encryption b) (b_message_crypto_error_policy b) (b_connection_manager b).
Definition set_batch_request_config (cfg : BatchRequestConfig) (b : Builder) : Builder :=
  MkServerConfigBuilder (b_max_request_body_size b) (b_max_response_body_size b) (b_max_connections b)
    (b_max_subscriptions_per_connection b) cfg (b_tokio_runtime b) (b_enable_http b) (b_enable_ws b)
    (b_message_buffer_capacity b) (b_ping_config b) (b_id_provider b) (b_tcp_no_delay b)
    (b_message_encryption b) (b_message_crypto_error_policy b) (b_connection_manager b).
Definition custom_tokio_runtime (rt : nat) (b : Builder) : Builder :=
  MkServerConfigBuilder (b_max_request_body_size b) (b_max_response_body_size b) (b_max_connections b)
    (b_max_subscriptions_per_connection b) (b_batch_requests_config b) (Some rt) (b_enable_http b)
    (b_enable_ws b) (b_message_buffer_capacity b) (b_ping_config b) (b_id_provider b) (b_tcp_no_delay b)
    (b_message_encryption b) (b_message_crypto_error_policy b) (b_connection_manager b).
Definition http_only (b : Builder) : Builder :=
  MkServerConfigBuilder (b_max_request_body_size b) (b_max_response_body_size b) (b_max_connections b)
    (b_max_subscriptions_per_connection b) (b_batch_requests_config b) (b_tokio_runtime b) true false
    (b_message_buffer_capacity b) (b_ping_config b) (b_id_provider b) (b_tcp_no_delay b)
    (b_message_encryption b) (b_message_crypto_error_policy b) (b_connection_manager b).
Definition ws_only (b : Builder) : Builder :=
  MkServerConfigBuilder (b_max_request_body_size b) (b_max_response_body_size b) (b_max_connections b)
    (b_max_subscriptions_per_connection b) (b_batch_requests_config b) (b_tokio_runtime b) false true
    (b_message_buffer_capacity b) (b_ping_config b) (b_id_provider b) (b_tcp_no_delay b)
    (b_message_encryption b) (b_message_crypto_error_policy b) (b_connection_manager b).
Definition set_message_buffer_capacity (c : N) (b : Builder) : Result Panicked Builder :=
  if decide (0 < c)%N then Ok
    (MkServerConfigBuilder (b_max_request_body_size b) (b_max_response_body_size b) (b_max_connections b)
      (b_max_subscriptions_per_connection b) (b_batch_requests_config b) (b_tokio_runtime b) (b_enable_http b)
      (b_enable_ws b) c (b_ping_config b) (b_id_provider b) (b_tcp_no_delay b) (b_message_encryption b)
      (b_message_crypto_error_policy b) (b_connection_manager b))
  else Err Panic.
Definition enable_ws_ping (config : PingConfig) (b : Builder) : Builder :=
  MkServerConfigBuilder (b_max_request_body_size b) (b_max_response_body_size b) (b_max_connections b)
    (b_max_subscriptions_per_connection b) (b_batch_requests_config b) (b_tokio_runtime b) (b_enable_http b)
    (b_enable_ws b) (b_message_buffer_capacity b) (Some config) (b_id_provider b) (b_tcp_no_delay b)
    (b_message_encryption b) (b_message_crypto_error_policy b) (b_connection_manager b).
Definition disable_ws_ping (b : Builder) : Builder :=
  MkServerConfigBuilder (b_max_request_body_size b) (b_max_response_body_size b) (b_max_connections b)
    (b_max_subscriptions_per_connection b) (b_batch_requests_config b) (b_tokio_runtime b) (b_enable_http b)
    (b_enable_ws b) (b_message_buffer_capacity b) None (b_id_provider b) (b_tcp_no_delay b)
    (b_message_encryption b) (b_message_crypto_error_policy b) (b_connection_manager b).
Definition set_id_provider (provider : SM (W U) Panicked SubscriptionId) (b : Builder) : Builder :=
  MkServerConfigBuilder (b_max_request_body_size b) (b_max_response_body_size b) (b_max_connections b)
    (b_max_subscriptions_per_connection b) (b_batch_requests_config b) (b_tokio_runtime b) (b_enable_http b)
    (b_enable_ws b) (b_message_buffer_capacity b) (b_ping_config b) provider (b_tcp_no_delay b)
    (b_message_encryption b) (b_message_crypto_error_policy b) (b_connection_manager b).
Definition set_tcp_no_delay (no_delay : bool) (b : Builder) : Builder :=
  MkServerConfigBuilder (b_max_request_body_size b) (b_max_response_body_size b) (b_max_connections b)
    (b_max_subscriptions_per_connection b) (b_batch_requests_config b) (b_tokio_runtime b) (b_enable_http b)
    (b_enable_ws b) (b_message_buffer_capacity b) (b_ping_config b) (b_id_provider b) no_delay
    (b_message_encryption b) (b_message_crypto_error_policy b) (b_connection_manager b).
Definition set_message_encryption (encryption : MessageEncryption) (b : Builder) : Builder :=
  MkServerConfigBuilder (b_max_request_body_size b) (b_max_response_body_size b) (b_max_connections b)
    (b_max_subscriptions_per_connection b) (b_batch_requests_config b) (b_tokio_runtime b) (b_enable_http b)
    (b_enable_ws b) (b_message_buffer_capacity b) (b_ping_config b) (b_id_provider b) (b_tcp_no_delay b)
    (Some encryption) (b_message_crypto_error_policy b) (b_connection_manager b).
Definition set_message_crypto_error_policy (policy : MessageCryptoErrorPolicy) (b : Builder) : Builder :=
  MkServerConfigBuilder (b_max_request_body_size b) (b_max_response_body_size b) (b_max_connections b)
    (b_max_subscriptions_per_connection b) (b_batch_requests_config b) (b_tokio_runtime b) (b_enable_http b)
    (b_enable_ws b) (b_message_buffer_capacity b) (b_ping_config b) (b_id_provider b) (b_tcp_no_delay b)
    (b_message_encryption b) policy (b_connection_manager b).
Definition set_connection_manager (manager : nat) (b : Builder) : Builder :=
  MkServerConfigBuilder (b_max_request_body_size b) (b_max_response_body_size b) (b_max_connections b)
    (b_max_subscriptions_per_connection b) (b_batch_requests_config b) (b_tokio_runtime b) (b_enable_http b)
    (b_enable_ws b) (b_message_buffer_capacity b) (b_ping_config b) (b_id_provider b) (b_tcp_no_delay b)
    (b_message_encryption b) (b_message_crypto_error_policy b) (Some manager).
Definition build (b : Builder) : ServerConfig U :=
  MkServerConfig (b_max_request_body_size b) (b_max_response_body_size b) (b_max_connections b)
    (b_max_subscriptions_per_connection b) (b_batch_requests_config b) (b_tokio_runtime b) (b_enable_http b)
    (b_enable_ws b) (b_message_buffer_capacity b) (b_ping_config b) (b_id_provider b) (b_tcp_no_delay b)
    (b_message_encryption b) (b_message_crypto_error_policy b) (b_connection_manager b).
End Ops.
End ServerConfigBuilder.

(** ** The state of the server *)

(** [soketto]'s handshake: whether a request asks for an upgrade, and the response
    that grants it or the text of the error. *)
Class Handshake `{HttpExtensions} := {
  is_upgrade_request : HttpRequest → bool;
  receive_request : HttpRequest → Result string HttpResponse
}.
(** What the extensions carry of the guard: a clone, which shares the semaphore. *)
Inductive GuardRef : Type := TheGuard.

Section State.
Context {X : HttpExtensions} {U : Type}.

Record ServiceData : Type := MkServiceData {
  sd_methods : Methods U;
  sd_conn_id : N;
  sd_server_cfg : ServerConfig U
}.
(** The spawned task of a WebSocket: before it is registered, waiting for the
    upgrade, in [background_task], and after it. *)
Inductive WsStage : Type := WsSpawned | WsUpgrading | WsRunning | WsEnded.
Inductive Task : Type :=
| TkHttp (cfg : ServerConfig U) (request : HttpRequest) (rpc_service : RpcService U)
| TkWs (stage : WsStage) (cfg : ServerConfig U) (request : HttpRequest) (conn_id : N) (sink : MethodSink)
    (rpc_service : RpcService U).
(** A [ConnectionState] is alive: it holds a permit and a [StopHandle]. *)
Definition holds (t : Task) : bool := match t with TkWs WsEnded _ _ _ _ _ => false | _ => true end.

Record Server : Type := MkServer {
  sv_w : W U;
  sv_guard : Semaphore;
  sv_managers : gmap nat (gmap ConnectionId MethodSink);
  (** The futures and tasks that requests started. *)
  sv_tasks : gmap nat Task;
  (** The connections that [hyper] serves, under the number of the accept. *)
  sv_conns : gmap N ServiceData;
  (** How many connections were accepted, and [id] of the accept loop. *)
  sv_accepted : N;
  sv_id : N;
  sv_stop : bool;
  sv_accepting : bool;
  (** [start_inner] has returned. *)
  sv_finished : bool
}.

#[export] Instance WsStage_eq_dec : EqDecision WsStage.
Proof. solve_decision. Defined.

Definition set_w w (s : Server) : Server :=
  MkServer w (sv_guard s) (sv_managers s) (sv_tasks s) (sv_conns s) (sv_accepted s) (sv_id s) (sv_stop s)
    (sv_accepting s) (sv_finished s).
Definition set_guard g (s : Server) : Server :=
  MkServer (sv_w s) g (sv_managers s) (sv_tasks s) (sv_conns s) (sv_accepted s) (sv_id s) (sv_stop s)
    (sv_accepting s) (sv_finished s).
Definition set_managers m (s : Server) : Server :=
  MkServer (sv_w s) (sv_guard s) m (sv_tasks s) (sv_conns s) (sv_accepted s) (sv_id s) (sv_stop s)
    (sv_accepting s) (sv_finished s).
Definition set_tasks t (s : Server) : Server :=
  MkServer (sv_w s) (sv_guard s) (sv_managers s) t (sv_conns s) (sv_accepted s) (sv_id s) (sv_stop s)
    (sv_accepting s) (sv_finished s).
Definition set_conns c (s : Server) : Server :=
  MkServer (sv_w s) (sv_guard s) (sv_managers s) (sv_tasks s) c (sv_accepted s) (sv_id s) (sv_stop s)
    (sv_accepting s) (sv_finished s).

(** Shared objects that are made for a connection. *)
Definition new_channel (capacity : N) (w : W U) : nat * W U :=
  let h := fresh (dom (sw_chans (fst w))) in
  (h, (set_chans (<[h := MkConnChan (N.to_nat capacity) [] false]> (sw_chans (fst w))) (fst w), snd w)).
Definition new_semaphore (max : N) (w : W U) : nat * W U :=
  let h := fresh (dom (sw_semaphores (fst w))) in
  (h, (set_semaphores (<[h := bounded_new max]> (sw_semaphores (fst w))) (fst w), snd w)).
Definition new_task (t : Task) (s : Server) : nat * Server :=
  let h := fresh (dom (sv_tasks s)) in (h, set_tasks (<[h := t]> (sv_tasks s)) s).
(** A task that holds a permit ends: its [ConnectionState] is dropped. *)
Definition drop_conn (s : Server) : Server := set_guard (ConnectionGuard.drop_permit (sv_guard s)) s.
Definition end_task (h : nat) (s : Server) : Server := drop_conn (set_tasks (delete h (sv_tasks s)) s).
End State.
Arguments ServiceData {X} U. Arguments Task {X} U. Arguments Server {X} U.

(** What [call] gives back: a response, or the future of a call over HTTP. *)
Inductive Reply `{HttpExtensions} : Type := RpReady (response : HttpResponse) | RpFuture (task : nat).

(** ** Requests *)
Module TowerServiceNoHttp.
Section Ops.
Context {X : HttpExtensions} {XC : ExtKey ConnectionId} {XG : ExtKey GuardRef} {K : Handshake} {U : Type}.

(** [HttpResponse::new] of the text of the error. *)
Definition not_upgraded (e : string) : HttpResponse :=
  MkHttpResponse 200 "" ("Could not upgrade connection: " +:+ e) ext_new.
Definition extend (conn_id : N) (request : HttpRequest) : HttpRequest :=
  MkHttpRequest (hq_method request) (hq_uri request) (hq_headers request)
    (ext_insert (conn_id : ConnectionId) (ext_insert TheGuard (hq_extensions request))) (hq_body request).
(** The channel, the sink and the service of a WebSocket. *)
Definition ws_service (d : ServiceData U) (w : W U) : MethodSink * RpcService U * W U :=
  let cfg := sd_server_cfg d in
  let '(tx, w) := new_channel (sc_message_buffer_capacity cfg) w in
  let sink := method_sink_new tx in
  let '(bounded_subscriptions, w) := new_semaphore (sc_max_subscriptions_per_connection cfg) w in
  (sink, MkRpcService (sd_conn_id d) (sd_methods d) (sc_max_response_body_size cfg)
           (CallsAndSubscriptions bounded_subscriptions sink (sc_id_provider cfg)), w).
Definition http_service (d : ServiceData U) : RpcService U :=
  MkRpcService (sd_conn_id d) (sd_methods d) (sc_max_response_body_size (sd_server_cfg d)) OnlyCalls.

Definition call (d : ServiceData U) (request : HttpRequest) (s : Server U) : Reply * Server U :=
  match ConnectionGuard.try_acquire (sv_guard s) with
  | None => (RpReady response.too_many_requests, s)
  | Some guard =>
    let s := set_guard guard s in
    let request := extend (sd_conn_id d) request in
    let is_upgrade := is_upgrade_request request in
    if sc_enable_ws (sd_server_cfg d) && is_upgrade then
      match receive_request request with
      | Ok response =>
        let '(sink, rpc_service, w) := ws_service d (sv_w s) in
        let '(_, s) := new_task (TkWs WsSpawned (sd_server_cfg d) request (sd_conn_id d) sink rpc_service) (set_w w s) in
        (RpReady response, s)
      | Err e => (RpReady (not_upgraded e), drop_conn s)
      end
    else if sc_enable_http (sd_server_cfg d) && negb is_upgrade then
      let '(h, s) := new_task (TkHttp (sd_server_cfg d) request (http_service d)) s in (RpFuture h, s)
    else (RpReady response.denied, drop_conn s)
  end.
End Ops.
End TowerServiceNoHttp.

(** ** The tasks of requests, and the accept loop *)
Section Run.
Context {J : SerdeJson} {X : HttpExtensions} {L : HttpLibs} {U : Type}.
Context (rest : SubscribeCall → W U → W U).

(** The future of a call over HTTP; [None] when it never completes. *)
Definition http_run (h : nat) (s : Server U) : option (Result Stop HttpResponse * Server U) :=
  match sv_tasks s !! h with
  | Some (TkHttp cfg request rpc_service) =>
    let '(r, w) := call_with_service (svc := RpcService.rpc_service rest rpc_service) request
                     (sc_batch_requests_config cfg) (sc_max_request_body_size cfg) (sv_w s) in
    match r with
    | Err StForever => None
    | _ => Some (r, end_task h (set_w w s))
    end
  | _ => None
  end.
(** The connection goes away under it. *)
Definition http_cancel (h : nat) (s : Server U) : option (Server U) :=
  match sv_tasks s !! h with Some (TkHttp _ _ _) => Some (end_task h s) | _ => None end.

(** The task of a WebSocket: it registers the connection, waits for the upgrade,
    runs [background_task], and takes the connection out of the manager. *)
Definition on_manager (m : option nat) (f : gmap ConnectionId MethodSink → gmap ConnectionId MethodSink)
    (s : Server U) : Server U :=
  match m with
  | Some m => set_managers (<[m := f (default ∅ (sv_managers s !! m))]> (sv_managers s)) s
  | None => s
  end.
Definition ws_register (h : nat) (s : Server U) : option (Server U) :=
  match sv_tasks s !! h with
  | Some (TkWs WsSpawned cfg request conn_id sink svc) =>
    Some (set_tasks (<[h := TkWs WsUpgrading cfg request conn_id sink svc]> (sv_tasks s))
      (on_manager (sc_connection_manager cfg) (ConnectionManager.register_connection conn_id sink) s))
  | _ => None
  end.
Definition ws_upgrade (h : nat) (upgraded : bool) (s : Server U) : option (Server U) :=
  match sv_tasks s !! h with
  | Some (TkWs WsUpgrading cfg request conn_id sink svc) =>
    Some (if upgraded then set_tasks (<[h := TkWs WsRunning cfg request conn_id sink svc]> (sv_tasks s)) s
          else end_task h s)
  | _ => None
  end.
Definition ws_end (h : nat) (s : Server U) : option (Server U) :=
  match sv_tasks s !! h with
  | Some (TkWs WsRunning cfg request conn_id sink svc) =>
    Some (drop_conn (set_tasks (<[h := TkWs WsEnded cfg request conn_id sink svc]> (sv_tasks s)) s))
  | _ => None
  end.
(** [background_task] panics: the connection stays in the manager. *)
Definition ws_panic (h : nat) (s : Server U) : option (Server U) :=
  match sv_tasks s !! h with Some (TkWs WsRunning _ _ _ _ _) => Some (end_task h s) | _ => None end.
Definition ws_unregister (h : nat) (s : Server U) : option (Server U) :=
  match sv_tasks s !! h with
  | Some (TkWs WsEnded cfg request conn_id sink svc) =>
    Some (set_tasks (delete h (sv_tasks s))
      (on_manager (sc_connection_manager cfg) (ConnectionManager.unregister_connection conn_id) s))
  | _ => None
  end.

(** [start_inner]: the accept loop.  A connection whose [set_nodelay] fails is
    dropped; its identifier is used up. *)
Context (methods : Methods U) (cfg : ServerConfig U).

Definition init (w : W U) (managers : gmap nat (gmap ConnectionId MethodSink)) : Server U :=
  MkServer w (ConnectionGuard.new (sc_max_connections cfg)) managers ∅ ∅ 0 0 false true false.
(** [process_connection], up to the spawned task: the connections with this one,
    and its service. *)
Definition process_connection (nodelay : bool) (conn_id : ConnectionId) (s : Server U) : gmap N (ServiceData U) :=
  if nodelay then <[sv_accepted s := MkServiceData methods conn_id cfg]> (sv_conns s) else sv_conns s.
Definition accept_conn (nodelay : bool) (s : Server U) : Server U :=
  MkServer (sv_w s) (sv_guard s) (sv_managers s) (sv_tasks s) (process_connection nodelay (sv_id s) s)
    (sv_accepted s + 1) (wrapping_add u32_max (sv_id s) 1) (sv_stop s) (sv_accepting s) (sv_finished s).
Definition accept_shutdown (s : Server U) : Server U :=
  MkServer (sv_w s) (sv_guard s) (sv_managers s) (sv_tasks s) (sv_conns s) (sv_accepted s) (sv_id s)
    (sv_stop s) false (sv_finished s).
Definition start_inner_return (s : Server U) : Server U :=
  MkServer (sv_w s) (sv_guard s) (sv_managers s) (sv_tasks s) (sv_conns s) (sv_accepted s) (sv_id s)
    (sv_stop s) (sv_accepting s) true.
Definition conn_end (c : N) (s : Server U) : Server U := set_conns (delete c (sv_conns s)) s.

(** [ServerHandle]: a [StopHandle] lives in [start_inner], in every connection and
    in every [ConnectionState]. *)
Definition is_stopped (s : Server U) : bool :=
  sv_finished s && bool_decide (sv_conns s = ∅) &&
  bool_decide (filter (λ t, holds t.2 = true) (sv_tasks s) = ∅).
Definition stop (s : Server U) : Result unit unit * Server U :=
  if is_stopped s then (Err (), s)
  else (Ok (), MkServer (sv_w s) (sv_guard s) (sv_managers s) (sv_tasks s) (sv_conns s) (sv_accepted s)
                 (sv_id s) true (sv_accepting s) (sv_finished s)).
(** The last [ServerHandle] is dropped: [changed] of the [StopHandle]s ends as if
    the server had been stopped. *)
Definition drop_handles (s : Server U) : Server U :=
  MkServer (sv_w s) (sv_guard s) (sv_managers s) (sv_tasks s) (sv_conns s) (sv_accepted s) (sv_id s) true
    (sv_accepting s) (sv_finished s).
End Run.

(** ** The server as a transition system *)
Section Steps.
Context {J : SerdeJson} {X : HttpExtensions} {XC : ExtKey ConnectionId} {XG : ExtKey GuardRef}.
Context {K : Handshake} {L : HttpLibs} {U : Type}.
Context (rest : SubscribeCall → W U → W U) (methods : Methods U) (cfg : ServerConfig U).

Inductive step (s : Server U) : Server U → Prop :=
| step_accept nodelay : sv_accepting s = true → step s (accept_conn methods cfg nodelay s)
| step_request c d request : sv_conns s !! c = Some d → step s (TowerServiceNoHttp.call d request s).2
| step_http_run h r s' : http_run rest h s = Some (r, s') → step s s'
| step_http_cancel h s' : http_cancel h s = Some s' → step s s'
| step_ws_register h s' : ws_register h s = Some s' → step s s'
| step_ws_upgrade h upgraded s' : ws_upgrade h upgraded s = Some s' → step s s'
| step_ws_end h s' : ws_end h s = Some s' → step s s'
| step_ws_panic h s' : ws_panic h s = Some s' → step s s'
| step_ws_unregister h s' : ws_unregister h s = Some s' → step s s'
| step_conn_end c : step s (conn_end c s)
| step_stop : step s (stop s).2
| step_drop_handles : step s (drop_handles s)
| step_accept_shutdown : sv_stop s = true → step s (accept_shutdown s)
| step_return : sv_accepting s = false → sv_conns s = ∅ → step s (start_inner_return s)
| step_world w : step s (set_w w s).
Inductive reachable : Server U → Prop :=
| reach_init w managers : reachable (init cfg w managers)
| reach_step s s' : reachable s → step s s' → reachable s'.

(** *** The permits *)
Definition live (ts : gmap nat (Task U)) : nat := size (filter (λ t, holds t.2 = true) ts).
Definition guard_ok (s : Server U) : Prop :=
  sem_max (sv_guard s) = sc_max_connections cfg ∧
  (sem_available (sv_guard s) + N.of_nat (live (sv_tasks s)) = sc_max_connections cfg)%N.

Lemma live_insert h t ts : ts !! h = None → live (<[h := t]> ts) = (if holds t then 1 else 0) + live ts.
Proof.
  intros Hn. unfold live. destruct (holds t) eqn:E.
  - rewrite map_filter_insert_True by done. apply map_size_insert_None. by rewrite map_lookup_filter_None; left.
  - rewrite map_filter_insert_False by (cbn; congruence). by rewrite delete_id.
Qed.
Lemma live_delete h t ts : ts !! h = Some t → live ts = (if holds t then 1 else 0) + live (delete h ts).
Proof. intros Hl. rewrite <-(insert_delete_id ts h t Hl) at 1. apply live_insert, lookup_delete_eq. Qed.
Lemma live_replace h t t' ts : ts !! h = Some t →
  live (<[h := t']> ts) + (if holds t then 1 else 0) = (if holds t' then 1 else 0) + live ts.
Proof.
  intros Hl. rewrite (live_delete _ _ _ Hl), <-(insert_delete_eq ts).
  rewrite live_insert by apply lookup_delete_eq. lia.
Qed.

(** A step changes the permits and the live tasks together, or neither. *)
Definition balanced (s s' : Server U) : Prop :=
  sem_max (sv_guard s') = sem_max (sv_guard s) ∧
  (sem_available (sv_guard s') + N.of_nat (live (sv_tasks s')) =
   sem_available (sv_guard s) + N.of_nat (live (sv_tasks s)))%N.
Lemma balanced_same s s' : sv_guard s' = sv_guard s → live (sv_tasks s') = live (sv_tasks s) → balanced s s'.
Proof. by intros H1 H2; split; rewrite H1, ?H2. Qed.
Lemma new_task_spec t s : holds t = true →
  let '(h, s') := new_task t s in
  sv_tasks s !! h = None ∧ sv_tasks s' !! h = Some t ∧ sv_guard s' = sv_guard s ∧ sv_w s' = sv_w s ∧
  live (sv_tasks s') = S (live (sv_tasks s)).
Proof.
  intros Ht. unfold new_task. assert (sv_tasks s !! fresh (dom (sv_tasks s)) = None) as Hf
    by apply not_elem_of_dom, is_fresh.
  cbn. rewrite lookup_insert_eq, live_insert, Ht by done. done.
Qed.
Lemma on_manager_same m f (s : Server U) : sv_guard (on_manager m f s) = sv_guard s ∧
  sv_tasks (on_manager m f s) = sv_tasks s.
Proof. by destruct m. Qed.
Lemma end_task_balanced h t s w : sv_tasks s !! h = Some t → holds t = true →
  balanced s (end_task h (set_w w s)) ∧ balanced s (end_task h s).
Proof.
  intros Hl Ht. pose proof (live_delete _ _ _ Hl) as E. rewrite Ht in E.
  split; (split; [done|]); cbn; lia.
Qed.

(** What happens to a request that gets a permit. *)
Lemma call_cases d request s : (0 < sem_available (sv_guard s))%N →
  let cfg := sd_server_cfg d in
  let request' := TowerServiceNoHttp.extend (sd_conn_id d) request in
  let '(r, s') := TowerServiceNoHttp.call d request s in
  (if sc_enable_ws cfg && is_upgrade_request request' then
     match receive_request request' with
     | Ok response => r = RpReady response ∧ live (sv_tasks s') = S (live (sv_tasks s)) ∧
         ∃ h sink svc, sv_tasks s' !! h = Some (TkWs WsSpawned cfg request' (sd_conn_id d) sink svc) ∧
           rs_methods svc = sd_methods d ∧ cc_closed (get_chan (ms_tx sink) (fst (sv_w s'))) = false
     | Err e => r = RpReady (TowerServiceNoHttp.not_upgraded e) ∧ s' = s
     end
   else if sc_enable_http cfg && negb (is_upgrade_request request') then
     ∃ h, r = RpFuture h ∧ live (sv_tasks s') = S (live (sv_tasks s)) ∧
       sv_tasks s' !! h = Some (TkHttp cfg request' (TowerServiceNoHttp.http_service d))
   else r = RpReady response.denied ∧ s' = s) ∧
  balanced s s'.
Proof.
  intros Ha. unfold TowerServiceNoHttp.call, ConnectionGuard.try_acquire. rewrite decide_True by done.
  set (s1 := set_guard _ s). set (rq := TowerServiceNoHttp.extend _ _). cbn zeta.
  assert (drop_conn s1 = s) as Hd.
  { unfold drop_conn, set_guard, s1, ConnectionGuard.drop_permit. cbn.
    replace (sem_available (sv_guard s) - 1 + 1)%N with (sem_available (sv_guard s)) by lia. by destruct s as [? []]. }
  assert (∀ t, holds t = true → ∀ w, let s' := (new_task t (set_w w s1)).2 in
    live (sv_tasks s') = S (live (sv_tasks s)) ∧ balanced s s') as Ht.
  { intros t Hh w. pose proof (new_task_spec t (set_w w s1) Hh) as H.
    destruct (new_task t (set_w w s1)) as [h s'] eqn:E. destruct H as (_ & _ & Hg & _ & Hl). cbn.
    split; [exact Hl|]. unfold balanced. rewrite Hg, Hl. cbn. split; [done|]. lia. }
  assert (balanced s s) as Hs by done.
  destruct (sc_enable_ws _ && _).
  - destruct (receive_request rq) as [rp|e]; [|by rewrite Hd].
    unfold TowerServiceNoHttp.ws_service, new_channel, new_semaphore. cbn zeta.
    match goal with |- context [new_task ?t (set_w ?w s1)] =>
      destruct (Ht t eq_refl w) as [Hl Hb]; pose proof (new_task_spec t (set_w w s1) eq_refl) as H end.
    destruct (new_task _ _) as [h s']. destruct H as (_ & Hh & _ & Hw & _). cbn in Hl, Hb.
    split; [|done]. split; [done|]. split; [done|]. eexists _, _, _. split; [exact Hh|]. split; [done|].
    rewrite Hw. cbn. unfold get_chan. cbn. by rewrite lookup_insert_eq.
  - destruct (sc_enable_http _ && _); [|by rewrite Hd].
    set (t := TkHttp _ _ _). destruct (Ht t eq_refl (sv_w s1)) as [Hl Hb].
    assert (set_w (sv_w s1) s1 = s1) as E by done. rewrite E in *.
    pose proof (new_task_spec t s1 eq_refl) as H. destruct (new_task t s1) as [h s'].
    destruct H as (_ & Hh & _). split; [|exact Hb]. exists h. split; [done|]. split; [exact Hl|exact Hh].
Qed.

Lemma call_balanced d request s : balanced s (TowerServiceNoHttp.call d request s).2.
Proof.
  destruct (decide (0 < sem_available (sv_guard s))%N) as [Ha|Ha].
  - pose proof (call_cases d request s Ha) as H. destruct (TowerServiceNoHttp.call d request s) as [r s1]. apply H.
  - unfold TowerServiceNoHttp.call, ConnectionGuard.try_acquire. by rewrite decide_False.
Qed.
Lemma step_balanced s s' : step s s' → balanced s s'.
Proof.
  intros H. destruct H as [b _|c d request _|h r s' H|h s' H|h s' H|h up s' H|h s' H|h s' H|h s' H|c| | | | |w]; try done.
  - apply call_balanced.
  - unfold http_run in H. destruct (sv_tasks s !! h) as [[cfg' rq svc|]|] eqn:El; try done.
    destruct (call_with_service _ _ _ _) as [r' w]. destruct (end_task_balanced h _ s w El eq_refl) as [Hb _].
    destruct r' as [|[]]; by simplify_eq.
  - unfold http_cancel in H. destruct (sv_tasks s !! h) as [[cfg' rq svc|]|] eqn:El; simplify_eq.
    by apply (end_task_balanced h _ s (sv_w s) El).
  - unfold ws_register in H. destruct (sv_tasks s !! h) as [[|[] cfg' rq id sink svc]|] eqn:El; simplify_eq.
    destruct (on_manager_same (sc_connection_manager cfg') (ConnectionManager.register_connection id sink) s) as [H1 H2].
    apply balanced_same; [done|]. pose proof (live_replace h _ (TkWs WsUpgrading cfg' rq id sink svc) _ El).
    cbn in *. lia.
  - unfold ws_upgrade in H. destruct (sv_tasks s !! h) as [[|[] cfg' rq id sink svc]|] eqn:El; simplify_eq.
    destruct up; [|by apply (end_task_balanced h _ s (sv_w s) El)]. apply balanced_same; [done|].
    pose proof (live_replace h _ (TkWs WsRunning cfg' rq id sink svc) _ El). cbn in *. lia.
  - unfold ws_end in H. destruct (sv_tasks s !! h) as [[|[] cfg' rq id sink svc]|] eqn:El; simplify_eq.
    pose proof (live_replace h _ (TkWs WsEnded cfg' rq id sink svc) _ El). split; cbn in *; [done|lia].
  - unfold ws_panic in H. destruct (sv_tasks s !! h) as [[|[] cfg' rq id sink svc]|] eqn:El; simplify_eq.
    by apply (end_task_balanced h _ s (sv_w s) El).
  - unfold ws_unregister in H. destruct (sv_tasks s !! h) as [[|[] cfg' rq id sink svc]|] eqn:El; simplify_eq.
    destruct (on_manager_same (sc_connection_manager cfg') (ConnectionManager.unregister_connection id) s) as [H1 H2].
    apply balanced_same; [done|]. cbn. pose proof (live_delete _ _ _ El). cbn in *. lia.
  - unfold stop. by destruct (is_stopped s).
Qed.

(** *** The accept loop *)
Definition loop_state (s : Server U) :=
  (sv_conns s, sv_accepted s, sv_id s, sv_stop s, sv_accepting s, sv_finished s).
Definition loop_ok (s : Server U) : Prop :=
  (sv_accepting s = false → sv_stop s = true) ∧
  (sv_finished s = true → sv_accepting s = false ∧ sv_conns s = ∅) ∧
  sv_id s = (sv_accepted s mod (u32_max + 1))%N ∧
  ∀ n d, sv_conns s !! n = Some d →
    (n < sv_accepted s)%N ∧ sd_conn_id d = (n mod (u32_max + 1))%N ∧ sd_server_cfg d = cfg ∧ sd_methods d = methods.
Lemma loop_ok_same s s' : loop_state s' = loop_state s → loop_ok s → loop_ok s'.
Proof. unfold loop_state, loop_ok. by intros [= -> -> -> -> -> ->]. Qed.
Lemma loop_on_manager m f s : loop_state (on_manager m f s) = loop_state s.
Proof. by destruct m. Qed.
Lemma loop_call d request s : loop_state (TowerServiceNoHttp.call d request s).2 = loop_state s.
Proof.
  unfold TowerServiceNoHttp.call, TowerServiceNoHttp.ws_service. destruct (ConnectionGuard.try_acquire _); [|done].
  cbn zeta. destruct (sc_enable_ws _ && _); [by destruct (receive_request _)|]. by destruct (sc_enable_http _ && _).
Qed.
Lemma loop_task h s s' : http_cancel h s = Some s' ∨ ws_register h s = Some s' ∨ (∃ up, ws_upgrade h up s = Some s') ∨
  ws_end h s = Some s' ∨ ws_panic h s = Some s' ∨ ws_unregister h s = Some s' ∨ (∃ r, http_run rest h s = Some (r, s')) →
  loop_state s' = loop_state s.
Proof.
  intros [H|[H|[[up H]|[H|[H|[H|[r H]]]]]]];
    unfold http_cancel, ws_register, ws_upgrade, ws_end, ws_panic, ws_unregister, http_run in H;
    (destruct (sv_tasks s !! h) as [[c q svc|[] c q id sink svc]|]; [..|done]); simplify_eq; try done.
  - exact (loop_on_manager (sc_connection_manager c) (ConnectionManager.register_connection id sink) s).
  - by destruct up.
  - exact (loop_on_manager (sc_connection_manager c) (ConnectionManager.unregister_connection id) s).
  - destruct (call_with_service _ _ _ _) as [[|[]] w]; by simplify_eq.
Qed.
Lemma step_loop_ok s s' : step s s' → loop_ok s → loop_ok s'.
Proof.
  intros H Hl. destruct H as [b Ha|c d request _|h r s' H|h s' H|h s' H|h up s' H|h s' H|h s' H|h s' H|c| | |Hs|Ha Hc|w].
  2: by apply (loop_ok_same s); [apply loop_call|].
  2-8: apply (loop_ok_same s); [eapply (loop_task h); eauto 9|done].
  all: destruct Hl as (H1 & H2 & H3 & H4).
  - split; [|split; [|split]]; cbn.
    + congruence.
    + intros Hf. destruct (H2 Hf) as [? _]. congruence.
    + unfold wrapping_add. rewrite H3. by rewrite N.Div0.add_mod_idemp_l.
    + intros n d Hn. assert (sv_conns s !! n = Some d ∨ n = sv_accepted s ∧ d = MkServiceData methods (sv_id s) cfg)
        as [Ho|[-> ->]].
      { destruct b; [|by left]. unfold process_connection in *; apply lookup_insert_Some in Hn as [[<- <-]|[_ ?]]; eauto. }
      * destruct (H4 n d Ho) as (? & ? & ?). split; [lia|done].
      * cbn. split; [lia|done].
  - split; [done|]. split; [|split; [done|]]; cbn.
    + intros Hf. destruct (H2 Hf) as [? ->]. split; [done|apply delete_empty].
    + intros n d [_ Hn]%lookup_delete_Some. by apply H4.
  - unfold stop. destruct (is_stopped s); by split.
  - by split.
  - split; [done|]. split; [|by split]. intros Hf. split; [done|by apply H2].
  - split; [done|]. by split.
  - by split.
Qed.

(** Nothing takes a stop back. *)
Lemma stop_kept s s' : step s s' → sv_stop s = true → sv_stop s' = true.
Proof.
  intros H Hs. destruct H as [b|c d request _|h r s' H|h s' H|h s' H|h up s' H|h s' H|h s' H|h s' H|c| | | | |w]; try done.
  2-8: assert (loop_state s' = loop_state s) as E by (eapply (loop_task h); eauto 9);
    injection E as _ _ _ Es _ _; by rewrite Es.
  - pose proof (loop_call d request s) as E. injection E as _ _ _ Es _ _. by rewrite Es.
  - unfold stop. by destruct (is_stopped s).
Qed.
Lemma reachable_ok s : reachable s → guard_ok s ∧ loop_ok s.
Proof.
  induction 1 as [w m|s s' _ [[Hm Ha] IHl] Hs].
  - split; [split; cbn; [done|]|].
    + unfold live. rewrite map_filter_empty, map_size_empty. lia.
    + split; [done|]. split; [done|]. split; [done|]. intros n d. cbn. by rewrite lookup_empty.
  - destruct (step_balanced s s' Hs) as [Hm' Ha']. split; [|by eapply step_loop_ok].
    split; [by rewrite Hm'|]. by rewrite Ha'.
Qed.

(** Identifiers of connections are those of the order they were accepted in; they
    repeat after 2^32 connections. *)
Lemma conn_ids_distinct s n1 n2 d1 d2 : reachable s → sv_conns s !! n1 = Some d1 → sv_conns s !! n2 = Some d2 →
  (n1 < n2)%N → (n2 - n1 <= u32_max)%N → sd_conn_id d1 ≠ sd_conn_id d2.
Proof.
  intros [_ (_ & _ & _ & Hn)]%reachable_ok H1 H2 Hlt Hd. destruct (Hn _ _ H1) as (_ & -> & _).
  destruct (Hn _ _ H2) as (_ & -> & _). intros E. unfold u32_max in *. change (4294967295 + 1)%N with 4294967296%N in E.
  pose proof (N.div_mod' n1 4294967296). pose proof (N.div_mod' n2 4294967296).
  rewrite E in *. lia.
Qed.

(** C14: the limit on connections holds, and is not stricter than it says: in every
    reachable state the permits that are free and the requests and WebSockets that
    are alive make up [max_connections].  A request is answered with 429, without
    any effect, when all of them are in use, and otherwise goes where the
    configuration sends it: a WebSocket that is not allowed, or a call over HTTP
    that is not, is denied and gives its permit back, as does a refused upgrade. *)
Theorem connections_bounded s d c request : reachable s → sv_conns s !! c = Some d →
  let '(r, s') := TowerServiceNoHttp.call d request s in
  let request' := TowerServiceNoHttp.extend (sd_conn_id d) request in
  (sem_available (sv_guard s) + N.of_nat (live (sv_tasks s)) = sc_max_connections cfg)%N ∧
  if decide (N.of_nat (live (sv_tasks s)) = sc_max_connections cfg)
  then r = RpReady response.too_many_requests ∧ s' = s
  else if sc_enable_ws cfg && is_upgrade_request request' then
    match receive_request request' with
    | Ok response => r = RpReady response ∧ live (sv_tasks s') = S (live (sv_tasks s)) ∧
        ∃ h sink svc, sv_tasks s' !! h = Some (TkWs WsSpawned cfg request' (sd_conn_id d) sink svc) ∧
          rs_methods svc = methods ∧ cc_closed (get_chan (ms_tx sink) (fst (sv_w s'))) = false
    | Err e => r = RpReady (TowerServiceNoHttp.not_upgraded e) ∧ s' = s
    end
  else if sc_enable_http cfg && negb (is_upgrade_request request') then
    ∃ h, r = RpFuture h ∧ live (sv_tasks s') = S (live (sv_tasks s)) ∧
      sv_tasks s' !! h = Some (TkHttp cfg request' (TowerServiceNoHttp.http_service d))
  else r = RpReady response.denied ∧ s' = s.
Proof.
  intros [[Hm Ha] (_ & _ & _ & Hn)]%reachable_ok Hc. destruct (Hn _ _ Hc) as (_ & _ & Ec & Em).
  destruct (decide (N.of_nat (live (sv_tasks s)) = sc_max_connections cfg)) as [Hl|Hl].
  - unfold TowerServiceNoHttp.call, ConnectionGuard.try_acquire. by rewrite decide_False by lia.
  - pose proof (call_cases d request s ltac:(lia)) as H. rewrite Ec, Em in H.
    destruct (TowerServiceNoHttp.call d request s) as [r s']. split; [done|]. apply H.
Qed.

(** No task that holds a permit is left then. *)
Lemma stopped_holds (s : Server U) h t : is_stopped s = true → sv_tasks s !! h = Some t → holds t = false.
Proof.
  unfold is_stopped. intros [_ Ht%bool_decide_eq_true]%andb_prop Hl. destruct (holds t) eqn:E; [|done].
  assert (filter (λ t, holds t.2 = true) (sv_tasks s) !! h = Some t) as Hx
    by by apply map_lookup_filter_Some. by rewrite Ht in Hx.
Qed.

(** C34: when the server reports that it has stopped, it has: the accept loop has
    returned after a stop or the drop of the handles, no connection is served, no request or WebSocket is
    running, every permit has come back, and this stays so; stopping it again is
    an error. *)
Theorem stopped_server_idle s : reachable s → is_stopped s = true →
  sv_stop s = true ∧ sv_accepting s = false ∧ sv_conns s = ∅ ∧
  (∀ h t, sv_tasks s !! h = Some t → holds t = false) ∧
  sem_available (sv_guard s) = sc_max_connections cfg ∧
  stop s = (Err (), s) ∧ ∀ s', step s s' → is_stopped s' = true.
Proof.
  intros [[Hm Ha] (H1 & H2 & _)]%reachable_ok Hst. assert (stop s = (Err (), s)) as Hs by (unfold stop; by rewrite Hst).
  assert (∀ h t, sv_tasks s !! h = Some t → holds t = false) as Hh by (intros h t; by apply stopped_holds).
  unfold is_stopped in *. apply andb_prop in Hst as [[Hf Hc]%andb_prop Ht].
  apply bool_decide_eq_true in Hc, Ht. destruct (H2 Hf) as [Hacc _].
  split; [by apply H1|]. do 2 (split; [done|]). split; [done|]. split.
  { unfold live in Ha. rewrite Ht, map_size_empty in Ha. lia. }
  split; [done|].
  intros s' H. destruct H as [b Hx|c d request Hx|h r s' H|h s' H|h s' H|h up s' H|h s' H|h s' H|h s' H|c| | |Hx|Hx _|w].
  - congruence.
  - by rewrite Hc in Hx.
  - unfold http_run in H. destruct (sv_tasks s !! h) as [[]|] eqn:El; try done. by apply Hh in El.
  - unfold http_cancel in H. destruct (sv_tasks s !! h) as [[]|] eqn:El; try done. by apply Hh in El.
  - unfold ws_register in H. destruct (sv_tasks s !! h) as [[|[]]|] eqn:El; try done. by apply Hh in El.
  - unfold ws_upgrade in H. destruct (sv_tasks s !! h) as [[|[]]|] eqn:El; try done. by apply Hh in El.
  - unfold ws_end in H. destruct (sv_tasks s !! h) as [[|[]]|] eqn:El; try done. by apply Hh in El.
  - unfold ws_panic in H. destruct (sv_tasks s !! h) as [[|[]]|] eqn:El; try done. by apply Hh in El.
  - assert (loop_state s' = loop_state s) as E by (apply (loop_task h); eauto 7). injection E as Ec _ _ _ _ Ef.
    rewrite Ef, Ec, Hf, (bool_decide_true (sv_conns s = ∅)) by done. cbn. apply bool_decide_eq_true.
    unfold ws_unregister in H. destruct (sv_tasks s !! h) as [[|[] c q id sink svc]|] eqn:El; simplify_eq. cbn.
    destruct (on_manager_same (sc_connection_manager c) (ConnectionManager.unregister_connection id) s) as [_ ?].
    by rewrite map_filter_delete, Ht, delete_empty.
  - cbn. rewrite Hf, Hc, delete_empty, Ht. by rewrite !bool_decide_true.
  - rewrite Hs. cbn. rewrite Hf, Hc, Ht. by rewrite !bool_decide_true.
  - cbn. rewrite Hf, Hc, Ht. by rewrite !bool_decide_true.
  - cbn. rewrite Hf, Hc, Ht. by rewrite !bool_decide_true.
  - cbn. rewrite Hc, Ht. by rewrite !bool_decide_true.
  - cbn. rewrite Hf, Hc, Ht. by rewrite !bool_decide_true.
Qed.
End Steps.

(** ** What the builders can build *)
Section Built.
Context {X : HttpExtensions} {U : Type}.
Notation Builder := (ServerConfigBuilder U).

Inductive ping_built : PingConfig → Prop :=
| pb_new : ping_built PingConfig.new
| pb_interval d p : ping_built p → ping_built (PingConfig.ping_interval d p)
| pb_limit d p : ping_built p → ping_built (PingConfig.inactive_limit d p)
| pb_failures n p p' : ping_built p → PingConfig.max_failures n p = Ok p' → ping_built p'.
(** Every chain of calls that does not panic. *)
Inductive built : Builder → Prop :=
| bd_new rand : built (ServerConfigBuilder.new rand)
| bd_request n b : built b → (n <= u32_max)%N → built (ServerConfigBuilder.max_request_body_size n b)
| bd_response n b : built b → (n <= u32_max)%N → built (ServerConfigBuilder.max_response_body_size n b)
| bd_connections n b : built b → (n <= u32_max)%N → built (ServerConfigBuilder.max_connections n b)
| bd_subscriptions n b : built b → (n <= u32_max)%N → built (ServerConfigBuilder.max_subscriptions_per_connection n b)
| bd_batch c b : built b → built (ServerConfigBuilder.set_batch_request_config c b)
| bd_runtime rt b : built b → built (ServerConfigBuilder.custom_tokio_runtime rt b)
| bd_http b : built b → built (ServerConfigBuilder.http_only b)
| bd_ws b : built b → built (ServerConfigBuilder.ws_only b)
| bd_capacity n b b' : built b → (n <= u32_max)%N → ServerConfigBuilder.set_message_buffer_capacity n b = Ok b' → built b'
| bd_ping p b : built b → ping_built p → built (ServerConfigBuilder.enable_ws_ping p b)
| bd_no_ping b : built b → built (ServerConfigBuilder.disable_ws_ping b)
| bd_provider p b : built b → built (ServerConfigBuilder.set_id_provider p b)
| bd_no_delay n b : built b → built (ServerConfigBuilder.set_tcp_no_delay n b)
| bd_encryption e b : built b → built (ServerConfigBuilder.set_message_encryption e b)
| bd_policy p b : built b → built (ServerConfigBuilder.set_message_crypto_error_policy p b)
| bd_manager m b : built b → built (ServerConfigBuilder.set_connection_manager m b).

Lemma ping_built_iff p : ping_built p ↔ (0 < pc_max_failures p)%N.
Proof.
  split.
  - induction 1 as [|d p _ IH|d p _ IH|n p p' _ _ H]; cbn; [lia|done..|].
    unfold PingConfig.max_failures in H. case_decide; by simplify_eq.
  - destruct p as [i l m]. cbn. intros Hm.
    apply (pb_failures m (MkPingConfig i l 1)); [|unfold PingConfig.max_failures; by rewrite decide_True].
    exact (pb_limit l _ (pb_interval i _ pb_new)).
Qed.

(** A configuration the builder gives always has a transport enabled, a buffer
    with room for a message, and allows at least one missed ping, so that no
    server or connection starts in a state it cannot work in; and every
    configuration like this can be built. *)
Theorem config_well_formed (c : ServerConfig U) :
  (∃ b, built b ∧ ServerConfigBuilder.build b = c) ↔
  (0 < sc_message_buffer_capacity c)%N ∧ (sc_enable_http c = true ∨ sc_enable_ws c = true) ∧
  (∀ p, sc_ping_config c = Some p → (0 < pc_max_failures p)%N) ∧
  Forall (λ n, n <= u32_max)%N [sc_max_request_body_size c; sc_max_response_body_size c; sc_max_connections c;
    sc_max_subscriptions_per_connection c; sc_message_buffer_capacity c].
Proof.
  rewrite !Forall_cons, Forall_nil. split.
  - intros (b & Hb & <-). assert (1024 <= u32_max ∧ TEN_MB_SIZE_BYTES <= u32_max ∧ MAX_CONNECTIONS <= u32_max)%N
      as (E1 & E2 & E3) by (vm_compute; repeat split; discriminate).
    induction Hb as [| | | | | | | | |n b b' _ IH Hn H| | | | | | |];
      try (unfold ServerConfigBuilder.set_message_buffer_capacity in H; case_decide; simplify_eq);
      cbn in *; try tauto.
    + split; [lia|]. split; [by left|]. split; [done|]. tauto.
    + destruct IHHb as (? & ? & _ & ?). split; [done|]. split; [done|]. split; [|done].
      intros p' [= <-]. by apply ping_built_iff.
    + destruct IHHb as (? & ? & _ & ?). done.
  - intros (Hc & Ht & Hp & H1 & H2 & H3 & H4 & H5 & _).
    destruct c as [q r m sub br rt h ws cap ping idp nd enc pol mgr]. cbn in *.
    set (b0 := ServerConfigBuilder.set_message_crypto_error_policy pol (ServerConfigBuilder.set_tcp_no_delay nd
      (ServerConfigBuilder.set_batch_request_config br (ServerConfigBuilder.max_subscriptions_per_connection sub
      (ServerConfigBuilder.max_connections m (ServerConfigBuilder.max_response_body_size r
      (ServerConfigBuilder.max_request_body_size q (ServerConfigBuilder.new idp)))))))).
    assert (built b0) as B0 by (by apply bd_policy, bd_no_delay, bd_batch, bd_subscriptions;
      [apply bd_connections; [apply bd_response; [apply bd_request; [apply bd_new|]|]|]|]).
    set (b1 := match h, ws with true, false => ServerConfigBuilder.http_only b0
                              | false, true => ServerConfigBuilder.ws_only b0 | _, _ => b0 end).
    set (b2 := match rt with Some rt => ServerConfigBuilder.custom_tokio_runtime rt b1 | None => b1 end).
    set (b3 := match enc with Some e => ServerConfigBuilder.set_message_encryption e b2 | None => b2 end).
    set (b4 := match mgr with Some m => ServerConfigBuilder.set_connection_manager m b3 | None => b3 end).
    set (b5 := match ping with Some p => ServerConfigBuilder.enable_ws_ping p b4 | None => b4 end).
    assert (built b5) as B5.
    { assert (built b1) as B1 by (unfold b1; destruct h, ws; [done|by apply bd_http|by apply bd_ws|done]).
      assert (built b2) as B2 by (unfold b2; destruct rt; [by apply bd_runtime|done]).
      assert (built b3) as B3 by (unfold b3; destruct enc; [by apply bd_encryption|done]).
      assert (built b4) as B4 by (unfold b4; destruct mgr; [by apply bd_manager|done]).
      unfold b5. destruct ping as [p|]; [|done]. apply bd_ping; [done|]. by apply ping_built_iff, Hp. }
    eexists. split.
    + apply (bd_capacity cap b5); [done|done|]. unfold ServerConfigBuilder.set_message_buffer_capacity.
      by rewrite decide_True.
    + subst b5 b4 b3 b2 b1 b0. destruct h, ws, rt, enc, mgr, ping; try done; by destruct Ht.
Qed.
End Built.

(** ** Witnesses *)
Section ServerWitnesses.
#[local] Existing Instance ref_json.
#[local] Existing Instance ref_ext.
#[local] Existing Instance ref_libs.
#[local] Instance ref_conn_ext : ExtKey ConnectionId := {|
  ext_get := λ l, head l ≫= parse_u64;
  ext_insert := λ c (l : list string), to_dec c :: l
|}.
#[local] Instance ref_guard_ext : ExtKey GuardRef := {|
  ext_get := λ _, Some TheGuard;
  ext_insert := λ _ l, l
|}.
#[local] Instance ref_handshake : Handshake := {|
  is_upgrade_request := λ r, existsb (λ h, bool_decide (h = ("upgrade", Some "websocket"))) (hq_headers r);
  receive_request := λ _, Ok (MkHttpResponse 101 "" "" ext_new)
|}.

Definition ex_config : ServerConfig unit :=
  ServerConfigBuilder.build (ServerConfigBuilder.max_connections 1 (ServerConfigBuilder.new (mret (SubNum 3)))).
Definition ex_start : Server unit := init ex_config (ex_world, ()) ∅.
Definition ex_upgrade : HttpRequest := ex_post [("upgrade", Some "websocket")] "".
Definition ex_data : ServiceData unit := MkServiceData ex_module 0 ex_config.
Definition ex_busy : Server unit :=
  (TowerServiceNoHttp.call ex_data ex_upgrade (accept_conn ex_module ex_config true ex_start)).2.

Lemma connections_bounded_witness :
  TowerServiceNoHttp.call ex_data (ex_post [] "{}") ex_busy = (RpReady response.too_many_requests, ex_busy).
Proof.
  pose proof (connections_bounded ex_rest ex_module ex_config ex_busy ex_data 0 (ex_post [] "{}")) as H.
  destruct (TowerServiceNoHttp.call ex_data (ex_post [] "{}") ex_busy) as [r s'].
  destruct H as [_ H].
  - eapply reach_step; [eapply reach_step; [apply reach_init|by apply (step_accept _ _ _ _ true)]|].
    apply (step_request _ _ _ _ 0 ex_data). reflexivity.
  - reflexivity.
  - rewrite decide_True in H by (vm_compute; reflexivity). by destruct H as [-> ->].
Defined.

Lemma stopped_server_idle_witness :
  let s := start_inner_return (accept_shutdown (stop ex_start).2) in stop s = (Err (), s).
Proof.
  intros s. apply (stopped_server_idle ex_rest ex_module ex_config s).
  - eapply reach_step; [eapply reach_step; [eapply reach_step; [apply reach_init|apply step_stop]|]|].
    + by apply step_accept_shutdown.
    + by apply step_return.
  - vm_compute. reflexivity.
Defined.
End ServerWitnesses.
