(* ===== verification/ServerBuilder.v ===== *)
(** From the settings to a running server, and back: the builders, [start] and
    [TowerServiceBuilder] of [server/src/server.rs], and the handles that stop a
    server, [server/src/future.rs].

    The middleware only passes through; it is of any type.  [Server.v] has the
    server that [start] sets off; there [sv_stop] is what the [StopHandle]s see. *)
From stdpp Require Import base gmap strings list.
From S2P Require Import Prelude Serde RefJson Errors Params Wire Middleware MethodResponse Subscription RpcModule RpcService Http WsServer Server.

(** ** Handles

    A [watch] channel: its version counts what was sent; a receiver knows the
    version it has seen. *)
Record Watch : Type := MkWatch {
  wt_version : N;
  wt_senders : nat;
  wt_receivers : gmap nat N
}.
Module Watch.
Definition channel : Watch := MkWatch 0 1 {[0 := 0%N]}.
Definition is_closed (w : Watch) : bool := bool_decide (wt_receivers w = ∅).
Definition send (w : Watch) : Result unit Watch :=
  if is_closed w then Err () else Ok (MkWatch (wt_version w + 1) (wt_senders w) (wt_receivers w)).
(** [changed]: ready with a version that was not seen, or without senders. *)
Definition changed (h : nat) (w : Watch) : option (Result unit unit * Watch) :=
  seen ← wt_receivers w !! h;
  if decide (seen ≠ wt_version w) then
    Some (Ok (), MkWatch (wt_version w) (wt_senders w) (<[h := wt_version w]> (wt_receivers w)))
  else if decide (wt_senders w = 0) then Some (Err (), w) else None.
Definition clone_rx (h : nat) (w : Watch) : option (nat * Watch) :=
  seen ← wt_receivers w !! h;
  let h' := fresh (dom (wt_receivers w)) in
  Some (h', MkWatch (wt_version w) (wt_senders w) (<[h' := seen]> (wt_receivers w))).
Definition drop_rx (h : nat) (w : Watch) : Watch :=
  MkWatch (wt_version w) (wt_senders w) (delete h (wt_receivers w)).
End Watch.

Module StopHandle.
(** [shutdown] consumes the handle; its receiver goes when the future is done. *)
Definition shutdown (h : nat) (w : Watch) : option Watch := (λ '(_, w), Watch.drop_rx h w) <$> Watch.changed h w.
End StopHandle.
Module ServerHandle.
Definition stop (w : Watch) : Result unit Watch := Watch.send w.
Definition is_stopped (w : Watch) : bool := Watch.is_closed w.
(** [stopped]: [None] while it waits. *)
Definition stopped (w : Watch) : option unit := if Watch.is_closed w then Some () else None.
(** The handle is an [Arc] of the sender. *)
Definition clone (w : Watch) : Watch := MkWatch (wt_version w) (S (wt_senders w)) (wt_receivers w).
Definition drop (w : Watch) : Watch := MkWatch (wt_version w) (wt_senders w - 1) (wt_receivers w).
End ServerHandle.
Definition stop_channel : nat * Watch := (0, Watch.channel).

(** What is done with the handles, by whoever has them. *)
Inductive HandleEvent : Type :=
| HeStop | HeCloneServer | HeDropServer
| HeCloneStop (h : nat) | HeDropStop (h : nat) | HeShutdown (h : nat).
Definition handle_step (e : HandleEvent) (w : Watch) : option Watch :=
  match e with
  | HeStop => if decide (wt_senders w = 0) then None else Some (match ServerHandle.stop w with Ok w => w | Err _ => w end)
  | HeCloneServer => if decide (wt_senders w = 0) then None else Some (ServerHandle.clone w)
  | HeDropServer => if decide (wt_senders w = 0) then None else Some (ServerHandle.drop w)
  | HeCloneStop h => snd <$> Watch.clone_rx h w
  | HeDropStop h => Some (Watch.drop_rx h w)
  | HeShutdown h => StopHandle.shutdown h w
  end.
Definition run_handles (es : list HandleEvent) (w : Watch) : option Watch := foldl (λ o e, o ≫= handle_step e) (Some w) es.
(** A stop succeeds when somebody is left to be stopped. *)
Definition stops (es : list HandleEvent) (w : Watch) : bool :=
  existsb (λ n, match run_handles (take n es) w, es !! n with
                | Some w, Some HeStop => negb (Watch.is_closed w)
                | _, _ => false
                end) (seq 0 (length es)).

Section Handles.
(** Handles that live have seen nothing: who has seen a stop is gone. *)
Definition unseen (w : Watch) : Prop := map_Forall (λ _ seen, seen = 0%N) (wt_receivers w).
Lemma run_handles_snoc es e w : run_handles (es ++ [e]) w = run_handles es w ≫= handle_step e.
Proof. unfold run_handles. by rewrite foldl_app. Qed.
Lemma handle_step_unseen e w w' : handle_step e w = Some w' → unseen w → unseen w'.
Proof.
  unfold unseen. destruct e; cbn; try (case_decide; [done|]).
  - unfold ServerHandle.stop, Watch.send. destruct (Watch.is_closed w); by intros [= <-].
  - by intros [= <-].
  - by intros [= <-].
  - unfold Watch.clone_rx. destruct (wt_receivers w !! h) as [seen|] eqn:E; [|done]. cbn. intros [= <-] Hu. cbn.
    apply map_Forall_insert_2; [by apply (Hu h)|done].
  - intros [= <-] Hu. by apply map_Forall_delete.
  - unfold StopHandle.shutdown, Watch.changed. destruct (wt_receivers w !! h) as [seen|] eqn:E; [|done]. cbn.
    repeat case_decide; try done; intros [= <-] Hu; cbn; [rewrite delete_insert_eq|]; by apply map_Forall_delete.
Qed.
Lemma stops_snoc es e w w1 : run_handles es w = Some w1 →
  stops (es ++ [e]) w = stops es w || match e with HeStop => negb (Watch.is_closed w1) | _ => false end.
Proof.
  intros Hr. unfold stops. rewrite length_app, seq_app, existsb_app. cbn [length seq existsb]. rewrite orb_false_r. f_equal.
  - apply Bool.eq_iff_eq_true. rewrite !existsb_exists. split; intros (n & Hn & H); exists n; (split; [done|]);
      apply in_seq in Hn; revert H; rewrite lookup_app_l, take_app_le by lia; done.
  - rewrite Nat.add_0_l, take_app_length, Hr, list_lookup_middle by done. by destruct e.
Qed.
Lemma handles_invariant es w : run_handles es Watch.channel = Some w →
  unseen w ∧ (wt_version w = 0%N ↔ stops es Watch.channel = false).
Proof.
  revert w. induction es as [|e es IH] using rev_ind; intros w.
  - intros [= <-]. split; [|done]. by apply map_Forall_singleton.
  - rewrite run_handles_snoc. intros Hr. apply bind_Some in Hr as (w1 & Hr & Hs).
    destruct (IH _ Hr) as [Hu Hv]. split; [by eapply handle_step_unseen|].
    rewrite (stops_snoc _ _ _ _ Hr), orb_false_iff, <-Hv. destruct e; cbn in Hs; try (case_decide; [done|]).
    + unfold ServerHandle.stop, Watch.send in Hs. destruct (Watch.is_closed w1); injection Hs as <-; cbn; [tauto|].
      split; [lia|]. by intros [_ ?].
    + injection Hs as <-. cbn. tauto.
    + injection Hs as <-. cbn. tauto.
    + unfold Watch.clone_rx in Hs. destruct (wt_receivers w1 !! h); [|done]. injection Hs as <-. cbn. tauto.
    + injection Hs as <-. cbn. tauto.
    + unfold StopHandle.shutdown, Watch.changed in Hs. destruct (wt_receivers w1 !! h); [|done]. cbn in Hs.
      repeat case_decide; try done; injection Hs as <-; cbn; tauto.
Qed.

(** A stop reaches everybody.  Once a [ServerHandle] was told to stop while
    some part of the server lived, or the last of them is dropped, [shutdown] of
    every [StopHandle] that lives is done, also of one that is cloned afterwards;
    before that, none is.  The server counts as stopped when no [StopHandle] is
    left; then a stop is an error, and before it a stop succeeds. *)
Theorem stop_reaches_all (es : list HandleEvent) (w : Watch) : run_handles es Watch.channel = Some w →
  let stopping := stops es Watch.channel || bool_decide (wt_senders w = 0) in
  (∀ h, is_Some (wt_receivers w !! h) →
    if stopping then is_Some (StopHandle.shutdown h w) else StopHandle.shutdown h w = None) ∧
  (stopping = true → ∀ h h' w', Watch.clone_rx h w = Some (h', w') → is_Some (StopHandle.shutdown h' w')) ∧
  (ServerHandle.is_stopped w = true ↔ ∀ h, wt_receivers w !! h = None) ∧
  (ServerHandle.is_stopped w = true → ServerHandle.stopped w = Some () ∧ ServerHandle.stop w = Err ()) ∧
  (ServerHandle.is_stopped w = false → ServerHandle.stopped w = None ∧ is_ok (ServerHandle.stop w) = true).
Proof.
  intros Hr stopping. destruct (handles_invariant _ _ Hr) as [Hu Hv].
  assert (∀ h w, unseen w → is_Some (wt_receivers w !! h) → wt_version w ≠ 0%N ∨ wt_senders w = 0 →
    is_Some (StopHandle.shutdown h w)) as Hready.
  { clear. intros h w Hu [seen Hs] H. pose proof (Hu _ _ Hs) as ->. unfold StopHandle.shutdown, Watch.changed. rewrite Hs. cbn.
    case_decide; [by eexists|]. case_decide; [by eexists|]. destruct H; [congruence|done]. }
  assert (stopping = true → wt_version w ≠ 0%N ∨ wt_senders w = 0) as Hst.
  { unfold stopping. intros [H|H]%orb_true_iff; [left; intros E; apply Hv in E; congruence|right; by apply bool_decide_eq_true in H]. }
  split_and!.
  - intros h Hh. destruct stopping eqn:Es; [by apply Hready; auto|]. unfold stopping in Es.
    apply orb_false_iff in Es as [Es1 Es2]. apply Hv in Es1. apply bool_decide_eq_false in Es2. destruct Hh as [seen Hs].
    pose proof (Hu _ _ Hs) as ->. unfold StopHandle.shutdown, Watch.changed. rewrite Hs. cbn. by rewrite !decide_False by congruence.
  - intros Es h h' w'. unfold Watch.clone_rx. destruct (wt_receivers w !! h) as [seen|] eqn:E; [|done]. intros [= <- <-].
    apply Hready; cbn; [|by rewrite lookup_insert_eq|by apply Hst]. apply map_Forall_insert_2; [by apply (Hu h)|done].
  - unfold ServerHandle.is_stopped, Watch.is_closed. rewrite bool_decide_eq_true. split; [intros -> h; apply lookup_empty|].
    intros H. by apply map_empty.
  - unfold ServerHandle.is_stopped, ServerHandle.stopped, ServerHandle.stop, Watch.send. by intros ->.
  - unfold ServerHandle.is_stopped, ServerHandle.stopped, ServerHandle.stop, Watch.send. by intros ->.
Qed.
End Handles.

(** ** Builders

    The counters of connection identifiers and the guards are shared by the clones
    of what holds them; [start] moves the settings. *)
Record Shared : Type := MkShared { sh_counters : gmap nat N; sh_guards : gmap nat Semaphore }.
Definition new_counter (id : N) (sh : Shared) : nat * Shared :=
  let h := fresh (dom (sh_counters sh)) in (h, MkShared (<[h := id]> (sh_counters sh)) (sh_guards sh)).
Definition new_guard (limit : N) (sh : Shared) : nat * Shared :=
  let h := fresh (dom (sh_guards sh)) in
  (h, MkShared (sh_counters sh) (<[h := ConnectionGuard.new limit]> (sh_guards sh))).

Record Builder {X : HttpExtensions} (U H R : Type) : Type := MkBuilder {
  bu_server_cfg : ServerConfig U;
  bu_rpc_middleware : R;
  bu_http_middleware : H
}.
(** A bound [Server], before [start]. *)
Record IdleServer {X : HttpExtensions} (U H R Listener : Type) : Type := MkIdleServer {
  is_listener : Listener;
  is_server_cfg : ServerConfig U;
  is_rpc_middleware : R;
  is_http_middleware : H
}.
Record TowerServiceBuilder {X : HttpExtensions} (U R H : Type) : Type := MkTowerServiceBuilder {
  tb_server_cfg : ServerConfig U;
  tb_rpc_middleware : R;
  tb_http_middleware : H;
  tb_conn_id : nat;
  tb_conn_guard : nat
}.
(** [ServiceData] has its guard and its [StopHandle] here; [on_session_close] of a
    new service is [None], see [WsSession.TowerSessions]. *)
Record TowerService {X : HttpExtensions} (U R H : Type) : Type := MkTowerService {
  ts_inner : ServiceData U;
  ts_stop_handle : nat;
  ts_conn_guard : nat;
  ts_rpc_middleware : R;
  ts_http_middleware : H
}.
Arguments MkBuilder {_ U H R}. Arguments MkIdleServer {_ U H R Listener}.
Arguments MkTowerServiceBuilder {_ U R H}. Arguments MkTowerService {_ U R H}.
Arguments bu_server_cfg {_ U H R}. Arguments bu_rpc_middleware {_ U H R}. Arguments bu_http_middleware {_ U H R}.
Arguments is_listener {_ U H R Listener}. Arguments is_server_cfg {_ U H R Listener}.
Arguments is_rpc_middleware {_ U H R Listener}. Arguments is_http_middleware {_ U H R Listener}.
Arguments tb_server_cfg {_ U R H}. Arguments tb_rpc_middleware {_ U R H}. Arguments tb_http_middleware {_ U R H}.
Arguments tb_conn_id {_ U R H}. Arguments tb_conn_guard {_ U R H}.
Arguments ts_inner {_ U R H}. Arguments ts_stop_handle {_ U R H}. Arguments ts_conn_guard {_ U R H}.
Arguments ts_rpc_middleware {_ U R H}. Arguments ts_http_middleware {_ U R H}.

Module TowerServiceBuilder.
Section Ops.
Context {X : HttpExtensions} {U R H : Type}.
Notation TowerServiceBuilder := (TowerServiceBuilder U R H).
(** [fetch_add] of an [AtomicU32] wraps around. *)
Definition build (methods : Methods U) (stop_handle : nat) (b : TowerServiceBuilder) (sh : Shared)
    : option (TowerService U R H * Shared) :=
  conn_id ← sh_counters sh !! tb_conn_id b;
  Some (MkTowerService (MkServiceData methods conn_id (tb_server_cfg b)) stop_handle (tb_conn_guard b)
          (tb_rpc_middleware b) (tb_http_middleware b),
        MkShared (<[tb_conn_id b := wrapping_add u32_max conn_id 1]> (sh_counters sh)) (sh_guards sh)).
Definition connection_id (id : N) (b : TowerServiceBuilder) (sh : Shared) : TowerServiceBuilder * Shared :=
  let '(c, sh) := new_counter id sh in
  (MkTowerServiceBuilder (tb_server_cfg b) (tb_rpc_middleware b) (tb_http_middleware b) c (tb_conn_guard b), sh).
Definition max_connections (limit : N) (b : TowerServiceBuilder) (sh : Shared) : TowerServiceBuilder * Shared :=
  let '(g, sh) := new_guard limit sh in
  (MkTowerServiceBuilder (tb_server_cfg b) (tb_rpc_middleware b) (tb_http_middleware b) (tb_conn_id b) g, sh).
Definition set_rpc_middleware {T} (rpc_middleware : T) (b : TowerServiceBuilder) : ServerBuilder.TowerServiceBuilder U T H :=
  MkTowerServiceBuilder (tb_server_cfg b) rpc_middleware (tb_http_middleware b) (tb_conn_id b) (tb_conn_guard b).
Definition set_http_middleware {T} (http_middleware : T) (b : TowerServiceBuilder) : ServerBuilder.TowerServiceBuilder U R T :=
  MkTowerServiceBuilder (tb_server_cfg b) (tb_rpc_middleware b) http_middleware (tb_conn_id b) (tb_conn_guard b).
End Ops.
End TowerServiceBuilder.

Module Builder.
Section Ops.
Context {X : HttpExtensions} {U H R : Type}.
Notation Builder := (Builder U H R).
Definition set_config (cfg : ServerConfig U) (b : Builder) : Builder :=
  MkBuilder cfg (bu_rpc_middleware b) (bu_http_middleware b).
Definition set_rpc_middleware {T} (rpc_middleware : T) (b : Builder) : ServerBuilder.Builder U H T :=
  MkBuilder (bu_server_cfg b) rpc_middleware (bu_http_middleware b).
Definition set_http_middleware {T} (http_middleware : T) (b : Builder) : ServerBuilder.Builder U T R :=
  MkBuilder (bu_server_cfg b) (bu_rpc_middleware b) http_middleware.
Definition with_cfg (b : Builder) (encryption : option MessageEncryption) (policy : MessageCryptoErrorPolicy) : Builder :=
  let c := bu_server_cfg b in
  set_config (MkServerConfig (sc_max_request_body_size c) (sc_max_response_body_size c) (sc_max_connections c)
    (sc_max_subscriptions_per_connection c) (sc_batch_requests_config c) (sc_tokio_runtime c) (sc_enable_http c)
    (sc_enable_ws c) (sc_message_buffer_capacity c) (sc_ping_config c) (sc_id_provider c) (sc_tcp_no_delay c)
    encryption policy (sc_connection_manager c)) b.
Definition set_message_encryption (encryption : MessageEncryption) (b : Builder) : Builder :=
  with_cfg b (Some encryption) (sc_message_crypto_error_policy (bu_server_cfg b)).
Definition set_message_crypto_error_policy (policy : MessageCryptoErrorPolicy) (b : Builder) : Builder :=
  with_cfg b (sc_message_encryption (bu_server_cfg b)) policy.
Definition to_service_builder (b : Builder) (sh : Shared) : TowerServiceBuilder U R H * Shared :=
  let '(conn_guard, sh) := new_guard (sc_max_connections (bu_server_cfg b)) sh in
  let '(conn_id, sh) := new_counter 0 sh in
  (MkTowerServiceBuilder (bu_server_cfg b) (bu_rpc_middleware b) (bu_http_middleware b) conn_id conn_guard, sh).

(** Binding a socket, and taking one over, is the runtime's. *)
Context {Addrs IoError Listener : Type} (bind : Addrs → Result IoError Listener).
Definition build (addrs : Addrs) (b : Builder) : Result IoError (IdleServer U H R Listener) :=
  match bind addrs with
  | Err e => Err e
  | Ok listener => Ok (MkIdleServer listener (bu_server_cfg b) (bu_rpc_middleware b) (bu_http_middleware b))
  end.
End Ops.
(** The layers of a new builder are [Identity]. *)
Definition with_config {X : HttpExtensions} {U} (config : ServerConfig U) : Builder U unit unit := MkBuilder config () ().
Definition default {X : HttpExtensions} {U} (rand : SM (W U) Panicked SubscriptionId) : Builder U unit unit :=
  with_config (ServerConfigBuilder.build (ServerConfigBuilder.new rand)).
End Builder.

Module IdleServer.
Section Ops.
Context {X : HttpExtensions} {U H R Listener : Type}.
(** [start] takes the runtime out of the settings; without one it spawns onto the
    current one, and panics where there is none.  The handle is the sender of the
    channel, the [StopHandle] that [start_inner] gets its receiver. *)
Definition start (methods : Methods U) (current : option nat) (w : W U)
    (managers : gmap nat (gmap ConnectionId MethodSink)) (s : IdleServer U H R Listener)
    : Result Panicked (nat * Watch * ServerConfig U * Server U) :=
  let c := is_server_cfg s in
  let '(stop_handle, handle) := stop_channel in
  let cfg := MkServerConfig (sc_max_request_body_size c) (sc_max_response_body_size c) (sc_max_connections c)
    (sc_max_subscriptions_per_connection c) (sc_batch_requests_config c) None (sc_enable_http c)
    (sc_enable_ws c) (sc_message_buffer_capacity c) (sc_ping_config c) (sc_id_provider c) (sc_tcp_no_delay c)
    (sc_message_encryption c) (sc_message_crypto_error_policy c) (sc_connection_manager c) in
  match sc_tokio_runtime c, current with
  | Some rt, _ | None, Some rt => Ok (rt, handle, cfg, init cfg w managers)
  | None, None => Err Panic
  end.
End Ops.
End IdleServer.

(** ** Services from clones of a builder *)
Section Tower.
Context {J : SerdeJson} {X : HttpExtensions} {XC : ExtKey ConnectionId} {XG : ExtKey GuardRef}.
Context {K : Handshake} {L : HttpLibs} {U R H : Type}.
Context (rest : SubscribeCall → W U → W U).

(** The services, what they share, and the rest of the process: [sv_guard] is the
    guard of the service at work. *)
Record Tower : Type := MkTower {
  to_services : list (TowerService U R H);
  to_shared : Shared;
  to_server : Server U
}.
Definition tower_call (t : TowerService U R H) (request : HttpRequest) (sh : Shared) (s : Server U)
    : option (Reply * Shared * Server U) :=
  g ← sh_guards sh !! ts_conn_guard t;
  let '(r, s) := TowerServiceNoHttp.call (ts_inner t) request (set_guard g s) in
  Some (r, MkShared (sh_counters sh) (<[ts_conn_guard t := sv_guard s]> (sh_guards sh)), s).

Inductive tower_step (b : TowerServiceBuilder U R H) (t : Tower) : Tower → Prop :=
| tower_build methods stop_handle svc sh :
    TowerServiceBuilder.build methods stop_handle b (to_shared t) = Some (svc, sh) →
    tower_step b t (MkTower (to_services t ++ [svc]) sh (to_server t))
| tower_request svc request r sh s : svc ∈ to_services t →
    tower_call svc request (to_shared t) (to_server t) = Some (r, sh, s) → tower_step b t (MkTower (to_services t) sh s)
(** A task of a request goes on; permits come back to the guard they are from. *)
| tower_task g methods cfg s : sh_guards (to_shared t) !! tb_conn_guard b = Some g →
    step rest methods cfg (set_guard g (to_server t)) s → loop_state s = loop_state (to_server t) →
    tower_step b t (MkTower (to_services t)
      (MkShared (sh_counters (to_shared t)) (<[tb_conn_guard b := sv_guard s]> (sh_guards (to_shared t)))) s)
(** Clones that are given a counter or a guard of their own. *)
| tower_own_id id : tower_step b t
    (MkTower (to_services t) (TowerServiceBuilder.connection_id id b (to_shared t)).2 (to_server t))
| tower_own_guard limit : tower_step b t
    (MkTower (to_services t) (TowerServiceBuilder.max_connections limit b (to_shared t)).2 (to_server t)).
Inductive tower_reachable (b : Builder U H R) (sh : Shared) (cfg : ServerConfig U) (w : W U) managers : Tower → Prop :=
| tower_start : tower_reachable b sh cfg w managers (MkTower [] (Builder.to_service_builder b sh).2 (init cfg w managers))
| tower_more t t' : tower_reachable b sh cfg w managers t →
    tower_step (Builder.to_service_builder b sh).1 t t' → tower_reachable b sh cfg w managers t'.

Definition tower_ok (b : TowerServiceBuilder U R H) (max : N) (t : Tower) : Prop :=
  (sh_counters (to_shared t) !! tb_conn_id b = Some (N.of_nat (length (to_services t)) mod (u32_max + 1))%N) ∧
  (∀ i svc, to_services t !! i = Some svc → sd_conn_id (ts_inner svc) = (N.of_nat i mod (u32_max + 1))%N ∧
     sd_server_cfg (ts_inner svc) = tb_server_cfg b ∧ ts_conn_guard svc = tb_conn_guard b) ∧
  ∃ g, sh_guards (to_shared t) !! tb_conn_guard b = Some g ∧ sem_max g = max ∧
    (sem_available g + N.of_nat (live (sv_tasks (to_server t))) = max)%N.

Lemma tower_call_eq svc request sh s g : sh_guards sh !! ts_conn_guard svc = Some g →
  let c := TowerServiceNoHttp.call (ts_inner svc) request (set_guard g s) in
  tower_call svc request sh s =
    Some (c.1, MkShared (sh_counters sh) (<[ts_conn_guard svc := sv_guard c.2]> (sh_guards sh)), c.2).
Proof. intros Hg. unfold tower_call. rewrite Hg. cbn. by destruct (TowerServiceNoHttp.call _ _ _). Qed.
Lemma fresh_ne {V} (m : gmap nat V) h : is_Some (m !! h) → fresh (dom m) ≠ h.
Proof. intros Hs <-. apply elem_of_dom in Hs. by apply (is_fresh (dom m)). Qed.
Lemma tower_step_ok b max t t' : tower_step b t t' → tower_ok b max t → tower_ok b max t'.
Proof.
  intros Hst (Hc & Hs & g & Hg & Hm & Ha). destruct Hst as [m sp svc sh Hb|svc rq r sh s Hin Hr|g' m c s Hg' Hr _|id|limit].
  - unfold TowerServiceBuilder.build in Hb. rewrite Hc in Hb. cbn in Hb. injection Hb as <- <-.
    split; [|split; [|by exists g]]; cbn.
    + rewrite lookup_insert_eq, length_app. unfold wrapping_add. rewrite N.Div0.add_mod_idemp_l. do 2 f_equal. cbn. lia.
    + intros i svc [[_ Hl]|[-> <-]]%lookup_snoc_Some; [by apply Hs|]. done.
  - apply list_elem_of_lookup in Hin as [i Hi]. destruct (Hs _ _ Hi) as (_ & _ & Eg).
    rewrite (tower_call_eq _ _ _ _ g) in Hr by by rewrite Eg. injection Hr as <- <- <-. rewrite Eg.
    split; [done|]. split; [done|]. eexists. cbn. rewrite lookup_insert_eq. split; [done|].
    destruct (call_balanced (ts_inner svc) rq (set_guard g (to_server t))) as [B1 B2]. cbn in B1, B2. split; [congruence|lia].
  - rewrite Hg in Hg'. injection Hg' as <-. destruct (step_balanced _ _ _ _ _ Hr) as [B1 B2]. cbn in B1, B2.
    split; [done|]. split; [done|]. exists (sv_guard s). cbn. rewrite lookup_insert_eq. split; [done|]. split; [congruence|lia].
  - split; [|split; [done|by exists g]]. cbn. rewrite lookup_insert_ne; [done|]. apply fresh_ne. eauto.
  - split; [done|]. split; [done|]. exists g. cbn. rewrite lookup_insert_ne; [done|]. apply fresh_ne. eauto.
Qed.
Lemma tower_reachable_ok b sh cfg w managers t : tower_reachable b sh cfg w managers t →
  tower_ok (Builder.to_service_builder b sh).1 (sc_max_connections (bu_server_cfg b)) t.
Proof.
  induction 1 as [|t t' _ IH Hs]; [|by eapply tower_step_ok]. split; [|split].
  - cbn. by rewrite lookup_insert_eq.
  - done.
  - eexists. cbn. rewrite lookup_insert_eq. split; [done|]. split; [done|]. cbn.
    unfold live. rewrite map_filter_empty, map_size_empty. lia.
Qed.

(** C15: A server built by hand out of [to_service_builder] keeps what [start] keeps.
    The services that clones of the builder give, whatever their middleware, and
    whatever else is done with other clones, are numbered in the order they were
    built, modulo 2^32, each with the settings of the builder; the permits free and
    the requests and WebSockets that are alive make up [max_connections], over all
    services together; a request to any of them is answered with 429, and nothing
    changes, exactly when all permits are in use. *)
Theorem tower_services_bounded b sh cfg w managers t : tower_reachable b sh cfg w managers t →
  let max := sc_max_connections (bu_server_cfg b) in
  (∀ i svc, to_services t !! i = Some svc → sd_conn_id (ts_inner svc) = (N.of_nat i mod (u32_max + 1))%N ∧
     sd_server_cfg (ts_inner svc) = bu_server_cfg b) ∧
  (∀ i j svc svc', to_services t !! i = Some svc → to_services t !! j = Some svc' → i < j →
     (N.of_nat (j - i) <= u32_max)%N → sd_conn_id (ts_inner svc) ≠ sd_conn_id (ts_inner svc')) ∧
  ∃ g, (sem_available g + N.of_nat (live (sv_tasks (to_server t))) = max)%N ∧
    ∀ svc request, svc ∈ to_services t → sh_guards (to_shared t) !! ts_conn_guard svc = Some g ∧
      if decide (N.of_nat (live (sv_tasks (to_server t))) = max)
      then tower_call svc request (to_shared t) (to_server t) =
             Some (RpReady response.too_many_requests, to_shared t, set_guard g (to_server t))
      else ∃ g' r sh' s', ConnectionGuard.try_acquire g = Some g' ∧
             tower_call svc request (to_shared t) (to_server t) = Some (r, sh', s') ∧
             sh_counters sh' = sh_counters (to_shared t).
Proof.
  intros (_ & Hs & g & Hg & _ & Ha)%tower_reachable_ok max. split; [|split].
  - intros i svc Hi. by destruct (Hs i svc Hi) as (? & ? & _).
  - intros i j svc svc' Hi Hj Hlt Hd E. destruct (Hs _ _ Hi) as [E1 _]. destruct (Hs _ _ Hj) as [E2 _].
    rewrite E1, E2 in E. unfold u32_max in *. change (4294967295 + 1)%N with 4294967296%N in E.
    pose proof (N.div_mod' (N.of_nat i) 4294967296). pose proof (N.div_mod' (N.of_nat j) 4294967296). rewrite E in *. lia.
  - exists g. split; [done|]. intros svc rq [i Hi]%list_elem_of_lookup. destruct (Hs _ _ Hi) as (_ & _ & Eg).
    rewrite Eg. split; [done|]. rewrite (tower_call_eq _ _ _ _ g) by by rewrite Eg. cbn zeta. rewrite Eg.
    case_decide as Hl.
    + unfold TowerServiceNoHttp.call, ConnectionGuard.try_acquire. cbn. rewrite decide_False by lia. cbn.
      rewrite insert_id by done. by destruct (to_shared t).
    + unfold ConnectionGuard.try_acquire at 1. rewrite decide_True by lia.
      by eexists _, _, _, _.
Qed.

(** From the settings to the server: [start] of what [build] gives runs the server
    that [Server.v] verifies, with the settings of the builder, on its runtime. *)
Lemma built_server_starts {Addrs IoError Listener : Type} (bind : Addrs → Result IoError Listener)
    (b : Builder U H R) addrs methods current w managers s :
  Builder.build bind addrs b = Ok s →
  match IdleServer.start methods current w managers s with
  | Ok (rt, handle, cfg, sv) =>
      Some rt = (match sc_tokio_runtime (bu_server_cfg b) with Some rt => Some rt | None => current end) ∧
      reachable rest methods cfg sv ∧ sc_tokio_runtime cfg = None ∧
      sc_max_connections cfg = sc_max_connections (bu_server_cfg b) ∧
      handle = (stop_channel).2 ∧ StopHandle.shutdown (stop_channel).1 handle = None
  | Err Panic => sc_tokio_runtime (bu_server_cfg b) = None ∧ current = None
  end.
Proof.
  unfold Builder.build. destruct (bind addrs) as [l|]; [|done]. intros [= <-]. unfold IdleServer.start. cbn.
  destruct (sc_tokio_runtime (bu_server_cfg b)) as [rt|], current as [rt'|]; cbn; try done;
    split_and!; try done; apply reach_init.
Qed.
End Tower.

(** ** Witnesses *)
Section BuilderWitnesses.
#[local] Existing Instance ref_json.
#[local] Existing Instance ref_ext.
#[local] Existing Instance ref_libs.
#[local] Existing Instance ref_conn_ext.
#[local] Existing Instance ref_guard_ext.
#[local] Existing Instance ref_handshake.

Lemma stop_reaches_all_witness :
  ∃ w, run_handles [HeCloneStop 0; HeStop; HeShutdown 0] Watch.channel = Some w ∧ is_Some (StopHandle.shutdown 1 w).
Proof.
  destruct (run_handles [HeCloneStop 0; HeStop; HeShutdown 0] Watch.channel) as [w|] eqn:E; [|vm_compute in E; discriminate].
  exists w. split; [reflexivity|]. destruct (stop_reaches_all _ w E) as [H _]. apply (H 1).
  vm_compute in E. injection E as <-. eexists. reflexivity.
Defined.

Definition ex_builder : Builder unit unit unit := Builder.with_config ex_config.
Definition ex_shared : Shared := MkShared ∅ ∅.
Definition ex_tower_builder : TowerServiceBuilder unit unit unit := (Builder.to_service_builder ex_builder ex_shared).1.
(** Two services; the only permit goes to a WebSocket of the first. *)
Definition ex_service (conn_id : N) : TowerService unit unit unit :=
  MkTowerService (MkServiceData ex_module conn_id ex_config) 0 0 () ().
Definition ex_shared_after (conn_id : N) (guard : Semaphore) : Shared := MkShared {[0 := conn_id]} {[0 := guard]}.
Definition ex_called : Reply * Server unit :=
  TowerServiceNoHttp.call (ts_inner (ex_service 0)) ex_upgrade (set_guard (MkSemaphore 1 1) ex_start).
Definition ex_tower : Tower (U := unit) (R := unit) (H := unit) :=
  MkTower [ex_service 0; ex_service 1] (ex_shared_after 2 (sv_guard ex_called.2)) ex_called.2.

Lemma tower_services_bounded_witness :
  ∃ g, tower_call (ex_service 1) (ex_post [] "{}") (to_shared ex_tower) (to_server ex_tower) =
    Some (RpReady response.too_many_requests, to_shared ex_tower, set_guard g (to_server ex_tower)).
Proof.
  destruct (tower_services_bounded ex_rest ex_builder ex_shared ex_config (ex_world, ()) ∅ ex_tower) as (_ & _ & g & _ & H).
  - apply (tower_more _ _ _ _ _ _ (MkTower [ex_service 0; ex_service 1] (ex_shared_after 2 (MkSemaphore 1 1)) ex_start)).
    + apply (tower_more _ _ _ _ _ _ (MkTower [ex_service 0] (ex_shared_after 1 (MkSemaphore 1 1)) ex_start)).
      * apply (tower_more _ _ _ _ _ _ _ _ (tower_start _ _ _ _ _ _)). exact (tower_build ex_rest ex_tower_builder (MkTower [] (Builder.to_service_builder ex_builder ex_shared).2 ex_start)
          ex_module 0 (ex_service 0) (ex_shared_after 1 (MkSemaphore 1 1)) eq_refl).
      * exact (tower_build ex_rest ex_tower_builder (MkTower [ex_service 0] (ex_shared_after 1 (MkSemaphore 1 1)) ex_start)
          ex_module 0 (ex_service 1) (ex_shared_after 2 (MkSemaphore 1 1)) eq_refl).
    + apply (tower_request _ _ (MkTower _ _ ex_start) (ex_service 0) ex_upgrade ex_called.1); [left|].
      rewrite (tower_call_eq _ _ _ _ (MkSemaphore 1 1)) by reflexivity. cbn [to_server ts_inner].
      change (TowerServiceNoHttp.call _ _ _) with ex_called. cbn [ts_conn_guard ex_service to_shared ex_shared_after].
      unfold ex_shared_after. cbn [sh_guards sh_counters]. rewrite insert_singleton_eq. reflexivity.
  - exists g. destruct (H (ex_service 1) (ex_post [] "{}")) as [_ H']; [right; left|].
    rewrite decide_True in H' by (vm_compute; reflexivity). exact H'.
Defined.
End BuilderWitnesses.
