(* ===== verification/WsSession.v ===== *)
(** A WebSocket session of the server from its start to its end: [background_task]
    and [send_task] of [server/src/transport/ws.rs] with the tasks of the messages,
    and [SessionClose] of [server/src/future.rs].

    [WsServer.v] has the parts; here they run together, in any order: the loop that
    receives, a task per message, the task that sends.  A label says which of them
    moves, and what the outside gives it: the events of the socket, the outcome of
    a send, the end of the connection. *)
From stdpp Require Import base gmap strings list.
From S2P Require Import Prelude Serde RefJson Errors Params Wire Middleware MethodResponse Subscription RpcModule RpcService Http WsServer Server.

(** ** The session *)
Section Session.
Context {J : SerdeJson} {X : HttpExtensions} {S : Type} {svc : RpcServiceT S}.

(** Where [background_task] is: waiting for the socket, handling what came, after
    the loop, after it told the task that sends to stop, and at its end. *)
Inductive LoopStage : Type :=
| LpReceiving (missed_pings : N)
| LpHandling (missed_pings : N) (rcv : Receive)
| LpBroken (result : Result SokettoError Shutdown)
| LpStopping (result : Result SokettoError Shutdown)
| LpEnded (result : Result SokettoError Shutdown)
| LpPanicked.
(** The task of a message: its method still has to run, runs forever, or has
    returned and the answer waits for room. *)
Inductive MsgStage : Type := MsReceived (data : string) | MsForever | MsAnswering (t : MsgTask).
(** [send_task]: in its loop, closing the socket, gone. *)
Inductive SendStage : Type := SdRunning | SdClosing | SdDone.

Record Session : Type := MkSession {
  ss_srv : SrvWorld;
  ss_svc : S;
  ss_loop : LoopStage;
  ss_send : SendStage;
  ss_tasks : gmap nat MsgStage;
  (** [on_session_close] was signalled. *)
  ss_closed : bool;
  (** The record of the run: the messages of the loop, what became of them, the
      texts put in the channel with the task that put them, the texts taken out,
      those handed to the socket, and the completion notifications. *)
  ss_received : list string;
  ss_outcomes : gmap nat (Result Stop MsgTask);
  ss_put : list (option nat * string);
  ss_taken : list string;
  ss_wire : list string;
  ss_notified : list (nat * NotifyMsg)
}.

Inductive Label : Type :=
| LTurn (now : N) (events : list (N * WsEvent))
| LLoop
| LRun (i : nat)
| LPut (i : nat)
| LPush (json : string)
| LSend (sent : Result SokettoError unit)
| LPing (sent : Result SokettoError unit)
| LSendStop
| LSendClosed
| LShutdown (disconnected : bool)
| LEnd.

(** [biased]: [future::select] looks at the channel before the stop signal. *)
Context (ping_config : option PingConfig) (max_request_body_size : N) (batch_config : BatchRequestConfig).
Context (encryption : option MessageEncryption) (policy : MessageCryptoErrorPolicy).
Context (extensions : Extensions) (sink : MethodSink) (biased : bool).

Definition set_loop l (s : Session) : Session :=
  MkSession (ss_srv s) (ss_svc s) l (ss_send s) (ss_tasks s) (ss_closed s) (ss_received s) (ss_outcomes s)
    (ss_put s) (ss_taken s) (ss_wire s) (ss_notified s).
Definition set_send d (s : Session) : Session :=
  MkSession (ss_srv s) (ss_svc s) (ss_loop s) d (ss_tasks s) (ss_closed s) (ss_received s) (ss_outcomes s)
    (ss_put s) (ss_taken s) (ss_wire s) (ss_notified s).
Definition set_srv w (s : Session) : Session :=
  MkSession w (ss_svc s) (ss_loop s) (ss_send s) (ss_tasks s) (ss_closed s) (ss_received s) (ss_outcomes s)
    (ss_put s) (ss_taken s) (ss_wire s) (ss_notified s).

Definition queue_of (w : SrvWorld) : list string := cc_queue (get_chan (ms_tx sink) w).
(** The world after a send of [by]: what is new in the channel is recorded. *)
Definition put_by (by_task : option nat) (w' : SrvWorld) (s : Session) : Session :=
  MkSession w' (ss_svc s) (ss_loop s) (ss_send s) (ss_tasks s) (ss_closed s) (ss_received s) (ss_outcomes s)
    (ss_put s ++ ((λ t, (by_task, t)) <$> drop (length (queue_of (ss_srv s))) (queue_of w')))
    (ss_taken s) (ss_wire s) (ss_notified s).

Definition session_start (w : SrvWorld) (st : S) : Session :=
  MkSession w st (LpReceiving 0) SdRunning ∅ false [] ∅ [] [] [] [].

(** *** [background_task] *)
Definition recv_turn (now : N) (events : list (N * WsEvent)) (s : Session) : option Session :=
  match ss_loop s with
  | LpReceiving missed_pings =>
    match try_recv ping_config now missed_pings events with
    | Some (rcv, missed_pings, []) => Some (set_loop (LpHandling missed_pings rcv) s)
    | _ => None
    end
  | _ => None
  end.
Definition spawn (data : string) (s : Session) : Session :=
  MkSession (ss_srv s) (ss_svc s) (ss_loop s) (ss_send s) (<[length (ss_received s) := MsReceived data]> (ss_tasks s))
    (ss_closed s) (ss_received s ++ [data]) (ss_outcomes s) (ss_put s) (ss_taken s) (ss_wire s) (ss_notified s).
Definition loop_turn (s : Session) : option Session :=
  match ss_loop s with
  | LpHandling missed_pings rcv =>
    match loop_step max_request_body_size sink rcv (ss_srv s) with
    | Err _ => Some (set_loop LpPanicked s)
    | Ok None => None
    | Ok (Some (LnBreak r, w)) => Some (set_loop (LpBroken r) (put_by None w s))
    | Ok (Some (LnContinue, w)) => Some (set_loop (LpReceiving missed_pings) (put_by None w s))
    | Ok (Some (LnSpawn data, w)) => Some (set_loop (LpReceiving missed_pings) (spawn data (put_by None w s)))
    end
  | _ => None
  end.

(** *** The task of a message; it holds the service, and with it a sender of
    [pending_calls], until it ends or panics *)
Definition outcome_stage (r : Result Stop MsgTask) (i : nat) (ts : gmap nat MsgStage) : gmap nat MsgStage :=
  match r with
  | Ok t => <[i := MsAnswering t]> ts
  | Err StForever => <[i := MsForever]> ts
  | Err StPanic => delete i ts
  end.
Definition task_run (i : nat) (s : Session) : option Session :=
  match ss_tasks s !! i with
  | Some (MsReceived data) =>
    let '(r, st) := handle_message encryption policy batch_config extensions data (ss_svc s) in
    Some (MkSession (ss_srv s) st (ss_loop s) (ss_send s) (outcome_stage r i (ss_tasks s)) (ss_closed s)
            (ss_received s) (<[i := r]> (ss_outcomes s)) (ss_put s) (ss_taken s) (ss_wire s) (ss_notified s))
  | _ => None
  end.
Definition task_done (i : nat) (n : option (nat * NotifyMsg)) (s : Session) : Session :=
  MkSession (ss_srv s) (ss_svc s) (ss_loop s) (ss_send s) (delete i (ss_tasks s)) (ss_closed s) (ss_received s)
    (ss_outcomes s) (ss_put s) (ss_taken s) (ss_wire s) (ss_notified s ++ option_list n).
Definition task_put (i : nat) (s : Session) : option Session :=
  match ss_tasks s !! i with
  | Some (MsAnswering t) =>
    (λ '(n, w), task_done i n (put_by (Some i) w s)) <$> msg_task_poll sink t (ss_srv s)
  | _ => None
  end.
(** Subscriptions and the connection manager have clones of the sink. *)
Definition sink_push (json : string) (s : Session) : option Session :=
  (λ '(_, w), put_by None w s) <$> sink_send sink json (ss_srv s).

(** *** [send_task] *)
Definition stop_signalled (s : Session) : bool :=
  match ss_loop s with LpStopping _ | LpEnded _ | LpPanicked => true | _ => false end.
Definition turn_of (e : SendEvent) (sent : Result SokettoError unit) : list string * bool :=
  send_task_step (λ _, sent) sent encryption policy e.
(** The first text leaves the channel. *)
Definition take_text (text : string) (rest : list string) (texts : list string) (s : Session) : Session :=
  let c := get_chan (ms_tx sink) (ss_srv s) in
  let w := set_chans (<[ms_tx sink := MkConnChan (cc_cap c) rest (cc_closed c)]> (sw_chans (ss_srv s))) (ss_srv s) in
  MkSession w (ss_svc s) (ss_loop s) (ss_send s) (ss_tasks s) (ss_closed s) (ss_received s) (ss_outcomes s)
    (ss_put s) (ss_taken s ++ [text]) (ss_wire s ++ texts) (ss_notified s).
Definition go_on (b : bool) (s : Session) : Session := if b then s else set_send SdClosing s.
Definition send_turn (sent : Result SokettoError unit) (s : Session) : option Session :=
  match ss_send s, queue_of (ss_srv s) with
  | SdRunning, text :: rest =>
    let '(texts, b) := turn_of (SeMessage text) sent in Some (go_on b (take_text text rest texts s))
  | _, _ => None
  end.
Definition ping_turn (sent : Result SokettoError unit) (s : Session) : option Session :=
  match ss_send s, ping_config with
  | SdRunning, Some _ => Some (go_on (turn_of SePingTime sent).2 s)
  | _, _ => None
  end.
Definition stop_turn (s : Session) : option Session :=
  match ss_send s with
  | SdRunning =>
    if stop_signalled s && (negb biased || bool_decide (queue_of (ss_srv s) = []))
    then Some (go_on (turn_of SeStop (Ok ())).2 s) else None
  | _ => None
  end.
Definition send_closed (s : Session) : option Session :=
  match ss_send s with
  | SdClosing => Some (set_send SdDone (set_srv (send_task_end (ms_tx sink) (ss_srv s)) s))
  | _ => None
  end.

(** *** [graceful_shutdown], and the end of the session *)
Definition send_gone (s : Session) : bool := match ss_send s with SdDone => true | _ => false end.
Definition graceful_shutdown (disconnected : bool) (s : Session) : option Session :=
  match ss_loop s with
  | LpBroken result =>
    if shutdown_ready result (bool_decide (ss_tasks s = ∅)) disconnected (send_gone s)
    then Some (set_loop (LpStopping result) s) else None
  | _ => None
  end.
Definition session_end (s : Session) : option Session :=
  match ss_loop s with
  | LpStopping result =>
    if send_gone s then
      Some (MkSession (ss_srv s) (ss_svc s) (LpEnded result) (ss_send s) (ss_tasks s) true (ss_received s)
              (ss_outcomes s) (ss_put s) (ss_taken s) (ss_wire s) (ss_notified s))
    else None
  | _ => None
  end.

Definition session_step (l : Label) (s : Session) : option Session :=
  match l with
  | LTurn now events => recv_turn now events s
  | LLoop => loop_turn s
  | LRun i => task_run i s
  | LPut i => task_put i s
  | LPush json => sink_push json s
  | LSend sent => send_turn sent s
  | LPing sent => ping_turn sent s
  | LSendStop => stop_turn s
  | LSendClosed => send_closed s
  | LShutdown disconnected => graceful_shutdown disconnected s
  | LEnd => session_end s
  end.
Definition run_session : list Label → Session → option Session := run_labels session_step.
End Session.
Arguments Session {X} S.

(** ** What always holds of a session *)
Section Invariant.
Context {J : SerdeJson} {X : HttpExtensions} {S : Type} {svc : RpcServiceT S}.
Context (ping_config : option PingConfig) (max_request_body_size : N) (batch_config : BatchRequestConfig).
Context (encryption : option MessageEncryption) (policy : MessageCryptoErrorPolicy).
Context (extensions : Extensions) (sink : MethodSink) (biased : bool).
Notation step := (session_step ping_config max_request_body_size batch_config encryption policy extensions sink biased).
Notation run := (run_session ping_config max_request_body_size batch_config encryption policy extensions sink biased).
Notation queue := (queue_of sink).
Notation chan s := (get_chan (ms_tx sink) (ss_srv s)).

(** What the task of a message puts in the channel. *)
Definition task_texts (t : MsgTask) : list string :=
  match t with MtReturn => [] | MtSendError json | MtSend json _ _ => [json] end.
Definition outcome_texts (o : Result Stop MsgTask) : list string :=
  match o with Ok t => task_texts t | Err _ => [] end.
Definition answers (i : nat) (put : list (option nat * string)) : list string :=
  (filter (λ p, p.1 = Some i) put).*2.
(** What the socket gets for a text of the channel. *)
Definition wire_texts (text : string) : list string := (turn_of encryption policy (SeMessage text) (Ok ())).1.
Definition wire_of (texts : list string) : list string := texts ≫= wire_texts.

Definition task_ok (i : nat) (s : Session S) : Prop :=
  match ss_tasks s !! i with
  | Some (MsReceived d) =>
    ss_received s !! i = Some d ∧ ss_outcomes s !! i = None ∧ answers i (ss_put s) = []
  | Some MsForever =>
    is_Some (ss_received s !! i) ∧ ss_outcomes s !! i = Some (Err StForever) ∧ answers i (ss_put s) = []
  | Some (MsAnswering t) =>
    is_Some (ss_received s !! i) ∧ ss_outcomes s !! i = Some (Ok t) ∧ answers i (ss_put s) = []
  | None =>
    match ss_received s !! i with
    | None => ss_outcomes s !! i = None ∧ answers i (ss_put s) = []
    | Some _ => ∃ o, ss_outcomes s !! i = Some o ∧
        (answers i (ss_put s) = outcome_texts o ∨ ss_send s = SdDone ∧ answers i (ss_put s) = [])
    end
  end.
(** An outcome is what handling the message gave, in the state it found. *)
Definition handled (data : string) (o : Result Stop MsgTask) : Prop :=
  ∃ st, fst (handle_message encryption policy batch_config extensions data st) = o.
Record session_ok (s : Session S) : Prop := MkSessionOk {
  so_open : ss_send s ≠ SdDone → cc_closed (chan s) = false;
  so_fifo : (ss_put s).*2 = ss_taken s ++ queue (ss_srv s);
  so_wire : ss_wire s = wire_of (ss_taken s);
  so_tasks : ∀ i, task_ok i s;
  so_handled : ∀ i o, ss_outcomes s !! i = Some o → ∃ data, ss_received s !! i = Some data ∧ handled data o
}.

Lemma answers_app i p1 p2 : answers i (p1 ++ p2) = answers i p1 ++ answers i p2.
Proof. unfold answers. by rewrite filter_app, fmap_app. Qed.
Lemma answers_tagged i by_task texts :
  answers i ((λ t, (by_task, t)) <$> texts) = if decide (by_task = Some i) then texts else [].
Proof.
  unfold answers. induction texts as [|t ts IH]; [by case_decide|].
  rewrite fmap_cons, filter_cons. cbn [fst]. case_decide; [rewrite fmap_cons; cbn [snd]; by rewrite IH|done].
Qed.
Lemma wire_texts_any text sent : (turn_of encryption policy (SeMessage text) sent).1 = wire_texts text.
Proof.
  unfold wire_texts, turn_of, send_task_step, send_message. destruct encryption as [enc|]; [|done].
  destruct (encrypt enc text); [done|]. destruct policy; try done. by destruct (error_json _ _).
Qed.
Lemma wire_of_snoc texts text : wire_of (texts ++ [text]) = wire_of texts ++ wire_texts text.
Proof. unfold wire_of. rewrite bind_app. cbn. by rewrite app_nil_r. Qed.

(** A send puts its text at the end of an open channel, and nothing in a closed one. *)
Lemma sink_send_cases json w r w' : sink_send sink json w = Some (r, w') →
  cc_closed (get_chan (ms_tx sink) w') = cc_closed (get_chan (ms_tx sink) w) ∧
  queue w' = queue w ++ (if cc_closed (get_chan (ms_tx sink) w) then [] else [json]) ∧
  cc_cap (get_chan (ms_tx sink) w') = cc_cap (get_chan (ms_tx sink) w).
Proof.
  unfold sink_send, sink_try_send, sink_is_closed, queue_of. destruct (cc_closed _) eqn:E.
  - intros [= <- <-]. by rewrite app_nil_r.
  - case_decide; [|done]. intros [= <- <-]. unfold enqueue, get_chan; cbn. by rewrite lookup_insert_eq.
Qed.
Lemma msg_task_poll_cases t w n w' : msg_task_poll sink t w = Some (n, w') →
  cc_closed (get_chan (ms_tx sink) w') = cc_closed (get_chan (ms_tx sink) w) ∧
  queue w' = queue w ++ (if cc_closed (get_chan (ms_tx sink) w) then [] else task_texts t) ∧
  cc_cap (get_chan (ms_tx sink) w') = cc_cap (get_chan (ms_tx sink) w).
Proof.
  destruct t as [|json|json on_close ok]; cbn.
  - intros [= <- <-]. by destruct (cc_closed _); rewrite app_nil_r.
  - destruct (sink_send sink json w) as [[r w1]|] eqn:E; [|done]. cbn. intros [= _ <-]. by apply (sink_send_cases _ _ r).
  - destruct (sink_send sink json w) as [[[] w1]|] eqn:E; intros [=]; subst; eapply sink_send_cases, E.
Qed.

(** *** The steps keep it *)
Lemma put_by_ok i texts w' s : session_ok s →
  cc_closed (get_chan (ms_tx sink) w') = cc_closed (chan s) → queue w' = queue (ss_srv s) ++ texts →
  ss_put (put_by sink i w' s) = ss_put s ++ ((λ t, (i, t)) <$> texts) ∧
  (ss_send s ≠ SdDone → cc_closed (get_chan (ms_tx sink) w') = false) ∧
  (ss_put (put_by sink i w' s)).*2 = ss_taken s ++ queue w'.
Proof.
  intros [Ho Hf _ _ _] Hc Hq. cbn. rewrite Hq, drop_app_length, Hc. split; [done|]. split; [done|].
  rewrite fmap_app, Hf, <-app_assoc. f_equal. f_equal. rewrite <-list_fmap_compose. cbn. by rewrite list_fmap_id.
Qed.
Lemma put_none_ok texts w' s : session_ok s →
  cc_closed (get_chan (ms_tx sink) w') = cc_closed (chan s) → queue w' = queue (ss_srv s) ++ texts →
  session_ok (put_by sink None w' s).
Proof.
  intros Hs Hc Hq. destruct (put_by_ok None texts w' s Hs Hc Hq) as (Hp & H1 & H2).
  split; [exact H1|exact H2|apply Hs| |apply Hs]. intros i. pose proof (so_tasks _ Hs i) as Hi.
  unfold task_ok in *. rewrite Hp, answers_app, answers_tagged, decide_False, app_nil_r by done. exact Hi.
Qed.
Lemma spawn_ok data s : session_ok s → session_ok (spawn data s).
Proof.
  intros [Ho Hf Hw Ht Hh]. split; [exact Ho|exact Hf|exact Hw| |].
  2:{ intros i o Hi. destruct (Hh i o Hi) as (d & Hd & H). exists d. split; [|done]. by apply lookup_app_l_Some. }
  intros i. specialize (Ht i). unfold task_ok, spawn in *; cbn. destruct (decide (i = length (ss_received s))) as [->|Hi].
  - rewrite lookup_insert_eq, list_lookup_middle by done. split; [done|].
    rewrite (proj2 (lookup_ge_None (ss_received s) (length (ss_received s)))) in Ht by done.
    destruct (ss_tasks s !! length (ss_received s)) as [[]|]; [..|done]; destruct Ht as (Hr & Ht); by inversion Hr.
  - rewrite lookup_insert_ne by done. destruct (decide (i < length (ss_received s))).
    + by rewrite lookup_app_l.
    + assert (ss_received s !! i = None) as Hn by (apply lookup_ge_None; lia).
      assert ((ss_received s ++ [data]) !! i = None) as Hn'.
      { apply lookup_ge_None. rewrite length_app. cbn. lia. }
      rewrite Hn'. by rewrite Hn in Ht.
Qed.
Lemma task_run_ok i s s' : session_ok s →
  task_run batch_config encryption policy extensions i s = Some s' → session_ok s'.
Proof.
  intros [Ho Hf Hw Ht Hh]. unfold task_run. destruct (ss_tasks s !! i) as [[data| |]|] eqn:Ei; try done.
  destruct (handle_message _ _ _ _ _ _) as [r st] eqn:Er. intros [= <-].
  pose proof (Ht i) as Hi. unfold task_ok in Hi. rewrite Ei in Hi. destruct Hi as (Hd & Hn & Ha).
  split; [exact Ho|exact Hf|exact Hw| |]; cbn.
  2:{ intros j o [[-> <-]|[_ Hj]]%lookup_insert_Some; [|by apply Hh]. exists data. split; [done|].
      exists (ss_svc s). by rewrite Er. }
  intros j. unfold task_ok in *; cbn. destruct (decide (j = i)) as [->|Hj].
  - unfold outcome_stage. rewrite lookup_insert_eq. destruct r as [t|[]].
    + rewrite lookup_insert_eq. eauto.
    + rewrite lookup_delete_eq, Hd. exists (Err StPanic). auto.
    + rewrite lookup_insert_eq. eauto.
  - rewrite lookup_insert_ne by done. specialize (Ht j).
    assert (outcome_stage r i (ss_tasks s) !! j = ss_tasks s !! j) as ->; [|exact Ht].
    unfold outcome_stage. destruct r as [t|[]]; by rewrite ?lookup_insert_ne, ?lookup_delete_ne.
Qed.
Lemma task_put_ok i s s' : session_ok s → task_put sink i s = Some s' → session_ok s'.
Proof.
  intros Hs. unfold task_put. destruct (ss_tasks s !! i) as [[| |t]|] eqn:Ei; try done.
  destruct (msg_task_poll sink t (ss_srv s)) as [[n w]|] eqn:E; [|done]. cbn. intros [= <-].
  apply msg_task_poll_cases in E as (Hc & Hq & _). destruct (put_by_ok (Some i) _ w s Hs Hc Hq) as (Hp & H1 & H2).
  split; [exact H1|exact H2|apply Hs| |apply Hs]. intros j. pose proof (so_tasks _ Hs i) as Hi. pose proof (so_tasks _ Hs j) as Hj.
  unfold task_ok in *. cbn [task_done ss_tasks ss_received ss_outcomes ss_send ss_put].
  rewrite Hp, answers_app, answers_tagged. cbn [put_by ss_tasks ss_received ss_outcomes ss_send].
  destruct (decide (j = i)) as [->|Hij].
  - rewrite lookup_delete_eq, decide_True by done. rewrite Ei in Hi. destruct Hi as ([d Hd] & Ho & Ha). rewrite Hd.
    exists (Ok t). split; [exact Ho|]. rewrite Ha; cbn. destruct (ss_send s) eqn:Es;
      [rewrite (so_open _ Hs) by (by rewrite Es); auto..|]. destruct (cc_closed (chan s)); auto.
  - rewrite lookup_delete_ne, decide_False, app_nil_r by congruence. exact Hj.
Qed.
Lemma go_on_ok b s : session_ok s → ss_send s = SdRunning → session_ok (go_on b s).
Proof.
  intros [Ho Hf Hw Ht Hh] Es. destruct b; [done|]. split; [|exact Hf|exact Hw| |exact Hh].
  - intros _. cbn. by apply Ho; rewrite Es.
  - intros i. specialize (Ht i). unfold task_ok in *; cbn. rewrite Es in Ht.
    destruct (ss_tasks s !! i) as [[]|]; try done. destruct (ss_received s !! i); [|done].
    destruct Ht as (o & Ho' & [Ha|[Hd _]]); [by eauto|done].
Qed.
Lemma take_text_ok text rest s : session_ok s → queue (ss_srv s) = text :: rest →
  session_ok (take_text sink text rest (wire_texts text) s).
Proof.
  intros [Ho Hf Hw Ht Hh] Hq. split; [| | |exact Ht|exact Hh]; cbn.
  - unfold get_chan at 1; cbn. by rewrite lookup_insert_eq.
  - rewrite Hf, Hq. unfold queue_of, get_chan at 1; cbn. by rewrite lookup_insert_eq, <-app_assoc.
  - by rewrite Hw, wire_of_snoc.
Qed.
Lemma send_closed_ok s s' : session_ok s → send_closed sink s = Some s' → session_ok s'.
Proof.
  intros [Ho Hf Hw Ht Hh]. unfold send_closed. destruct (ss_send s) eqn:Es; try done. intros [= <-]. split; cbn.
  - done.
  - rewrite Hf. unfold queue_of, send_task_end, get_chan at 2; cbn. by rewrite lookup_insert_eq.
  - exact Hw.
  - intros i. specialize (Ht i). unfold task_ok in *; cbn. rewrite Es in Ht.
    destruct (ss_tasks s !! i) as [[]|]; try done. destruct (ss_received s !! i); [|done].
    destruct Ht as (o & Ho' & [Ha|[Hd _]]); [by eauto|done].
  - exact Hh.
Qed.
(** The loop and the signal at the end are not what it speaks of. *)
Lemma set_loop_ok l s : session_ok s → session_ok (set_loop l s).
Proof. by intros []. Qed.

(** What a turn of the loop puts in the channel. *)
Lemma loop_step_cases rcv w n w' : loop_step max_request_body_size sink rcv w = Ok (Some (n, w')) →
  cc_closed (get_chan (ms_tx sink) w') = cc_closed (get_chan (ms_tx sink) w) ∧
  (∃ texts, queue w' = queue w ++ texts) ∧ cc_cap (get_chan (ms_tx sink) w') = cc_cap (get_chan (ms_tx sink) w).
Proof.
  assert (∃ texts, queue w = queue w ++ texts) as H0 by (exists []; by rewrite app_nil_r).
  destruct rcv as [| |[|cur mx|]|]; cbn; try by intros [= <- <-].
  unfold sink_send_error. destruct (error_json _ _) as [json|]; [cbn|done].
  destruct (sink_send sink json w) as [[[] w1]|] eqn:E; intros [= <- <-];
    apply sink_send_cases in E as (? & ? & ?); eauto.
Qed.
Lemma loop_turn_ok s s' : session_ok s → loop_turn max_request_body_size sink s = Some s' → session_ok s'.
Proof.
  intros Hs. unfold loop_turn. destruct (ss_loop s) as [|m rcv| | | |]; try done.
  destruct (loop_step _ _ _ _) as [[[n w]|]|] eqn:E; [|done|by intros [= <-]; apply set_loop_ok].
  apply loop_step_cases in E as (Hc & [texts Hq] & _). pose proof (put_none_ok texts w s Hs Hc Hq) as Hp.
  destruct n; intros [= <-]; apply set_loop_ok; [done|done|]. by apply spawn_ok.
Qed.
Lemma session_step_ok l s s' : session_ok s → step l s = Some s' → session_ok s'.
Proof.
  intros Hs. destruct l; cbn.
  - unfold recv_turn. destruct (ss_loop s); try done. destruct (try_recv _ _ _ _) as [[[rcv m] []]|]; try done.
    intros [= <-]. by apply set_loop_ok.
  - by apply loop_turn_ok.
  - by apply task_run_ok.
  - by apply task_put_ok.
  - unfold sink_push. destruct (sink_send _ _ _) as [[r w]|] eqn:E; [|done]. intros [= <-].
    apply sink_send_cases in E as (Hc & Hq & _). by eapply put_none_ok.
  - unfold send_turn. destruct (ss_send s) eqn:Es; try done. destruct (queue (ss_srv s)) as [|text rest] eqn:Eq; [done|].
    pose proof (wire_texts_any text sent) as Hw. destruct (turn_of _ _ _ _) as [texts b]; cbn in Hw; subst texts.
    intros [= <-]. apply go_on_ok; [by apply take_text_ok|done].
  - unfold ping_turn. destruct (ss_send s) eqn:Es, ping_config; try done. intros [= <-]. by apply go_on_ok.
  - unfold stop_turn. destruct (ss_send s) eqn:Es; try done. destruct (_ && _); [|done]. intros [= <-].
    by apply (go_on_ok false).
  - by apply send_closed_ok.
  - unfold graceful_shutdown. destruct (ss_loop s); try done. destruct (shutdown_ready _ _ _ _); [|done].
    intros [= <-]. by apply set_loop_ok.
  - unfold session_end. destruct (ss_loop s); try done. destruct (send_gone s); [|done]. intros [= <-]. by destruct Hs.
Qed.

(** *** The start *)
Lemma start_ok w st : cc_closed (get_chan (ms_tx sink) w) = false → queue w = [] →
  session_ok (session_start w st).
Proof.
  intros Hc Hq. split; [done|by cbn; rewrite Hq|done| |done]. intros i. unfold task_ok; cbn.
  by rewrite lookup_empty, lookup_nil, lookup_empty.
Qed.

(** *** A graceful stop *)
(** Nothing goes wrong with the connection. *)
Definition smooth (l : Label) : Prop :=
  match l with LSend (Err _) | LPing (Err _) | LShutdown true => False | _ => True end.
Definition delivers : Prop := ∀ text, (turn_of encryption policy (SeMessage text) (Ok ())).2 = true.
Definition all_answered (s : Session S) : Prop :=
  ∀ i data, ss_received s !! i = Some data → ∃ o, ss_outcomes s !! i = Some o ∧ answers i (ss_put s) = outcome_texts o.
(** What is not taken out any more is of subscriptions and notifications. *)
Definition drained (s : Session S) : Prop :=
  ∃ sent rest, ss_put s = sent ++ rest ∧ Forall (λ p, p.1 = None) rest ∧ sent.*2 = ss_taken s.
Definition stop_ok (s : Session S) : Prop :=
  match ss_loop s with
  | LpReceiving _ | LpHandling _ _ | LpBroken _ => ss_send s = SdRunning
  | LpStopping (Ok ShStopped) => ss_tasks s = ∅ ∧ all_answered s ∧ (ss_send s = SdRunning ∨ drained s)
  | LpEnded (Ok ShStopped) =>
    ss_tasks s = ∅ ∧ all_answered s ∧ ss_closed s = true ∧ ss_send s = SdDone ∧ drained s
  | _ => True
  end.

Lemma answers_none i rest : Forall (λ p : option nat * string, p.1 = None) rest → answers i rest = [].
Proof.
  unfold answers. induction 1 as [|p ps Hp _ IH]; [done|]. rewrite filter_cons, decide_False; [done|]. by rewrite Hp.
Qed.
Lemma all_answered_put texts w' s : queue w' = queue (ss_srv s) ++ texts →
  all_answered s → all_answered (put_by sink None w' s).
Proof.
  intros Hq H i data Hi. destruct (H i data Hi) as (o & Ho & Ha). exists o. split; [done|]. unfold put_by; cbn [ss_put].
  by rewrite answers_app, answers_tagged, decide_False, app_nil_r.
Qed.
Lemma drained_put w' s : drained s → drained (put_by sink None w' s).
Proof.
  intros (sent & rest & Hp & Hr & Hs). exists sent, (rest ++ ((λ t, (None, t)) <$> drop (length (queue (ss_srv s))) (queue w'))).
  cbn. rewrite Hp, app_assoc. split; [done|]. split; [|done]. apply Forall_app. split; [done|].
  apply Forall_fmap, Forall_true. done.
Qed.
Lemma drained_empty s : session_ok s → queue (ss_srv s) = [] → drained s.
Proof.
  intros Hs Hq. exists (ss_put s), []. rewrite app_nil_r. split; [done|]. split; [constructor|].
  by rewrite (so_fifo _ Hs), Hq, app_nil_r.
Qed.
Lemma no_tasks_answered s : session_ok s → ss_tasks s = ∅ → ss_send s = SdRunning → all_answered s.
Proof.
  intros Hs He Er i data Hi. pose proof (so_tasks _ Hs i) as Ht. unfold task_ok in Ht.
  rewrite He, lookup_empty, Hi in Ht. destruct Ht as (o & Ho & [Ha|[Hd _]]); [eauto|congruence].
Qed.
Lemma stop_ok_loop s s' : session_ok s → stop_ok s → loop_turn max_request_body_size sink s = Some s' → stop_ok s'.
Proof.
  intros _ H. unfold loop_turn. unfold stop_ok in H. destruct (ss_loop s); try done.
  destruct (loop_step _ _ _ _) as [[[n w]|]|]; [|done|by intros [= <-]]. by destruct n; intros [= <-].
Qed.
Lemma stop_ok_tasks i s s' : stop_ok s → is_Some (ss_tasks s !! i) →
  ss_loop s' = ss_loop s → ss_send s' = ss_send s → stop_ok s'.
Proof.
  unfold stop_ok. intros H [t Ht] -> ->. destruct (ss_loop s) as [| | |[[]|]|[[]|]|]; try done;
    destruct H as [He _]; by rewrite He, lookup_empty in Ht.
Qed.
Lemma stop_ok_push w' s texts : stop_ok s → queue w' = queue (ss_srv s) ++ texts → stop_ok (put_by sink None w' s).
Proof.
  unfold stop_ok. cbn. intros H Hq. destruct (ss_loop s) as [| | |[[]|]|[[]|]|]; try done.
  - destruct H as (He & Ha & Hd). split; [done|]. split; [by eapply all_answered_put|].
    destruct Hd; [by left|right; by apply drained_put].
  - destruct H as (He & Ha & Hc & Hs & Hd). split_and!; try done; [by eapply all_answered_put|by apply drained_put].
Qed.
Lemma stop_ok_send s s' : session_ok s → stop_ok s → ss_send s = SdRunning →
  ss_loop s' = ss_loop s → ss_tasks s' = ss_tasks s → ss_received s' = ss_received s →
  ss_outcomes s' = ss_outcomes s → ss_put s' = ss_put s →
  (ss_send s' = SdRunning ∨ stop_signalled s = true ∧ drained s') → stop_ok s'.
Proof.
  unfold stop_ok, all_answered, stop_signalled. intros _ H Hr -> -> -> -> -> Hd.
  destruct (ss_loop s) as [| | |[[]|]|[[]|]|]; try done; destruct Hd as [Hd|[Hd1 Hd2]]; try done.
  - destruct H as (? & ? & _). auto.
  - destruct H as (? & ? & _). auto.
  - destruct H as (_ & _ & _ & H & _). congruence.
  - destruct H as (_ & _ & _ & H & _). congruence.
Qed.
Lemma stop_ok_closed s s' : stop_ok s → send_closed sink s = Some s' → stop_ok s'.
Proof.
  unfold send_closed. destruct (ss_send s) eqn:Es; try done. intros H [= <-]. unfold stop_ok, all_answered in *; cbn.
  rewrite Es in H. destruct (ss_loop s) as [| | |[[]|]|[[]|]|]; try done.
  - destruct H as (? & ? & [|Hd]); [done|]. auto.
  - by destruct H as (_ & _ & _ & H & _).
Qed.
Lemma stop_ok_shutdown s s' : session_ok s → stop_ok s → graceful_shutdown false s = Some s' → stop_ok s'.
Proof.
  intros Hs H. unfold graceful_shutdown. unfold stop_ok in H. destruct (ss_loop s) as [| |r| | |] eqn:El; try done.
  unfold send_gone. rewrite H. destruct r as [[]|]; cbn; [|by intros [= <-]..].
  case_bool_decide as He; [|done]. intros [= <-]. cbn. split; [done|].
  split; [by apply no_tasks_answered in He|by left].
Qed.
Lemma stop_ok_end s s' : stop_ok s → session_end s = Some s' → stop_ok s'.
Proof.
  unfold session_end, send_gone, stop_ok, all_answered. destruct (ss_loop s) as [| | |[[]|]| |] eqn:El; try done;
    destruct (ss_send s) eqn:Es; try done; intros H [= <-]; cbn; [|done..].
  destruct H as (? & ? & [|Hd]); [done|]. auto.
Qed.
Lemma stop_ok_step l s s' : biased = true → delivers →
  session_ok s ∧ stop_ok s → smooth l → step l s = Some s' → session_ok s' ∧ stop_ok s'.
Proof.
  intros Hb Hdel [Hs H] Hl Hst. split; [by eapply session_step_ok|]. destruct l as [now ev| |i|i|json|[[]|]|[[]|]| | |[]|]; cbn in *; try done.
  - unfold recv_turn in Hst. unfold stop_ok in *. destruct (ss_loop s); try done.
    destruct (try_recv _ _ _ _) as [[[rcv m] []]|]; try done. by injection Hst as <-.
  - by eapply stop_ok_loop.
  - unfold task_run in Hst. destruct (ss_tasks s !! i) as [[data| |]|] eqn:Ei; try done.
    destruct (handle_message _ _ _ _ _ _) as [r st]. injection Hst as <-. by apply (stop_ok_tasks i s).
  - unfold task_put in Hst. destruct (ss_tasks s !! i) as [[| |t]|] eqn:Ei; try done.
    destruct (msg_task_poll _ _ _) as [[n w]|]; [|done]. injection Hst as <-. by apply (stop_ok_tasks i s).
  - unfold sink_push in Hst. destruct (sink_send _ _ _) as [[r w]|] eqn:E; [|done]. injection Hst as <-.
    apply sink_send_cases in E as (_ & Hq & _). by eapply stop_ok_push.
  - unfold send_turn in Hst. destruct (ss_send s) eqn:Es; try done. destruct (queue _) as [|text rest]; [done|].
    specialize (Hdel text). destruct (turn_of _ _ _ _) as [texts b]. cbn in Hdel. subst b. injection Hst as <-.
    eapply stop_ok_send; eauto.
  - unfold ping_turn in Hst. destruct (ss_send s), ping_config; try done. by injection Hst as <-.
  - unfold stop_turn in Hst. destruct (ss_send s) eqn:Es; try done. destruct (stop_signalled s) eqn:Est; [|done].
    rewrite Hb in Hst. cbn in Hst. case_bool_decide as Hq; [|done]. injection Hst as <-.
    eapply stop_ok_send; eauto. right. split; [done|]. by apply drained_empty in Hq.
  - by eapply stop_ok_closed.
  - by eapply stop_ok_shutdown.
  - by eapply stop_ok_end.
Qed.

(** What was answered when the session has ended by a stop. *)
Definition answered_all (s : Session S) : Prop :=
  ∃ sent rest, ss_put s = sent ++ rest ∧ Forall (λ p, p.1 = None) rest ∧ ss_wire s = wire_of sent.*2 ∧
    ∀ i data, ss_received s !! i = Some data → ∃ o, handled data o ∧ answers i sent = outcome_texts o.
Lemma ended_answered s : session_ok s → stop_ok s → ss_loop s = LpEnded (Ok ShStopped) →
  ss_tasks s = ∅ ∧ ss_closed s = true ∧ answered_all s.
Proof.
  intros Hs H Hend. unfold stop_ok in H. rewrite Hend in H. destruct H as (He & Ha & Hcl & _ & sent & rest & Hp & Hr & Ht).
  split; [done|]. split; [done|]. exists sent, rest. split; [done|]. split; [done|].
  split; [by rewrite (so_wire _ Hs), Ht|]. intros i data Hi. destruct (Ha i data Hi) as (o & Ho & Hao). exists o.
  destruct (so_handled _ Hs i o Ho) as (data' & Hd' & Hh). rewrite Hi in Hd'. injection Hd' as <-. split; [done|].
  by rewrite <-Hao, Hp, answers_app, (answers_none i rest Hr), app_nil_r.
Qed.

(** C13: a graceful stop loses no answer.  The server is stopped, the client stays
    and the socket works; then, when the session has ended, no task of a message
    is left, every message that was received has been handled, and what its task
    had to say was put in the channel exactly once and has been handed to the
    socket, in the order of the channel.  Only what others than the tasks put
    there, subscriptions and notifications, can stay behind. *)
Theorem graceful_stop_answers (ls : list Label) (w : SrvWorld) (st : S) (s : Session S) :
  biased = true → delivers → cc_closed (get_chan (ms_tx sink) w) = false → queue w = [] →
  run ls (session_start w st) = Some s → Forall smooth ls → ss_loop s = LpEnded (Ok ShStopped) →
  ss_tasks s = ∅ ∧ ss_closed s = true ∧
  ∃ sent rest, ss_put s = sent ++ rest ∧ Forall (λ p, p.1 = None) rest ∧ ss_wire s = wire_of sent.*2 ∧
    ∀ i data, ss_received s !! i = Some data → ∃ o, handled data o ∧ answers i sent = outcome_texts o.
Proof.
  intros Hb Hdel Hc Hq Hrun Hls Hend.
  destruct (run_labels_keeps step (λ s, session_ok s ∧ stop_ok s) smooth
    (λ l s s', stop_ok_step l s s' Hb Hdel) ls _ s (conj (start_ok w st Hc Hq) eq_refl) Hls Hrun) as [Hs H].
  by apply ended_answered.
Qed.

(** *** The end *)
Definition is_ended (s : Session S) : bool := match ss_loop s with LpEnded _ => true | _ => false end.
(** [on_session_close] is signalled at the end only, after the task that sends is
    gone; its channel is closed then. *)
Record end_ok (s : Session S) : Prop := MkEndOk {
  eo_cap : 0 < cc_cap (chan s);
  eo_gone : ss_send s = SdDone → cc_closed (chan s) = true;
  eo_closed : ss_closed s = is_ended s;
  eo_ended : is_ended s = true → ss_send s = SdDone
}.
Lemma end_ok_put i w' s : end_ok s → cc_closed (get_chan (ms_tx sink) w') = cc_closed (chan s) →
  cc_cap (get_chan (ms_tx sink) w') = cc_cap (chan s) → end_ok (put_by sink i w' s).
Proof. intros [H1 H2 H3 H4] Hc Hp. split; cbn; [by rewrite Hp|by rewrite Hc|done|done]. Qed.
Lemma end_ok_loop l s : end_ok s → is_ended s = false → (match l with LpEnded _ => False | _ => True end) →
  end_ok (set_loop l s).
Proof. intros [H1 H2 H3 H4] He Hl. split; cbn; [done|done|rewrite H3, He; by destruct l|by destruct l]. Qed.
Lemma end_ok_go_on b s : end_ok s → ss_send s = SdRunning → end_ok (go_on b s).
Proof.
  intros [H1 H2 H3 H4] Es. destruct b; [done|]. split; cbn; [done|done|done|].
  intros He. specialize (H4 He). congruence.
Qed.
Lemma end_ok_step l s s' : end_ok s → step l s = Some s' → end_ok s'.
Proof.
  intros He. destruct l; cbn.
  - unfold recv_turn. destruct (ss_loop s) eqn:El; try done. destruct (try_recv _ _ _ _) as [[[rcv m] []]|]; try done.
    intros [= <-]. apply end_ok_loop; [done|by unfold is_ended; rewrite El|done].
  - unfold loop_turn. destruct (ss_loop s) as [|m rcv| | | |] eqn:El; try done.
    assert (is_ended s = false) as Hn by (by unfold is_ended; rewrite El).
    destruct (loop_step _ _ _ _) as [[[n w]|]|] eqn:E; [|done|by intros [= <-]; apply end_ok_loop].
    apply loop_step_cases in E as (Hc & _ & Hp). pose proof (end_ok_put None w s He Hc Hp) as Hs.
    destruct n; intros [= <-]; apply end_ok_loop; try done. by destruct Hs.
  - unfold task_run. destruct (ss_tasks s !! i) as [[data| |]|]; try done.
    destruct (handle_message _ _ _ _ _ _) as [r st]. intros [= <-]. by destruct He.
  - unfold task_put. destruct (ss_tasks s !! i) as [[| |t]|]; try done.
    destruct (msg_task_poll _ _ _) as [[n w]|] eqn:E; [|done]. intros [= <-].
    apply msg_task_poll_cases in E as (Hc & _ & Hp). by destruct (end_ok_put (Some i) w s He Hc Hp).
  - unfold sink_push. destruct (sink_send _ _ _) as [[r w]|] eqn:E; [|done]. intros [= <-].
    apply sink_send_cases in E as (Hc & _ & Hp). by apply end_ok_put.
  - unfold send_turn. destruct (ss_send s) eqn:Es; try done. destruct (queue _) as [|text rest]; [done|].
    destruct (turn_of _ _ _ _) as [texts b]. intros [= <-]. apply end_ok_go_on; [|done].
    destruct He as [H1 H2 H3 H4]. split; cbn; [|by rewrite Es|done|done].
    unfold get_chan at 1; cbn. by rewrite lookup_insert_eq.
  - unfold ping_turn. destruct (ss_send s) eqn:Es, ping_config; try done. intros [= <-]. by apply end_ok_go_on.
  - unfold stop_turn. destruct (ss_send s) eqn:Es; try done. destruct (_ && _); [|done]. intros [= <-].
    by apply (end_ok_go_on false).
  - unfold send_closed. destruct (ss_send s) eqn:Es; try done. intros [= <-]. destruct He as [H1 H2 H3 H4].
    split; cbn; [| |done|done]; unfold send_task_end, get_chan at 1; cbn; by rewrite lookup_insert_eq.
  - unfold graceful_shutdown. destruct (ss_loop s) eqn:El; try done. destruct (shutdown_ready _ _ _ _); [|done].
    intros [= <-]. apply end_ok_loop; [done|by unfold is_ended; rewrite El|done].
  - unfold session_end, send_gone. destruct (ss_loop s); try done. destruct (ss_send s) eqn:Es; try done.
    intros [= <-]. destruct He as [H1 H2 H3 H4]. split; cbn; auto.
Qed.

(** What the tasks still have to do by themselves. *)
Definition internal (l : Label) : Prop :=
  match l with
  | LRun _ | LPut _ | LSend _ | LSendStop | LSendClosed | LShutdown false | LEnd => True
  | _ => False
  end.
Definition over (s : Session S) : bool :=
  match ss_loop s with LpBroken _ | LpStopping _ | LpEnded _ => true | _ => false end.
Definition stage_work (t : MsgStage) : nat := match t with MsReceived _ => 3 | MsForever => 0 | MsAnswering _ => 2 end.
Definition work_left (s : Session S) : nat :=
  map_sum stage_work (ss_tasks s) + length (queue (ss_srv s)) +
  (match ss_send s with SdRunning => 2 | SdClosing => 1 | SdDone => 0 end) +
  (match ss_loop s with LpBroken _ => 2 | LpStopping _ => 1 | _ => 0 end).

Lemma task_texts_length t : length (task_texts t) ≤ 1.
Proof. destruct t; cbn; lia. Qed.
Lemma go_on_queue b (s : Session S) : queue (ss_srv (go_on b s)) = queue (ss_srv s).
Proof. by destruct b. Qed.

Lemma internal_step_less l s s' : internal l → step l s = Some s' →
  (over s = true → over s' = true) ∧ work_left s' < work_left s.
Proof.
  unfold over, work_left. intros Hl. destruct l as [| |i|i| |sent| | | |[]|]; cbn in *; try done.
  - unfold task_run. destruct (ss_tasks s !! i) as [[data| |]|] eqn:Ei; try done.
    destruct (handle_message _ _ _ _ _ _) as [r st]. intros [= <-]. cbn. split; [done|].
    rewrite (map_sum_delete _ _ _ _ Ei). unfold outcome_stage.
    destruct r as [t|[]]; rewrite ?map_sum_insert; cbn; lia.
  - unfold task_put. destruct (ss_tasks s !! i) as [[| |t]|] eqn:Ei; try done.
    destruct (msg_task_poll _ _ _) as [[n w]|] eqn:E; [|done]. intros [= <-]. cbn. split; [done|].
    apply msg_task_poll_cases in E as (_ & -> & _). rewrite (map_sum_delete _ _ _ _ Ei), length_app.
    pose proof (task_texts_length t). destruct (cc_closed _); cbn; lia.
  - unfold send_turn. destruct (ss_send s) eqn:Es; try done. destruct (queue (ss_srv s)) as [|text rest] eqn:Eq; [done|].
    destruct (turn_of _ _ _ _) as [texts b]. intros [= <-]. rewrite go_on_queue.
    unfold take_text, queue_of, get_chan; cbn. rewrite lookup_insert_eq. destruct b; cbn; rewrite ?Es; (split; [done|lia]).
  - unfold stop_turn. destruct (ss_send s) eqn:Es; try done. destruct (_ && _); [|done]. intros [= <-]. cbn. split; [done|lia].
  - unfold send_closed. destruct (ss_send s) eqn:Es; try done. intros [= <-]. cbn. split; [done|].
    unfold queue_of, send_task_end, get_chan at 1; cbn. rewrite lookup_insert_eq. cbn. lia.
  - unfold graceful_shutdown. destruct (ss_loop s); try done. destruct (shutdown_ready _ _ _ _); [|done].
    intros [= <-]. cbn. split; [done|lia].
  - unfold session_end. destruct (ss_loop s); try done. destruct (send_gone s); [|done]. intros [= <-]. cbn. split; [done|lia].
Qed.
Lemma internal_run_less ls s s' : over s = true → run ls s = Some s' → Forall internal ls →
  over s' = true ∧ length ls + work_left s' ≤ work_left s.
Proof.
  intros Ho. revert s'. induction ls as [|l ls IH] using rev_ind; intros s'.
  - intros [= <-] _. auto.
  - unfold run_session. rewrite run_labels_snoc, length_app. intros Hr [Hi Hl]%Forall_app. apply bind_Some in Hr as (s1 & Hr & Hst).
    destruct (IH _ Hr Hi) as [Ho1 H1]. inversion_clear Hl.
    destruct (internal_step_less l s1 s') as [? ?]; [done|done|]. cbn. split; [auto|lia].
Qed.
(** A full channel is what makes a task wait. *)
Lemma send_waits json w : sink_send sink json w = None →
  cc_closed (get_chan (ms_tx sink) w) = false ∧ cc_cap (get_chan (ms_tx sink) w) ≤ length (queue w).
Proof.
  unfold sink_send, sink_try_send, sink_is_closed. destruct (cc_closed _) eqn:Ec; [done|].
  case_decide as Hd; [done|]. intros _. split; [done|]. unfold sink_capacity, queue_of in *. lia.
Qed.
Lemma msg_task_waits t w : msg_task_poll sink t w = None →
  cc_closed (get_chan (ms_tx sink) w) = false ∧ cc_cap (get_chan (ms_tx sink) w) ≤ length (queue w).
Proof.
  destruct t as [|json|json n ok]; cbn; [done| |]; destruct (sink_send sink json w) as [[[] ?]|] eqn:E; try done;
    intros _; by eapply send_waits.
Qed.
Lemma loop_waits max rcv w : loop_step max sink rcv w = Ok None →
  cc_closed (get_chan (ms_tx sink) w) = false ∧ cc_cap (get_chan (ms_tx sink) w) ≤ length (queue w).
Proof.
  destruct rcv as [| |[]|]; cbn; try done. unfold sink_send_error. destruct (error_json _ _) as [json|]; [cbn|done].
  destruct (sink_send sink json w) as [[[] ?]|] eqn:E; try done. intros _. by eapply send_waits.
Qed.
Definition stuck (s : Session S) : Prop := ∀ l, internal l → step l s = None.
(** A task that sends can always go on while there is something in the channel, or
    it was told to stop. *)
Lemma stuck_send s : stuck s → ss_send s = SdDone ∨ ss_send s = SdRunning ∧ queue (ss_srv s) = [] ∧ stop_signalled s = false.
Proof.
  intros H. destruct (ss_send s) eqn:Es; [|specialize (H LSendClosed I); cbn in H; unfold send_closed in H; by rewrite Es in H|by left].
  right. split; [done|]. pose proof (H (LSend (Ok ())) I) as H1. pose proof (H LSendStop I) as H2. cbn in H1, H2.
  unfold send_turn in H1. unfold stop_turn in H2. rewrite Es in H1, H2. destruct (queue (ss_srv s)).
  - split; [done|]. destruct (stop_signalled s); [|done]. by destruct biased.
  - by destruct (turn_of _ _ _ _).
Qed.
Lemma stuck_tasks s i t : end_ok s → stuck s → ss_tasks s !! i = Some t → t = MsForever.
Proof.
  intros He H Ht. destruct t as [data| |t]; [|done|].
  - specialize (H (LRun i) I). cbn in H. unfold task_run in H. rewrite Ht in H. by destruct (handle_message _ _ _ _ _ _).
  - pose proof (H (LPut i) I) as Hp. cbn in Hp. unfold task_put in Hp. rewrite Ht in Hp.
    destruct (msg_task_poll _ _ _) as [[n w]|] eqn:E; [done|]. apply msg_task_waits in E as [Hc Hl].
    pose proof (eo_cap _ He). destruct (stuck_send s H) as [Hs|(_ & Hq & _)].
    + rewrite (eo_gone _ He Hs) in Hc. done.
    + rewrite Hq in Hl. cbn in Hl. lia.
Qed.

(** After the loop, only methods that never return can hold a session up. *)
Lemma stuck_loop s : end_ok s → stuck s →
  match ss_loop s with
  | LpBroken r => r = Ok ShStopped ∧ ss_tasks s ≠ ∅
  | LpStopping _ => False
  | _ => True
  end.
Proof.
  intros He Hst. destruct (ss_loop s) as [| |r|r|r|] eqn:El; try done;
    (destruct (stuck_send _ Hst) as [Hs|(Hs & _ & Hn)]; [|try (unfold stop_signalled in Hn; by rewrite El in Hn)]).
  3: specialize (Hst LEnd I); cbn in Hst; unfold session_end, send_gone in Hst; by rewrite El, Hs in Hst.
  all: specialize (Hst (LShutdown false) I); cbn in Hst; unfold graceful_shutdown, send_gone in Hst; rewrite El, Hs in Hst;
    destruct r as [[]|]; cbn in Hst; try done.
  - by rewrite orb_true_r in Hst.
  - split; [done|]. case_bool_decide; done.
Qed.

(** C22: every session ends.  Once the loop that receives is left, the tasks end it
    by themselves: every step they take, in whatever order, is one of a number
    that is known; when they can take none, [background_task] is at its end, the
    task that sends is gone and the end was signalled, or the server was stopped
    and waits for a method that never returns.  A session whose end was signalled
    has a closed channel, and its task that sends is gone. *)
Theorem session_ends (ls ls' : list Label) (w : SrvWorld) (st : S) (s s' : Session S) :
  0 < cc_cap (get_chan (ms_tx sink) w) → run ls (session_start w st) = Some s →
  (ss_closed s = true → is_ended s = true ∧ ss_send s = SdDone ∧ cc_closed (chan s) = true) ∧
  (over s = true → run ls' s = Some s' → Forall internal ls' →
    length ls' ≤ work_left s ∧
    (stuck s' →
      (∀ i t, ss_tasks s' !! i = Some t → t = MsForever) ∧
      (is_ended s' = true ∧ ss_closed s' = true ∧ ss_send s' = SdDone ∨
       ss_loop s' = LpBroken (Ok ShStopped) ∧ ss_tasks s' ≠ ∅))).
Proof.
  intros Hcap Hr.
  assert (end_ok (session_start w st)) as H0 by (by split).
  assert (∀ ls s s', end_ok s → run ls s = Some s' → end_ok s') as Hkeep.
  { intros ls1 s1 s2 H1 H2. apply (run_labels_keeps step end_ok (λ _, True) (λ l s s' H _, end_ok_step l s s' H) ls1 s1 s2 H1); [|done].
    by apply Forall_true. }
  pose proof (Hkeep _ _ _ H0 Hr) as He. split.
  - intros Hc. rewrite (eo_closed _ He) in Hc. pose proof (eo_ended _ He Hc) as Hs. split_and!; [done|done|]. by apply (eo_gone _ He).
  - intros Ho Hr' Hi. destruct (internal_run_less _ _ _ Ho Hr' Hi) as [Ho' Hl]. split; [lia|].
    pose proof (Hkeep _ _ _ He Hr') as He'. intros Hst. split; [intros i t; by apply stuck_tasks|].
    pose proof (stuck_loop _ He' Hst) as Hl'. unfold over in Ho'. destruct (ss_loop s') as [| |r|r|r|] eqn:El; try done.
    + right. destruct Hl' as [-> ?]. done.
    + left. assert (is_ended s' = true) as Hend by (unfold is_ended; by rewrite El).
      rewrite (eo_closed _ He'). split; [done|]. split; [done|]. by apply (eo_ended _ He').
Qed.
End Invariant.

(** ** [SessionClose]

    A broadcast channel of capacity one: how many senders live, and for every
    receiver whether a message, or the notice of a missed one, waits for it. *)
Record SessionClose : Type := MkSessionClose {
  bc_senders : nat;
  bc_receivers : gmap nat bool
}.
Module SessionClose.
(** [session_close]: the future is receiver 0. *)
Definition session_close : SessionClose * nat := (MkSessionClose 1 {[0 := false]}, 0).
Definition closed (c : SessionClose) : nat * SessionClose :=
  let h := fresh (dom (bc_receivers c)) in (h, MkSessionClose (bc_senders c) (<[h := false]> (bc_receivers c))).
(** [close] consumes its sender. *)
Definition close (c : SessionClose) : SessionClose :=
  MkSessionClose (bc_senders c - 1) ((λ _, true) <$> bc_receivers c).
Definition clone (c : SessionClose) : SessionClose := MkSessionClose (S (bc_senders c)) (bc_receivers c).
Definition drop (c : SessionClose) : SessionClose := MkSessionClose (bc_senders c - 1) (bc_receivers c).
(** [SessionClosedFuture::poll]: a message, a missed one and the end of the
    senders all make it ready. *)
Definition poll (h : nat) (c : SessionClose) : bool :=
  default false (bc_receivers c !! h) || bool_decide (bc_senders c = 0).
End SessionClose.

(** A [TowerService] and the sessions it started: those that hold a sender. *)
Record TowerSessions : Type := MkTowerSessions {
  tw_on_session_close : option SessionClose;
  tw_sessions : gset nat
}.
Module TowerSessions.
Definition new : TowerSessions := MkTowerSessions None ∅.
Definition on_session_closed (t : TowerSessions) : nat * TowerSessions :=
  match tw_on_session_close t with
  | Some n => let '(fut, n) := SessionClose.closed n in (fut, MkTowerSessions (Some n) (tw_sessions t))
  | None => let '(n, fut) := SessionClose.session_close in (fut, MkTowerSessions (Some n) (tw_sessions t))
  end.
(** [call] works on a clone of the service and takes the sender out of it; only an
    upgrade keeps it. *)
Definition call (upgrade : option nat) (t : TowerSessions) : TowerSessions :=
  match tw_on_session_close t, upgrade with
  | Some n, Some session => MkTowerSessions (Some (SessionClose.clone n)) ({[session]} ∪ tw_sessions t)
  | Some n, None => MkTowerSessions (Some (SessionClose.drop (SessionClose.clone n))) (tw_sessions t)
  | None, _ => t
  end.
(** The end of [background_task] of a session. *)
Definition session_over (session : nat) (t : TowerSessions) : TowerSessions :=
  if decide (session ∈ tw_sessions t) then
    MkTowerSessions (SessionClose.close <$> tw_on_session_close t) (tw_sessions t ∖ {[session]})
  else t.
Definition is_ready (fut : nat) (t : TowerSessions) : bool :=
  match tw_on_session_close t with Some n => SessionClose.poll fut n | None => false end.
End TowerSessions.

(** A future that was asked for before a session waits for the session's end. *)
Lemma session_closed_future t session : (∀ n, tw_on_session_close t = Some n → 0 < bc_senders n) →
  session ∉ tw_sessions t →
  let '(fut, t1) := TowerSessions.on_session_closed t in
  let t2 := TowerSessions.call (Some session) t1 in
  TowerSessions.is_ready fut t1 = false ∧ TowerSessions.is_ready fut t2 = false ∧
  TowerSessions.is_ready fut (TowerSessions.session_over session t2) = true.
Proof.
  intros Hn Hs. destruct t as [[n|] ss]; cbn.
  - specialize (Hn n eq_refl). unfold TowerSessions.is_ready, TowerSessions.session_over, SessionClose.poll; cbn.
    rewrite lookup_insert_eq, decide_True by set_solver. cbn. rewrite lookup_fmap, lookup_insert_eq. cbn.
    rewrite bool_decide_eq_false_2 by lia. done.
  - unfold TowerSessions.session_over; cbn. by rewrite decide_True by set_solver.
Qed.
(** Sessions of one service share the channel: the end of the first one makes the
    future of the second one ready. *)
Example session_closed_shared :
  let '(_, t) := TowerSessions.on_session_closed TowerSessions.new in
  let t := TowerSessions.call (Some 1) t in
  let '(fut2, t) := TowerSessions.on_session_closed t in
  let t := TowerSessions.call (Some 2) t in
  TowerSessions.is_ready fut2 t = false ∧ TowerSessions.is_ready fut2 (TowerSessions.session_over 1 t) = true ∧
  2 ∈ tw_sessions (TowerSessions.session_over 1 t).
Proof. split_and!; [vm_compute; reflexivity..|]. by apply (bool_decide_unpack _). Qed.

(** ** The low-level [connect] *)
Section Connect.
Context {X : HttpExtensions} {K : Handshake} {U : Type}.
(** What [background_task] is given: of the socket, the limit for what comes in. *)
Record BackgroundTaskParams : Type := MkBackgroundTaskParams {
  bt_server_cfg : ServerConfig U;
  bt_conn_id : N;
  bt_max_message_size : N;
  bt_rpc_service : RpcService U;
  bt_sink : MethodSink;
  bt_extensions : Extensions
}.
Definition connect (req : HttpRequest) (server_cfg : ServerConfig U) (methods : Methods U) (conn_id : N) (w : W U)
    : Result HttpResponse (HttpResponse * BackgroundTaskParams) * W U :=
  match receive_request req with
  | Ok response =>
    let '(sink, rpc_service, w) := TowerServiceNoHttp.ws_service (MkServiceData methods conn_id server_cfg) w in
    (Ok (response, MkBackgroundTaskParams server_cfg conn_id (sc_max_response_body_size server_cfg) rpc_service sink
                     (hq_extensions req)), w)
  | Err e => (Err (MkHttpResponse 200 "" ("WS upgrade handshake failed: " +:+ e) ext_new), w)
  end.
(** What [TowerServiceNoHttp] gives to [background_task] for the task of a WebSocket. *)
Definition tower_params (t : Task U) : option (BackgroundTaskParams) :=
  match t with
  | TkWs WsRunning cfg request conn_id sink rpc_service =>
    Some (MkBackgroundTaskParams cfg conn_id (sc_max_request_body_size cfg) rpc_service sink (hq_extensions request))
  | _ => None
  end.
End Connect.
Arguments BackgroundTaskParams {X} U.

(** ** A session over concrete texts *)
Section SessionRun.
#[local] Existing Instance ref_json.
#[local] Existing Instance ref_ext.
Notation ex_run biased :=
  (run_session (svc := rpc_service ex_rest ex_service) None 1000 BrcUnlimited None SendError [] (method_sink_new 0) biased).
Definition ex_session : Session (W unit) := session_start ex_world (ex_world, ()).
(** A call comes in, the server is stopped, the call is answered, the session ends. *)
Definition ex_stop : list Label :=
  [LTurn 0 [(1%N, EvData ex_text)]; LLoop; LTurn 1 [(2%N, EvStop)]; LLoop; LRun 0; LPut 0; LShutdown false].
Definition ex_end : list Label := [LSend (Ok ()); LSendStop; LSendClosed; LEnd].

Lemma graceful_stop_answers_witness :
  ∃ s, ex_run true (ex_stop ++ ex_end) ex_session = Some s ∧ ss_closed s = true ∧
    ∃ sent rest, ss_put s = sent ++ rest ∧ ss_wire s = wire_of None SendError sent.*2 ∧ ss_wire s = [ex_reply].
Proof.
  destruct (ex_run true (ex_stop ++ ex_end) ex_session) as [s|] eqn:E; [|vm_compute in E; discriminate].
  destruct (graceful_stop_answers (svc := rpc_service ex_rest ex_service) None 1000 BrcUnlimited None SendError []
    (method_sink_new 0) true (ex_stop ++ ex_end) ex_world (ex_world, ()) s) as (_ & Hc & sent & rest & Hp & _ & Hw & _).
  - reflexivity.
  - intros text. reflexivity.
  - reflexivity.
  - reflexivity.
  - exact E.
  - repeat constructor.
  - vm_compute in E. injection E as <-. reflexivity.
  - exists s. split; [reflexivity|]. split; [exact Hc|]. exists sent, rest. split; [exact Hp|]. split; [exact Hw|].
    vm_compute in E. injection E as <-. reflexivity.
Defined.
Lemma session_ends_witness :
  ∃ s s', ex_run false ex_stop ex_session = Some s ∧ ex_run false ex_end s = Some s' ∧
    length ex_end ≤ work_left (method_sink_new 0) s.
Proof.
  destruct (ex_run false ex_stop ex_session) as [s|] eqn:E; [|vm_compute in E; discriminate].
  destruct (ex_run false ex_end s) as [s'|] eqn:E'; [|vm_compute in E; injection E as <-; vm_compute in E'; discriminate].
  destruct (session_ends (svc := rpc_service ex_rest ex_service) None 1000 BrcUnlimited None SendError []
    (method_sink_new 0) false ex_stop ex_end ex_world (ex_world, ()) s s') as [_ H].
  - vm_compute. lia.
  - exact E.
  - exists s, s'. split; [reflexivity|]. split; [exact E'|].
    apply H; [|exact E'|repeat constructor]. vm_compute in E. injection E as <-. reflexivity.
Defined.
(** With a selection that is not biased the stop can come before the answer. *)
Example unbiased_stop_loses_answer :
  (λ s, (ss_wire s, ss_put s)) <$> ex_run false (ex_stop ++ [LSendStop; LSendClosed; LEnd]) ex_session =
    Some ([], [(Some 0, ex_reply)]) ∧
  ex_run true (ex_stop ++ [LSendStop]) ex_session = None.
Proof. vm_compute. auto. Qed.
(** [connect] lets in messages up to the limit for responses. *)
Example connect_limits_by_responses :
  let '(r, _) := connect (K := {| is_upgrade_request := λ _, true; receive_request := λ _, Ok (MkHttpResponse 101 "" "" ext_new) |})
    (ex_post [] "")
    (ServerConfigBuilder.build (ServerConfigBuilder.max_request_body_size 10 (ServerConfigBuilder.new (mret (SubNum 3)))))
    ex_module 0 (ex_world, ()) in
  (λ p, (sc_max_request_body_size (bt_server_cfg p.2), bt_max_message_size p.2)) <$> result_ok r =
    Some (10%N, TEN_MB_SIZE_BYTES).
Proof. vm_compute. reflexivity. Qed.
End SessionRun.
