(* ===== verification/ServerRun.v ===== *)
(** The running server: the accept loop, the connections, the requests and the tasks
    of [Server.v] together with the sessions of [WsSession.v], in any order, on one
    shared state.

    [server/src/server.rs] spawns a task per upgraded request that runs
    [background_task] of [server/src/transport/ws.rs] with the channel, the service
    and the configuration of [TowerServiceNoHttp.call]; the tasks of the messages of
    all sessions and the calls over HTTP change one state of the process, and what
    others put in the channel of a session is there when the session looks.  A label
    names the part that moves; a session is named by its number. *)
From stdpp Require Import base relations gmap strings list.
From S2P Require Import Prelude Serde RefJson Errors Params Wire Middleware MethodResponse Subscription RpcModule RpcService Http WsServer ServiceFrame Server WsSession.

(** ** The state and its steps *)
Section Running.
Context {J : SerdeJson} {X : HttpExtensions} {XC : ExtKey ConnectionId} {XG : ExtKey GuardRef}.
Context {K : Handshake} {L : HttpLibs} {U : Type}.
Context (rest : SubscribeCall → W U → W U) (methods : Methods U) (cfg : ServerConfig U) (biased : bool).

(** A session that was started: the task of the server it runs in, what it was
    given, whether [background_task] has not returned yet, and its state; what it
    holds of the shared state is what it saw of its channel when it last moved. *)
Record Live : Type := MkLive {
  lv_task : nat;
  lv_params : BackgroundTaskParams U;
  lv_running : bool;
  lv_session : Session (W U)
}.
Record Running : Type := MkRunning {
  rn_server : Server U;
  rn_sessions : gmap nat Live
}.

(** *** A move of a session *)
(** [background_task], [send_task] and the tasks of the messages, as they were
    given their parameters. *)
Definition task_step (p : BackgroundTaskParams U) (l : Label) (s : Session (W U)) : option (Session (W U)) :=
  let c := bt_server_cfg p in
  session_step (svc := rpc_service rest (bt_rpc_service p)) (sc_ping_config c) (sc_max_request_body_size c)
    (sc_batch_requests_config c) (sc_message_encryption c) (sc_message_crypto_error_policy c)
    (bt_extensions p) (bt_sink p) biased l s.
(** A session sees the state as it is now: what is new in its channel was put there
    by others. *)
Definition sync (p : BackgroundTaskParams U) (w : W U) (s : Session (W U)) : Session (W U) :=
  let s := put_by (bt_sink p) None w.1 s in
  MkSession (ss_srv s) w (ss_loop s) (ss_send s) (ss_tasks s) (ss_closed s) (ss_received s) (ss_outcomes s)
    (ss_put s) (ss_taken s) (ss_wire s) (ss_notified s).
(** The shared state after its move: a method runs on all of it. *)
Definition world_after (l : Label) (w : W U) (s : Session (W U)) : W U :=
  match l with LRun _ => ss_svc s | _ => (ss_srv s, w.2) end.
(** A [StopHandle] wakes nobody before the stop. *)
Definition stop_event (e : N * WsEvent) : bool := match e.2 with EvStop => true | _ => false end.
Definition may_happen (stopped : bool) (l : Label) : bool :=
  match l with LTurn _ events => stopped || negb (existsb stop_event events) | _ => true end.

(** A session starts: what is in the channel by now was put there by others. *)
Definition session_begin (p : BackgroundTaskParams U) (w : W U) : Session (W U) :=
  let tx := ms_tx (bt_sink p) in
  let c := get_chan tx w.1 in
  session_start (set_chans (<[tx := MkConnChan (cc_cap c) [] (cc_closed c)]> (sw_chans w.1)) w.1) w.
Definition start_session (h : nat) (s : Server U) (ss : gmap nat Live) : gmap nat Live :=
  match sv_tasks s !! h ≫= tower_params with
  | Some p => <[fresh (dom ss) := MkLive h p true (session_begin p (sv_w s))]> ss
  | None => ss
  end.
Definition set_session (s : Session (W U)) (v : Live) : Live := MkLive (lv_task v) (lv_params v) (lv_running v) s.
Definition set_over (v : Live) : Live := MkLive (lv_task v) (lv_params v) false (lv_session v).

(** *** The steps *)
Inductive RunLabel : Type :=
| RnAccept (nodelay : bool)
| RnRequest (c : N) (request : HttpRequest)
| RnHttp (h : nat)
| RnHttpCancel (h : nat)
| RnRegister (h : nat)
| RnUpgrade (h : nat) (upgraded : bool)
| RnSession (k : nat) (l : Label)
| RnTaskEnd (k : nat)
| RnUnregister (h : nat)
| RnConnEnd (c : N)
| RnStop
| RnDropHandles
| RnAcceptShutdown
| RnReturn
| RnOthers (w : W U).

Definition session_move (k : nat) (l : Label) (r : Running) : option Running :=
  let s := rn_server r in
  v ← rn_sessions r !! k;
  if may_happen (sv_stop s) l then
    s' ← task_step (lv_params v) l (sync (lv_params v) (sv_w s) (lv_session v));
    Some (MkRunning (set_w (world_after l (sv_w s) s') s) (<[k := set_session s' v]> (rn_sessions r)))
  else None.
(** [background_task] has returned, or panicked. *)
Definition task_end (k : nat) (r : Running) : option Running :=
  v ← rn_sessions r !! k;
  if lv_running v then
    s' ← match ss_loop (lv_session v) with
         | LpEnded _ => ws_end (lv_task v) (rn_server r)
         | LpPanicked => ws_panic (lv_task v) (rn_server r)
         | _ => None
         end;
    Some (MkRunning s' (<[k := set_over v]> (rn_sessions r)))
  else None.
(** [RnOthers]: subscriptions, the connection manager and everything else the user
    runs, which put texts in channels. *)
Definition run_step (l : RunLabel) (r : Running) : option Running :=
  let s := rn_server r in
  let server (o : option (Server U)) : option Running := (λ s, MkRunning s (rn_sessions r)) <$> o in
  match l with
  | RnAccept nodelay => server (if sv_accepting s then Some (accept_conn methods cfg nodelay s) else None)
  | RnRequest c request => server ((λ d, (TowerServiceNoHttp.call d request s).2) <$> sv_conns s !! c)
  | RnHttp h => server (snd <$> http_run rest h s)
  | RnHttpCancel h => server (http_cancel h s)
  | RnRegister h => server (ws_register h s)
  | RnUpgrade h upgraded =>
    s' ← ws_upgrade h upgraded s;
    Some (MkRunning s' (if upgraded then start_session h s' (rn_sessions r) else rn_sessions r))
  | RnSession k l => session_move k l r
  | RnTaskEnd k => task_end k r
  | RnUnregister h => server (ws_unregister h s)
  | RnConnEnd c => server (_ ← sv_conns s !! c; Some (conn_end c s))
  | RnStop => server (Some (stop s).2)
  | RnDropHandles => server (Some (drop_handles s))
  | RnAcceptShutdown => server (if sv_stop s && sv_accepting s then Some (accept_shutdown s) else None)
  | RnReturn =>
    server (if negb (sv_accepting s) && bool_decide (sv_conns s = ∅) && negb (sv_finished s)
            then Some (start_inner_return s) else None)
  | RnOthers w => server (if bool_decide (grows_w (sv_w s) w) then Some (set_w w s) else None)
  end.
Definition run_server : list RunLabel → Running → option Running := run_labels run_step.
Definition run_start (w : W U) (managers : gmap nat (gmap ConnectionId MethodSink)) : Running :=
  MkRunning (init cfg w managers) ∅.
End Running.
Arguments Live {X} U. Arguments Running {X} U. Arguments RunLabel {X} U.

(** ** What a move leaves alone *)
Section Frames.
Context {J : SerdeJson} {X : HttpExtensions} {S : Type} {svc : RpcServiceT S}.
(** All channels but one are left alone, and none goes away. *)
Definition only_chan (tx : nat) (w w' : SrvWorld) : Prop :=
  (∀ h, h ≠ tx → sw_chans w' !! h = sw_chans w !! h) ∧ (is_Some (sw_chans w !! tx) → is_Some (sw_chans w' !! tx)).
Lemma only_chan_refl tx w : only_chan tx w w.
Proof. by split. Qed.
Lemma only_chan_insert tx c w : only_chan tx w (set_chans (<[tx := c]> (sw_chans w)) w).
Proof. split; [intros h Hh; cbn; by rewrite lookup_insert_ne|]. intros _. cbn. rewrite lookup_insert_eq. eauto. Qed.
Lemma only_chan_send sink json w r w' : sink_send sink json w = Some (r, w') → only_chan (ms_tx sink) w w'.
Proof.
  unfold sink_send, sink_try_send. destruct (sink_is_closed sink w); [by intros [= _ <-]; apply only_chan_refl|].
  case_decide; [|done]. intros [= _ <-]. apply only_chan_insert.
Qed.
Lemma only_chan_poll sink t w n w' : msg_task_poll sink t w = Some (n, w') → only_chan (ms_tx sink) w w'.
Proof.
  destruct t as [|json|json on_close ok]; cbn; [by intros [= _ <-]; apply only_chan_refl|..];
    destruct (sink_send sink json w) as [[[] w1]|] eqn:E; intros [=]; subst; by eapply only_chan_send.
Qed.
Lemma only_chan_loop max sink rcv w n w' : loop_step max sink rcv w = Ok (Some (n, w')) → only_chan (ms_tx sink) w w'.
Proof.
  destruct rcv as [| |[|cur mx|]|]; cbn; try by intros [= _ <-]; apply only_chan_refl.
  unfold sink_send_error. destruct (error_json _ _) as [json|]; [cbn|done].
  destruct (sink_send sink json w) as [[[] w1]|] eqn:E; intros [= _ <-]; by eapply only_chan_send.
Qed.

Lemma go_on_same b (s : Session S) : ss_loop (go_on b s) = ss_loop s ∧ ss_srv (go_on b s) = ss_srv s.
Proof. by destruct b. Qed.

Context (ping_config : option PingConfig) (max_request_body_size : N) (batch_config : BatchRequestConfig).
Context (encryption : option MessageEncryption) (policy : MessageCryptoErrorPolicy).
Context (extensions : Extensions) (sink : MethodSink) (biased : bool).
Notation step := (session_step ping_config max_request_body_size batch_config encryption policy extensions sink biased).

(** A session changes no channel but its own. *)
Lemma session_step_frame l (s s' : Session S) : step l s = Some s' → only_chan (ms_tx sink) (ss_srv s) (ss_srv s').
Proof.
  destruct l; cbn.
  - unfold recv_turn. destruct (ss_loop s); try done. destruct (try_recv _ _ _ _) as [[[rcv m] []]|]; try done.
    intros [= <-]. apply only_chan_refl.
  - unfold loop_turn. destruct (ss_loop s); try done. destruct (loop_step _ _ _ _) as [[[n w]|]|] eqn:E; [|done|].
    + apply only_chan_loop in E. by destruct n; intros [= <-].
    + intros [= <-]. apply only_chan_refl.
  - unfold task_run. destruct (ss_tasks s !! i) as [[data| |]|]; try done.
    destruct (handle_message _ _ _ _ _ _) as [r st]. intros [= <-]. apply only_chan_refl.
  - unfold task_put. destruct (ss_tasks s !! i) as [[| |t]|]; try done.
    destruct (msg_task_poll _ _ _) as [[n w]|] eqn:E; [|done]. intros [= <-]. by apply only_chan_poll in E.
  - unfold sink_push. destruct (sink_send _ _ _) as [[r w]|] eqn:E; [|done]. intros [= <-]. by apply only_chan_send in E.
  - unfold send_turn. destruct (ss_send s); try done. destruct (queue_of sink (ss_srv s)) as [|text rest]; [done|].
    destruct (turn_of _ _ _ _) as [texts b]. intros [= <-]. destruct b; apply only_chan_insert.
  - unfold ping_turn. destruct (ss_send s), ping_config; try done. intros [= <-]. rewrite (proj2 (go_on_same _ s)). apply only_chan_refl.
  - unfold stop_turn. destruct (ss_send s); try done. destruct (_ && _); [|done]. intros [= <-]. apply only_chan_refl.
  - unfold send_closed. destruct (ss_send s); try done. intros [= <-]. apply only_chan_insert.
  - unfold graceful_shutdown. destruct (ss_loop s); try done. destruct (shutdown_ready _ _ _ _); [|done].
    intros [= <-]. apply only_chan_refl.
  - unfold session_end. destruct (ss_loop s); try done. destruct (send_gone s); [|done]. intros [= <-]. apply only_chan_refl.
Qed.
(** The task of a message runs on the state of the service only, which grows. *)
Lemma task_run_frame (R : relation S) `{!PreOrder R} i (s s' : Session S) : ServiceKeeps R svc →
  step (LRun i) s = Some s' → ss_srv s' = ss_srv s ∧ R (ss_svc s) (ss_svc s').
Proof.
  intros Hk. cbn. unfold task_run. destruct (ss_tasks s !! i) as [[data| |]|]; try done.
  pose proof (handle_message_keeps R encryption policy batch_config extensions data (ss_svc s)) as H.
  destruct (handle_message _ _ _ _ _ _) as [r st]. by intros [= <-].
Qed.

(** [background_task] is at its end, one way or the other, and stays there. *)
Definition loop_over (s : Session S) : bool := match ss_loop s with LpEnded _ | LpPanicked => true | _ => false end.
Lemma loop_over_step l (s s' : Session S) : step l s = Some s' → loop_over s = true → ss_loop s' = ss_loop s.
Proof.
  unfold loop_over. intros Hs Hl. destruct l; cbn in Hs.
  - unfold recv_turn in Hs. by destruct (ss_loop s).
  - unfold loop_turn in Hs. by destruct (ss_loop s).
  - unfold task_run in Hs. destruct (ss_tasks s !! i) as [[data| |]|]; try done.
    destruct (handle_message _ _ _ _ _ _) as [r st]. by injection Hs as <-.
  - unfold task_put in Hs. destruct (ss_tasks s !! i) as [[| |t]|]; try done.
    destruct (msg_task_poll _ _ _) as [[n w]|]; [|done]. by injection Hs as <-.
  - unfold sink_push in Hs. destruct (sink_send _ _ _) as [[r w]|]; [|done]. by injection Hs as <-.
  - unfold send_turn in Hs. destruct (ss_send s); try done. destruct (queue_of sink (ss_srv s)) as [|text rest]; [done|].
    destruct (turn_of _ _ _ _) as [texts []]; by injection Hs as <-.
  - unfold ping_turn in Hs. destruct (ss_send s), ping_config; try done. injection Hs as <-. apply go_on_same.
  - unfold stop_turn in Hs. destruct (ss_send s); try done. destruct (_ && _); [|done]. by injection Hs as <-.
  - unfold send_closed in Hs. destruct (ss_send s); try done. by injection Hs as <-.
  - unfold graceful_shutdown in Hs. by destruct (ss_loop s).
  - unfold session_end in Hs. by destruct (ss_loop s).
Qed.
End Frames.

(** ** The server in a running server *)
Section Projection.
Context {J : SerdeJson} {X : HttpExtensions} {XC : ExtKey ConnectionId} {XG : ExtKey GuardRef}.
Context {K : Handshake} {L : HttpLibs} {U : Type}.
Context (rest : SubscribeCall → W U → W U) (methods : Methods U) (cfg : ServerConfig U) (biased : bool).

(** Without the sessions, a move is a step of the server; the moves of a session are
    steps of its world. *)
Lemma run_step_server l (r r' : Running U) : run_step rest methods cfg biased l r = Some r' →
  Server.step rest methods cfg (rn_server r) (rn_server r').
Proof.
  destruct l as [b|c rq|h|h|h|h up|k l|k|h|c| | | | |w]; cbn; intros Hs.
  - destruct (sv_accepting (rn_server r)) eqn:E; [|done]. injection Hs as <-. by constructor.
  - destruct (sv_conns (rn_server r) !! c) eqn:E; [|done]. injection Hs as <-. by eapply step_request.
  - apply fmap_Some in Hs as (s' & ([rp s1] & Hs & ->)%fmap_Some & ->). by eapply step_http_run.
  - apply fmap_Some in Hs as (s' & Hs & ->). by eapply step_http_cancel.
  - apply fmap_Some in Hs as (s' & Hs & ->). by eapply step_ws_register.
  - apply bind_Some in Hs as (s' & Hs & [= <-]). by eapply step_ws_upgrade.
  - unfold session_move in Hs. destruct (rn_sessions r !! k) as [v|]; [|done]. cbn in Hs.
    destruct (may_happen _ l); [|done]. apply bind_Some in Hs as (s' & _ & [= <-]). by constructor.
  - unfold task_end in Hs. destruct (rn_sessions r !! k) as [v|]; [|done]. cbn in Hs.
    destruct (lv_running v); [|done]. apply bind_Some in Hs as (s' & Hs & [= <-]).
    destruct (ss_loop (lv_session v)); try done; [by eapply step_ws_end|by eapply step_ws_panic].
  - apply fmap_Some in Hs as (s' & Hs & ->). by eapply step_ws_unregister.
  - destruct (sv_conns (rn_server r) !! c); [|done]. injection Hs as <-. by constructor.
  - injection Hs as <-. by apply step_stop.
  - injection Hs as <-. by constructor.
  - destruct (sv_stop (rn_server r)) eqn:E; [|done]. destruct (sv_accepting _); [|done]. injection Hs as <-. by constructor.
  - destruct (sv_accepting (rn_server r)) eqn:E; [done|]. cbn in Hs. case_bool_decide as Ec; [|done].
    destruct (sv_finished (rn_server r)); [done|]. injection Hs as <-. by constructor.
  - case_bool_decide; [|done]. injection Hs as <-. by constructor.
Qed.
End Projection.

(** ** What always holds of a running server *)
Section Invariant.
Context {J : SerdeJson} {X : HttpExtensions} {XC : ExtKey ConnectionId} {XG : ExtKey GuardRef}.
Context {K : Handshake} {L : HttpLibs} {U : Type}.
Context (rest : SubscribeCall → W U → W U) (methods : Methods U) (cfg : ServerConfig U) (biased : bool).
Context {HU : UserGrows rest methods (sc_id_provider cfg)} (Hcap : (0 < sc_message_buffer_capacity cfg)%N).
Notation move := (task_step rest biased).
Notation step := (run_step rest methods cfg biased).
Notation run := (run_server rest methods cfg biased).
Notation chan_of p := (ms_tx (bt_sink p)).

(** The channel of a WebSocket whose session has not started. *)
Definition pending_chan (t : Task U) : option nat :=
  match t with TkWs (WsSpawned | WsUpgrading) _ _ _ sink _ => Some (ms_tx sink) | _ => None end.
Definition service_fine (s : RpcService U) : Prop := rs_methods s = methods ∧ provided (sc_id_provider cfg) s.
Definition open_chan (w : W U) (h : nat) : Prop :=
  ∃ c, sw_chans w.1 !! h = Some c ∧ cc_closed c = false ∧ 0 < cc_cap c.
Definition task_fine (w : W U) (t : Task U) : Prop :=
  match t with TkHttp c _ s | TkWs _ c _ _ _ s => c = cfg ∧ service_fine s end ∧
  ∀ h, pending_chan t = Some h → open_chan w h.
Definition params_fine (p : BackgroundTaskParams U) : Prop := bt_server_cfg p = cfg ∧ service_fine (bt_rpc_service p).
(** What a session saw of its channel is there still, and maybe more. *)
Definition seen (p : BackgroundTaskParams U) (s : Session (W U)) (w : W U) : Prop :=
  ∃ c c', sw_chans (ss_srv s) !! chan_of p = Some c ∧ sw_chans w.1 !! chan_of p = Some c' ∧ chan_grows c c'.

(** A property of sessions, by their numbers, that they start with, that their own
    moves keep if they are of a kind, and that does not mind what others do. *)
Record session_inv (P : nat → BackgroundTaskParams U → Session (W U) → Prop) (Q : nat → Label → Prop) : Prop := {
  si_start k p w st : params_fine p → cc_closed (get_chan (chan_of p) w) = false → queue_of (bt_sink p) w = [] →
    0 < cc_cap (get_chan (chan_of p) w) → P k p (session_start w st);
  si_step k p l s s' : params_fine p → Q k l → P k p s → move p l s = Some s' → P k p s';
  si_sync k p w s : P k p s → chan_grows (get_chan (chan_of p) (ss_srv s)) (get_chan (chan_of p) w.1) → P k p (sync p w s)
}.
Context (P : nat → BackgroundTaskParams U → Session (W U) → Prop) (Q : nat → Label → Prop) (HP : session_inv P Q).

Record live_fine (w : W U) (k : nat) (v : Live U) : Prop := {
  lf_params : params_fine (lv_params v);
  lf_inv : P k (lv_params v) (lv_session v);
  lf_seen : seen (lv_params v) (lv_session v) w;
  lf_over : lv_running v = false → loop_over (lv_session v) = true
}.
(** Who has a channel: a task that waits for its upgrade, or a session. *)
Definition owns (r : Running U) (o : nat + nat) : option nat :=
  match o with
  | inl h => sv_tasks (rn_server r) !! h ≫= pending_chan
  | inr k => (λ v, chan_of (lv_params v)) <$> rn_sessions r !! k
  end.
Record run_ok (r : Running U) : Prop := {
  ro_server : reachable rest methods cfg (rn_server r);
  ro_tasks h t : sv_tasks (rn_server r) !! h = Some t → task_fine (sv_w (rn_server r)) t;
  ro_live k v : rn_sessions r !! k = Some v → live_fine (sv_w (rn_server r)) k v;
  ro_running k v : rn_sessions r !! k = Some v → lv_running v = true →
    sv_tasks (rn_server r) !! lv_task v ≫= tower_params = Some (lv_params v);
  ro_session h p : sv_tasks (rn_server r) !! h ≫= tower_params = Some p →
    ∃ k v, rn_sessions r !! k = Some v ∧ lv_running v = true ∧ lv_task v = h;
  ro_chans o1 o2 c : owns r o1 = Some c → owns r o2 = Some c → o1 = o2
}.

(** *** More of the world *)
(** Every channel but one grows, and none goes away. *)
Definition grows_but (tx : option nat) (w w' : W U) : Prop :=
  ∀ h c, sw_chans w.1 !! h = Some c → ∃ c', sw_chans w'.1 !! h = Some c' ∧ (Some h ≠ tx → chan_grows c c').
Lemma grows_but_grows w w' : grows_w w w' → grows_but None w w'.
Proof. intros H h c Hc. destruct (grows_lookup _ _ _ _ H Hc) as (c' & ? & ?). eauto. Qed.
Lemma only_chan_grows_but tx w w' u : only_chan tx w.1 w' → grows_but (Some tx) w (w', u).
Proof.
  intros [H1 H2] h c Hc. cbn. destruct (decide (h = tx)) as [->|Hn].
  - destruct H2 as [c' Hc']; [eauto|]. exists c'. split; [done|]. congruence.
  - rewrite H1 by done. exists c. split; [done|]. intros _. reflexivity.
Qed.
Lemma open_chan_but tx w w' h : grows_but tx w w' → Some h ≠ tx → open_chan w h → open_chan w' h.
Proof.
  intros Hg Hn (c & Hc & Ho & Hp). destruct (Hg h c Hc) as (c' & Hc' & Hcg). destruct (Hcg Hn) as (E1 & E2 & _).
  exists c'. split; [done|]. by rewrite E1, E2.
Qed.
Lemma task_fine_but tx w w' t : grows_but tx w w' → (∀ h, pending_chan t = Some h → Some h ≠ tx) →
  task_fine w t → task_fine w' t.
Proof. intros Hg Hn [H1 H2]. split; [done|]. intros h Hh. eapply open_chan_but; eauto. Qed.
Lemma seen_but tx p s w w' : grows_but tx w w' → Some (chan_of p) ≠ tx → seen p s w → seen p s w'.
Proof.
  intros Hg Hn (c & c1 & Hc & Hc1 & Hcg). destruct (Hg _ c1 Hc1) as (c2 & Hc2 & Hg2). exists c, c2.
  split; [done|]. split; [done|]. etrans; [done|]. by apply Hg2.
Qed.
Lemma live_fine_but tx w w' k v : grows_but tx w w' → Some (chan_of (lv_params v)) ≠ tx → live_fine w k v → live_fine w' k v.
Proof. intros Hg Hn [? ? ? ?]. split; [done|done| |done]. eapply seen_but; eauto. Qed.

(** *** Moves of the server *)
(** A task stays, or it is no session that runs, and goes or keeps its channel. *)
Definition task_kept (old new : option (Task U)) : Prop :=
  new = old ∨ ∃ t, old = Some t ∧ tower_params t = None ∧
    ∀ t', new = Some t' → tower_params t' = None ∧ pending_chan t' = pending_chan t ∧ ∀ w, task_fine w t → task_fine w t'.
Lemma server_ok r s' : run_ok r → Server.step rest methods cfg (rn_server r) s' → grows_w (sv_w (rn_server r)) (sv_w s') →
  (∀ h, task_kept (sv_tasks (rn_server r) !! h) (sv_tasks s' !! h)) → run_ok (MkRunning s' (rn_sessions r)).
Proof.
  intros [H1 H2 H3 H4 H5 H6] Hs Hg%grows_but_grows Ht. split; cbn.
  - by eapply reach_step.
  - intros h t Hh. eapply task_fine_but; [done|done|]. destruct (Ht h) as [E|(t0 & E0 & _ & E)].
    + apply (H2 h). congruence.
    + destruct (E t Hh) as (_ & _ & Hf). by apply Hf, (H2 h).
  - intros k v Hv. eapply live_fine_but; [done|done|]. by apply (H3 k).
  - intros k v Hv Hr. specialize (H4 k v Hv Hr). destruct (Ht (lv_task v)) as [->|(t0 & E0 & E & _)]; [done|].
    rewrite E0 in H4. cbn in H4. congruence.
  - intros h p Hh. apply (H5 h p). destruct (Ht h) as [<-|(t0 & E0 & _ & E)]; [done|].
    apply bind_Some in Hh as (t' & Ht' & Hp). destruct (E t' Ht') as [E' _]. congruence.
  - assert (∀ o c, owns (MkRunning s' (rn_sessions r)) o = Some c → owns r o = Some c) as Ho.
    { intros [h|k] c; [|done]. cbn. destruct (Ht h) as [->|(t0 & -> & _ & E)]; [done|].
      intros Hc. apply bind_Some in Hc as (t' & Ht' & Hp). destruct (E t' Ht') as (_ & E' & _). cbn. congruence. }
    intros o1 o2 c Hc1 Hc2. eapply H6; eauto.
Qed.
(** Only one task is touched. *)
Lemma task_kept_insert (ts : gmap nat (Task U)) h t t' : ts !! h = Some t → tower_params t = None → tower_params t' = None →
  pending_chan t' = pending_chan t → (∀ w, task_fine w t → task_fine w t') →
  ∀ h', task_kept (ts !! h') (<[h := t']> ts !! h').
Proof.
  intros Ht Hp Hp' Hc Hf h'. destruct (decide (h' = h)) as [->|Hn].
  - right. exists t. split; [done|]. split; [done|]. rewrite lookup_insert_eq. by intros ? [= <-].
  - left. by rewrite lookup_insert_ne.
Qed.
Lemma task_kept_delete (ts : gmap nat (Task U)) h t : ts !! h = Some t → tower_params t = None →
  ∀ h', task_kept (ts !! h') (delete h ts !! h').
Proof.
  intros Ht Hp h'. destruct (decide (h' = h)) as [->|Hn].
  - right. exists t. split; [done|]. split; [done|]. by rewrite lookup_delete_eq.
  - left. by rewrite lookup_delete_ne.
Qed.
Lemma task_kept_same (ts : gmap nat (Task U)) h : task_kept (ts !! h) (ts !! h).
Proof. by left. Qed.

Lemma on_manager_rest m f (s : Server U) : let s' := on_manager m f s in
  sv_w s' = sv_w s ∧ sv_conns s' = sv_conns s ∧ sv_accepting s' = sv_accepting s ∧ sv_finished s' = sv_finished s.
Proof. by destruct m. Qed.
Lemma service_keeps s : service_fine s → ServiceKeeps grows_w (rpc_service rest s).
Proof. intros [Hm Hp]. eapply rpc_service_keeps; [by rewrite Hm|done]. Qed.
Lemma http_ok r h s' : run_ok r → snd <$> http_run rest h (rn_server r) = Some s' →
  run_ok (MkRunning s' (rn_sessions r)).
Proof.
  intros Hr H. apply fmap_Some in H as ([rp s1] & H & ->). cbn. pose proof H as Hrun. unfold http_run in H.
  destruct (sv_tasks (rn_server r) !! h) as [[c rq svc|]|] eqn:Eh; [|done..].
  destruct (ro_tasks _ Hr h _ Eh) as [[_ Hf] _]. pose proof (service_keeps svc Hf) as HK.
  pose proof (call_with_service_keeps (svc := rpc_service rest svc) grows_w rq (sc_batch_requests_config c)
    (sc_max_request_body_size c) (sv_w (rn_server r))) as Hg.
  destruct (call_with_service _ _ _ _) as [res w]. cbn in Hg.
  assert (s1 = end_task h (set_w w (rn_server r))) as -> by (destruct res as [|[]]; by simplify_eq).
  apply server_ok; [done|by eapply step_http_run|done|]. cbn. by eapply task_kept_delete.
Qed.
(** The moves that neither start nor end a session. *)
Lemma plain_ok l r r' : run_ok r → step l r = Some r' →
  match l with
  | RnHttpCancel _ | RnRegister _ | RnUpgrade _ false | RnUnregister _ | RnConnEnd _ | RnStop | RnDropHandles
  | RnAcceptShutdown | RnReturn | RnOthers _ | RnAccept _ => run_ok r'
  | _ => True
  end.
Proof.
  intros Hr Hs. pose proof (run_step_server rest methods cfg biased l r r' Hs) as Hstep. assert (∀ w : W U, grows_w w w) as Hrefl by (intros w; unfold grows_w; reflexivity).
  destruct l as [b|c rq|h|h|h|h [|]|k l|k|h|c| | | | |w]; try exact I; cbn in Hs.
  - destruct (sv_accepting (rn_server r)) eqn:E; [|done]. injection Hs as <-.
    apply server_ok; [done|done|done|by intros; apply task_kept_same].
  - destruct (http_cancel h (rn_server r)) as [s'|] eqn:E; [|done]. injection Hs as <-.
    unfold http_cancel in E. destruct (sv_tasks (rn_server r) !! h) as [[]|] eqn:Eh; simplify_eq.
    apply server_ok; [done|done|done|]. by eapply task_kept_delete.
  - destruct (ws_register h (rn_server r)) as [s'|] eqn:E; [|done]. injection Hs as <-.
    unfold ws_register in E. destruct (sv_tasks (rn_server r) !! h) as [[|[] c rq id sink svc]|] eqn:Eh; simplify_eq.
    apply server_ok; [done|done|cbn; by rewrite (proj1 (on_manager_rest _ _ _))|]. cbn.
    by eapply task_kept_insert.
  - destruct (ws_upgrade h false (rn_server r)) as [s'|] eqn:E; [|done]. injection Hs as <-.
    unfold ws_upgrade in E. destruct (sv_tasks (rn_server r) !! h) as [[|[] c rq id sink svc]|] eqn:Eh; simplify_eq.
    apply server_ok; [done|done|done|]. by eapply task_kept_delete.
  - destruct (ws_unregister h (rn_server r)) as [s'|] eqn:E; [|done]. injection Hs as <-.
    unfold ws_unregister in E. destruct (sv_tasks (rn_server r) !! h) as [[|[] c rq id sink svc]|] eqn:Eh; simplify_eq.
    apply server_ok; [done|done|cbn; by rewrite (proj1 (on_manager_rest _ _ _))|]. cbn.
    by eapply task_kept_delete.
  - destruct (sv_conns (rn_server r) !! c); [|done]. injection Hs as <-.
    apply server_ok; [done|done|done|by intros; apply task_kept_same].
  - injection Hs as <-. apply server_ok; [done|done|..]; unfold stop;
      destruct (is_stopped (rn_server r)); cbn; done || by intros; apply task_kept_same.
  - injection Hs as <-. apply server_ok; [done|done|done|by intros; apply task_kept_same].
  - destruct (sv_stop (rn_server r)) eqn:E; [|done]. destruct (sv_accepting (rn_server r)); [|done]. injection Hs as <-.
    apply server_ok; [done|done|done|by intros; apply task_kept_same].
  - destruct (sv_accepting (rn_server r)) eqn:E; [done|]. cbn in Hs. case_bool_decide as Ec; [|done].
    destruct (sv_finished (rn_server r)); [done|]. injection Hs as <-.
    apply server_ok; [done|done|done|by intros; apply task_kept_same].
  - case_bool_decide as Hg; [|done]. injection Hs as <-.
    apply server_ok; [done|done|done|by intros; apply task_kept_same].
Qed.

(** *** A request *)
(** It starts at most one task, whose channel is new. *)
Lemma request_cases d request (s : Server U) : sd_server_cfg d = cfg → sd_methods d = methods →
  let s' := (TowerServiceNoHttp.call d request s).2 in
  grows_w (sv_w s) (sv_w s') ∧
  (sv_tasks s' = sv_tasks s ∨
   ∃ h t, sv_tasks s !! h = None ∧ sv_tasks s' = <[h := t]> (sv_tasks s) ∧ tower_params t = None ∧
     task_fine (sv_w s') t ∧ ∀ c, pending_chan t = Some c → sw_chans (sv_w s).1 !! c = None).
Proof.
  intros Ec Em. unfold TowerServiceNoHttp.call. rewrite Ec.
  destruct (ConnectionGuard.try_acquire (sv_guard s)) as [g|]; [|split; [unfold grows_w; done|by left]]. cbn zeta.
  set (rq := TowerServiceNoHttp.extend _ _). assert (grows_w (sv_w s) (sv_w s)) as Hrefl by (unfold grows_w; done).
  assert (sv_tasks s !! fresh (dom (sv_tasks s)) = None) as Hf by apply not_elem_of_dom, is_fresh.
  destruct (sc_enable_ws cfg && _).
  - destruct (receive_request rq); [|by split; [|left]]. unfold TowerServiceNoHttp.ws_service, new_channel, new_semaphore.
    cbn. rewrite Ec, Em. set (h := fresh (dom (sw_chans (sv_w s).1))).
    assert (sw_chans (sv_w s).1 !! h = None) as Hn by apply not_elem_of_dom, is_fresh. split.
    + unfold grows_w; cbn. etrans; [by apply (grows_new h)|by apply grows_same].
    + right. eexists _, _. split; [exact Hf|]. split; [reflexivity|]. split; [done|]. split; [|by intros c [= <-]].
      split; [done|]. intros h' [= <-]. unfold open_chan; cbn. rewrite lookup_insert_eq. eexists. split; [done|].
      split; [done|]. cbn. lia.
  - destruct (sc_enable_http cfg && _); [|by split; [|left]]. split; [done|]. right. eexists _, _.
    split; [exact Hf|]. split; [reflexivity|]. split; [done|]. split; [|done]. split; [|done]. split; [done|].
    split; [exact Em|done].
Qed.
Lemma request_ok c d request r : run_ok r → sv_conns (rn_server r) !! c = Some d →
  run_ok (MkRunning (TowerServiceNoHttp.call d request (rn_server r)).2 (rn_sessions r)).
Proof.
  intros Hr Hd. destruct (reachable_ok rest methods cfg _ (ro_server _ Hr)) as [_ (_ & _ & _ & Hc)].
  destruct (Hc c d Hd) as (_ & _ & Ec & Em). destruct (request_cases d request (rn_server r) Ec Em) as [Hg Ht].
  assert (Server.step rest methods cfg (rn_server r) (TowerServiceNoHttp.call d request (rn_server r)).2) as Hs
    by by eapply step_request.
  set (s' := (TowerServiceNoHttp.call d request (rn_server r)).2) in *. clearbody s'.
  destruct Ht as [Ht|(h & t & Hn & Ht & Hp & Hf & Hch)].
  { apply server_ok; [done..|]. rewrite Ht. intros h. by left. }
  destruct Hr as [H1 H2 H3 H4 H5 H6]. pose proof (grows_but_grows _ _ Hg) as Hg'. split; cbn; rewrite ?Ht.
  - by eapply reach_step.
  - intros h' t' [[<- <-]|[Hh Hl]]%lookup_insert_Some; [done|]. eapply task_fine_but; [done|done|eauto].
  - intros k v Hv. eapply live_fine_but; [done|done|eauto].
  - intros k v Hv Hrn. specialize (H4 k v Hv Hrn). rewrite lookup_insert_ne; [done|]. intros E.
    by rewrite <-E, Hn in H4.
  - intros h' p Hh. apply (H5 h' p). destruct (decide (h = h')) as [->|Hne].
    + rewrite lookup_insert_eq in Hh. cbn in Hh. congruence.
    + by rewrite lookup_insert_ne in Hh.
  - (* a channel that somebody has is not the new one *)
    assert (∀ o c', owns r o = Some c' → is_Some (sw_chans (sv_w (rn_server r)).1 !! c')) as Hold.
    { intros [h'|k] c' Ho; cbn in Ho.
      - apply bind_Some in Ho as (t' & Ht' & Hc'). destruct (H2 _ _ Ht') as [_ Hop].
        destruct (Hop _ Hc') as (? & -> & _). eauto.
      - apply fmap_Some in Ho as (v & Hv & ->). destruct (lf_seen _ _ _ (H3 k v Hv)) as (? & ? & _ & -> & _). eauto. }
    assert (∀ o c', owns (MkRunning s' (rn_sessions r)) o = Some c' → o = inl h ∧ pending_chan t = Some c' ∨ owns r o = Some c') as Ho.
    { intros [h'|k] c'; [|by right]. cbn. rewrite Ht. destruct (decide (h = h')) as [->|Hne].
      - rewrite lookup_insert_eq. cbn. auto.
      - rewrite lookup_insert_ne by done. auto. }
    intros o1 o2 c' [[-> Hc1]|Hc1]%Ho [[-> Hc2]|Hc2]%Ho; [done|..|by eapply H6].
    + apply Hold in Hc2 as [? Hx]. by rewrite (Hch _ Hc1) in Hx.
    + apply Hold in Hc1 as [? Hx]. by rewrite (Hch _ Hc2) in Hx.
Qed.

(** *** A session starts *)
Lemma upgrade_ok h s' r : run_ok r → ws_upgrade h true (rn_server r) = Some s' →
  run_ok (MkRunning s' (start_session h s' (rn_sessions r))).
Proof.
  intros [H1 H2 H3 H4 H5 H6] E. pose proof E as E'. unfold ws_upgrade in E.
  destruct (sv_tasks (rn_server r) !! h) as [[|[] c rq id sink svc]|] eqn:Eh; simplify_eq.
  set (s' := set_tasks _ _). unfold start_session, s' at 2; cbn. rewrite lookup_insert_eq. cbn.
  set (w := sv_w (rn_server r)) in *.
  set (p := MkBackgroundTaskParams _ _ _ _ _ _). set (k := fresh (dom (rn_sessions r))).
  assert (rn_sessions r !! k = None) as Hk by apply not_elem_of_dom, is_fresh.
  assert (∀ h', h' ≠ h → sv_tasks s' !! h' = sv_tasks (rn_server r) !! h') as Hne by (intros h' Hh; by apply lookup_insert_ne).
  assert (sv_tasks s' !! h ≫= tower_params = Some p) as Hp by (cbn; by rewrite lookup_insert_eq).
  destruct (H2 h _ Eh) as [Hfine Hop]. destruct (Hop (ms_tx sink) eq_refl) as (ch & Hch & Ho & Hcp).
  split; cbn [rn_server rn_sessions].
  - eapply reach_step; [exact H1|by eapply step_ws_upgrade].
  - intros h' t Ht. destruct (decide (h' = h)) as [->|Hn].
    + cbn in Ht. rewrite lookup_insert_eq in Ht. injection Ht as <-. split; [exact Hfine|done].
    + rewrite Hne in Ht by done. by apply (H2 h').
  - intros k' v [[<- <-]|[_ Hv]]%lookup_insert_Some; [|by apply (H3 k')].
    assert (session_begin p w = session_start
      (set_chans (<[ms_tx sink := MkConnChan (cc_cap ch) [] false]> (sw_chans w.1)) w.1) w) as ->.
    { unfold session_begin, get_chan. change (chan_of p) with (ms_tx sink). rewrite Hch. cbn. by rewrite Ho. }
    split; [exact Hfine| | |done]; cbn [lv_params lv_session].
    + apply (si_start _ _ HP); [exact Hfine|..]; unfold queue_of, get_chan; cbn; by rewrite lookup_insert_eq.
    + exists (MkConnChan (cc_cap ch) [] false), ch. split; [apply lookup_insert_eq|]. split; [exact Hch|]. split_and!; [done..|]. by exists (cc_queue ch).
  - intros k' v [[<- <-]|[_ Hv]]%lookup_insert_Some Hr; [exact Hp|]. specialize (H4 k' v Hv Hr).
    rewrite Hne; [done|]. intros Et. by rewrite Et, Eh in H4.
  - intros h' p' Ht. destruct (decide (h' = h)) as [->|Hn].
    + rewrite Hp in Ht. injection Ht as <-. exists k, (MkLive h p true (session_begin p w)). by rewrite lookup_insert_eq.
    + rewrite Hne in Ht by done. destruct (H5 h' p' Ht) as (k' & v & Hv & Hr). exists k', v. split; [|done].
      rewrite lookup_insert_ne; [done|]. intros Ek. by rewrite <-Ek, Hk in Hv.
  - (* the channel passes from the task to the session *)
    set (r' := MkRunning s' _). set (from o := match o with inr k' => if decide (k' = k) then inl h else o | _ => o end).
    assert (∀ o c', owns r' o = Some c' → o ≠ inl h ∧ owns r (from o) = Some c') as Hown.
    { intros [h'|k'] c'; cbn.
      - destruct (decide (h' = h)) as [->|Hn]; [by rewrite lookup_insert_eq|]. rewrite lookup_insert_ne by done.
        intros Hc. split; [|done]. congruence.
      - case_decide as Ek; [subst k'; rewrite lookup_insert_eq|rewrite lookup_insert_ne by done]; cbn; intros Hc; (split; [done|]); [|done].
        by rewrite Eh. }
    intros o1 o2 c' [Hn1 Hc1]%Hown [Hn2 Hc2]%Hown. pose proof (H6 _ _ _ Hc1 Hc2) as Hf.
    unfold from in Hf. destruct o1 as [h1|k1], o2 as [h2|k2]; repeat case_decide; congruence.
Qed.

(** *** A session moves *)
Lemma move_world v l w s' : params_fine (lv_params v) → seen (lv_params v) (lv_session v) w →
  move (lv_params v) l (sync (lv_params v) w (lv_session v)) = Some s' →
  grows_but (Some (chan_of (lv_params v))) w (world_after l w s') ∧ seen (lv_params v) s' (world_after l w s').
Proof.
  intros [_ Hf] (c & c1 & _ & Hc1 & _) Hm. unfold task_step in Hm. assert ((∃ i, l = LRun i) ∨ world_after l w s' = (ss_srv s', w.2)) as [[i ->]| ->] by (destruct l; eauto).
  - pose proof (service_keeps _ Hf) as HK. apply (task_run_frame _ _ _ _ _ _ _ _ grows_w) in Hm as [Es Hg]; [|exact HK].
    cbn in Es, Hg. cbn [world_after]. split.
    + intros h c' Hc'. destruct (grows_lookup _ _ _ _ Hg Hc') as (c2 & ? & ?). eauto.
    + destruct (grows_lookup _ _ _ _ Hg Hc1) as (c2 & ? & ?). exists c1, c2. by rewrite Es.
  - apply session_step_frame in Hm. cbn in Hm. split.
    + by apply only_chan_grows_but.
    + destruct Hm as [_ [c2 Hc2]]; [eauto|]. exists c2, c2. split; [done|]. split; [done|]. reflexivity.
Qed.
Lemma session_ok_move k l r r' : run_ok r → Q k l → session_move rest biased k l r = Some r' → run_ok r'.
Proof.
  intros [H1 H2 H3 H4 H5 H6] HQ E. unfold session_move in E. destruct (rn_sessions r !! k) as [v|] eqn:Ek; [|done]. cbn in E.
  destruct (may_happen _ l); [|done]. apply bind_Some in E as (s' & Hm & [= <-]).
  destruct (H3 k v Ek) as [Hpf Hi Hsn Hov]. destruct (move_world v l _ s' Hpf Hsn Hm) as [Hg Hsn'].
  set (w' := world_after _ _ _) in *. split; cbn [rn_server rn_sessions].
  - eapply reach_step; [exact H1|by constructor].
  - intros h t Ht. eapply task_fine_but; [exact Hg| |by apply (H2 h)]. intros c Hc [= ->].
    assert (inl h = inr k) as Hx; [|done]. apply (H6 _ _ (chan_of (lv_params v))); cbn; [|by rewrite Ek].
    by rewrite (Ht : sv_tasks (rn_server r) !! h = _).
  - intros k' v' [[<- <-]|[Hn Hv]]%lookup_insert_Some.
    + split; [exact Hpf| |exact Hsn'|]; cbn.
      * eapply (si_step _ _ HP); [exact Hpf|exact HQ| |exact Hm]. destruct Hsn as (c & c1 & Hc & Hc1 & Hcg).
        apply (si_sync _ _ HP); [exact Hi|]. unfold get_chan. by rewrite Hc, Hc1.
      * intros Hr. specialize (Hov Hr). unfold task_step in Hm. apply loop_over_step in Hm; [|exact Hov].
        unfold loop_over in *. by rewrite Hm.
    + eapply live_fine_but; [exact Hg| |by apply (H3 k')]. intros [= Hc]. assert (inr k = (inr k' : nat + nat)) as Hx; [|congruence].
      eapply (H6 _ _ (chan_of (lv_params v))); cbn; rewrite ?Ek, ?Hv; cbn; congruence.
  - intros k' v' [[<- <-]|[Hn Hv]]%lookup_insert_Some Hr; [exact (H4 k v Ek Hr)|by apply (H4 k')].
  - intros h p Hh. destruct (H5 h p Hh) as (k' & v' & Hv & Hr & Ht). destruct (decide (k' = k)) as [->|Hn].
    + exists k, (set_session s' v). rewrite lookup_insert_eq. rewrite Ek in Hv. by injection Hv as <-.
    + exists k', v'. by rewrite lookup_insert_ne.
  - assert (∀ o c, owns (MkRunning (set_w w' (rn_server r)) (<[k := set_session s' v]> (rn_sessions r))) o = Some c → owns r o = Some c) as Ho.
    { intros [h|k'] c; [done|]. cbn. destruct (decide (k' = k)) as [->|Hn]; [by rewrite lookup_insert_eq, Ek|by rewrite lookup_insert_ne]. }
    intros o1 o2 c Hc1%Ho Hc2%Ho. by eapply H6.
Qed.

(** *** A session's task ends *)
Lemma task_end_ok k r r' : run_ok r → task_end k r = Some r' → run_ok r'.
Proof.
  intros [H1 H2 H3 H4 H5 H6] E. unfold task_end in E. destruct (rn_sessions r !! k) as [v|] eqn:Ek; [|done]. cbn in E.
  destruct (lv_running v) eqn:Er; [|done]. apply bind_Some in E as (s' & Hend & [= <-]).
  pose proof (H4 k v Ek Er) as Hp. set (h := lv_task v) in *.
  assert (Server.step rest methods cfg (rn_server r) s' ∧ sv_w s' = sv_w (rn_server r) ∧ loop_over (lv_session v) = true ∧
    (∀ h', h' ≠ h → sv_tasks s' !! h' = sv_tasks (rn_server r) !! h') ∧ sv_tasks s' !! h ≫= tower_params = None ∧
    sv_tasks s' !! h ≫= pending_chan = None ∧ ∀ t, sv_tasks s' !! h = Some t → task_fine (sv_w (rn_server r)) t)
    as (Hs & Hw & Ho & Hne & Hn1 & Hn2 & Hf).
  { unfold loop_over. destruct (ss_loop (lv_session v)); try done.
    - pose proof Hend as Hend'. unfold ws_end in Hend.
      destruct (sv_tasks (rn_server r) !! h) as [[|[] c rq id sink svc]|] eqn:Eh; simplify_eq.
      split; [by eapply step_ws_end|]. split_and!; try done; cbn; rewrite ?lookup_insert_eq; try done;
        [intros; by rewrite lookup_insert_ne|]. intros t [= <-]. by destruct (H2 h _ Eh) as [? _].
    - pose proof Hend as Hend'. unfold ws_panic in Hend.
      destruct (sv_tasks (rn_server r) !! h) as [[|[] c rq id sink svc]|] eqn:Eh; simplify_eq.
      split; [by eapply step_ws_panic|]. split_and!; try done; cbn; rewrite ?lookup_delete_eq; try done.
      intros; by rewrite lookup_delete_ne. }
  split; cbn [rn_server rn_sessions]; rewrite ?Hw.
  - by eapply reach_step.
  - intros h' t Ht. destruct (decide (h' = h)) as [->|Hn]; [by apply Hf|]. rewrite Hne in Ht by done. by apply (H2 h').
  - intros k' v' [[<- <-]|[Hn Hv]]%lookup_insert_Some; [|by apply (H3 k')]. destruct (H3 k v Ek) as [? ? ? _]. by split.
  - intros k' v' [[<- <-]|[Hn Hv]]%lookup_insert_Some Hr; [done|]. specialize (H4 k' v' Hv Hr). rewrite Hne; [done|].
    intros Et. rewrite Et, Hp in H4. injection H4 as Hpp. destruct Hn.
    assert (inr k = (inr k' : nat + nat)) as Hx; [|congruence].
    apply (H6 _ _ (chan_of (lv_params v))); cbn; [by rewrite Ek|by rewrite Hv, Hpp].
  - intros h' p Hh. destruct (decide (h' = h)) as [->|Hn]; [by rewrite Hn1 in Hh|]. rewrite Hne in Hh by done.
    destruct (H5 h' p Hh) as (k' & v' & Hv & Hr & Ht). exists k', v'. rewrite lookup_insert_ne; [done|].
    intros Ekk. rewrite <-Ekk, Ek in Hv. injection Hv as <-. done.
  - assert (∀ o c, owns (MkRunning s' (<[k := set_over v]> (rn_sessions r))) o = Some c → owns r o = Some c) as Hown.
    { intros [h'|k'] c; cbn.
      - destruct (decide (h' = h)) as [->|Hn]; [by rewrite Hn2|by rewrite Hne].
      - destruct (decide (k' = k)) as [->|Hn]; [by rewrite lookup_insert_eq, Ek|by rewrite lookup_insert_ne]. }
    intros o1 o2 c Hc1%Hown Hc2%Hown. by eapply H6.
Qed.

(** *** Every move *)
Definition run_label (l : RunLabel U) : Prop := match l with RnSession k l => Q k l | _ => True end.
Lemma run_step_ok l r r' : run_ok r → run_label l → step l r = Some r' → run_ok r'.
Proof.
  intros Hr Hl Hs. pose proof (plain_ok l r r' Hr Hs) as Hplain. destruct l as [b|c rq|h|h|h|h [|]|k l|k|h|c| | | | |w]; try exact Hplain; cbn in Hs.
  - destruct (sv_conns (rn_server r) !! c) as [d|] eqn:Ed; [|done]. injection Hs as <-. by eapply request_ok.
  - apply fmap_Some in Hs as (s' & Hs & ->). by eapply http_ok.
  - apply bind_Some in Hs as (s' & Hs & [= <-]). by apply upgrade_ok.
  - by eapply session_ok_move.
  - by eapply task_end_ok.
Qed.
Lemma start_run_ok w managers : run_ok (run_start cfg w managers).
Proof. split; cbn; try (intros *; rewrite ?lookup_empty; done); [apply reach_init|intros [h|k] o2 c; cbn; by rewrite lookup_empty]. Qed.
Lemma run_reach_ok ls w managers r : Forall run_label ls → run ls (run_start cfg w managers) = Some r → run_ok r.
Proof.
  intros Hl Hr. apply (run_labels_keeps step run_ok run_label (λ l r r', run_step_ok l r r') ls _ r (start_run_ok w managers) Hl Hr).
Qed.
End Invariant.

(** ** What a session has left to do after a stop *)
Section Measures.
Context {J : SerdeJson} {X : HttpExtensions} {S : Type} {svc : RpcServiceT S}.
(** What its tasks do by themselves; nothing comes in but the stop. *)
Definition session_internal (l : Label) : Prop :=
  match l with LLoop => True | LTurn _ events => ∃ now, events = [(now, EvStop)] | _ => internal l end.
(** The messages whose method has not run; those can put any number of texts in the
    channels. *)
Definition stage_runs (t : MsgStage) : nat := match t with MsReceived _ => 1 | _ => 0 end.
Definition session_runs (s : Session S) : nat :=
  map_sum stage_runs (ss_tasks s) + match ss_loop s with LpHandling _ (RcvOk _) => 1 | _ => 0 end.
Definition loop_left (s : Session S) : nat :=
  match ss_loop s with LpReceiving _ => 5 | LpHandling _ RcvStopped => 4 | LpHandling _ _ => 10 | _ => 0 end.

Context (ping_config : option PingConfig) (max_request_body_size : N) (batch_config : BatchRequestConfig).
Context (encryption : option MessageEncryption) (policy : MessageCryptoErrorPolicy).
Context (extensions : Extensions) (sink : MethodSink) (biased : bool).
Notation step := (session_step ping_config max_request_body_size batch_config encryption policy extensions sink biased).

Lemma run_less i (s s' : Session S) : step (LRun i) s = Some s' → session_runs s' < session_runs s.
Proof.
  cbn. unfold task_run. destruct (ss_tasks s !! i) as [[data| |]|] eqn:Ei; try done.
  destruct (handle_message _ _ _ _ _ _) as [r st]. intros [= <-]. unfold session_runs; cbn.
  rewrite (map_sum_delete _ _ _ _ Ei). unfold outcome_stage. destruct r as [t|[]]; rewrite ?map_sum_insert; cbn; lia.
Qed.
Lemma internal_same l (s s' : Session S) : internal l → step l s = Some s' →
  (∃ i, l = LRun i) ∨ session_runs s' = session_runs s ∧ loop_left s' = loop_left s.
Proof.
  intros Hl Hs. destruct l as [| |i|i| |sent| | | |[]|]; try done; [by left; eexists|right..]; cbn in Hs.
  - unfold task_put in Hs. destruct (ss_tasks s !! i) as [[| |t]|] eqn:Ei; try done.
    destruct (msg_task_poll _ _ _) as [[n w]|]; [|done]. injection Hs as <-. unfold session_runs, loop_left; cbn.
    by rewrite (map_sum_delete _ _ _ _ Ei).
  - unfold send_turn in Hs. destruct (ss_send s); try done. destruct (queue_of sink (ss_srv s)) as [|text rest]; [done|].
    destruct (turn_of _ _ _ _) as [texts []]; by injection Hs as <-.
  - unfold stop_turn in Hs. destruct (ss_send s); try done. destruct (_ && _); [|done]. by injection Hs as <-.
  - unfold send_closed in Hs. destruct (ss_send s); try done. by injection Hs as <-.
  - unfold graceful_shutdown in Hs. destruct (ss_loop s) eqn:El; try done. destruct (shutdown_ready _ _ _ _); [|done].
    injection Hs as <-. unfold session_runs, loop_left; cbn. by rewrite El.
  - unfold session_end in Hs. destruct (ss_loop s) eqn:El; try done. destruct (send_gone s); [|done].
    injection Hs as <-. unfold session_runs, loop_left; cbn. by rewrite El.
Qed.
(** A turn of the loop puts one text in the channel at most. *)
Lemma loop_step_one max rcv w n w' : loop_step max sink rcv w = Ok (Some (n, w')) →
  length (queue_of sink w') ≤ 1 + length (queue_of sink w) ∧
  match rcv with RcvOk data => n = LnSpawn data | RcvStopped => w' = w ∧ n = LnBreak (Ok ShStopped) | _ => ∀ d, n ≠ LnSpawn d end.
Proof.
  destruct rcv as [| |[|cur mx|]|]; cbn; try by (intros [= <- <-]; split; [lia|done]).
  unfold sink_send_error. destruct (error_json _ _) as [json|]; [cbn|done].
  destruct (sink_send sink json w) as [[[] w1]|] eqn:E; intros [= <- <-];
    apply sink_send_cases in E as (_ & -> & _); (split; [rewrite length_app; destruct (cc_closed _); cbn; lia|done]).
Qed.
Lemma loop_less (s s' : Session S) : ss_tasks s !! length (ss_received s) = None →
  loop_turn max_request_body_size sink s = Some s' →
  session_runs s' = session_runs s ∧ work_left sink s' + loop_left s' < work_left sink s + loop_left s.
Proof.
  intros Hn. unfold loop_turn, session_runs, loop_left, work_left. destruct (ss_loop s) as [|m rcv| | | |]; try done.
  destruct (loop_step _ _ rcv _) as [[[n w]|]|] eqn:E; [|done|].
  - apply loop_step_one in E as [Hq Hrcv].
    destruct rcv as [| |e|data']; [|destruct Hrcv as [-> ->]| |subst n];
      try (destruct n as [res| |data]; [..|by edestruct Hrcv]); intros [= <-]; cbn;
      rewrite ?map_sum_new by exact Hn; cbn in *; (split; [lia|lia]).
  - intros [= <-]; cbn. destruct rcv as [| |[]|]; try done. split; [done|lia].
Qed.
Lemma session_step_less l (s s' : Session S) : ss_tasks s !! length (ss_received s) = None →
  session_internal l → step l s = Some s' →
  session_runs s' < session_runs s ∨
  session_runs s' = session_runs s ∧ (∀ i, l ≠ LRun i) ∧ work_left sink s' + loop_left s' < work_left sink s + loop_left s.
Proof.
  intros Hn Hl Hs. assert (internal l ∨ l = LLoop ∨ ∃ now now', l = LTurn now [(now', EvStop)]) as [Hi|[->|(now & now' & ->)]].
  { destruct l; try (by left); [right; right|auto]. destruct Hl as [now' ->]. eauto. }
  - destruct (internal_same l s s' Hi Hs) as [[i ->]|[Hr Hll]]; [left; by eapply run_less|].
    destruct (decide (session_runs s' < session_runs s)) as [?|]; [by left|right].
    destruct (internal_step_less _ _ _ _ _ _ _ _ l s s' Hi Hs) as [_ Hw]. split; [done|]. split; [|lia].
    intros i ->. apply run_less in Hs. lia.
  - right. destruct (loop_less s s' Hn Hs) as [? ?]. done.
  - right. cbn in Hs. unfold recv_turn in Hs. unfold session_runs, loop_left, work_left. destruct (ss_loop s) eqn:El; try done. cbn in Hs. injection Hs as <-. cbn.
    split; [done|]. split; [done|]. lia.
Qed.
End Measures.

(** ** A stop of the server *)
Section Stop.
Context {J : SerdeJson} {X : HttpExtensions} {XC : ExtKey ConnectionId} {XG : ExtKey GuardRef}.
Context {K : Handshake} {L : HttpLibs} {U : Type}.
Context (rest : SubscribeCall → W U → W U) (methods : Methods U) (cfg : ServerConfig U) (biased : bool).
Context {HU : UserGrows rest methods (sc_id_provider cfg)}.
Notation step := (run_step rest methods cfg biased).
Notation run := (run_server rest methods cfg biased).
Notation chan_of p := (ms_tx (bt_sink p)).

(** What [WsSession] knows of a session, for the session with these parameters. *)
Definition session_fine (p : BackgroundTaskParams U) (s : Session (W U)) : Prop :=
  let c := bt_server_cfg p in
  session_ok (svc := rpc_service rest (bt_rpc_service p)) (sc_batch_requests_config c) (sc_message_encryption c)
    (sc_message_crypto_error_policy c) (bt_extensions p) (bt_sink p) s ∧ end_ok (bt_sink p) s.
Definition session_answered (p : BackgroundTaskParams U) (s : Session (W U)) : Prop :=
  let c := bt_server_cfg p in
  answered_all (svc := rpc_service rest (bt_rpc_service p)) (sc_batch_requests_config c) (sc_message_encryption c)
    (sc_message_crypto_error_policy c) (bt_extensions p) s.

Lemma queue_grows sink w w' : chan_grows (get_chan (ms_tx sink) w) (get_chan (ms_tx sink) w') →
  ∃ texts, queue_of sink w' = queue_of sink w ++ texts.
Proof. by intros (_ & _ & texts & H); exists texts. Qed.
Lemma session_fine_inv : session_inv rest methods cfg biased (λ _, session_fine) (λ _ _, True).
Proof.
  split.
  - intros _ p w st _ Hc Hq Hp. split; [by apply start_ok|by split].
  - intros _ p l s s' _ _ [H1 H2] Hm. split; [by eapply session_step_ok|by eapply end_ok_step].
  - intros _ p w s [H1 H2] Hg. pose proof Hg as (Hcp & Hc & _). destruct (queue_grows _ _ _ Hg) as [texts Hq]. split.
    + by destruct (put_none_ok _ _ _ _ _ texts w.1 s H1 Hc Hq).
    + by destruct (end_ok_put _ None w.1 s H2 Hc Hcp).
Qed.
Lemma session_stop_inv k0 : biased = true → delivers (sc_message_encryption cfg) (sc_message_crypto_error_policy cfg) →
  session_inv rest methods cfg biased (λ k p s, session_fine p s ∧ (k = k0 → stop_ok s)) (λ k l, k = k0 → smooth l).
Proof.
  intros Hb Hd. destruct session_fine_inv as [I1 I2 I3]. split.
  - intros k p w st Hp Hc Hq Hcp. split; [by apply (I1 k)|done].
  - intros k p l s s' Hp Hl [H1 H2] Hm. split; [by eapply (I2 k)|]. destruct Hp as [Hp _]. unfold task_step in Hm. intros Hk.
    refine (proj2 (stop_ok_step _ _ _ _ _ _ _ _ l s s' Hb _ (conj (proj1 H1) (H2 Hk)) (Hl Hk) Hm)). by rewrite Hp.
  - intros k p w s [H1 H2] Hg. split; [by apply (I3 k)|]. destruct (queue_grows _ _ _ Hg) as [texts Hq]. intros Hk. specialize (H2 Hk).
    by apply (stop_ok_push (bt_sink p) w.1 s texts) in H2.
Qed.

(** C11: a stop of the server loses no answer, in any session.  Whatever the accept
    loop, the requests over HTTP, the other sessions and the user's subscriptions do
    in between: when the server reports that it has stopped, no session runs any more;
    the end of each that did not panic was signalled after its task that sends had
    closed its channel; and a session that the stop ended, whose own client stayed
    and whose socket worked, has no task left, has handled every message it received
    and has handed what was to be said about it to the socket, once and in order. *)
Theorem stopped_server_answered (ls : list (RunLabel U)) (w : W U) (managers : gmap nat (gmap ConnectionId MethodSink))
    (r : Running U) (k : nat) (v : Live U) :
  (0 < sc_message_buffer_capacity cfg)%N → biased = true →
  delivers (sc_message_encryption cfg) (sc_message_crypto_error_policy cfg) →
  run ls (run_start cfg w managers) = Some r → Forall (run_label (λ k' l, k' = k → smooth l)) ls →
  is_stopped (rn_server r) = true → rn_sessions r !! k = Some v →
  lv_running v = false ∧
  (ss_loop (lv_session v) = LpPanicked ∨
   ∃ result, ss_loop (lv_session v) = LpEnded result ∧ ss_closed (lv_session v) = true ∧
     cc_closed (get_chan (chan_of (lv_params v)) (sv_w (rn_server r)).1) = true ∧
     (result = Ok ShStopped → ss_tasks (lv_session v) = ∅ ∧ session_answered (lv_params v) (lv_session v))).
Proof.
  intros Hcap Hb Hd Hr Hl Hst Hv.
  destruct (run_reach_ok rest methods cfg biased Hcap _ _ (session_stop_inv k Hb Hd) ls w managers r Hl Hr) as [H1 _ H3 H4 _ _].
  destruct (H3 k v Hv) as [_ [[Hs He] Ho] (c & c' & Hc & Hc' & _ & Hcl & _) Hov].
  destruct (lv_running v) eqn:Er.
  { specialize (H4 k v Hv Er). apply bind_Some in H4 as (t & Ht & Hp).
    pose proof (stopped_holds _ _ _ Hst Ht) as Hh. by destruct t as [|[]]. }
  split; [done|]. specialize (Hov eq_refl). unfold loop_over in Hov.
  destruct (ss_loop (lv_session v)) as [| | | |result|] eqn:El; try done; [|by left].
  right. exists result. split; [done|]. assert (is_ended (lv_session v) = true) as Hend by (unfold is_ended; by rewrite El).
  rewrite (eo_closed _ _ He). split; [done|]. pose proof (eo_gone _ _ He (eo_ended _ _ He Hend)) as Hg.
  unfold get_chan in *. rewrite Hc in Hg. rewrite Hc'. cbn in *. split; [congruence|]. intros ->.
  by destruct (ended_answered _ _ _ _ _ _ Hs (Ho eq_refl) El) as (? & _ & ?).
Qed.

(** *** Every run to the end is finite *)
(** What the parts of the server do by themselves after a stop: nothing comes in. *)
Definition run_internal (l : RunLabel U) : Prop :=
  match l with
  | RnHttp _ | RnRegister _ | RnUpgrade _ _ | RnTaskEnd _ | RnUnregister _ | RnConnEnd _ | RnAcceptShutdown | RnReturn => True
  | RnSession _ l => session_internal l
  | _ => False
  end.
Definition internal_step (r r' : Running U) : Prop := ∃ l, run_internal l ∧ step l r = Some r'.

(** First what can put any number of texts in the channels: methods that have not
    run, and upgrades, whose channel is not counted yet. *)
Definition task_runs (t : Task U) : nat :=
  match t with TkHttp _ _ _ | TkWs (WsSpawned | WsUpgrading) _ _ _ _ _ => 1 | _ => 0 end.
Definition runs_left (r : Running U) : nat :=
  map_sum task_runs (sv_tasks (rn_server r)) + map_sum (λ v, session_runs (lv_session v)) (rn_sessions r).
(** Then what is left of each part. *)
Definition task_left (t : Task U) : nat :=
  match t with TkWs (WsSpawned | WsEnded) _ _ _ _ _ => 1 | TkWs WsRunning _ _ _ _ _ => 2 | _ => 0 end.
Definition session_left (w : W U) (v : Live U) : nat :=
  work_left (bt_sink (lv_params v)) (sync (lv_params v) w (lv_session v)) + loop_left (lv_session v).
Definition all_left (r : Running U) : nat :=
  let s := rn_server r in
  map_sum task_left (sv_tasks s) + map_sum (session_left (sv_w s)) (rn_sessions r) +
  size (sv_conns s) + (if sv_accepting s then 1 else 0) + (if sv_finished s then 0 else 1).

Notation ok := (run_ok rest methods cfg (λ _, session_fine)).
Lemma spawn_room p s : session_fine p s → ss_tasks s !! length (ss_received s) = None.
Proof.
  intros [Hs _]. pose proof (so_tasks _ _ _ _ _ _ Hs (length (ss_received s))) as Ht. unfold task_ok in Ht.
  assert (ss_received s !! length (ss_received s) = None) as Hn by by apply lookup_ge_None.
  rewrite Hn in Ht. destruct (ss_tasks s !! _) as [[]|]; [..|done]; destruct Ht as [Hx _]; by try inversion Hx.
Qed.
(** A session that moves; the others see no change in their channels. *)
Lemma session_move_less k l r r' : ok r → session_internal l → session_move rest biased k l r = Some r' →
  runs_left r' < runs_left r ∨ runs_left r' = runs_left r ∧ all_left r' < all_left r.
Proof.
  intros Hok Hi E. unfold session_move in E. destruct (rn_sessions r !! k) as [v|] eqn:Ek; [|done]. cbn in E.
  destruct (may_happen _ l); [|done]. apply bind_Some in E as (s' & Hm & [= <-]).
  set (w := sv_w (rn_server r)) in *. set (s1 := sync (lv_params v) w (lv_session v)) in *.
  assert (session_fine (lv_params v) s1) as Hs1.
  { destruct (ro_live _ _ _ _ _ Hok k v Ek) as [Hp Hf (c & c' & Hc & Hc' & Hg) _].
    apply (si_sync _ _ _ _ _ _ session_fine_inv k); [done|]. unfold get_chan. by rewrite Hc, (Hc' : sw_chans w.1 !! _ = _). }
  unfold runs_left, all_left; cbn [rn_server rn_sessions set_w sv_tasks sv_conns sv_accepting sv_finished sv_w].
  change (sv_w (rn_server r)) with w.
  pose proof (map_sum_replace (λ v, session_runs (lv_session v)) k v (set_session s' v) _ Ek) as Hruns. cbn in Hruns.
  unfold task_step in Hm. pose proof Hm as Hfr. apply session_step_frame in Hfr. apply session_step_less in Hm; [|by eapply spawn_room|done].
  change (session_runs s1) with (session_runs (lv_session v)) in Hm. change (loop_left s1) with (loop_left (lv_session v)) in Hm.
  destruct Hm as [Hm|(Hm & Hl & Hw)]; [left; lia|right]. split; [lia|].
  assert (world_after l w s' = (ss_srv s', w.2)) as -> by (destruct l; try done; by edestruct Hl).
  assert (map_sum (session_left (ss_srv s', w.2)) (delete k (rn_sessions r)) = map_sum (session_left w) (delete k (rn_sessions r))) as He.
  { apply map_sum_ext. intros k' v' [Hne Hv]%lookup_delete_Some. unfold session_left. f_equal. unfold work_left. cbn.
    do 3 f_equal. unfold queue_of, get_chan. destruct Hfr as [Hfr _]. cbn in Hfr. rewrite Hfr; [done|].
    intros Hc. assert (inr k = (inr k' : nat + nat)) as Hx; [|congruence].
    apply (ro_chans _ _ _ _ _ Hok _ _ (chan_of (lv_params v))); cbn; [by rewrite Ek|by rewrite Hv, <-Hc]. }
  rewrite map_sum_insert, He, (map_sum_delete (session_left w) k v _ Ek).
  assert (session_left (ss_srv s', w.2) (set_session s' v) = work_left (bt_sink (lv_params v)) s' + loop_left s') as -> by done.
  assert (session_left w v = work_left (bt_sink (lv_params v)) s1 + loop_left (lv_session v)) as -> by done. lia.
Qed.
Lemma internal_step_ok r r' : ok r → internal_step r r' →
  runs_left r' < runs_left r ∨ runs_left r' = runs_left r ∧ all_left r' < all_left r.
Proof.
  intros Hok (l & Hi & Hs). destruct l as [b|c rq|h|h|h|h up|k l|k|h|c| | | | |w]; try done; cbn in Hs.
  - left. apply fmap_Some in Hs as (s' & ([rp s1] & Hs & ->)%fmap_Some & ->). unfold http_run in Hs.
    destruct (sv_tasks (rn_server r) !! h) as [[c rq svc|]|] eqn:Eh; try done.
    destruct (call_with_service _ _ _ _) as [res w]. unfold runs_left. rewrite (map_sum_delete _ _ _ _ Eh).
    destruct res as [|[]]; simplify_eq; cbn; lia.
  - right. apply fmap_Some in Hs as (s' & Hs & ->). unfold ws_register in Hs.
    destruct (sv_tasks (rn_server r) !! h) as [[|[] c rq id sink svc]|] eqn:Eh; simplify_eq. unfold runs_left, all_left.
    cbn. destruct (on_manager_rest (sc_connection_manager c) (ConnectionManager.register_connection id sink) (rn_server r)) as (-> & -> & -> & ->).
    rewrite !map_sum_insert, !(map_sum_delete _ _ _ _ Eh); cbn. lia.
  - left. apply bind_Some in Hs as (s' & Hs & [= <-]). unfold ws_upgrade in Hs.
    destruct (sv_tasks (rn_server r) !! h) as [[|[] c rq id sink svc]|] eqn:Eh; simplify_eq. unfold runs_left.
    rewrite (map_sum_delete _ _ _ _ Eh). destruct up; cbn; [|lia]. unfold start_session; cbn. rewrite lookup_insert_eq. cbn.
    rewrite map_sum_insert, map_sum_new by apply not_elem_of_dom, is_fresh. unfold session_runs, session_begin; cbn. rewrite map_sum_empty. lia.
  - by eapply session_move_less.
  - right. unfold task_end in Hs. destruct (rn_sessions r !! k) as [v|] eqn:Ek; [|done]. cbn in Hs.
    destruct (lv_running v); [|done]. apply bind_Some in Hs as (s' & Hend & [= <-]).
    unfold runs_left, all_left; cbn [rn_server rn_sessions].
    unfold ws_end, ws_panic in Hend.
    destruct (ss_loop (lv_session v)); try done; (destruct (sv_tasks (rn_server r) !! lv_task v) as [[|[] c rq id sink svc]|] eqn:Eh; simplify_eq);
      cbn [end_task drop_conn set_guard set_tasks sv_tasks sv_w sv_conns sv_accepting sv_finished];
      rewrite !(map_sum_same _ k v (set_over v) _ Ek) by done;
      rewrite ?map_sum_insert, !(map_sum_delete _ _ _ _ Eh); cbn; lia.
  - right. apply fmap_Some in Hs as (s' & Hs & ->). unfold ws_unregister in Hs.
    destruct (sv_tasks (rn_server r) !! h) as [[|[] c rq id sink svc]|] eqn:Eh; simplify_eq. unfold runs_left, all_left.
    cbn. destruct (on_manager_rest (sc_connection_manager c) (ConnectionManager.unregister_connection id) (rn_server r)) as (-> & -> & -> & ->).
    rewrite !(map_sum_delete _ _ _ _ Eh); cbn. lia.
  - right. destruct (sv_conns (rn_server r) !! c) as [d|] eqn:Ec; [|done]. injection Hs as <-. split; [done|].
    unfold all_left; cbn. rewrite (map_size_delete_Some c) by eauto. assert (0 < size (sv_conns (rn_server r))); [|lia].
    destruct (size (sv_conns (rn_server r))) eqn:E0; [|lia]. apply map_size_empty_inv in E0. by rewrite E0, lookup_empty in Ec.
  - right. destruct (sv_stop (rn_server r)); [|done]. destruct (sv_accepting (rn_server r)) eqn:Ea; [|done]. injection Hs as <-.
    split; [done|]. unfold all_left; cbn. rewrite Ea. lia.
  - right. destruct (sv_accepting (rn_server r)); [done|]. cbn in Hs. case_bool_decide; [|done].
    destruct (sv_finished (rn_server r)) eqn:Ef; [done|]. injection Hs as <-. split; [done|]. unfold all_left; cbn. rewrite Ef. lia.
Qed.

(** *** When nothing moves any more *)
(** What can keep a server: a call over HTTP whose method never returns, or a session
    that was stopped and waits for one. *)
Definition http_forever (s : Server U) : Prop := ∃ h c request svc,
  sv_tasks s !! h = Some (TkHttp c request svc) ∧
  (call_with_service (svc := rpc_service rest svc) request (sc_batch_requests_config c) (sc_max_request_body_size c) (sv_w s)).1 =
    Err StForever.
Definition message_forever (r : Running U) : Prop := ∃ k v i,
  rn_sessions r !! k = Some v ∧ ss_loop (lv_session v) = LpBroken (Ok ShStopped) ∧
  ss_tasks (lv_session v) !! i = Some MsForever.

Lemma nf_step l r : nf internal_step r → run_internal l → step l r = None.
Proof. intros Hn Hl. destruct (step l r) as [r'|] eqn:E; [|done]. destruct Hn. exists r', l. done. Qed.
Lemma nf_session k v r : ok r → sv_stop (rn_server r) = true → nf internal_step r → rn_sessions r !! k = Some v →
  lv_running v = true → message_forever r.
Proof.
  intros Hok Hstop Hn Hv Hrun. destruct (ro_live _ _ _ _ _ Hok k v Hv) as [_ Hf (c & c' & Hc & Hc' & Hg) _].
  set (p := lv_params v) in *. set (s1 := sync p (sv_w (rn_server r)) (lv_session v)).
  assert (end_ok (bt_sink p) s1) as He.
  { apply (si_sync _ _ _ _ _ _ session_fine_inv k); [done|]. unfold get_chan. by rewrite Hc, Hc'. }
  assert (∀ l, session_internal l → task_step rest biased p l s1 = None) as Hm.
  { intros l Hl. pose proof (nf_step (RnSession k l) r Hn Hl) as Hx. cbn in Hx. unfold session_move in Hx. rewrite Hv in Hx. cbn in Hx.
    rewrite Hstop in Hx. assert (may_happen true l = true) as Hmay by (by destruct l). rewrite Hmay in Hx. fold p s1 in Hx.
    by destruct (task_step rest biased p l s1). }
  unfold task_step in Hm. match type of Hm with ∀ l, _ → session_step ?a ?b ?c ?d ?e ?f ?g ?h l s1 = None =>
    assert (stuck (svc := rpc_service rest (bt_rpc_service p)) a b c d e f g h s1) as Hst end.
  { intros l Hl. apply Hm. by destruct l. }
  pose proof (stuck_loop _ _ _ _ _ _ _ _ _ He Hst) as Hloop. change (ss_loop s1) with (ss_loop (lv_session v)) in Hloop.
  destruct (ss_loop (lv_session v)) as [m|m rcv|res|res|res|] eqn:El.
  - specialize (Hm (LTurn 0 [(0%N, EvStop)]) (ex_intro _ 0%N eq_refl)). cbn in Hm. unfold recv_turn in Hm.
    change (ss_loop s1) with (ss_loop (lv_session v)) in Hm. by rewrite El in Hm.
  - specialize (Hm LLoop I). cbn in Hm. unfold loop_turn in Hm. change (ss_loop s1) with (ss_loop (lv_session v)) in Hm. rewrite El in Hm.
    destruct (loop_step _ _ rcv (ss_srv s1)) as [[[[] w]|]|] eqn:E; try done.
    destruct (loop_waits _ _ _ _ E) as [Hcl Hq]. pose proof (eo_cap _ _ He) as Hcap.
    destruct (stuck_send _ _ _ _ _ _ _ _ _ Hst) as [Hd|(_ & Hq0 & _)].
    + by rewrite (eo_gone _ _ He Hd) in Hcl.
    + rewrite Hq0 in Hq. cbn [length] in Hq. lia.
  - destruct Hloop as [-> Hts]. apply map_choose in Hts as (i & t & Ht).
    exists k, v, i. split; [done|]. split; [done|]. by rewrite <-(stuck_tasks _ _ _ _ _ _ _ _ _ _ _ He Hst Ht).
  - done.
  - pose proof (nf_step (RnTaskEnd k) r Hn I) as Hx. cbn in Hx. unfold task_end in Hx. rewrite Hv in Hx. cbn in Hx. rewrite Hrun, El in Hx.
    pose proof (ro_running _ _ _ _ _ Hok k v Hv Hrun) as Ht. apply bind_Some in Ht as (t & Ht & Hp). unfold ws_end in Hx.
    rewrite Ht in Hx. by destruct t as [|[]].
  - pose proof (nf_step (RnTaskEnd k) r Hn I) as Hx. cbn in Hx. unfold task_end in Hx. rewrite Hv in Hx. cbn in Hx. rewrite Hrun, El in Hx.
    pose proof (ro_running _ _ _ _ _ Hok k v Hv Hrun) as Ht. apply bind_Some in Ht as (t & Ht & Hp). unfold ws_panic in Hx.
    rewrite Ht in Hx. by destruct t as [|[]].
Qed.
Lemma nf_stopped r : ok r → sv_stop (rn_server r) = true → nf internal_step r →
  is_stopped (rn_server r) = true ∨ http_forever (rn_server r) ∨ message_forever r.
Proof.
  intros Hok Hstop Hn. set (s := rn_server r) in *.
  assert (sv_conns s = ∅) as Hc.
  { apply map_eq. intros c. rewrite lookup_empty. destruct (sv_conns s !! c) eqn:E; [|done].
    pose proof (nf_step (RnConnEnd c) r Hn I) as Hx. cbn in Hx. fold s in Hx. by rewrite E in Hx. }
  assert (sv_accepting s = false) as Ha.
  { pose proof (nf_step RnAcceptShutdown r Hn I) as Hx. cbn in Hx. fold s in Hx. rewrite Hstop in Hx. by destruct (sv_accepting s). }
  assert (sv_finished s = true) as Hf.
  { pose proof (nf_step RnReturn r Hn I) as Hx. cbn in Hx. fold s in Hx. rewrite Ha, (bool_decide_true (sv_conns s = ∅)) in Hx by done.
    by destruct (sv_finished s). }
  destruct (decide (filter (λ t, holds t.2 = true) (sv_tasks s) = ∅)) as [He|He].
  { left. unfold is_stopped. by rewrite Hf, !bool_decide_true. }
  right. apply map_choose in He as (h & t & [Ht Hh]%map_lookup_filter_Some). cbn in Hh.
  destruct t as [c rq svc|[] c rq id sink svc]; try done.
  - left. exists h, c, rq, svc. split; [done|]. pose proof (nf_step (RnHttp h) r Hn I) as Hx. cbn in Hx. fold s in Hx.
    unfold http_run in Hx. rewrite Ht in Hx. by destruct (call_with_service _ _ _ _) as [[|[]] w].
  - pose proof (nf_step (RnRegister h) r Hn I) as Hx. cbn in Hx. fold s in Hx. unfold ws_register in Hx. by rewrite Ht in Hx.
  - pose proof (nf_step (RnUpgrade h false) r Hn I) as Hx. cbn in Hx. fold s in Hx. unfold ws_upgrade in Hx. by rewrite Ht in Hx.
  - right. destruct (ro_session _ _ _ _ _ Hok h _ (f_equal (λ o, o ≫= tower_params) Ht)) as (k & v & Hv & Hr & _).
    by eapply nf_session.
Qed.

(** C12: a stopped server stops.  From a state after a stop, the server's own moves
    cannot go on for ever, however requests, sessions, messages and connections
    interleave and however much the methods put in the channels; and when none is
    left, the server reports that it has stopped, unless a method over HTTP or one
    that a session waits for never returns. *)
Theorem stopped_server_ends (ls : list (RunLabel U)) (w : W U) (managers : gmap nat (gmap ConnectionId MethodSink)) (r : Running U) :
  (0 < sc_message_buffer_capacity cfg)%N → run ls (run_start cfg w managers) = Some r → sv_stop (rn_server r) = true →
  sn internal_step r ∧
  ∀ r', rtc internal_step r r' → nf internal_step r' →
    is_stopped (rn_server r') = true ∨ http_forever (rn_server r') ∨ message_forever r'.
Proof.
  intros Hcap Hr Hstop.
  assert (ok r) as Hok.
  { eapply (run_reach_ok rest methods cfg biased Hcap _ (λ _ _, True) session_fine_inv ls w managers r); [|done].
    apply Forall_true. by intros []. }
  assert (∀ r r', ok r → internal_step r r' → ok r') as Hkeep.
  { intros r1 r2 H1 (l & _ & Hs). apply (run_step_ok rest methods cfg biased Hcap _ (λ _ _, True) session_fine_inv l r1 r2); [done|by destruct l|done]. }
  split.
  - apply (sn_measures _ ok runs_left all_left); [|done]. intros r1 r2 H1 Hs. split; [by eapply Hkeep|by apply internal_step_ok].
  - intros r' Hrun. assert (ok r' ∧ sv_stop (rn_server r') = true) as [Hok' Hstop'].
    { clear Hr. induction Hrun as [|r1 r2 r3 Hs _ IH]; [done|]. apply IH; [|by eapply Hkeep]. destruct Hs as (l & _ & Hs).
      by eapply stop_kept; [eapply run_step_server|]. }
    by apply nf_stopped.
Qed.
End Stop.

(** ** Two sessions of one server *)
Section RunWitnesses.
#[local] Existing Instance ref_json.
#[local] Existing Instance ref_ext.
#[local] Existing Instance ref_libs.
#[local] Existing Instance ref_conn_ext.
#[local] Existing Instance ref_guard_ext.
#[local] Existing Instance ref_handshake.

Definition ex_run_config : ServerConfig unit :=
  ServerConfigBuilder.build (ServerConfigBuilder.max_connections 2 (ServerConfigBuilder.new (mret (SubNum 3)))).
#[local] Instance ex_user_grows : UserGrows ex_rest ex_module (sc_id_provider ex_run_config).
Proof.
  split; [intros c w; unfold grows_w, ex_rest; done| |intros w; cbn; unfold grows_w; done].
  assert (user_fn_grows ex_inc) as Hf by (intros params ext w; unfold grows_w; done).
  eapply (verify_and_insert_grows "inc" _ Methods.new); [apply new_grows|apply (proj1 (plain_callbacks_grow ex_inc Hf))|reflexivity].
Qed.
(** Two clients connect; the first sends a call, the second goes away; the server is
    stopped, and answers. *)
Definition ex_two : list (RunLabel unit) :=
  [RnAccept true; RnRequest 0 ex_upgrade; RnAccept true; RnRequest 1 ex_upgrade; RnRegister 0; RnRegister 1;
   RnUpgrade 0 true; RnUpgrade 1 true; RnConnEnd 0; RnSession 0 (LTurn 0 [(1%N, EvData ex_text)]); RnSession 0 LLoop;
   RnSession 1 (LTurn 0 [(1%N, EvEnd)]); RnStop].
Definition ex_two_end : list (RunLabel unit) :=
  [RnSession 0 (LTurn 1 [(2%N, EvStop)]); RnSession 1 LLoop; RnSession 0 LLoop; RnAcceptShutdown; RnSession 1 (LShutdown false);
   RnSession 0 (LRun 0); RnConnEnd 1; RnSession 1 LSendStop; RnSession 0 (LPut 0); RnSession 0 (LShutdown false);
   RnReturn; RnSession 1 LSendClosed; RnSession 1 LEnd; RnSession 0 (LSend (Ok ())); RnTaskEnd 1; RnSession 0 LSendStop;
   RnSession 0 LSendClosed; RnSession 0 LEnd; RnTaskEnd 0; RnUnregister 0; RnUnregister 1].
Notation ex_server_run := (run_server ex_rest ex_module ex_run_config true).
Definition ex_server_start : Running unit := run_start ex_run_config (ex_world, ()) ∅.

(** What is looked at: the server has stopped, and the end and the texts of the first
    session. *)
Definition ex_seen (r : Running unit) : bool * option (bool * list string) :=
  (is_stopped (rn_server r),
   (λ v, (match ss_loop (lv_session v) with LpEnded (Ok ShStopped) => true | _ => false end, ss_wire (lv_session v))) <$>
     rn_sessions r !! 0).
Lemma ex_two_seen : ex_seen <$> ex_server_run (ex_two ++ ex_two_end) ex_server_start = Some (true, Some (true, [ex_reply])).
Proof. vm_compute. reflexivity. Qed.
Lemma ex_two_stop : (λ r, sv_stop (rn_server r)) <$> ex_server_run ex_two ex_server_start = Some true.
Proof. vm_compute. reflexivity. Qed.

Lemma stopped_server_answered_witness :
  ∃ r v, ex_server_run (ex_two ++ ex_two_end) ex_server_start = Some r ∧ rn_sessions r !! 0 = Some v ∧
    lv_running v = false ∧ ss_closed (lv_session v) = true ∧ ss_wire (lv_session v) = [ex_reply] ∧
    session_answered ex_rest (lv_params v) (lv_session v).
Proof.
  pose proof ex_two_seen as Hseen. apply fmap_Some in Hseen as (r & E & Hseen). injection Hseen as Hst Hv.
  symmetry in Hv. apply fmap_Some in Hv as (v & Ev & Hv). injection Hv as El Ew.
  destruct (stopped_server_answered ex_rest ex_module ex_run_config true (ex_two ++ ex_two_end) (ex_world, ()) ∅ r 0 v) as [Hr H].
  - reflexivity.
  - reflexivity.
  - intros text. reflexivity.
  - exact E.
  - repeat constructor; intros [=].
  - by rewrite <-Hst.
  - exact Ev.
  - exists r, v. split; [exact E|]. split; [exact Ev|]. split; [exact Hr|].
    destruct H as [Hp|(result & Hres & Hc & _ & Ha)]; [by rewrite Hp in El|]. split; [exact Hc|]. split; [by rewrite <-Ew|].
    apply Ha. rewrite Hres in El. by destruct result as [[]|].
Defined.
Lemma stopped_server_ends_witness :
  ∃ r, ex_server_run ex_two ex_server_start = Some r ∧ sn (internal_step ex_rest ex_module ex_run_config true) r.
Proof.
  pose proof ex_two_stop as Hstop. apply fmap_Some in Hstop as (r & E & Hstop). exists r. split; [exact E|].
  apply (stopped_server_ends ex_rest ex_module ex_run_config true ex_two (ex_world, ()) ∅ r); [reflexivity|exact E|].
  by rewrite <-Hstop.
Defined.
(** All moves after the stop are the server's own, and lead to a server that has
    stopped: both tasks are gone and both permits are back. *)
Example ex_two_stops :
  Forall run_internal ex_two_end ∧
  (λ r, (is_stopped (rn_server r), sem_available (sv_guard (rn_server r)), size (sv_tasks (rn_server r)))) <$>
    ex_server_run (ex_two ++ ex_two_end) ex_server_start = Some (true, 2%N, 0).
Proof. split; [repeat (constructor; [cbn; eauto|]); constructor|vm_compute; reflexivity]. Qed.
End RunWitnesses.
