(* ===== verification/Layers.v ===== *)
(** The layers of [core/src/middleware/layer]: the logger and [Either].

    A layer turns a service into another one.  The logger writes what goes in and
    what comes out, cut to a number of characters, and changes nothing else; the
    lines it writes are kept next to the state of the service. *)
From stdpp Require Import base gmap strings list.
From Stdlib Require Import Ascii.
From S2P Require Import Prelude Serde RefJson Errors Params Wire Middleware MethodResponse Subscription RpcModule RpcService Http WsServer.

(** ** Cutting a text between characters *)
(** The bytes of a character, from its first one. *)
Definition utf8_width (a : ascii) : nat :=
  let n := N_of_ascii a in
  if decide (n < 128)%N then 1 else if decide (n < 224)%N then 2 else if decide (n < 240)%N then 3 else 4.
(** [str::char_indices]; [skip] bytes still belong to a character. *)
Fixpoint char_indices_from (i skip : nat) (s : string) : list nat :=
  match s with
  | EmptyString => []
  | String a s =>
    match skip with
    | 0 => i :: char_indices_from (S i) (utf8_width a - 1) s
    | S skip => char_indices_from (S i) skip s
    end
  end.
Definition char_indices : string → list nat := char_indices_from 0 0.
Definition truncate_at_char_boundary (s : string) (max : nat) : string :=
  if decide (String.length s < max) then s
  else match char_indices s !! max with
  | None => s
  | Some idx => String.substring 0 idx s
  end.

(** A well-formed text is empty, or a character and a well-formed text. *)
Definition one_char (c : string) : Prop :=
  c ≠ "" ∧ (∀ t, utf8_valid (c +:+ t) = utf8_valid t) ∧
  (∀ i t, char_indices_from i 0 (c +:+ t) = i :: char_indices_from (i + String.length c) 0 t).
Lemma one_char_intro c k : String.length c = S k →
  (∀ t, utf8_valid (c +:+ t) = utf8_valid t) →
  (∀ i t, char_indices_from i 0 (c +:+ t) = i :: char_indices_from (i + S k) 0 t) → one_char c.
Proof. intros Hl Hv Hc. split; [by intros ->|]. split; [done|]. intros i t. by rewrite Hl. Qed.
Lemma utf8_split s : utf8_valid s = true → s = "" ∨ ∃ c t, s = c +:+ t ∧ one_char c ∧ utf8_valid t = true.
Proof.
  destruct s as [|a s1]; [by left|]. cbn [utf8_valid]. intros H. right.
  destruct (decide (N_of_ascii a < 128)%N) as [H1|H1].
  { exists (String a ""), s1. split; [done|]. split; [|done]. apply (one_char_intro _ 0); [done| |].
    - intros t. cbn. by rewrite decide_True.
    - intros i t. cbn. unfold utf8_width. rewrite decide_True by done. by rewrite Nat.add_1_r. }
  destruct s1 as [|b s2]; [done|]. destruct (decide (194 <= N_of_ascii a <= 223)%N) as [H2|H2].
  { apply andb_true_iff in H as [Hb H]. exists (String a (String b "")), s2. split; [done|]. split; [|done].
    apply (one_char_intro _ 1); [done| |].
    - intros t. cbn. rewrite decide_False, decide_True by done. by rewrite Hb.
    - intros i t. cbn. unfold utf8_width. rewrite decide_False, decide_True by lia. cbn. do 2 f_equal. lia. }
  destruct s2 as [|c s3]; [done|]. destruct (decide (224 <= N_of_ascii a <= 239)%N) as [H3|H3].
  { apply andb_true_iff in H as [Hb H]. exists (String a (String b (String c ""))), s3. split; [done|]. split; [|done].
    apply (one_char_intro _ 2); [done| |].
    - intros t. cbn. rewrite decide_False, decide_False, decide_True by done. by rewrite Hb.
    - intros i t. cbn. unfold utf8_width. rewrite decide_False, decide_False, decide_True by lia. cbn. do 2 f_equal. lia. }
  destruct s3 as [|d s4]; [done|]. destruct (decide (240 <= N_of_ascii a <= 244)%N) as [H4|H4]; [|done].
  apply andb_true_iff in H as [Hb H]. exists (String a (String b (String c (String d "")))), s4.
  split; [done|]. split; [|done]. apply (one_char_intro _ 3); [done| |].
  - intros t. cbn. rewrite decide_False, decide_False, decide_False, decide_True by done. by rewrite Hb.
  - intros i t. cbn. unfold utf8_width. rewrite !decide_False by lia. cbn. do 2 f_equal. lia.
Qed.
(** Induction over the characters. *)
Lemma utf8_ind (P : string → Prop) : P "" →
  (∀ c s, one_char c → utf8_valid s = true → P s → P (c +:+ s)) → ∀ s, utf8_valid s = true → P s.
Proof.
  intros H0 Hc s. remember (String.length s) as n eqn:Hn. revert s Hn.
  induction (lt_wf n) as [n _ IH]. intros s -> Hv. destruct (utf8_split s Hv) as [->|(c & t & -> & Hone & Ht)]; [done|].
  apply Hc; [done|done|]. apply (IH (String.length t)); [|done|done]. rewrite length_append.
  destruct c; [by destruct Hone|cbn; lia].
Qed.

Lemma char_indices_length i skip s : length (char_indices_from i skip s) ≤ String.length s.
Proof.
  revert i skip. induction s as [|a s IH]; intros i skip; cbn; [lia|].
  destruct skip; cbn; [specialize (IH (S i) (utf8_width a - 1))|specialize (IH (S i) skip)]; lia.
Qed.
(** The index of a character is the length of the characters before it. *)
Lemma char_indices_cut s : utf8_valid s = true → ∀ i n idx, char_indices_from i 0 s !! n = Some idx →
  ∃ p t, s = p +:+ t ∧ idx = i + String.length p ∧ utf8_valid p = true ∧
    ∀ j, length (char_indices_from j 0 p) = n.
Proof.
  revert s. apply (utf8_ind (λ s, ∀ i n idx, char_indices_from i 0 s !! n = Some idx → _)); [done|].
  intros c s (_ & Hv & Hc) _ IH i n idx. rewrite Hc. destruct n as [|n]; cbn [lookup list_lookup].
  - intros [= <-]. exists "", (c +:+ s). split; [done|]. split; [cbn; lia|]. split; done.
  - intros H. destruct (IH _ _ _ H) as (p & t & -> & -> & Hp & Hl). exists (c +:+ p), t.
    split; [by rewrite append_assoc'|]. split; [rewrite length_append; lia|]. split; [by rewrite Hv|].
    intros j. by rewrite Hc; cbn; rewrite Hl.
Qed.
Lemma substring_app p t : String.substring 0 (String.length p) (p +:+ t) = p.
Proof. induction p as [|a p IH]; cbn; [by destruct t|by rewrite IH]. Qed.

(** A text is cut after the given number of characters, never inside one; a text
    that is not longer stays whole. *)
Theorem truncate_keeps_chars (s : string) (max : nat) : utf8_valid s = true →
  let r := truncate_at_char_boundary s max in
  utf8_valid r = true ∧ (∃ t, s = r +:+ t) ∧
  length (char_indices r) = Nat.min max (length (char_indices s)) ∧
  (length (char_indices s) ≤ max → r = s).
Proof.
  intros Hv. unfold truncate_at_char_boundary. assert (∃ t, s = s +:+ t) as Hs by (exists ""; by rewrite append_nil_r).
  case_decide as Hd.
  - pose proof (char_indices_length 0 0 s). unfold char_indices. split_and!; [done|done|lia|done].
  - destruct (char_indices s !! max) as [idx|] eqn:E.
    + pose proof (lookup_lt_Some _ _ _ E). destruct (char_indices_cut s Hv 0 max idx E) as (p & t & -> & -> & Hp & Hl).
      rewrite Nat.add_0_l, substring_app. split; [done|]. split; [by exists t|]. unfold char_indices at 1. rewrite Hl. split; lia.
    + apply lookup_ge_None in E. split_and!; [done|done|lia|done].
Qed.
Example truncate_at_char_boundary_works :
  let s := "ボルテックス"%string in
  (truncate_at_char_boundary s 0, truncate_at_char_boundary s 4, truncate_at_char_boundary s 100,
   truncate_at_char_boundary "hola-hola" 4) = ("", "ボルテッ", s, "hola")%string.
Proof. vm_compute. reflexivity. Qed.

(** ** The logger *)
(** A line of the log: what it is of, and the text. *)
Definition Log : Type := list (string * string).
Section Lines.
Context {S : Type} (max : N).
Definition unwrap_json_str_or_invalid (json : option string) : string := default "<invalid JSON>" json.
Definition log_line (what : string) (json : option string) (log : Log) : Log :=
  log ++ [(what, truncate_at_char_boundary (unwrap_json_str_or_invalid json) (N.to_nat max))].
Definition inner {R} (m : S → R * S) : S * Log → R * (S * Log) := λ '(s, log), let '(r, s') := m s in (r, (s', log)).

(** [m'] does what [m] does, and only adds lines to the log, each cut to the limit. *)
Definition cut_lines (lines : Log) : Prop := Forall (λ l, ∃ text, l.2 = truncate_at_char_boundary text (N.to_nat max)) lines.
Definition only_logs {R} (m : S → R * S) (m' : S * Log → R * (S * Log)) : Prop := ∀ s log,
  ∃ lines, m' (s, log) = ((m s).1, ((m s).2, log ++ lines)) ∧ cut_lines lines.
Lemma only_logs_line {R} (m : S → R * S) m' what json : only_logs m m' →
  only_logs m (λ '(s, log), m' (s, log_line what json log)).
Proof.
  intros H s log. unfold log_line. set (l := truncate_at_char_boundary _ _).
  destruct (H s (log ++ [(what, l)])) as (lines & E & Hl).
  exists ((what, l) :: lines). split; [rewrite E; by rewrite <-app_assoc|].
  constructor; [|done]. subst l. by eexists.
Qed.
Lemma only_logs_inner {R} (m : S → R * S) : only_logs m (inner m).
Proof. intros s log. exists []. unfold inner. destruct (m s). cbn. rewrite app_nil_r. by split; [|constructor]. Qed.
Lemma only_logs_pure {R} (r : R) : only_logs (λ s, (r, s)) (λ s, (r, s)).
Proof. intros s log. exists []. cbn. rewrite app_nil_r. by split; [|constructor]. Qed.
Lemma only_logs_after {R} (m : S → R * S) m' (f : R → option (string * option string)) : only_logs m m' →
  only_logs m (λ sl, let '(r, (s, log)) := m' sl in
    (r, (s, match f r with Some (what, json) => log_line what json log | None => log end))).
Proof.
  intros H s log. destruct (H s log) as (lines & E & Hl). rewrite E. destruct (m s) as [r s']. cbn. destruct (f r) as [[what json]|].
  - eexists. unfold log_line. rewrite <-app_assoc. split; [reflexivity|]. apply Forall_app. split; [done|].
    constructor; [by eexists|constructor].
  - by exists lines.
Qed.
End Lines.

Section Logger.
Context {J : SerdeJson} {X : HttpExtensions} {S : Type} {svc : RpcServiceT S}.
Context (max : N).

Definition trace (what : string) (json : option string) : SM (S * Log) Stop unit := λ '(s, log),
  (Ok (), (s, log_line max what json log)).
Definition to_json (rp : MethodResponse) : option string := Some (mr_json rp).

Definition logger_call (request : Request) : SM (S * Log) Stop MethodResponse :=
  _ ← trace "request" (json_write (request_serialize request));
  rp ← inner (svc_call request);
  _ ← trace "response" (to_json rp);
  mret rp.
Definition logger_batch (batch : Batch) : SM (S * Log) Stop MethodResponse :=
  _ ← trace "batch request" (json_write (Batch.serialize batch));
  rp ← inner (svc_batch batch);
  _ ← trace "batch response" (to_json rp);
  mret rp.
Definition logger_notification (n : MwNotification) : SM (S * Log) Stop MethodResponse :=
  _ ← trace "notification request" (json_write (mw_notification_serialize n));
  inner (svc_notification n).
Definition rpc_logger : RpcServiceT (S * Log) := {|
  svc_call := logger_call; svc_batch := logger_batch; svc_notification := logger_notification
|}.

Lemma only_logs_trace {A} what json (m : SM S Stop A) m' : only_logs max m m' → only_logs max m (_ ← trace what json; m').
Proof.
  intros H s log. destruct (only_logs_line max m m' what json H s log) as (lines & E & Hl). exists lines. split; [|done].
  etransitivity; [|exact E]. reflexivity.
Qed.
Lemma only_logs_traced {A} what (m : SM S Stop A) m' (json : A → option string) : only_logs max m m' →
  only_logs max m (a ← m'; _ ← trace what (json a); mret a).
Proof.
  intros H s log.
  destruct (only_logs_after max m m' (λ r, match r with Ok a => Some (what, json a) | Err _ => None end) H s log) as (lines & E & Hl).
  exists lines. split; [|done]. etransitivity; [|exact E]. unfold mbind, SM_bind. destruct (m' (s, log)) as [[a|e] [s' log']]; reflexivity.
Qed.
(** A server with the logger answers every text as the server without it, with
    the same effect on the methods: all the logger does is to write lines, cut to
    its limit. *)
Theorem logger_transparent (body : string) (is_single : bool) (config : BatchRequestConfig) (ext : Extensions)
    (s : S) (log : Log) :
  let '(r, s') := handle_rpc_call body is_single config ext s in
  ∃ lines, handle_rpc_call (svc := rpc_logger) body is_single config ext (s, log) = (r, (s', log ++ lines)) ∧ cut_lines max lines.
Proof.
  assert (only_logs max (handle_rpc_call body is_single config ext) (handle_rpc_call (svc := rpc_logger) body is_single config ext)) as H.
  { unfold handle_rpc_call. assert (∀ q, only_logs max (svc_call q) (svc_call (RpcServiceT := rpc_logger) q)) as Hc.
    { intros q. apply only_logs_trace, only_logs_traced, only_logs_inner. }
    assert (∀ b, only_logs max (svc_batch b) (svc_batch (RpcServiceT := rpc_logger) b)) as Hb.
    { intros b. apply only_logs_trace, only_logs_traced, only_logs_inner. }
    assert (∀ n, only_logs max (svc_notification n) (svc_notification (RpcServiceT := rpc_logger) n)) as Hn.
    { intros n. apply only_logs_trace, only_logs_inner. }
    assert (∀ id err, only_logs (S := S) max (sm_catch (sm_result (MethodResponse.error id err)) (λ _, StPanic))
      (sm_catch (sm_result (MethodResponse.error id err)) (λ _, StPanic))) as He by (intros; apply only_logs_pure).
    destruct is_single.
    - destruct (call_from_slice body ext); [done|]. destruct (notif_from_slice body ext); [done|].
      destruct (prepare_error body). apply He.
    - destruct config; [apply He|..]; (destruct (de_raw_vec body); [case_decide; [apply He|apply Hb]|apply He]). }
  specialize (H s log). destruct (handle_rpc_call body is_single config ext s) as [r s']. exact H.
Qed.
End Logger.

(** ** [Either] *)
Inductive Either (A B : Type) : Type := Left (a : A) | Right (b : B).
Arguments Left {A B} a. Arguments Right {A B} b.
Section EitherService.
Context {J : SerdeJson} {X : HttpExtensions} {S : Type}.
(** Both sides run on one state. *)
Definition either_service (e : Either (RpcServiceT S) (RpcServiceT S)) : RpcServiceT S := {|
  svc_call q := match e with Left a => svc_call (RpcServiceT := a) q | Right b => svc_call (RpcServiceT := b) q end;
  svc_batch q := match e with Left a => svc_batch (RpcServiceT := a) q | Right b => svc_batch (RpcServiceT := b) q end;
  svc_notification n :=
    match e with Left a => svc_notification (RpcServiceT := a) n | Right b => svc_notification (RpcServiceT := b) n end
|}.
Definition either_layer {T A B} (layer_a : T → A) (layer_b : T → B) (e : Either unit unit) (inner : T) : Either A B :=
  match e with Left _ => Left (layer_a inner) | Right _ => Right (layer_b inner) end.
Lemma either_is_service e : either_service e = match e with Left a => a | Right b => b end.
Proof. by destruct e as [[]|[]]. Qed.
End EitherService.

(** ** [RpcServiceBuilder] *)
(** tower's [ServiceBuilder]: layers that make a service on [B] of one on [A], with
    what its documentation says: no layers change nothing, and the layer that is
    added first is the outermost. *)
Class TowerBuilder {J : SerdeJson} {X : HttpExtensions} := {
  SB : Type → Type → Type;
  sb_new {A} : SB A A;
  sb_layer {A' A B} (l : RpcServiceT A' → RpcServiceT A) (b : SB A B) : SB A' B;
  sb_service {A B} (b : SB A B) (s : RpcServiceT A) : RpcServiceT B
}.
Record tower_law {J : SerdeJson} {X : HttpExtensions} (T : TowerBuilder) : Prop := {
  tl_new {A} (s : RpcServiceT A) : sb_service sb_new s = s;
  tl_layer {A' A B} (l : RpcServiceT A' → RpcServiceT A) (b : SB A B) s : sb_service (sb_layer l b) s = sb_service b (l s)
}.
Module RpcServiceBuilder.
Section Ops.
Context {J : SerdeJson} {X : HttpExtensions} {T : TowerBuilder}.
Definition default {A} : SB A A := sb_new.
Definition new {A} : SB A A := sb_new.
Definition layer {A' A B} (l : RpcServiceT A' → RpcServiceT A) (self : SB A B) : SB A' B := sb_layer l self.
Definition layer_fn {A' A B} (f : RpcServiceT A' → RpcServiceT A) (self : SB A B) : SB A' B := sb_layer f self.
(** Both sides of the [Either] work on the state of the connection. *)
Definition option_layer {A B} (l : option (RpcServiceT A → RpcServiceT A)) (self : SB A B) : SB A B :=
  let layer := match l with Some layer => Left layer | None => Right id end in
  sb_layer (λ s, either_service (match layer with Left l => Left (l s) | Right l => Right (l s) end)) self.
Definition rpc_logger {A B} (max_log_len : N) (self : SB (A * Log) B) : SB A B :=
  sb_layer (λ s, rpc_logger (svc := s) max_log_len) self.
Definition service {A B} (self : SB A B) (s : RpcServiceT A) : RpcServiceT B := sb_service self s.

(** The layers are around the service in the order they were added; an optional
    layer is there or is not. *)
Theorem builder_nests (HT : tower_law T) {A B C} (l1 : RpcServiceT B → RpcServiceT C) (l2 : RpcServiceT A → RpcServiceT B)
    (o : option (RpcServiceT A → RpcServiceT A)) (s : RpcServiceT A) :
  service (option_layer o (layer l2 (layer_fn l1 new))) s = l1 (l2 (match o with Some l => l s | None => s end)).
Proof.
  unfold service, option_layer, layer, layer_fn, new. rewrite !(tl_layer _ HT), (tl_new _ HT). do 2 f_equal.
  rewrite either_is_service. by destruct o.
Qed.
(** A server built with the logger as its middleware answers every text as without. *)
Theorem built_logger_transparent (HT : tower_law T) {A} (svc : RpcServiceT A) max_log_len body is_single config ext (s : A) log :
  let '(r, s') := handle_rpc_call body is_single config ext s in
  ∃ lines, handle_rpc_call (svc := service (rpc_logger max_log_len new) svc) body is_single config ext (s, log) =
    (r, (s', log ++ lines)).
Proof.
  pose proof (logger_transparent (svc := svc) max_log_len body is_single config ext s log) as H.
  unfold service, rpc_logger, new. rewrite (tl_layer _ HT), (tl_new _ HT).
  destruct (handle_rpc_call body is_single config ext s) as [r s']. destruct H as (lines & H & _). by exists lines.
Qed.
End Ops.
End RpcServiceBuilder.
(** Functions are such a builder. *)
Section Functions.
Context {J : SerdeJson} {X : HttpExtensions}.
#[local] Instance functions : TowerBuilder := {|
  SB A B := RpcServiceT A → RpcServiceT B;
  sb_new A := id;
  sb_layer A' A B l b := λ s, b (l s);
  sb_service A B b := b
|}.
Lemma functions_law : tower_law functions.
Proof. by split. Qed.
End Functions.

(** ** A call through the logger *)
Section LoggerRun.
#[local] Existing Instance ref_json.
#[local] Existing Instance ref_ext.
Example logged_call :
  (λ r, (snd (snd r))) (handle_rpc_call (svc := rpc_logger (svc := rpc_service ex_rest ex_service) 12) ex_text true BrcUnlimited []
    ((ex_world, ()), [])) =
    [("request", q "{'jsonrpc':'"); ("response", q "{'jsonrpc':'")].
Proof. vm_compute. reflexivity. Qed.
End LoggerRun.
