(* ===== verification/LowLevel.v ===== *)
(** The API below the server, for those who accept connections themselves:
    [call_with_service_builder] of [server/src/transport/http.rs] and the two ways
    to serve a connection of [server/src/utils.rs].  ([connect] of
    [transport/ws.rs] is in [WsSession].) *)
From stdpp Require Import base gmap strings list.
From S2P Require Import Prelude Serde RefJson Errors Params Wire Middleware MethodResponse Subscription RpcModule RpcService Http WsServer Server ServerBuilder Layers.

(** ** A call over HTTP *)
(** The [StopHandle]s and the permits that connections share. *)
Record Handles : Type := MkHandles { hd_stop : Watch; hd_guard : Semaphore }.
Record ConnectionState : Type := MkConnectionState { cs_stop_handle : nat; cs_conn_id : N }.
Module ConnectionState.
(** The permit is one of the guard. *)
Definition new (stop_handle : nat) (conn_id : N) : ConnectionState := MkConnectionState stop_handle conn_id.
Definition drop (c : ConnectionState) (h : Handles) : Handles :=
  MkHandles (Watch.drop_rx (cs_stop_handle c) (hd_stop h)) (ConnectionGuard.drop_permit (hd_guard h)).
End ConnectionState.

Section Call.
Context {J : SerdeJson} {X : HttpExtensions} {L : HttpLibs} {T : TowerBuilder} {U : Type}.
Context (rest : SubscribeCall → W U → W U).
(** The layers make a service on [B] of the service on the state of the methods.
    [None] is a call that never completes; it keeps the connection. *)
Definition call_with_service_builder {B} (request : HttpRequest) (server_cfg : ServerConfig U) (conn : ConnectionState)
    (methods : Methods U) (rpc_service : SB (W U) B) (s : B) (h : Handles)
    : option (Result Stop HttpResponse * B * Handles) :=
  let rpc_service := RpcServiceBuilder.service rpc_service (RpcService.rpc_service rest
    (MkRpcService (cs_conn_id conn) methods (sc_max_response_body_size server_cfg) OnlyCalls)) in
  let '(rp, s) := call_with_service (svc := rpc_service) request (sc_batch_requests_config server_cfg)
                    (sc_max_request_body_size server_cfg) s in
  match rp with
  | Err StForever => None
  | _ => Some (rp, s, ConnectionState.drop conn h)
  end.

Context {XC : ExtKey ConnectionId} {XG : ExtKey GuardRef} {K : Handshake}.
(** Without layers, a request over HTTP that is handled by hand, under a guard and
    with the settings of a server, is answered as by the server, with the same
    effect on the state of the methods; both are refused together, wait together,
    and afterwards both have given back their permit, and the [StopHandle] is gone. *)
Theorem low_level_call_equals_server (HT : tower_law T) (d : ServiceData U) (request : HttpRequest) (s : Server U)
    (h : Handles) (stop_handle : nat) :
  hd_guard h = sv_guard s → sc_enable_http (sd_server_cfg d) = true → is_upgrade_request (TowerServiceNoHttp.extend (sd_conn_id d) request) = false →
  let conn := ConnectionState.new stop_handle (sd_conn_id d) in
  match ConnectionGuard.try_acquire (hd_guard h) with
  | None => TowerServiceNoHttp.call d request s = (RpReady response.too_many_requests, s)
  | Some guard =>
    ∃ task s1, TowerServiceNoHttp.call d request s = (RpFuture task, s1) ∧ sv_guard s1 = guard ∧
    match http_run rest task s1,
          call_with_service_builder (TowerServiceNoHttp.extend (sd_conn_id d) request) (sd_server_cfg d) conn
            (sd_methods d) RpcServiceBuilder.new (sv_w s) (MkHandles (hd_stop h) guard) with
    | Some (r, s2), Some (r', w, h') =>
      r' = r ∧ w = sv_w s2 ∧ hd_guard h' = sv_guard s2 ∧ hd_guard h' = hd_guard h ∧
      sv_tasks s2 = sv_tasks s ∧ wt_receivers (hd_stop h') !! stop_handle = None
    | None, None => True
    | _, _ => False
    end
  end.
Proof.
  intros Hg Hh Hu conn. unfold TowerServiceNoHttp.call. rewrite <-Hg.
  destruct (ConnectionGuard.try_acquire (hd_guard h)) as [guard|] eqn:Ea; [|done].
  rewrite Hu, andb_false_r, Hh. cbn [negb andb]. unfold new_task. eexists _, _. split; [reflexivity|]. split; [done|].
  unfold http_run, call_with_service_builder, RpcServiceBuilder.service, RpcServiceBuilder.new. cbn.
  rewrite lookup_insert_eq, (tl_new _ HT). unfold TowerServiceNoHttp.http_service.
  destruct (call_with_service _ _ _ _) as [r w].
  assert (ConnectionGuard.drop_permit guard = hd_guard h) as Ed.
  { unfold ConnectionGuard.try_acquire in Ea. case_decide; [|done]. injection Ea as <-. unfold ConnectionGuard.drop_permit. cbn.
    rewrite N.sub_add by lia. by destruct (hd_guard h). }
  assert (delete (fresh (dom (sv_tasks s))) (sv_tasks s) = sv_tasks s) as Et.
  { apply delete_id, not_elem_of_dom, is_fresh. }
  destruct r as [r|[]]; try done; cbn; rewrite delete_insert_eq, Et; split_and!; try done; by rewrite ?lookup_delete_eq.
Qed.
End Call.

(** ** Serving a connection

    What [hyper] serves is a parameter: a future that is polled, and that can be
    told to shut down gracefully.  What is called of it is written down. *)
Inductive ConnCall : Type := CallPoll (r : Poll (Result unit unit)) | CallGraceful.
Inductive Stage : Type :=
| Selecting (stopped : nat)
| Draining
| Served (res : Result unit unit).

Section Serve.
Context {Hc : Type} (hc_poll : Hc → Poll (Result unit unit) * Hc) (graceful_shutdown : Hc → Hc).
Record Conn : Type := MkConn { cn_conn : Hc; cn_stage : Stage; cn_calls : list ConnCall }.
Definition set_stage (st : Stage) (c : Conn) : Conn := MkConn (cn_conn c) st (cn_calls c).
Definition poll_conn (c : Conn) : Poll (Result unit unit) * Conn :=
  let '(r, hc) := hc_poll (cn_conn c) in
  (r, MkConn hc (cn_stage c) (cn_calls c ++ [CallPoll r])).
Definition tell_conn (c : Conn) : Conn := MkConn (graceful_shutdown (cn_conn c)) (cn_stage c) (cn_calls c ++ [CallGraceful]).
(** An await of the connection. *)
Definition await_conn (c : Conn) : Conn :=
  match poll_conn c with (Ready res, c) => set_stage (Served res) c | (Pending, c) => c end.

(** [serve], without a stop: [Draining] from the start. *)
Definition serve (conn : Hc) : Conn := MkConn conn Draining [].
Definition serve_poll (c : Conn) : Conn := match cn_stage c with Served _ => c | _ => await_conn c end.

(** [serve_with_graceful_shutdown], of a [StopHandle]'s [shutdown]: the select polls
    the connection first; a receiver that is not waited for any more is dropped. *)
Definition serve_with_graceful_shutdown (conn : Hc) (stopped : nat) : Conn := MkConn conn (Selecting stopped) [].
Definition graceful_poll (c : Conn) (w : Watch) : Conn * Watch :=
  match cn_stage c with
  | Selecting h =>
    match poll_conn c with
    | (Ready res, c) => (set_stage (Served res) c, Watch.drop_rx h w)
    | (Pending, c) =>
      match StopHandle.shutdown h w with
      | Some w => (await_conn (tell_conn (set_stage Draining c)), w)
      | None => (c, w)
      end
    end
  | Draining => (await_conn c, w)
  | Served _ => (c, w)
  end.
(** The task of [process_connection] does the same, and then drops its sender of
    [drop_on_completion], of which there are [senders]. *)
Definition connection_poll (c : Conn) (w : Watch) (senders : nat) : Conn * Watch * nat :=
  let '(c', w) := graceful_poll c w in
  (c', w, match cn_stage c, cn_stage c' with
          | Served _, _ => senders
          | _, Served _ => senders - 1
          | _, _ => senders
          end).

(** Between two polls the connection goes on, and others use their handles. *)
Definition round : Type := (Hc → Hc) * list HandleEvent.
Definition before_poll (r : round) (s : Conn * Watch) : option (Conn * Watch) :=
  w ← run_handles (snd r) (snd s);
  Some (MkConn (fst r (cn_conn (fst s))) (cn_stage (fst s)) (cn_calls (fst s)), w).
Definition serve_round (r : round) (s : Conn * Watch) : option (Conn * Watch) :=
  s ← before_poll r s; Some (graceful_poll (fst s) (snd s)).
Definition serve_rounds (rs : list round) (s : Conn * Watch) : option (Conn * Watch) :=
  foldl (λ o r, o ≫= serve_round r) (Some s) rs.
Definition not_ours (h : nat) (e : HandleEvent) : Prop := e ≠ HeDropStop h ∧ e ≠ HeShutdown h.
(** The server was told to stop, or nobody is left who could tell it. *)
Definition stopping (w : Watch) : Prop := wt_version w ≠ 0%N ∨ wt_senders w = 0.

(** [n] polls that find the connection at work, and the one that finds it done. *)
Definition polls (n : nat) (last : option (Result unit unit)) : list ConnCall :=
  replicate n (CallPoll Pending) ++ match last with Some res => [CallPoll (Ready res)] | None => [] end.
Definition serving (h n : nat) (c : Conn) (w : Watch) : Prop :=
  match cn_stage c with
  | Selecting h' => h' = h ∧ cn_calls c = polls n None ∧ is_Some (wt_receivers w !! h)
  | Draining => stopping w ∧ ∃ k, k < n ∧ cn_calls c = polls (S k) None ++ CallGraceful :: polls (n - k) None
  | Served res => ∃ k, k < n ∧ (cn_calls c = polls k (Some res) ∨
      stopping w ∧ ∃ j, j + k < n ∧ cn_calls c = polls (S k) None ++ CallGraceful :: polls j (Some res))
  end.
Lemma handle_step_ours h e w w' : not_ours h e → handle_step e w = Some w' → is_Some (wt_receivers w !! h) →
  is_Some (wt_receivers w' !! h).
Proof.
  intros [Hd Hs]. destruct e; cbn; try (case_decide; [done|]).
  - unfold ServerHandle.stop, Watch.send. destruct (Watch.is_closed w); by intros [= <-].
  - by intros [= <-].
  - by intros [= <-].
  - unfold Watch.clone_rx. destruct (wt_receivers w !! h0); [|done]. intros [= <-] Hh. cbn. rewrite lookup_insert_is_Some'. by right.
  - intros [= <-] Hh. cbn. rewrite lookup_delete_ne by congruence. done.
  - unfold StopHandle.shutdown, Watch.changed. destruct (wt_receivers w !! h0); [|done]. cbn.
    assert (h0 ≠ h) as Hne by congruence.
    repeat case_decide; try done; intros [= <-] Hh; cbn; rewrite ?lookup_delete_ne, ?lookup_insert_ne by done; done.
Qed.
Lemma run_handles_ours h es w w' : Forall (not_ours h) es → run_handles es w = Some w' → unseen w →
  unseen w' ∧ (is_Some (wt_receivers w !! h) → is_Some (wt_receivers w' !! h)).
Proof.
  intros Hes. revert w'. induction es as [|e es IH] using rev_ind; intros w'; [by intros [= <-]|].
  apply Forall_app in Hes as [Hes He%Forall_inv]. rewrite run_handles_snoc. intros (w1 & Hr & Hs)%bind_Some Hu.
  destruct (IH Hes _ Hr Hu) as [Hu1 Hh]. split; [by eapply handle_step_unseen|]. intros Hi. eapply handle_step_ours; eauto.
Qed.
Lemma shutdown_when h w : unseen w → is_Some (wt_receivers w !! h) →
  (stopping w → is_Some (StopHandle.shutdown h w)) ∧ (∀ w', StopHandle.shutdown h w = Some w' → unseen w').
Proof.
  intros Hu [seen Hs]. pose proof (Hu _ _ Hs) as ->. unfold StopHandle.shutdown, Watch.changed, stopping. rewrite Hs. cbn. split.
  - intros H. repeat case_decide; [by eexists..|]. destruct H; congruence.
  - intros w'. repeat case_decide; try done; intros [= <-]; unfold unseen; cbn; rewrite ?delete_insert_eq; by apply map_Forall_delete.
Qed.
Lemma polls_snoc n r : polls n None ++ [CallPoll r] =
  match r with Ready res => polls n (Some res) | Pending => polls (S n) None end.
Proof. unfold polls. rewrite !app_nil_r. destruct r; [done|]. by rewrite replicate_S_end. Qed.
Lemma handle_step_stopping e w w' : handle_step e w = Some w' → stopping w → stopping w'.
Proof.
  unfold stopping. destruct e; cbn; try (case_decide; [done|]).
  - unfold ServerHandle.stop, Watch.send. destruct (Watch.is_closed w); intros [= <-]; cbn; [done|]. lia.
  - intros [= <-]. cbn. lia.
  - intros [= <-]. cbn. lia.
  - unfold Watch.clone_rx. destruct (wt_receivers w !! h); [|done]. by intros [= <-].
  - by intros [= <-].
  - unfold StopHandle.shutdown, Watch.changed. destruct (wt_receivers w !! h); [|done]. cbn.
    repeat case_decide; try done; by intros [= <-].
Qed.
Lemma run_handles_stopping es w w' : run_handles es w = Some w' → stopping w → stopping w'.
Proof.
  revert w'. induction es as [|e es IH] using rev_ind; intros w'; [by intros [= <-]|].
  rewrite run_handles_snoc. intros (w1 & Hr & Hs)%bind_Some H. eapply handle_step_stopping; eauto.
Qed.
Lemma shutdown_stopping h w w' : StopHandle.shutdown h w = Some w' → (stopping w ↔ stopping w').
Proof.
  unfold StopHandle.shutdown, Watch.changed, stopping. destruct (wt_receivers w !! h); [|done]. cbn.
  repeat case_decide; try done; by intros [= <-].
Qed.
Lemma await_spec c : ∃ r, cn_calls (await_conn c) = cn_calls c ++ [CallPoll r] ∧
  cn_stage (await_conn c) = match r with Ready res => Served res | Pending => cn_stage c end.
Proof. unfold await_conn, poll_conn. destruct (hc_poll (cn_conn c)) as [[res|] hc]; by eexists. Qed.
Lemma before_poll_serving h n c w c1 w1 r : Forall (not_ours h) (snd r) → unseen w → serving h n c w →
  before_poll r (c, w) = Some (c1, w1) → unseen w1 ∧ serving h n c1 w1.
Proof.
  unfold before_poll. cbn. intros Hes Hu Hs (w2 & Hr & [= <- <-])%bind_Some.
  destruct (run_handles_ours _ _ _ _ Hes Hr Hu) as [Hu2 Hh]. split; [done|].
  pose proof (run_handles_stopping _ _ _ Hr) as Hst. unfold serving in *. cbn. destruct (cn_stage c).
  - destruct Hs as (-> & ? & ?). auto.
  - destruct Hs as [? ?]. auto.
  - destruct Hs as (k & ? & [?|[? ?]]); exists k; auto.
Qed.
Lemma graceful_poll_serving h n c w : unseen w → serving h n c w →
  let s := graceful_poll c w in
  unseen (snd s) ∧ serving h (S n) (fst s) (snd s) ∧ (stopping w ↔ stopping (snd s)) ∧
  (stopping w → ∀ h', cn_stage (fst s) ≠ Selecting h').
Proof.
  intros Hu Hs. unfold graceful_poll. unfold serving in Hs. destruct (cn_stage c) as [h'| |res] eqn:Est; cbn zeta.
  - destruct Hs as (-> & Hcl & Hi). destruct (shutdown_when h w Hu Hi) as [Hsome Hun].
    unfold poll_conn. destruct (hc_poll (cn_conn c)) as [[res|] hc].
    + split; [by apply map_Forall_delete|]. split; [|split; [done|by cbn]]. unfold serving. cbn.
      exists n. split; [lia|]. left. by rewrite Hcl, polls_snoc.
    + destruct (StopHandle.shutdown h w) as [w'|] eqn:Esh.
      * pose proof (shutdown_stopping _ _ _ Esh) as Hst.
        assert (stopping w) as Hw.
        { revert Esh. destruct Hi as [seen Hseen]. pose proof (Hu _ _ Hseen) as ->. unfold StopHandle.shutdown, Watch.changed, stopping.
          rewrite Hseen. cbn. repeat case_decide; auto. }
        cbn [fst snd]. split; [by apply Hun|].
        set (c1 := tell_conn _).
        assert (cn_calls c1 = polls (S n) None ++ [CallGraceful] ∧ cn_stage c1 = Draining) as [Ec1 Es1].
        { subst c1. cbn. by rewrite Hcl, polls_snoc. }
        destruct (await_spec c1) as (r & Ec & Es). rewrite Ec1 in Ec. rewrite Es1 in Es. split; [|split; [done|]].
        -- unfold serving. rewrite Es, Ec. destruct r as [res|]; cbn.
           ++ exists n. split; [lia|]. right. split; [by apply Hst|]. exists 0. split; [lia|]. rewrite <-app_assoc. done.
           ++ split; [by apply Hst|]. exists n. split; [lia|]. rewrite <-app_assoc. by replace (S n - n) with 1 by lia.
        -- intros _ h'. rewrite Es. by destruct r.
      * split; [done|]. split; [|split; [done|]].
        -- unfold serving. cbn. rewrite Est. split; [done|]. split; [by rewrite Hcl, polls_snoc|done].
        -- intros Hw. destruct (Hsome Hw). congruence.
  - destruct Hs as (Hw & k & Hk & Hcl). destruct (await_spec c) as (r & Ec & Es). cbn [fst snd].
    split; [done|]. split; [|split; [done|]].
    + unfold serving. rewrite Es, Ec, Est, Hcl, <-app_assoc. cbn. rewrite polls_snoc. destruct r as [res|].
      * exists k. split; [lia|]. right. split; [done|]. exists (n - k). split; [lia|done].
      * split; [done|]. exists k. split; [lia|]. by replace (S n - k) with (S (n - k)) by lia.
    + intros _ h'. rewrite Es, Est. by destruct r.
  - cbn [fst snd]. split; [done|]. split; [|split; [done|by rewrite Est]]. unfold serving. rewrite Est.
    destruct Hs as (k & Hk & [Hcl|(Hw & j & Hj & Hcl)]); exists k; (split; [lia|]); [by left|]. right. split; [done|]. exists j. split; [lia|done].
Qed.

(** A connection is never given up.  It is polled until it is done, and the future
    that serves it is done exactly then, with its result.  It is told to shut down
    at most once: in the first poll that finds it at work after the server was told
    to stop, or after the last that could tell it was dropped, and then polled at
    once. *)
Theorem serve_until_drained (rs : list round) (conn : Hc) (h : nat) (w w' : Watch) (c : Conn) :
  unseen w → is_Some (wt_receivers w !! h) → Forall (λ r, Forall (not_ours h) (snd r)) rs →
  serve_rounds rs (serve_with_graceful_shutdown conn h, w) = Some (c, w') →
  serving h (length rs) c w' ∧ (rs ≠ [] → stopping w' → ∀ h', cn_stage c ≠ Selecting h').
Proof.
  intros Hu Hh Hrs Hr.
  assert (unseen w' ∧ serving h (length rs) c w' ∧ (rs ≠ [] → stopping w' → ∀ h', cn_stage c ≠ Selecting h')) as [_ ?]; [|done].
  revert c w' Hr. induction rs as [|r rs IH] using rev_ind; intros c w'.
  { intros [= <- <-]. by split. }
  apply Forall_app in Hrs as [Hrs Hro%Forall_inv]. unfold serve_rounds. rewrite foldl_app. cbn.
  intros ([c0 w0] & H0 & Hst)%bind_Some. destruct (IH Hrs _ _ H0) as (Hu0 & Hs0 & _).
  unfold serve_round in Hst. apply bind_Some in Hst as ([c1 w1] & Hb & Hg). cbn in Hg.
  destruct (before_poll_serving _ _ _ _ _ _ _ Hro Hu0 Hs0 Hb) as [Hu1 Hs1].
  destruct (graceful_poll_serving _ _ _ _ Hu1 Hs1) as (Hu2 & Hs2 & Hw & Hn).
  destruct (graceful_poll c1 w1) as [c2 w2]. injection Hg as <- <-. rewrite length_app, Nat.add_1_r.
  split; [done|]. split; [done|]. intros _ Hw2. apply Hn. by apply Hw.
Qed.
End Serve.

(** ** Runs *)
Section Runs.
#[local] Existing Instance ref_json.
#[local] Existing Instance ref_ext.
(** A connection that has some requests to answer, and is idle after them; told to
    shut down it ends when it is idle. *)
Definition ex_poll (c : nat * bool) : Poll (Result unit unit) * (nat * bool) :=
  match c with
  | (0, true) => (Ready (Ok ()), c)
  | (0, false) => (Pending, c)
  | (S n, told) => (Pending, (n, told))
  end.
Definition ex_tell (c : nat * bool) : nat * bool := (fst c, true).
Definition ex_rounds : list (@round (nat * bool)) := [(id, []); (id, [HeStop]); (id, [])].
Lemma serve_until_drained_witness :
  match serve_rounds ex_poll ex_tell ex_rounds (serve_with_graceful_shutdown (3, false) 0, Watch.channel) with
  | Some (c, w) => cn_stage c = Served (Ok ()) ∧ cn_calls c = polls 2 None ++ CallGraceful :: polls 1 (Some (Ok ())) ∧
      serving 0 3 c w
  | None => False
  end.
Proof.
  destruct (serve_rounds ex_poll ex_tell ex_rounds (serve_with_graceful_shutdown (3, false) 0, Watch.channel)) as [[c w]|] eqn:E;
    [|vm_compute in E; discriminate].
  destruct (serve_until_drained ex_poll ex_tell ex_rounds (3, false) 0 Watch.channel w c) as [H _].
  - apply map_Forall_singleton. reflexivity.
  - exists 0%N. reflexivity.
  - repeat constructor; discriminate.
  - exact E.
  - split; [|split; [|exact H]]; vm_compute in E; injection E as <- _; reflexivity.
Defined.
End Runs.
