(* ===== verification/HttpClient.v ===== *)
(** The HTTP client: [client/http-client/src/transport.rs], [rpc_service.rs] and
    [client.rs].

    The client sends the text of a request as the body of a POST request and reads
    the answer from the body of the response.  What answers, [hyper] with whatever
    is behind it, is a parameter: a future on a state [S].  A future that is not
    done when its time is up is [None].  [ServerBehind] puts the server of
    [Server.v] there. *)
From stdpp Require Import base gmap strings list.
From Stdlib Require Import Ascii.
From S2P Require Import Prelude Serde RefJson Errors Params Wire ParamsBuilder Middleware ClientCore ClientService MethodResponse Subscription RpcModule RpcService Http WsServer Server.

(** ** The crates behind: [url], [base64], [http] *)
Class UrlLib := {
  Url : Type;
  url_parse : string → Result string Url;
  url_scheme : Url → string;
  url_host_str : Url → option string;
  url_port : Url → option N;
  url_username : Url → string;
  url_password : Url → option string;
  url_path : Url → string;
  url_query : Url → option string;
  (** [set_fragment(None)], [set_password(None)], [set_username("")]. *)
  url_no_fragment : Url → Url;
  url_no_password : Url → Url;
  url_no_username : Url → Url;
  url_as_str : Url → string;
  base64_encode : string → string;
  (** [HeaderValue::from_str] accepts. *)
  header_value_ok : string → bool
}.

(** ** The transport *)
Inductive TransportError : Type :=
| TeUrl (text : string)
| TeHttp (e : HttpError)
| TeRejected (status_code : N)
| TeRequestTooLarge
| TeInvalidCertificateStore.
Definition http_error_fmt (e : HttpError) : string :=
  match e with
  | HeTooLarge => "The HTTP message was too big"
  | HeMalformed => "Malformed request"
  | HeStream text => text
  end.
Definition transport_error_fmt (e : TransportError) : string :=
  match e with
  | TeUrl text => "Invalid Url: " +:+ text
  | TeHttp e => http_error_fmt e
  | TeRejected s => "Request rejected `" +:+ to_dec s +:+ "`"
  | TeRequestTooLarge => "The request body was too large"
  | TeInvalidCertificateStore => "Invalid certificate store"
  end.

(** What a client gets back. *)
Record HttpReply : Type := MkHttpReply { hp_status : N; hp_headers : HeaderMap; hp_body : list Frame }.
(** [StatusCode::is_success]. *)
Definition is_success_status (s : N) : bool := bool_decide (200 <= s < 300)%N.

Inductive HttpBackend : Type := Https | Http.
Record HttpTransportClient : Type := MkHttpTransportClient {
  tc_target : string;
  tc_client : HttpBackend;
  tc_max_request_size : N;
  tc_max_response_size : N;
  tc_headers : HeaderMap
}.
Record HttpTransportClientBuilder : Type := MkHttpTransportClientBuilder {
  tb_max_request_size : N;
  tb_max_response_size : N;
  tb_headers : HeaderMap;
  tb_tcp_no_delay : bool
}.

Module HttpTransportClientBuilder.
Definition new : HttpTransportClientBuilder :=
  MkHttpTransportClientBuilder TEN_MB_SIZE_BYTES TEN_MB_SIZE_BYTES [] true.
Definition max_request_size (size : N) (b : HttpTransportClientBuilder) : HttpTransportClientBuilder :=
  MkHttpTransportClientBuilder size (tb_max_response_size b) (tb_headers b) (tb_tcp_no_delay b).
Definition max_response_size (size : N) (b : HttpTransportClientBuilder) : HttpTransportClientBuilder :=
  MkHttpTransportClientBuilder (tb_max_request_size b) size (tb_headers b) (tb_tcp_no_delay b).
Definition set_headers (headers : HeaderMap) (b : HttpTransportClientBuilder) : HttpTransportClientBuilder :=
  MkHttpTransportClientBuilder (tb_max_request_size b) (tb_max_response_size b) headers (tb_tcp_no_delay b).
Definition set_tcp_no_delay (no_delay : bool) (b : HttpTransportClientBuilder) : HttpTransportClientBuilder :=
  MkHttpTransportClientBuilder (tb_max_request_size b) (tb_max_response_size b) (tb_headers b) no_delay.

Definition CONTENT_TYPE_JSON : string := "application/json".
(** [HeaderMap::insert] replaces the values of a name. *)
Definition insert_header (k : string) (v : option string) (h : HeaderMap) : HeaderMap :=
  filter (λ kv, kv.1 ≠ k) h ++ [(k, v)].
(** [HeaderMap::into_iter] gives the name with the first of its values only, and
    the loop takes only the items with a name. *)
Fixpoint first_values (h : HeaderMap) (seen : list string) : HeaderMap :=
  match h with
  | [] => []
  | (k, v) :: h' => if decide (k ∈ seen) then first_values h' seen else (k, v) :: first_values h' (k :: seen)
  end.
Definition cached_headers (headers : HeaderMap) : HeaderMap :=
  foldl (λ h kv, insert_header kv.1 kv.2 h)
    (insert_header "accept" (Some CONTENT_TYPE_JSON) (insert_header "content-type" (Some CONTENT_TYPE_JSON) []))
    (first_values headers []).

Definition build {L : UrlLib} (target : string) (b : HttpTransportClientBuilder)
    : Result TransportError HttpTransportClient :=
  url ← map_err (λ e, TeUrl ("Invalid URL: " +:+ e)) (url_parse target);
  _ ← ok_or (url_host_str url) (TeUrl "Invalid host");
  let url := url_no_fragment url in
  client ← (if decide (url_scheme url = "http") then Ok Http
            else if decide (url_scheme url = "https") then Ok Https
            else Err (TeUrl "URL scheme not supported, expects 'http' or 'https'"));
  let headers := cached_headers (tb_headers b) in
  headers ←
    match url_password url with
    | Some pwd =>
      if decide ("authorization" ∈ headers.*1) then Ok headers
      else
        let value := "Basic " +:+ base64_encode (url_username url +:+ ":" +:+ pwd) in
        if header_value_ok value then Ok (insert_header "authorization" (Some value) headers)
        else Err (TeUrl "Header value `authorization basic user:pwd` invalid")
    | None => Ok headers
    end;
  Ok (MkHttpTransportClient (url_as_str (url_no_username (url_no_password url))) client
        (tb_max_request_size b) (tb_max_response_size b) headers).
End HttpTransportClientBuilder.

Section Transport.
Context {X : HttpExtensions} {L : HttpLibs} {S : Type}.
(** [hyper]'s client, and the middleware around it. *)
Context (http_call : HttpRequest → S → option (Result TransportError HttpReply) * S).

Definition transport_err (e : TransportError) : ClientStop := CsErr (ErrTransport (transport_error_fmt e)).
Definition inner_send (t : HttpTransportClient) (body : string) : Fut S HttpReply := λ s,
  if decide (tc_max_request_size t < slen body)%N then (Some (Err (transport_err TeRequestTooLarge)), s)
  else
    match uri_parse (tc_target t) with
    | None => (Some (Err CsPanic), s)
    | Some uri =>
      match http_call (MkHttpRequest MPost uri (tc_headers t) ext_new [FData body]) s with
      | (Some (Ok response), s') =>
        (Some (if is_success_status (hp_status response) then Ok response
               else Err (transport_err (TeRejected (hp_status response)))), s')
      | (Some (Err e), s') => (Some (Err (transport_err e)), s')
      | (None, s') => (None, s')
      end
    end.
Definition send_and_read_body (t : HttpTransportClient) (body : string) : Fut S string :=
  response ← inner_send t body;
  fut_result (map_err (λ e, transport_err (TeHttp e))
    (fst <$> read_body (hp_headers response) (hp_body response) (tc_max_response_size t))).
Definition send (t : HttpTransportClient) (body : string) : Fut S unit :=
  _ ← inner_send t body; mret ().
End Transport.

Module HttpRpcService.
Section Service.
Context {J : SerdeJson} {X : HttpExtensions} {L : HttpLibs} {S : Type}.
Context (http_call : HttpRequest → S → option (Result TransportError HttpReply) * S) (t : HttpTransportClient).

Definition parse_error (text : string) : ClientStop := CsErr (ErrParseError (json_errmsg text)).
(** [serde_json::to_string]. *)
Definition to_string (v : Ser) : Fut S string := fut_result (ok_or (json_write v) (parse_error "")).

Definition call (request : Request) : Fut S MiddlewareMethodResponse :=
  raw ← to_string (request_serialize request);
  bytes ← send_and_read_body http_call t raw;
  rp ← fut_result (ok_or (response_deserialize de_raw bytes) (parse_error bytes));
  mret (mm_response (response_into_owned
    (MkResponse (rp_jsonrpc rp) (rp_payload rp) (rp_id rp) (rq_extensions request)))).
(** [Vec<Response<Box<RawValue>>>]. *)
Definition de_responses (bytes : string) : option (list RawResponse) :=
  items ← de_raw_vec bytes; mapM (response_deserialize de_raw) items.
Definition batch (batch : Batch) : Fut S (list RawResponse) :=
  raw ← to_string (Batch.serialize batch);
  bytes ← send_and_read_body http_call t raw;
  rps ← fut_result (ok_or (de_responses bytes) (parse_error bytes));
  mret (response_into_owned <$> rps).
Definition notification (notif : MwNotification) : Fut S Extensions :=
  raw ← to_string (mw_notification_serialize notif);
  _ ← send http_call t raw;
  mret (nf_extensions notif).

Definition http_service : ClientService S := {|
  cs_call := call; cs_batch := batch; cs_notification := notification
|}.
End Service.
End HttpRpcService.

(** ** The frontend *)
Record HttpClientBuilder : Type := MkHttpClientBuilder {
  hb_max_request_size : N;
  hb_max_response_size : N;
  hb_request_timeout : N;
  hb_id_kind : IdKind;
  hb_headers : HeaderMap;
  hb_tcp_no_delay : bool;
  hb_max_concurrent_requests : option N
}.
(** [HttpClient]: the service is an argument of its operations. *)
Record HttpClient : Type := MkHttpClient {
  hc_id_manager : RequestIdManager;
  hc_request_guard : option Semaphore;
  hc_request_timeout : N
}.

Module HttpClientBuilder.
Definition default : HttpClientBuilder :=
  MkHttpClientBuilder TEN_MB_SIZE_BYTES TEN_MB_SIZE_BYTES 60 KNumber [] true None.
Definition new : HttpClientBuilder := default.
Definition max_request_size (size : N) (b : HttpClientBuilder) : HttpClientBuilder :=
  MkHttpClientBuilder size (hb_max_response_size b) (hb_request_timeout b) (hb_id_kind b) (hb_headers b)
    (hb_tcp_no_delay b) (hb_max_concurrent_requests b).
Definition max_response_size (size : N) (b : HttpClientBuilder) : HttpClientBuilder :=
  MkHttpClientBuilder (hb_max_request_size b) size (hb_request_timeout b) (hb_id_kind b) (hb_headers b)
    (hb_tcp_no_delay b) (hb_max_concurrent_requests b).
Definition request_timeout (timeout : N) (b : HttpClientBuilder) : HttpClientBuilder :=
  MkHttpClientBuilder (hb_max_request_size b) (hb_max_response_size b) timeout (hb_id_kind b) (hb_headers b)
    (hb_tcp_no_delay b) (hb_max_concurrent_requests b).
Definition max_concurrent_requests (max : N) (b : HttpClientBuilder) : HttpClientBuilder :=
  MkHttpClientBuilder (hb_max_request_size b) (hb_max_response_size b) (hb_request_timeout b) (hb_id_kind b)
    (hb_headers b) (hb_tcp_no_delay b) (Some max).
Definition id_format (id_kind : IdKind) (b : HttpClientBuilder) : HttpClientBuilder :=
  MkHttpClientBuilder (hb_max_request_size b) (hb_max_response_size b) (hb_request_timeout b) id_kind
    (hb_headers b) (hb_tcp_no_delay b) (hb_max_concurrent_requests b).
Definition set_headers (headers : HeaderMap) (b : HttpClientBuilder) : HttpClientBuilder :=
  MkHttpClientBuilder (hb_max_request_size b) (hb_max_response_size b) (hb_request_timeout b) (hb_id_kind b)
    headers (hb_tcp_no_delay b) (hb_max_concurrent_requests b).
Definition set_tcp_no_delay (no_delay : bool) (b : HttpClientBuilder) : HttpClientBuilder :=
  MkHttpClientBuilder (hb_max_request_size b) (hb_max_response_size b) (hb_request_timeout b) (hb_id_kind b)
    (hb_headers b) no_delay (hb_max_concurrent_requests b).
Definition build {L : UrlLib} (target : string) (b : HttpClientBuilder)
    : Result Error (HttpTransportClient * HttpClient) :=
  http ← map_err (λ e, ErrTransport (transport_error_fmt e))
    (HttpTransportClientBuilder.build target
      (MkHttpTransportClientBuilder (hb_max_request_size b) (hb_max_response_size b) (hb_headers b) (hb_tcp_no_delay b)));
  Ok (http, MkHttpClient (RequestIdManager.new (hb_id_kind b)) (ConnectionGuard.new <$> hb_max_concurrent_requests b)
              (hb_request_timeout b)).
End HttpClientBuilder.

Module HttpClient.
Section Ops.
Context {J : SerdeJson} {X : HttpExtensions} {S : Type} {svc : ClientService S}.
(** The text of an error: its [Display]. *)
Context (error_fmt : Error → string).
Notation M := (SM (HttpClient * S) ClientStop).

Definition err {A} (e : Error) : M A := sm_throw (CsErr e).
Definition lift {A} (r : Result Error A) : M A := sm_result (map_err CsErr r).
Definition on_service {A} (m : SM S ClientStop A) : M A := λ s,
  let '(r, s') := m (snd s) in (r, (fst s, s')).
Definition next_request_id : M Id := λ s,
  let '(id, m) := RequestIdManager.next_request_id (hc_id_manager (fst s)) in
  (Ok id, (MkHttpClient m (hc_request_guard (fst s)) (hc_request_timeout (fst s)), snd s)).
Definition set_guard (g : option Semaphore) (s : HttpClient * S) : HttpClient * S :=
  (MkHttpClient (hc_id_manager (fst s)) g (hc_request_timeout (fst s)), snd s).
(** The permit of the operation; [None] while all are taken. *)
Definition with_permit {A} (m : M A) (s : HttpClient * S) : option (Result ClientStop A * (HttpClient * S)) :=
  match hc_request_guard (fst s) with
  | Some g =>
    match ConnectionGuard.try_acquire g with
    | None => None
    | Some g' =>
      let '(r, s') := m (set_guard (Some g') s) in
      Some (r, set_guard (ConnectionGuard.drop_permit <$> hc_request_guard (fst s')) s')
    end
  | None => Some (m s)
  end.

(** [params] is the outcome of [to_rpc_params]. *)
Definition notification (method : string) (params : Result Error (option string)) :=
  with_permit (
    params ← lift params;
    let fut := cs_notification (notification_new method params) in
    _ ← sm_catch (on_service (run_future_until_timeout fut))
          (λ e, match e with CsErr e => CsErr (ErrTransport (error_fmt e)) | CsPanic => CsPanic end);
    mret ()).

Definition request {R} (de : string → Result string R) (method : string) (params : Result Error (option string)) :=
  with_permit (
    id ← next_request_id;
    params ← lift params;
    method_response ← on_service (run_future_until_timeout (cs_call (request_new method params id)));
    rp ← lift (map_err ErrCall (success_try_from (mm_rp method_response)));
    result ← lift (map_err ErrParseError (de (sc_result rp)));
    if decide (Wire.sc_id rp = id) then mret result
    else err (ErrInvalidRequestId (NotPendingRequest (Id.fmt (Wire.sc_id rp))))).

(** The loop over the answers of a batch: the identifier of an answer says where
    it goes. *)
Fixpoint fill {R} (de : string → Result string R) (start : N) (rps : list RawResponse)
    (batch_response : list (Result ErrorObject R)) (success failed : N)
    : Result Error (list (Result ErrorObject R) * N * N) :=
  match rps with
  | [] => Ok (batch_response, success, failed)
  | rp :: rps' =>
    id ← map_err ErrInvalidRequestId (Id.try_parse_inner_as_number (rp_id rp));
    '(res, success, failed) ←
      match success_try_from rp with
      | Ok r => v ← map_err ErrParseError (de (sc_result r)); Ok (Ok v, success + 1, failed)%N
      | Err e => Ok (Err e, success, failed + 1)%N
      end;
    match checked_sub id start with
    | Some p =>
      if decide (N.to_nat p < length batch_response) then
        fill de start rps' (<[N.to_nat p := res]> batch_response) success failed
      else Err (ErrInvalidRequestId (NotPendingRequest (to_dec id)))
    | None => Err (ErrInvalidRequestId (NotPendingRequest (to_dec id)))
    end
  end.
Definition placeholder {R} : Result ErrorObject R := Err (ErrorObject.borrowed 0 "" None).
Definition batch_of (kind : IdKind) (calls : BatchRequestBuilder.T) (ids : Range) : Batch :=
  foldl (λ b '((method, params), id),
           Batch.push (MkRequest V2 (IdKind.into_id kind id) method params ext_new) b)
        Batch.new (zip calls (range_ids ids)).
Definition batch_request {R} (de : string → Result string R) (batch : BatchRequestBuilder.T) :=
  with_permit (
    batch ← lift (map_err (λ _, ErrEmptyBatchRequest) (BatchRequestBuilder.build batch));
    id ← next_request_id;
    id_range ← lift (generate_batch_id_range id (N.of_nat (length batch)));
    m ← sm_get;
    let kind := RequestIdManager.as_id_kind (hc_id_manager (fst m)) in
    rps ← on_service (run_future_until_timeout (cs_batch (batch_of kind batch id_range)));
    '(batch_response, success, failed) ←
      lift (fill de id_range.1 rps (replicate (length rps) placeholder) 0 0);
    mret (BatchResponse.new success batch_response failed)).

(** Subscriptions need a connection. *)
Definition subscribe : Result Error unit := Err ErrHttpNotImplemented.
Definition subscribe_to_method : Result Error unit := Err ErrHttpNotImplemented.
End Ops.
End HttpClient.

(** ** The client in front of the server

    [hyper] carries a request to the server and the response back. *)
Class Hyper `{HttpExtensions} := {
  deliver : HttpRequest → HttpRequest;
  reply : HttpResponse → HttpReply
}.
Section ServerBehind.
Context {J : SerdeJson} {X : HttpExtensions} {XC : ExtKey ConnectionId} {XG : ExtKey GuardRef}.
Context {K : Handshake} {L : HttpLibs} {H : Hyper} {U : Type}.
Context (rest : SubscribeCall → W U → W U).

(** A body that carries a text: in any chunks, with a length that is not wrong. *)
Definition carries (headers : HeaderMap) (body : list Frame) (text : string) : Prop :=
  Forall (λ f, is_error_frame f = false) body ∧ Forall (λ d, d ≠ "") (chunks body) ∧
  concat_str (chunks body) = text ∧ (default 0 (read_header_content_length headers) <= slen text)%N.
Definition hyper_law : Prop :=
  (∀ req text, hq_body req = [FData text] →
     hq_method (deliver req) = hq_method req ∧
     headers_get_all "content-type" (hq_headers (deliver req)) = headers_get_all "content-type" (hq_headers req) ∧
     carries (hq_headers (deliver req)) (hq_body (deliver req)) text) ∧
  (∀ rp, hp_status (reply rp) = hr_status rp ∧ carries (hp_headers (reply rp)) (hp_body (reply rp)) (hr_body rp)).

(** A request on the connection [d], driven to its end. *)
Definition network (d : ServiceData U) (req : HttpRequest) (s : Server U)
    : option (Result TransportError HttpReply) * Server U :=
  match TowerServiceNoHttp.call d (deliver req) s with
  | (RpReady response, s') => (Some (Ok (reply response)), s')
  | (RpFuture h, s') =>
    match http_run rest h s' with
    | Some (Ok response, s'') => (Some (Ok (reply response)), s'')
    | Some (Err _, s'') => (Some (Err (TeHttp (HeStream "connection closed"))), s'')
    | None => (None, s')
    end
  end.

Lemma json_start_opens single d t : opens single (d +:+ t) → d ≠ "" → json_start d = Some (0, single).
Proof. intros [t' E] Hd. destruct d as [|c d]; [done|]. injection E as -> _. by destruct single. Qed.
Lemma read_carried headers body text single max : limited_law L → carries headers body text → opens single text →
  (slen text <= max)%N → read_body headers body max = Ok (text, single).
Proof.
  intros HL (Hf & Hne & Ht & Hl) Ho Hm. unfold read_body. rewrite decide_False by lia.
  specialize (HL max body). rewrite <-slen_concat, Ht, decide_True in HL by done. rewrite HL, read_frames_first by done.
  destruct (chunks body) as [|d ds]; [subst text; by destruct Ho|]. cbn [concat_str foldr] in Ht.
  rewrite (json_start_opens single d (concat_str ds)); [|by rewrite <-Ht in Ho|by apply Forall_inv in Hne].
  cbn [mbind result_bind drop_str]. change (concat_str (d :: ds)) with (d +:+ concat_str ds). rewrite Ht.
  rewrite decide_False; [done|]. by destruct Ho as [? ->].
Qed.

(** A request text that arrives at the server: the service handles it with the
    extensions of the connection, the permit comes back, and the client gets the
    text of the answer. *)
Lemma network_spec d (t : HttpTransportClient) text s m w' uri : hyper_law → limited_law L →
  let cfg := sd_server_cfg d in
  let req := MkHttpRequest MPost uri (tc_headers t) ext_new [FData text] in
  let req' := TowerServiceNoHttp.extend (sd_conn_id d) (deliver req) in
  uri_parse (tc_target t) = Some uri → content_type_is_json req = true → opens true text →
  (slen text <= tc_max_request_size t)%N → (slen text <= sc_max_request_body_size cfg)%N →
  sc_enable_http cfg = true → is_upgrade_request req' = false → (0 < sem_available (sv_guard s))%N →
  handle_rpc_call (svc := rpc_service rest (TowerServiceNoHttp.http_service d)) text true
    (sc_batch_requests_config cfg) (hq_extensions req') (sv_w s) = (Ok m, w') →
  opens true (mr_json m) → (slen (mr_json m) <= tc_max_response_size t)%N →
  send_and_read_body (network d) t text s = (Some (Ok (mr_json m)), set_w w' s).
Proof.
  intros [HD HR] HL cfg req req' Hu Hct Hop Hl1 Hl2 Hen Hup Hg Hm Hor Hl3.
  destruct (HD req text eq_refl) as (Em & Ec & Hc).
  assert (call_with_service (svc := rpc_service rest (TowerServiceNoHttp.http_service d)) req'
    (sc_batch_requests_config cfg) (sc_max_request_body_size cfg) (sv_w s) =
    (Ok (response.from_method_response m), w')) as Hcall.
  { unfold call_with_service. change (hq_method req') with (hq_method (deliver req)). rewrite Em.
    unfold content_type_is_json in *. change (hq_headers req') with (hq_headers (deliver req)). rewrite Ec, Hct.
    change (hq_body req') with (hq_body (deliver req)). rewrite (read_carried _ _ text true) by done.
    unfold mbind, SM_bind. change (hq_method req) with MPost. cbv beta iota. by rewrite Hm. }
  assert (network d req s = (Some (Ok (reply (response.from_method_response m))), set_w w' s)) as Hn.
  { unfold network, TowerServiceNoHttp.call, ConnectionGuard.try_acquire. rewrite decide_True by done. cbn zeta.
    fold req'. fold cfg. rewrite Hup, andb_false_r, Hen. cbn [andb negb].
    unfold new_task. cbn zeta. unfold http_run. cbn [sv_tasks set_tasks set_guard].
    rewrite lookup_insert_eq. cbn [sv_w set_tasks set_guard]. rewrite Hcall. do 2 f_equal.
    unfold end_task, drop_conn, set_tasks, set_guard, set_w, ConnectionGuard.drop_permit. cbn.
    rewrite delete_insert_id by apply not_elem_of_dom, is_fresh.
    replace (sem_available (sv_guard s) - 1 + 1)%N with (sem_available (sv_guard s)) by lia.
    by destruct s as [? []]. }
  unfold send_and_read_body, inner_send, mbind, fut_bind. rewrite decide_False by lia. rewrite Hu. fold req.
  rewrite Hn. destruct (HR (response.from_method_response m)) as [Es Hcr]. rewrite Es.
  change (hr_status (response.from_method_response m)) with 200%N.
  assert (is_success_status 200 = true) as -> by (vm_compute; reflexivity). cbv beta iota.
  rewrite (read_carried _ _ (mr_json m) true) by done. done.
Qed.

(** *** Calls *)
Context (error_fmt : Error → string).

(** A method that looks at its parameters and at the user's state only. *)
Definition user_method {R} (f : Params → U → R * U) : UserFn U R := λ ps _ w,
  let '(r, u) := f ps (snd w) in (Ok r, (fst w, u)).
(** The result of a direct call, as the client gives it. *)
Definition as_client {T} (r : Result MethodsError T) : Result ClientStop T :=
  map_err (λ e, CsErr (match e with
    | MeParse text => ErrParseError text
    | MeJsonRpc err => ErrCall err
    | MeInvalidSubscriptionId _ => ErrInvalidSubscriptionId
    end)) r.
(** The response of a call can be written, read and sent, for an identifier. *)
Definition response_ok {T} (ser : T → Ser) (p : ResponsePayload T) (max : N) (id : Id) : Prop :=
  let rp := response_serialize ser (response_new p id) in
  faithful rp ∧ events_text (json_events rp) = (text_of rp, true) ∧ (slen (text_of rp) <= max)%N ∧
  opens true (text_of rp).
(** The client can send now: there is a permit, or no limit. *)
Definition client_free (c : HttpClient) : Prop :=
  match hc_request_guard c with Some g => (0 < sem_available g)%N | None => True end.

Lemma with_permit_spec {A S} (m : SM (HttpClient * S) ClientStop A) r c c' (s s' : S) :
  client_free c → m (HttpClient.set_guard ((λ g, MkSemaphore (sem_max g) (sem_available g - 1)) <$> hc_request_guard c) (c, s)) = (r, (c', s')) →
  hc_request_guard c' = (λ g, MkSemaphore (sem_max g) (sem_available g - 1)) <$> hc_request_guard c →
  HttpClient.with_permit m (c, s) =
    Some (r, (MkHttpClient (hc_id_manager c') (hc_request_guard c) (hc_request_timeout c'), s')).
Proof.
  unfold client_free, HttpClient.with_permit. destruct c as [im [g|] tm]; cbn; intros Hf Hm Hg.
  - unfold ConnectionGuard.try_acquire. rewrite decide_True by done. rewrite Hm. unfold HttpClient.set_guard. cbn.
    rewrite Hg. cbn. unfold ConnectionGuard.drop_permit. cbn.
    replace (sem_available g - 1 + 1)%N with (sem_available g) by lia. by destruct g.
  - unfold HttpClient.set_guard in Hm; cbn in Hm. rewrite Hm. destruct c' as [im' g' tm']. cbn in *. by rewrite Hg.
Qed.

Lemma http_call_spec {T R} `{IntoResponse R} (ser : T → Ser) (d : ServiceData U) (t : HttpTransportClient) (q : Request)
    (callback : UserFn U R) (r : R) (p : ResponsePayload T) (s : Server U) w' uri :
  let cfg := sd_server_cfg d in
  let text := text_of (request_serialize q) in
  let req := MkHttpRequest MPost uri (tc_headers t) ext_new [FData text] in
  let req' := TowerServiceNoHttp.extend (sd_conn_id d) (deliver req) in
  let respond := RpcModule.respond callback in
  hyper_law → limited_law L →
  Methods.method (rq_method q) (sd_methods d) = Some (McSync (λ id ps max x, respond id ps max x)) ∨
    Methods.method (rq_method q) (sd_methods d) = Some (McAsync (λ id ps _ max x, respond id ps max x)) →
  callback (params_new (rq_params q)) (hq_extensions req') (sv_w s) = (Ok r, w') →
  mp_inner (into_response r) = payload_map ser p →
  match p with Success v => json_read (text_of (ser v)) ≠ None | PayloadError e => eo_ok e end →
  entry_ok (BeCall q) → opens true text →
  (slen text <= tc_max_request_size t)%N → (slen text <= sc_max_request_body_size cfg)%N →
  response_ok ser p (sc_max_response_body_size cfg) (rq_id q) → response_ok ser p (tc_max_response_size t) (rq_id q) →
  uri_parse (tc_target t) = Some uri → content_type_is_json req = true → sc_enable_http cfg = true →
  is_upgrade_request req' = false → (0 < sem_available (sv_guard s))%N →
  HttpRpcService.call (network d) t q s =
    (Some (Ok (mm_response (MkResponse (rp_jsonrpc (response_new p (rq_id q))) (payload_map (λ v, text_of (ser v)) p)
                  (rq_id q) (rq_extensions q)))), set_w w' s).
Proof.
  intros cfg text req req' respond HH HL Hreg Hcb Hp Hr Hq Hop Hl1 Hl2 (F & He & Hl3 & Ho) (_ & _ & Hl4 & _) Hu Hct Hen Hup Hg.
  set (req2 := MkRequest (rq_jsonrpc q) (rq_id q) (rq_method q) (rq_params q) (hq_extensions req')).
  destruct (service_call_registered rest ser (λ _, match p with Success v => Some v | _ => None end)
    (TowerServiceNoHttp.http_service d) req2 callback (sv_w s) w' r p) as (m & Hm & Hj & _);
    [done..|by destruct p|apply Hq|].
  assert (send_and_read_body (network d) t text s = (Some (Ok (mr_json m)), set_w w' s)) as Hsend.
  { eapply network_spec; try done.
    - unfold text. rewrite handle_request by done. exact Hm.
    - by rewrite Hj.
    - by rewrite Hj. }
  unfold HttpRpcService.call, mbind, fut_bind, HttpRpcService.to_string, fut_result.
  assert (json_write (request_serialize q) = Some text) as ->.
  { destruct Hq as [Fq _]. cbn [BatchEntry.serialize] in Fq. by apply faithful_write. }
  cbn [ok_or]. rewrite Hsend, Hj.
  rewrite (response_decode_map ser de_raw (λ v, text_of (ser v))); [|done|apply Hq|].
  - assert (∀ rp : RawResponse, response_into_owned rp = rp) as E by (by intros [? [|[]] [] ?]).
    cbn [ok_or fut_ret mret]. by rewrite E.
  - cbn. destruct p as [v|]; [|done]. unfold de_raw. by destruct (json_read _).
Qed.

(** C2: calling a method over HTTP is calling it: for a method that looks at its
    parameters and the user's state only, the client gets what a direct call of
    the registered method gives, value or error, and leaves the user's state as the
    direct call does, once.  The request used one identifier, and gave back its
    permits, the client's and the server's: nothing else of either has changed. *)
Theorem http_call_equals_direct {R T} `{IntoResponse R} (ser : T → Ser) (de : string → Result string T)
    (d : ServiceData U) (t : HttpTransportClient) (name : string) (ps : option string)
    (f : Params → U → R * U) (r : R) (p : ResponsePayload T) (random : N)
    (c : HttpClient) (s : Server U) (u' : U) (uri : Uri) :
  let cfg := sd_server_cfg d in
  let '(id, ids) := RequestIdManager.next_request_id (hc_id_manager c) in
  let q := request_new name ps id in
  let text := text_of (request_serialize q) in
  let req := MkHttpRequest MPost uri (tc_headers t) ext_new [FData text] in
  let respond := RpcModule.respond (user_method f) in
  hyper_law → limited_law L →
  (* the method *)
  Methods.method name (sd_methods d) = Some (McSync (λ id ps max x, respond id ps max x)) ∨
    Methods.method name (sd_methods d) = Some (McAsync (λ id ps _ max x, respond id ps max x)) →
  f (params_new ps) (snd (sv_w s)) = (r, u') → mp_inner (into_response r) = payload_map ser p →
  match p with Success v => de (text_of (ser v)) = Ok v ∧ json_read (text_of (ser v)) ≠ None | PayloadError e => eo_ok e end →
  (* the request and its response fit *)
  entry_ok (BeCall q) → opens true text → client_free c →
  (slen text <= tc_max_request_size t)%N → (slen text <= sc_max_request_body_size cfg)%N →
  response_ok ser p (sc_max_response_body_size cfg) id → response_ok ser p (tc_max_response_size t) id →
  response_ok ser p usize_max (IdNumber 0) →
  (* the server takes it *)
  uri_parse (tc_target t) = Some uri → content_type_is_json req = true → sc_enable_http cfg = true →
  is_upgrade_request (TowerServiceNoHttp.extend (sd_conn_id d) (deliver req)) = false →
  (0 < sem_available (sv_guard s))%N →
  ∃ out s1,
    RpcModule.call rest (λ raw, result_ok (de raw)) (sd_methods d) name (Ok ps) random (sv_w s) = (Ok out, (s1, u')) ∧
    HttpClient.request (svc := HttpRpcService.http_service (network d) t) de name (Ok ps) (c, s) =
      Some (as_client out, (MkHttpClient ids (hc_request_guard c) (hc_request_timeout c),
                            set_w (fst (sv_w s), u') s)).
Proof.
  intros cfg. destruct (RequestIdManager.next_request_id _) as [id ids] eqn:Eid.
  intros q text req respond HH HL Hreg Hf Hp Hv Hq Hop Hcf Hl1 Hl2 Hr1 Hr2 (F0 & He0 & Hl0 & _) Hu Hct Hen Hup Hg.
  set (out := match p with Success v => Ok v | PayloadError e => Err (MeJsonRpc e) end : Result MethodsError T).
  assert (∀ (w : W U) ext, snd w = snd (sv_w s) →
    user_method f (params_new ps) ext w = (Ok r, (fst w, u'))) as Hcb.
  { intros w ext E. unfold user_method. by rewrite E, Hf. }
  exists out. eexists. split.
  { eapply (call_registered rest ser (λ raw, result_ok (de raw))); try done; [by apply plain_callbacks|by apply Hcb|].
    destruct p as [v|e]; [|done]. cbn. by destruct Hv as [-> _]. }
  pose proof (http_call_spec ser d t q (user_method f) r p s (fst (sv_w s), u') uri) as Hcall.
  eapply (with_permit_spec _ _ c (MkHttpClient ids
    ((λ g, MkSemaphore (sem_max g) (sem_available g - 1)) <$> hc_request_guard c) (hc_request_timeout c))); [done| |done].
  unfold mbind, SM_bind, HttpClient.next_request_id, HttpClient.set_guard. cbn [fst snd hc_id_manager]. rewrite Eid.
  cbn [HttpClient.lift map_err sm_result]. unfold HttpClient.on_service, run_future_until_timeout. cbn [snd cs_call HttpRpcService.http_service].
  fold q. rewrite Hcall; try done; [|by apply Hcb|by destruct p; [destruct Hv|]].
  destruct p as [v|e]; cbn.
  - destruct Hv as [Hv _]. rewrite Hv. cbn. by rewrite decide_True.
  - by destruct e.
Qed.
End ServerBehind.

(** ** Batches *)
Section Batches.
Context {J : SerdeJson} {X : HttpExtensions} {R : Type} (de : string → Result string R).

(** The result in a response of a batch, when it can be read. *)
Definition result_of (rp : RawResponse) : option (Result ErrorObject R) :=
  match rp_payload rp with
  | Success raw => Ok <$> result_ok (de raw)
  | PayloadError e => Some (Err e)
  end.
Definition numbered (rp : RawResponse) (n : N) : Prop := Id.try_parse_inner_as_number (rp_id rp) = Ok n.
Definition count_ok (rs : list (Result ErrorObject R)) : N := N.of_nat (length (filter (λ r, is_ok r = true) rs)).
Definition count_err (rs : list (Result ErrorObject R)) : N := N.of_nat (length (filter (λ r, is_ok r = false) rs)).

Lemma fill_spec start rps ns rs l s f : Forall2 numbered rps ns → Forall2 (λ rp r, result_of rp = Some r) rps rs →
  Forall (λ n, (start <= n)%N ∧ N.to_nat (n - start) < length l) ns → NoDup ns →
  ∃ l', HttpClient.fill de start rps l s f = Ok (l', (s + count_ok rs)%N, (f + count_err rs)%N) ∧ length l' = length l ∧
    (∀ k n r, ns !! k = Some n → rs !! k = Some r → l' !! N.to_nat (n - start) = Some r) ∧
    (∀ p, (∀ n, n ∈ ns → N.to_nat (n - start) ≠ p) → l' !! p = l !! p).
Proof.
  intros Hn. revert rs l s f. induction Hn as [|rp n rps ns Hrp Hn IH]; intros rs l s f Hr Hf Hd.
  { inversion Hr; subst. exists l. cbn. rewrite !N.add_0_r. by split_and!. }
  inversion Hr as [|? r ? rs' Hres Hr']; subst. apply Forall_cons in Hf as [[H1 H2] Hf]. apply NoDup_cons in Hd as [Hni Hd].
  cbn [HttpClient.fill]. rewrite Hrp. cbn [map_err mbind result_bind].
  assert (∃ s1 f1, (match success_try_from rp with
      | Ok r => v ← map_err ErrParseError (de (sc_result r)); Ok (Ok v, s + 1, f)%N
      | Err e => Ok (Err e, s, f + 1)%N end) = Ok (r, s1, f1) ∧
      (s1 + count_ok rs' = s + count_ok (r :: rs'))%N ∧ (f1 + count_err rs' = f + count_err (r :: rs'))%N) as (s1 & f1 & -> & Hs & Hf1).
  { unfold success_try_from, result_of, count_ok, count_err in *. rewrite !filter_cons. destruct (rp_payload rp) as [raw|e].
    - destruct (de raw) as [v|] eqn:E; [|done]. injection Hres as <-. cbn [sc_result]. rewrite E.
      eexists _, _. split; [reflexivity|]. rewrite decide_True, decide_False by done. cbn [length]. lia.
    - injection Hres as <-. eexists _, _. split; [by destruct e|].
      rewrite decide_False, decide_True by done. cbn [length]. lia. }
  unfold checked_sub. rewrite decide_True by done. cbn [mbind result_bind]. rewrite decide_True by done.
  destruct (IH rs' (<[N.to_nat (n - start) := r]> l) s1 f1 Hr') as (l' & -> & Hlen & Hin & Hout).
  { eapply Forall_impl; [exact Hf|]. intros m. by rewrite length_insert. }
  { done. }
  exists l'. rewrite Hs, Hf1. split; [done|]. rewrite length_insert in Hlen. split; [done|].
  assert (∀ m, m ∈ ns → N.to_nat (m - start) ≠ N.to_nat (n - start)) as Hne.
  { intros m Hm E. rewrite Forall_forall in Hf. destruct (Hf m Hm) as [Hm1 _].
    assert (m = n) by lia. by subst. }
  split.
  - intros [|k] m x Hm Hx; cbn in Hm, Hx; [|by eapply Hin]. injection Hm as <-. injection Hx as <-.
    rewrite Hout by (intros m Hm; by apply Hne). by apply list_lookup_insert_eq.
  - intros p Hp. rewrite Hout by (intros m Hm; apply Hp; by right). apply list_lookup_insert_ne. apply Hp. by left.
Qed.

(** C26: the results of a batch over HTTP come back in the order of its calls,
    whatever the order of the answers: when the answers are to the identifiers of
    the batch, each once, place [p] of the result has what the answer to call [p]
    carries, and the counts are those of the successes and the errors.  The client
    is left with the next identifier and all its permits. *)
Theorem http_batch_in_order {S} {svc : ClientService S} (calls : BatchRequestBuilder.T) (c : HttpClient) (s s' : S)
    (range : Range) (rps : list RawResponse) (ns : list N) (rs : list (Result ErrorObject R)) :
  let '(id, ids) := RequestIdManager.next_request_id (hc_id_manager c) in
  calls ≠ [] → client_free c → generate_batch_id_range id (N.of_nat (length calls)) = Ok range →
  cs_batch (HttpClient.batch_of (ri_id_kind (hc_id_manager c)) calls range) s = (Some (Ok rps), s') →
  Forall2 numbered rps ns → ns ≡ₚ range_ids range → Forall2 (λ rp r, result_of rp = Some r) rps rs →
  ∃ l, HttpClient.batch_request de calls (c, s) =
      Some (Ok (BatchResponse.new (count_ok rs) l (count_err rs)),
            (MkHttpClient ids (hc_request_guard c) (hc_request_timeout c), s')) ∧
    length l = length calls ∧
    ∀ p, p < length calls → ∃ k, ns !! k = Some (range.1 + N.of_nat p)%N ∧ l !! p = rs !! k.
Proof.
  destruct (RequestIdManager.next_request_id _) as [id ids] eqn:Eid. intros Hne Hcf Hrg Hcs Hn Hp Hrs.
  assert (range.2 = range.1 + N.of_nat (length calls))%N as Hend.
  { unfold generate_batch_id_range in Hrg. destruct (Id.try_parse_inner_as_number id) as [st|]; [|done]. cbn in Hrg.
    unfold checked_add in Hrg. case_decide; [|done]. cbn in Hrg. by injection Hrg as <-. }
  assert (length rps = length calls) as Hlen.
  { rewrite (Forall2_length _ _ _ Hn), Hp, length_range_ids. lia. }
  destruct (fill_spec range.1 rps ns rs (replicate (length rps) HttpClient.placeholder) 0 0 Hn Hrs)
    as (l & Hfill & Hl & Hin & _).
  { apply Forall_forall. intros n Hel. rewrite length_replicate, Hlen. rewrite Hp, elem_of_range_ids in Hel. lia. }
  { rewrite Hp. apply range_ids_NoDup. }
  exists l. rewrite length_replicate in Hl. split; [|split].
  - eapply (with_permit_spec _ _ c (MkHttpClient ids
      ((λ g, MkSemaphore (sem_max g) (sem_available g - 1)) <$> hc_request_guard c) (hc_request_timeout c)));
      [done| |done].
    assert (BatchRequestBuilder.build calls = Ok calls) as Hb by (by destruct calls).
    assert (RequestIdManager.as_id_kind ids = ri_id_kind (hc_id_manager c)) as Hk.
    { unfold RequestIdManager.next_request_id in Eid. destruct (CurrentId.next _). by injection Eid as _ <-. }
    unfold mbind, SM_bind, HttpClient.next_request_id, HttpClient.set_guard. cbn [fst snd hc_id_manager]. rewrite Hb.
    cbn [HttpClient.lift map_err sm_result fst snd hc_id_manager]. rewrite Eid. cbn [fst snd]. unfold HttpClient.lift, sm_result, sm_get. rewrite Hrg. cbn [map_err].
    unfold HttpClient.on_service, run_future_until_timeout. cbn [fst snd hc_id_manager].
    rewrite Hk, Hcs. rewrite Hfill. done.
  - lia.
  - intros p Hpl. assert (range.1 + N.of_nat p ∈ ns)%N as Hel.
    { rewrite Hp. apply elem_of_range_ids. lia. }
    apply list_elem_of_lookup in Hel as [k Hk]. exists k. split; [done|].
    destruct (lookup_lt_is_Some_2 rs k) as [r Hr].
    { rewrite <-(Forall2_length _ _ _ Hrs), (Forall2_length _ _ _ Hn). by eapply lookup_lt_Some. }
    rewrite Hr. specialize (Hin k _ r Hk Hr). by replace (N.to_nat (range.1 + N.of_nat p - range.1)) with p in Hin by lia.
Qed.
End Batches.

(** [response_ok] of a response that is written out. *)
Ltac response_ok_concrete :=
  split; [vm_compute; repeat (split; eauto)|]; split; [vm_compute; reflexivity|];
  split; [vm_compute; discriminate|vm_compute; eauto].

(** ** Witnesses *)
Section HttpClientWitnesses.
#[local] Existing Instance ref_json.
#[local] Existing Instance ref_ext.
#[local] Existing Instance ref_conn_ext.
#[local] Existing Instance ref_guard_ext.
#[local] Existing Instance ref_handshake.
#[local] Instance client_libs : HttpLibs := {|
  limited := ref_limited;
  uri_parse := λ s, Some (MkUri (Some "http") None s None);
  router_recognize A routes host := (list_to_map routes : gmap string A) !! host
|}.

Definition ref_body (text : string) : list Frame := if decide (text = "") then [] else [FData text].
Definition no_length (h : HeaderMap) : HeaderMap := filter (λ kv, kv.1 ≠ "content-length") h.
#[local] Instance ref_hyper : Hyper := {|
  deliver := λ r, MkHttpRequest (hq_method r) (hq_uri r) (no_length (hq_headers r)) (hq_extensions r)
    (match hq_body r with [FData text] => ref_body text | b => b end);
  reply := λ r, MkHttpReply (hr_status r) [("content-type", Some (hr_content_type r))] (ref_body (hr_body r))
|}.
Lemma ref_body_carries h text : headers_get_all "content-length" h = [] → carries h (ref_body text) text.
Proof.
  intros Hh. unfold carries, ref_body, read_header_content_length, read_header_value. rewrite Hh. cbn.
  case_decide; subst; cbn; repeat constructor; [lia|done|by rewrite append_nil_r|lia].
Qed.
Lemma ref_hyper_law : hyper_law.
Proof.
  split.
  - intros req text Hb. cbn. rewrite Hb. split; [done|]. split.
    + unfold no_length. induction (hq_headers req) as [|[k v] h IH]; [done|].
      unfold headers_get_all in *. rewrite filter_cons. case_decide as Hk; rewrite !filter_cons; cbn in *.
      * case_decide; cbn; [by rewrite IH|done].
      * rewrite decide_False by (intros ->; discriminate). done.
    + apply ref_body_carries. unfold no_length, headers_get_all. induction (hq_headers req) as [|[k v] h IH]; [done|].
      rewrite filter_cons. case_decide as Hk; [|done]. by rewrite filter_cons_False.
  - intros rp. split; [done|]. by apply ref_body_carries.
Qed.

Definition ex_transport : HttpTransportClient :=
  MkHttpTransportClient "http://host.io/" HttpClient.Http 1000 1000 (HttpTransportClientBuilder.cached_headers []).
Definition ex_client : HttpClient := MkHttpClient (RequestIdManager.new KNumber) (Some (MkSemaphore 1 1)) 60.

(** A method that counts its calls. *)
Definition ex_count : Params → N → Result ErrorObject Ser * N := λ ps n,
  (match one de_int ps with Ok z => Ok (SerInt (z + 1)) | Err e => Err e end, (n + 1)%N).
Definition ex_methods : Methods N :=
  match RpcModule.register_method "inc" (user_method ex_count) Methods.new with Ok m => m | Err _ => Methods.new end.
Definition ex_cfg : ServerConfig N := ServerConfigBuilder.build (ServerConfigBuilder.new (mret (SubNum 3))).
Definition ex_conn : ServiceData N := MkServiceData ex_methods 0 ex_cfg.
Definition ex_server : Server N := init ex_cfg (ex_world, 5%N) ∅.
Definition ex_uri : Uri := MkUri (Some "http") None "http://host.io/" None.

Lemma http_call_equals_direct_witness :
  ∃ s1, RpcModule.call (λ _ w, w) (λ raw, result_ok (de_int raw)) ex_methods "inc" (Ok (Some "[41]")) 0 (ex_world, 5%N) =
      (Ok (Ok 42%Z), (s1, 6%N)) ∧
    HttpClient.request (svc := HttpRpcService.http_service (network (λ _ w, w) ex_conn) ex_transport) de_int "inc" (Ok (Some "[41]"))
      (ex_client, ex_server) =
    Some (Ok 42%Z, (MkHttpClient (snd (RequestIdManager.next_request_id (RequestIdManager.new KNumber)))
                      (Some (MkSemaphore 1 1)) 60, set_w (ex_world, 6%N) ex_server)).
Proof.
  pose proof (http_call_equals_direct (λ _ w, w) SerInt de_int ex_conn ex_transport "inc" (Some "[41]") ex_count
    (Ok (SerInt 42)) (Success 42%Z) 0 ex_client ex_server 6%N ex_uri) as H.
  cbv zeta in H. destruct (RequestIdManager.next_request_id (hc_id_manager ex_client)) as [id ids] eqn:E.
  vm_compute in E. injection E as <- <-. edestruct H as (out & s1 & H1 & H2).
  - exact ref_hyper_law.
  - exact ref_limited_law.
  - left. reflexivity.
  - vm_compute. reflexivity.
  - reflexivity.
  - split; [vm_compute; reflexivity|vm_compute; discriminate].
  - split; [vm_compute; repeat (split; eauto)|]. split; [vm_compute; discriminate|].
    intros p [= <-]. vm_compute. discriminate.
  - vm_compute. eauto.
  - vm_compute. reflexivity.
  - vm_compute. discriminate.
  - vm_compute. discriminate.
  - response_ok_concrete.
  - response_ok_concrete.
  - response_ok_concrete.
  - reflexivity.
  - vm_compute. reflexivity.
  - reflexivity.
  - vm_compute. reflexivity.
  - vm_compute. reflexivity.
  - assert (out = Ok 42%Z) as ->.
    { vm_compute in H1. by injection H1. }
    exists s1. split; [exact H1|]. rewrite H2. reflexivity.
Defined.

(** A service that answers a batch with the given responses. *)
Definition ex_answers (rps : list RawResponse) : ClientService unit := {|
  cs_call := λ _, fut_err ErrServiceDisconnect;
  cs_batch := λ _, mret rps;
  cs_notification := λ _, fut_err ErrServiceDisconnect
|}.
Definition ex_answer (n : N) (raw : string) : RawResponse := response_new (Success raw) (IdNumber n).
Definition ex_calls : BatchRequestBuilder.T := [("inc", Some "[1]"); ("inc", Some "[2]")].
Lemma http_batch_in_order_witness :
  ∃ l, HttpClient.batch_request (svc := ex_answers [ex_answer 1 "3"; ex_answer 0 "2"]) de_int ex_calls (ex_client, ()) =
      Some (Ok (BatchResponse.new 2 l 0),
            (MkHttpClient (snd (RequestIdManager.next_request_id (RequestIdManager.new KNumber)))
               (Some (MkSemaphore 1 1)) 60, ())) ∧ l !! 0 = Some (Ok 2%Z).
Proof.
  pose proof (http_batch_in_order (svc := ex_answers [ex_answer 1 "3"; ex_answer 0 "2"]) de_int ex_calls ex_client () ()
    (0, 2)%N [ex_answer 1 "3"; ex_answer 0 "2"] [1; 0]%N [Ok 3%Z; Ok 2%Z]) as H.
  destruct (RequestIdManager.next_request_id (hc_id_manager ex_client)) as [id ids] eqn:E.
  vm_compute in E. injection E as <- <-. destruct H as (l & H & _ & Hl).
  - discriminate.
  - vm_compute. reflexivity.
  - vm_compute. reflexivity.
  - reflexivity.
  - repeat constructor.
  - vm_compute. apply perm_swap.
  - constructor; [vm_compute; reflexivity|]. constructor; [vm_compute; reflexivity|constructor].
  - exists l. split; [exact H|]. destruct (Hl 0 ltac:(vm_compute; lia)) as (k & Hk & ->).
    destruct k as [|[|k]]; [vm_compute in Hk; discriminate|reflexivity|vm_compute in Hk; discriminate].
Defined.

(** Two answers to one call of a batch: the place of the other call keeps the
    placeholder, an error nobody sent and that is not counted. *)
Example duplicate_answer_leaves_placeholder :
  fst <$> HttpClient.batch_request (svc := ex_answers [ex_answer 0 "3"; ex_answer 0 "2"]) de_int ex_calls (ex_client, ()) =
    Some (Ok (BatchResponse.new 2 [Ok 2%Z; HttpClient.placeholder] 0)).
Proof. vm_compute. reflexivity. Qed.
(** Of the values of a repeated header only the first is sent. *)
Example repeated_header_dropped :
  headers_get_all "cookie" (HttpTransportClientBuilder.cached_headers [("cookie", Some "a"); ("cookie", Some "b")]) =
    [Some "a"].
Proof. vm_compute. reflexivity. Qed.
End HttpClientWitnesses.
