(* ===== verification/WsClient.v ===== *)
(** The WebSocket transport of the client: [client/transport/src/ws/mod.rs].

    Opening a connection follows redirects; the loop is [redirect_loop], over
    [try_addrs].  The sockets and the handshake ([tokio], [rustls], [soketto]) are
    parameters on a state [S] of the network. *)
From stdpp Require Import base gmap strings list.
From Stdlib Require Import Ascii.
From S2P Require Import Prelude Serde RefJson Errors Params Wire ParamsBuilder Middleware ClientCore ClientService MethodResponse Subscription RpcModule RpcService Http WsServer Server HttpClient.

(** ** Targets *)
Inductive Mode : Type := Plain | Tls.
#[export] Instance Mode_eq_dec : EqDecision Mode.
Proof. solve_decision. Defined.

(** Errors of the crates behind are their texts. *)
Inductive WsHandshakeError : Type :=
| HsCertificateStore (e : string)
| HsUrl (e : string)
| HsIo (e : string)
| HsTransport (e : string)
| HsRejected (status_code : N)
| HsRedirected (status_code : N) (location : string)
| HsTimeout (d : N)
| HsResolutionFailed (e : string)
| HsNoAddressFound (host : string).

Record Target : Type := MkTarget {
  tg_host : string;
  tg_host_header : string;
  tg_mode : Mode;
  tg_path_and_query : string;
  tg_basic_auth : option string
}.

(** Name resolution, and the kind of parse error that is told apart. *)
Class NetLib {L : UrlLib} := {
  SocketAddr : Type;
  socket_addrs : Url → Result string (list SocketAddr);
  (** [ParseError::RelativeUrlWithoutBase]. *)
  is_relative : string → bool
}.

Definition target_try_from {L : UrlLib} (url : Url) : Result WsHandshakeError Target :=
  mode ← (if decide (url_scheme url = "ws") then Ok Plain
          else if decide (url_scheme url = "wss") then Ok Tls
          else Err (HsUrl ("`" +:+ url_scheme url +:+ "` not supported, expects 'ws' or 'wss'")));
  host ← ok_or (url_host_str url) (HsUrl "Invalid host");
  let path_and_query :=
    match url_query url with Some query => url_path url +:+ "?" +:+ query | None => url_path url end in
  basic_auth ←
    match url_password url with
    | Some pwd =>
      let val := "Basic " +:+ base64_encode (url_username url +:+ ":" +:+ pwd) in
      if header_value_ok val then Ok (Some val)
      else Err (HsUrl "Header value `authorization basic user:pwd` invalid")
    | None => Ok None
    end;
  let host_header := match url_port url with Some port => host +:+ ":" +:+ to_dec port | None => host end in
  Ok (MkTarget host host_header mode path_and_query basic_auth).

(** ** The builder *)
Record WsTransportClientBuilder : Type := MkWsTransportClientBuilder {
  wb_connection_timeout : N;
  wb_headers : HeaderMap;
  wb_max_request_size : N;
  wb_max_response_size : N;
  wb_max_redirections : nat;
  wb_tcp_no_delay : bool;
  wb_message_encryption : option MessageEncryption
}.
Module WsTransportClientBuilder.
Notation B := WsTransportClientBuilder.
Definition default : B := MkWsTransportClientBuilder 10 [] TEN_MB_SIZE_BYTES TEN_MB_SIZE_BYTES 5 true None.
Definition max_request_size (size : N) (b : B) : B :=
  MkWsTransportClientBuilder (wb_connection_timeout b) (wb_headers b) size (wb_max_response_size b)
    (wb_max_redirections b) (wb_tcp_no_delay b) (wb_message_encryption b).
Definition max_response_size (size : N) (b : B) : B :=
  MkWsTransportClientBuilder (wb_connection_timeout b) (wb_headers b) (wb_max_request_size b) size
    (wb_max_redirections b) (wb_tcp_no_delay b) (wb_message_encryption b).
Definition connection_timeout (timeout : N) (b : B) : B :=
  MkWsTransportClientBuilder timeout (wb_headers b) (wb_max_request_size b) (wb_max_response_size b)
    (wb_max_redirections b) (wb_tcp_no_delay b) (wb_message_encryption b).
Definition set_headers (headers : HeaderMap) (b : B) : B :=
  MkWsTransportClientBuilder (wb_connection_timeout b) headers (wb_max_request_size b) (wb_max_response_size b)
    (wb_max_redirections b) (wb_tcp_no_delay b) (wb_message_encryption b).
Definition max_redirections (redirect : nat) (b : B) : B :=
  MkWsTransportClientBuilder (wb_connection_timeout b) (wb_headers b) (wb_max_request_size b)
    (wb_max_response_size b) redirect (wb_tcp_no_delay b) (wb_message_encryption b).
Definition set_message_encryption (encryption : MessageEncryption) (b : B) : B :=
  MkWsTransportClientBuilder (wb_connection_timeout b) (wb_headers b) (wb_max_request_size b)
    (wb_max_response_size b) (wb_max_redirections b) (wb_tcp_no_delay b) (Some encryption).
End WsTransportClientBuilder.

(** ** A connection *)
(** [soketto::connection::Error] is its text. *)
Inductive WsError : Type :=
| WeConnection (e : string)
| WeMessageTooLarge
| WeClosed (reason : string).
Record Sender : Type := MkSender { wse_max_request_size : N; wse_message_encryption : option MessageEncryption }.
Record Receiver : Type := MkReceiver { wre_message_encryption : option MessageEncryption }.
Inductive ReceivedMessage : Type := RmText (s : string) | RmBytes (b : string) | RmPong.
(** What [soketto] delivers. *)
Inductive WsIncoming : Type := WiText (data : string) | WiBinary (data : string) | WiPong | WiClosed (reason : string).

(** [send]: the texts handed to the socket, whose outcome is [socket]. *)
Definition ws_send (socket : string → Result string unit) (s : Sender) (body : string)
    : list string * Result WsError unit :=
  let encrypted :=
    match wse_message_encryption s with
    | Some encryption => map_err (λ _, WeMessageTooLarge) (encrypt encryption body)
    | None => Ok body
    end in
  match encrypted with
  | Err e => ([], Err e)
  | Ok body =>
    if decide (wse_max_request_size s < slen body)%N then ([], Err WeMessageTooLarge)
    else ([body], map_err WeConnection (socket body))
  end.
Definition ws_receive (r : Receiver) (incoming : Result string WsIncoming) : Result WsError ReceivedMessage :=
  i ← map_err WeConnection incoming;
  match i with
  | WiText message =>
    if utf8_valid message then
      match wre_message_encryption r with
      | Some encryption =>
        s ← map_err (λ _, WeConnection "Decryption failed") (decrypt encryption message); Ok (RmText s)
      | None => Ok (RmText message)
      end
    else Err (WeConnection "UTF-8 opcode and payload error")
  | WiBinary message => Ok (RmBytes message)
  | WiPong => Ok RmPong
  | WiClosed c => Err (WeClosed c)
  end.

(** ** Opening a connection *)
Inductive ServerResponse : Type :=
| SrAccepted
| SrRejected (status_code : N)
| SrRedirect (status_code : N) (location : string).

(** [rfind('/')] and [replace_range]: what comes after the last slash is replaced. *)
Fixpoint upto_last_slash (s : string) : option string :=
  match s with
  | EmptyString => None
  | String c s' =>
    match upto_last_slash s' with
    | Some p => Some (String c p)
    | None => if decide (c = "/"%char) then Some "/" else None
    end
  end.
Definition starts_with_slash (s : string) : bool := match s with String "/" _ => true | _ => false end.
(** The path a relative location leads to. *)
Definition resolve (path_and_query location : string) : option string :=
  if starts_with_slash location then Some location
  else (λ p, p +:+ location) <$> upto_last_slash path_and_query.
Definition set_path (p : string) (t : Target) : Target :=
  MkTarget (tg_host t) (tg_host_header t) (tg_mode t) p (tg_basic_auth t).

Section Connect.
Context {L : UrlLib} {N : NetLib} {S : Type} (b : WsTransportClientBuilder).
(** [connect]: a socket to an address within the time, with TLS for a host or
    not.  [handshake] with a host header, a path and headers over it. *)
Context (connect : SocketAddr → option string → S → Result WsHandshakeError unit * S).
Context (handshake : string → string → HeaderMap → S → Result string ServerResponse * S).
(** [build_tls_config], and the choice to use it. *)
Context (build_tls_config : Result WsHandshakeError unit).

Definition handshake_headers (target : Target) : HeaderMap :=
  match tg_basic_auth target with
  | Some basic_auth =>
    if decide ("authorization" ∈ (wb_headers b).*1) then wb_headers b
    else wb_headers b ++ [("authorization", Some basic_auth)]
  | None => wb_headers b
  end.
Definition try_connect (target : Target) (s : S) : Result WsHandshakeError (Sender * Receiver) * S :=
  let '(r, s) := handshake (tg_host_header target) (tg_path_and_query target) (handshake_headers target) s in
  (match r with
   | Ok SrAccepted =>
     Ok (MkSender (wb_max_request_size b) (wb_message_encryption b), MkReceiver (wb_message_encryption b))
   | Ok (SrRejected status_code) => Err (HsRejected status_code)
   | Ok (SrRedirect status_code location) => Err (HsRedirected status_code location)
   | Err e => Err (HsTransport e)
   end, s).

Definition tls_connector (target : Target) : Result WsHandshakeError bool :=
  match tg_mode target with Tls => _ ← build_tls_config; Ok true | Plain => Ok false end.

(** The variables of the loops. *)
Record Loop : Type := MkLoop {
  lp_target : Target;
  lp_connector : bool;
  lp_err : option WsHandshakeError;
  lp_sockaddrs : list SocketAddr
}.
Definition set_err (e : WsHandshakeError) (l : Loop) : Loop :=
  MkLoop (lp_target l) (lp_connector l) (Some e) (lp_sockaddrs l).
(** What the inner loop ends with: the function returns, or the loop goes on. *)
Inductive AddrsEnd : Type :=
| AeReturn (r : Result WsHandshakeError (Sender * Receiver))
| AeNext (l : Loop).

(** An absolute location. *)
Definition absolute (uri : Url) (l : Loop) : Result WsHandshakeError Loop :=
  addrs ← map_err HsIo (socket_addrs uri);
  target ← target_try_from uri;
  connector ← match tg_mode target with
              | Tls => if lp_connector l then Ok true else _ ← build_tls_config; Ok true
              | Plain => Ok false
              end;
  Ok (MkLoop target connector (lp_err l) addrs).
Definition no_slash (location : string) : WsHandshakeError :=
  HsUrl ("path_and_query: " +:+ location +:+ "; this is a bug it must contain `/` please open issue").

(** The loop over the addresses: [all] are those of the round, [addrs] what is
    left of them. *)
Fixpoint try_addrs (all addrs : list SocketAddr) (l : Loop) (s : S) : AddrsEnd * S :=
  match addrs with
  | [] => (AeNext l, s)
  | sockaddr :: addrs =>
    match connect sockaddr (if lp_connector l then Some (tg_host (lp_target l)) else None) s with
    | (Err e, s) => try_addrs all addrs (set_err e l) s
    | (Ok _, s) =>
      match try_connect (lp_target l) s with
      | (Ok result, s) => (AeReturn (Ok result), s)
      | (Err (HsRedirected status_code location), s) =>
        match url_parse location with
        | Ok uri =>
          match absolute uri l with
          | Ok l => try_addrs all addrs l s
          | Err e => (AeReturn (Err e), s)
          end
        | Err e =>
          if is_relative e then
            match resolve (tg_path_and_query (lp_target l)) location with
            | Some p => (AeNext (MkLoop (set_path p (lp_target l)) (lp_connector l) (lp_err l) all), s)
            | None => try_addrs all addrs (set_err (no_slash location) l) s
            end
          else try_addrs all addrs (set_err (HsUrl e) l) s
        end
      | (Err e, s) => try_addrs all addrs (set_err e l) s
      end
    end
  end.
Fixpoint redirect_loop (rounds : nat) (l : Loop) (s : S) : Result WsHandshakeError (Sender * Receiver) * S :=
  match rounds with
  | O => (Err (default (HsNoAddressFound (tg_host (lp_target l))) (lp_err l)), s)
  | Datatypes.S rounds =>
    match try_addrs (lp_sockaddrs l) (lp_sockaddrs l)
            (MkLoop (lp_target l) (lp_connector l) (lp_err l) []) s with
    | (AeReturn r, s) => (r, s)
    | (AeNext l, s) => redirect_loop rounds l s
    end
  end.
Definition try_connect_over_tcp (uri : Url) (s : S) : Result WsHandshakeError (Sender * Receiver) * S :=
  match
    (target ← target_try_from uri;
     connector ← tls_connector target;
     target_sockaddrs ← map_err HsResolutionFailed (socket_addrs uri);
     Ok (MkLoop target connector None target_sockaddrs))
  with
  | Ok l => redirect_loop (wb_max_redirections b) l s
  | Err e => (Err e, s)
  end.
Definition build := try_connect_over_tcp.
Definition build_with_stream (uri : Url) (s : S) : Result WsHandshakeError (Sender * Receiver) * S :=
  match target_try_from uri with
  | Ok target => try_connect target s
  | Err e => (Err e, s)
  end.
End Connect.

(** ** Redirects *)
Section Redirects.
Context {L : UrlLib} {N : NetLib} {S : Type} (b : WsTransportClientBuilder) (build_tls_config : Result WsHandshakeError unit).
Context (connect : SocketAddr → option string → S → Result WsHandshakeError unit * S).
Context (handshake : string → string → HeaderMap → S → Result string ServerResponse * S).

Context (bound : nat) (Hbound : ∀ uri addrs, socket_addrs uri = Ok addrs → length addrs <= bound).

Lemma absolute_bounded uri l l' : absolute build_tls_config uri l = Ok l' → length (lp_sockaddrs l') <= bound.
Proof.
  unfold absolute. destruct (socket_addrs uri) as [addrs|] eqn:E; [|done]. cbn.
  destruct (target_try_from uri) as [t|]; [|done]. cbn.
  destruct (match tg_mode t with Plain => _ | Tls => _ end); [|done]. cbn. intros [= <-]. cbn. by eapply Hbound.
Qed.

(** What an address costs at most: a measure of the network's state that a socket
    and a handshake raise by no more than [k] together. *)
Context (m : S → BinNums.N) (k_connect k_handshake : BinNums.N).
Context (Hconnect : ∀ a host s, (m (connect a host s).2 <= m s + k_connect)%N).
Context (Hhandshake : ∀ host path h s, (m (handshake host path h s).2 <= m s + k_handshake)%N).
Notation k := (k_connect + k_handshake)%N.

Lemma try_connect_measured target s : (m (try_connect b handshake target s).2 <= m s + k_handshake)%N.
Proof.
  unfold try_connect. pose proof (Hhandshake (tg_host_header target) (tg_path_and_query target) (handshake_headers b target) s).
  by destruct (handshake _ _ _ s).
Qed.
Lemma try_addrs_measured all addrs l s : length all <= bound → length (lp_sockaddrs l) <= bound →
  let '(e, s') := try_addrs b connect handshake build_tls_config all addrs l s in
  (m s' <= m s + N.of_nat (length addrs) * k)%N ∧
  match e with AeNext l' => length (lp_sockaddrs l') <= bound | AeReturn _ => True end.
Proof.
  intros Ha. revert l s. induction addrs as [|a addrs IH]; intros l s Hl; cbn [try_addrs length].
  { cbn. lia. }
  rewrite Nat2N.inj_succ, N.mul_succ_l.
  pose proof (Hconnect a (if lp_connector l then Some (tg_host (lp_target l)) else None) s) as H1.
  destruct (connect a _ s) as [[[]|e] s1]; cbn in H1.
  2: { specialize (IH (set_err e l) s1 Hl). destruct (try_addrs _ _ _ _ _ _ _ _) as [x s']. cbn in *. split; [lia|apply IH]. }
  pose proof (try_connect_measured (lp_target l) s1) as H2.
  destruct (try_connect b handshake (lp_target l) s1) as [r s2]. cbn in H2.
  assert (∀ l1, length (lp_sockaddrs l1) <= bound →
    let '(e, s') := try_addrs b connect handshake build_tls_config all addrs l1 s2 in
    (m s' <= m s + (N.of_nat (length addrs) * k + k))%N ∧
    match e with AeNext l' => length (lp_sockaddrs l') <= bound | AeReturn _ => True end) as Hgo.
  { intros l1 Hl1. specialize (IH l1 s2 Hl1). destruct (try_addrs _ _ _ _ _ _ _ _) as [x s']. split; [lia|apply IH]. }
  destruct r as [res|[| | | | |st loc| | | ]]; try (by apply (Hgo (set_err _ l))); [cbn; lia|].
  destruct (url_parse loc) as [uri|e].
  - destruct (absolute build_tls_config uri l) as [l1|] eqn:El; [|cbn; lia].
    apply Hgo. by eapply absolute_bounded.
  - destruct (is_relative e); [|by apply (Hgo (set_err _ l))].
    destruct (resolve _ loc); [cbn; lia|by apply (Hgo (set_err _ l))].
Qed.
Lemma redirect_loop_measured rounds l s : length (lp_sockaddrs l) <= bound →
  (m (redirect_loop b connect handshake build_tls_config rounds l s).2 <= m s + N.of_nat (rounds * bound) * k)%N.
Proof.
  revert l s. induction rounds as [|rounds IH]; intros l s Hl; cbn [redirect_loop]; [cbn; lia|].
  pose proof (try_addrs_measured (lp_sockaddrs l) (lp_sockaddrs l)
    (MkLoop (lp_target l) (lp_connector l) (lp_err l) []) s Hl ltac:(cbn; lia)) as H.
  assert (N.of_nat (Datatypes.S rounds * bound) * k = N.of_nat (rounds * bound) * k + N.of_nat bound * k)%N as -> by lia.
  assert (N.of_nat (length (lp_sockaddrs l)) * k <= N.of_nat bound * k)%N by (apply N.mul_le_mono_r; lia).
  destruct (try_addrs _ _ _ _ _ _ _ _) as [[r|l'] s']; cbn in *; [lia|].
  destruct H as [H1 H2]. specialize (IH l' s' H2). lia.
Qed.
Lemma connect_measured uri s :
  (m (try_connect_over_tcp b connect handshake build_tls_config uri s).2 <= m s + N.of_nat (wb_max_redirections b * bound) * k)%N.
Proof.
  unfold try_connect_over_tcp. destruct (target_try_from uri) as [t|]; cbn; [|lia]. destruct (tls_connector build_tls_config t); cbn; [|lia].
  destruct (socket_addrs uri) as [addrs|] eqn:E; cbn; [|lia]. apply redirect_loop_measured. by eapply Hbound.
Qed.
End Redirects.

(** The network, with a counter of the sockets that were asked for. *)
Section Counted.
Context {N : Type} {S : Type}.
Context (connect : N → option string → S → Result WsHandshakeError unit * S).
Context (handshake : string → string → HeaderMap → S → Result string ServerResponse * S).
Definition counted (a : N) (host : option string) (s : S * nat) : Result WsHandshakeError unit * (S * nat) :=
  let '(r, s') := connect a host s.1 in (r, (s', s.2 + 1)).
Definition uncounted (host path : string) (h : HeaderMap) (s : S * nat) : Result string ServerResponse * (S * nat) :=
  let '(r, s') := handshake host path h s.1 in (r, (s', s.2)).
End Counted.

(** A site that answers by the path alone: where it redirects to, if it does. *)
Fixpoint follow (site : string → option string) (rounds : nat) (path : string) : option string :=
  match rounds with
  | O => None
  | Datatypes.S rounds =>
    match site path with
    | None => Some path
    | Some location => p ← resolve path location; follow site rounds p
    end
  end.

Section Follow.
Context {L : UrlLib} {N : NetLib} {S : Type} (b : WsTransportClientBuilder) (build_tls_config : Result WsHandshakeError unit).
Context (site : string → option string).

Definition site_connect (a : SocketAddr) (host : option string) (s : S) : Result WsHandshakeError unit * S := (Ok (), s).
Definition site_handshake (host path : string) (h : HeaderMap) (s : S) : Result string ServerResponse * S :=
  (Ok (match site path with None => SrAccepted | Some location => SrRedirect 301 location end), s).
Definition site_relative : Prop := ∀ path location, site path = Some location →
  (∃ e, url_parse location = Err e ∧ is_relative e = true) ∧ is_Some (resolve path location).

Lemma redirect_loop_site rounds l s : site_relative → lp_sockaddrs l ≠ [] → lp_err l = None →
  redirect_loop b site_connect site_handshake build_tls_config rounds l s =
    (match follow site rounds (tg_path_and_query (lp_target l)) with
     | Some _ => Ok (MkSender (wb_max_request_size b) (wb_message_encryption b), MkReceiver (wb_message_encryption b))
     | None => Err (HsNoAddressFound (tg_host (lp_target l)))
     end, s).
Proof.
  intros Hs. revert l. induction rounds as [|rounds IH]; intros l Ha He; cbn [redirect_loop follow]; [by rewrite He|].
  destruct (lp_sockaddrs l) as [|a addrs] eqn:El; [done|]. cbn [try_addrs site_connect lp_target].
  unfold try_connect at 1, site_handshake at 1. cbn iota beta zeta.
  destruct (site (tg_path_and_query (lp_target l))) as [loc|] eqn:Eloc; [|done].
  destruct (Hs _ _ Eloc) as [(e & Ep & Er) [p Hp]]. rewrite Ep, Er, Hp.
  rewrite IH; [done|done|done].
Qed.
End Follow.

(** C37: opening a connection ends, whatever the network and the servers do, for
    instance when they redirect for ever: no more sockets are asked for than there
    are rounds times addresses of a name.  And redirects are followed: at a site
    that answers by the path, the connection is open exactly when the path that
    accepts is reached within the rounds; otherwise the error says that no address
    was found. *)
Theorem redirects_bounded_and_followed {L : UrlLib} {N : NetLib} {S : Type} (b : WsTransportClientBuilder)
    (tls : Result WsHandshakeError unit)
    (connect : SocketAddr → option string → S → Result WsHandshakeError unit * S)
    (handshake : string → string → HeaderMap → S → Result string ServerResponse * S)
    (site : string → option string) (bound : nat) (uri : Url) (s : S) :
  (∀ uri addrs, socket_addrs uri = Ok addrs → length addrs <= bound) →
  (try_connect_over_tcp b (counted connect) (uncounted handshake) tls uri (s, 0)).2.2 <= wb_max_redirections b * bound ∧
  (∀ target a addrs, target_try_from uri = Ok target → tg_mode target = Plain → socket_addrs uri = Ok (a :: addrs) →
   site_relative site →
   try_connect_over_tcp b site_connect (site_handshake site) tls uri s =
     (match follow site (wb_max_redirections b) (tg_path_and_query target) with
      | Some _ => Ok (MkSender (wb_max_request_size b) (wb_message_encryption b), MkReceiver (wb_message_encryption b))
      | None => Err (HsNoAddressFound (tg_host target))
      end, s)).
Proof.
  intros Hb. unfold try_connect_over_tcp. split.
  - pose proof (connect_measured b tls (counted connect) (uncounted handshake) bound Hb (λ s, N.of_nat s.2) 1 0) as H.
    specialize (H ltac:(intros a host [s1 n]; unfold counted; cbn; destruct (connect _ _ _); cbn; lia)
      ltac:(intros host path h [s1 n]; unfold uncounted; cbn; destruct (handshake _ _ _ _); cbn; lia) uri (s, 0)).
    unfold try_connect_over_tcp in H. cbn [snd] in H. lia.
  - intros target a addrs Ht Hm Ha Hs. rewrite Ht. cbn [mbind result_bind].
    unfold tls_connector. rewrite Hm. cbn [mbind result_bind]. rewrite Ha. cbn [mbind result_bind map_err].
    by rewrite redirect_loop_site.
Qed.

(** ** Witnesses *)
Section WsClientWitnesses.
#[local] Instance ex_url : UrlLib := {|
  Url := string;
  url_parse := λ s, if starts_with_slash s then Err "relative" else Ok s;
  url_scheme := λ _, "ws";
  url_host_str := λ u, Some u;
  url_port := λ _, None;
  url_username := λ _, "";
  url_password := λ _, None;
  url_path := λ _, "/";
  url_query := λ _, None;
  url_no_fragment := id; url_no_password := id; url_no_username := id; url_as_str := id;
  base64_encode := id;
  header_value_ok := λ _, true
|}.
#[local] Instance ex_net : NetLib := {|
  SocketAddr := string;
  socket_addrs := λ u, Ok [u +:+ ":80"; u +:+ ":81"];
  is_relative := λ e, bool_decide (e = "relative")
|}.
Definition ex_site (path : string) : option string :=
  if decide (path = "/") then Some "/a" else if decide (path = "/a") then Some "/b" else None.
Definition ex_builder (n : nat) : WsTransportClientBuilder :=
  WsTransportClientBuilder.max_redirections n WsTransportClientBuilder.default.
Definition opened (n : nat) : bool :=
  is_ok (try_connect_over_tcp (S := unit) (ex_builder n) site_connect (site_handshake ex_site) (Ok ()) "host" ()).1.

Lemma redirects_bounded_and_followed_witness : opened 3 = true.
Proof.
  destruct (redirects_bounded_and_followed (L := ex_url) (N := ex_net) (S := unit) (ex_builder 3) (Ok ()) site_connect (site_handshake ex_site)
    ex_site 2 "host" ()) as [_ H].
  - intros uri addrs [= <-]. cbn. lia.
  - unfold opened.
    rewrite (H (MkTarget "host" "host" Plain "/" None) "host:80" ["host:81"]); [reflexivity..|].
    intros path loc. unfold ex_site. repeat case_decide; intros [= <-]; (split; [by eexists|by eexists]).
Defined.

(** Two redirects need three rounds: the limit counts the connections, not the
    redirects, and with a limit of zero no connection is tried at all. *)
Example limit_counts_connections : opened 2 = false.
Proof. vm_compute. reflexivity. Qed.
Example no_redirections_no_connection :
  (try_connect_over_tcp (S := unit) (ex_builder 0) site_connect (site_handshake (λ _, None)) (Ok ()) "host" ()).1 =
    Err (HsNoAddressFound "host").
Proof. vm_compute. reflexivity. Qed.
(** After a redirect to another host the addresses left of the first one are
    tried, with the host header of the other. *)
Example redirect_then_old_address :
  (try_connect_over_tcp (S := list string) (ex_builder 5)
    (λ a h s, (Ok (), s ++ [a]))
    (λ host path h s, (if decide (host = "host") then Ok (SrRedirect 301 "other") else Ok (SrRejected 404), s ++ [host]))
    (Ok ()) "host" []).2 =
    ["host:80"; "host"; "host:81"; "other"; "other:80"; "other"; "other:81"; "other"].
Proof. vm_compute. reflexivity. Qed.
End WsClientWitnesses.
