(* ===== verification/WsSocket.v ===== *)
(** The sockets of the WebSocket client: [connect], [build_tls_config], the pings and
    the close of [Sender] in [client/transport/src/ws/mod.rs], and the stream over
    plain TCP or TLS of [stream.rs].

    TCP and TLS themselves ([tokio], [rustls]) are parameters, with the time each
    attempt takes; [WsClient.v] has the loop that calls [connect]. *)
From stdpp Require Import base gmap strings list.
From Stdlib Require Import Ascii.
From S2P Require Import Prelude Serde RefJson Errors Params Wire ParamsBuilder Middleware ClientCore ClientService MethodResponse Subscription RpcModule RpcService Http WsServer Server HttpClient WsClient.

(** ** A stream that is either plain or encrypted *)
(** [AsyncRead] and [AsyncWrite]: [poll_read] gets the room that is left in the
    buffer and gives the bytes it put there. *)
Class AsyncStream (A : Type) := {
  poll_read : nat → A → Poll (Result string string) * A;
  poll_write : string → A → Poll (Result string nat) * A;
  poll_flush : A → Poll (Result string unit) * A;
  poll_shutdown : A → Poll (Result string unit) * A
}.
Inductive EitherStream (P T : Type) : Type := EsPlain (stream : P) | EsTls (stream : T).
Arguments EsPlain {P T} _. Arguments EsTls {P T} _.

Section Either.
Context {P T : Type} {SP : AsyncStream P} {ST : AsyncStream T}.
(** Each of the four operations is that of the stream inside. *)
Definition either {R} (on_plain : P → R * P) (on_tls : T → R * T) (s : EitherStream P T) : R * EitherStream P T :=
  match s with
  | EsPlain stream => let '(r, stream) := on_plain stream in (r, EsPlain stream)
  | EsTls stream => let '(r, stream) := on_tls stream in (r, EsTls stream)
  end.
#[export] Instance either_stream : AsyncStream (EitherStream P T) := {|
  poll_read room := either (poll_read room) (poll_read room);
  poll_write buf := either (poll_write buf) (poll_write buf);
  poll_flush := either poll_flush poll_flush;
  poll_shutdown := either poll_shutdown poll_shutdown
|}.
End Either.

(** *** What a user of a stream sees *)
Inductive StreamOp : Type := OpRead (room : nat) | OpWrite (buf : string) | OpFlush | OpShutdown.
Inductive StreamOut : Type :=
| OutRead (r : Poll (Result string string)) | OutWrite (r : Poll (Result string nat)) | OutUnit (r : Poll (Result string unit)).
Definition stream_op {A} `{AsyncStream A} (op : StreamOp) (s : A) : StreamOut * A :=
  match op with
  | OpRead room => let '(r, s) := poll_read room s in (OutRead r, s)
  | OpWrite buf => let '(r, s) := poll_write buf s in (OutWrite r, s)
  | OpFlush => let '(r, s) := poll_flush s in (OutUnit r, s)
  | OpShutdown => let '(r, s) := poll_shutdown s in (OutUnit r, s)
  end.
Fixpoint stream_run {A} `{AsyncStream A} (ops : list StreamOp) (s : A) : list StreamOut * A :=
  match ops with
  | [] => ([], s)
  | op :: ops => let '(o, s) := stream_op op s in let '(os, s) := stream_run ops s in (o :: os, s)
  end.
(** The two kinds cannot be told apart by what is read and written: any use of the
    wrapper is the same use of the stream inside, and the kind stays. *)
Theorem either_transparent {P T} `{AsyncStream P, AsyncStream T} (ops : list StreamOp) (p : P) (t : T) :
  stream_run ops (EsPlain (T := T) p) = (let '(o, p') := stream_run ops p in (o, EsPlain p')) ∧
  stream_run ops (EsTls (P := P) t) = (let '(o, t') := stream_run ops t in (o, EsTls t')).
Proof.
  split; revert p t; induction ops as [|op ops IH]; intros p t; [done| |done|]; cbn [stream_run].
  - assert (stream_op op (EsPlain (T := T) p) = (let '(o, p') := stream_op op p in (o, EsPlain p'))) as ->.
    { destruct op; cbn; unfold either; [by destruct (poll_read _ p)|by destruct (poll_write _ p)|by destruct (poll_flush p)|by destruct (poll_shutdown p)]. }
    destruct (stream_op op p) as [o p']. rewrite (IH p' t). by destruct (stream_run ops p').
  - assert (stream_op op (EsTls (P := P) t) = (let '(o, t') := stream_op op t in (o, EsTls t'))) as ->.
    { destruct op; cbn; unfold either; [by destruct (poll_read _ t)|by destruct (poll_write _ t)|by destruct (poll_flush t)|by destruct (poll_shutdown t)]. }
    destruct (stream_op op t) as [o t']. rewrite (IH p t'). by destruct (stream_run ops t').
Qed.

(** ** Connecting *)
(** [rustls]: a configuration, and the one of the platform when the feature
    [tls-rustls-platform-verifier] is enabled. *)
Class TlsLib := {
  TlsConfig : Type;
  with_platform_verifier : option TlsConfig
}.
Inductive CertificateStore `{TlsLib} : Type := CsNative | CsCustom (cfg : TlsConfig).
Definition build_tls_config `{TlsLib} (cert_store : CertificateStore) : Result WsHandshakeError TlsConfig :=
  match cert_store with
  | CsNative =>
    match with_platform_verifier with
    | Some config => Ok config
    | None => Err (HsCertificateStore "Native certificate store not supported, either call `Builder::with_custom_cert_store` or enable the `tls-rustls-platform-verifier` feature.")
    end
  | CsCustom cfg => Ok cfg
  end.

Section Connect.
Context {L : UrlLib} {N : NetLib} {TL : TlsLib} {S P T : Type}.
(** A TCP connection and a TLS handshake: how long the attempt takes, and how it
    ends.  A name a certificate can be checked for. *)
Context (tcp : SocketAddr → S → BinNums.N * Result string P * S).
Context (set_nodelay : bool → P → Result string unit * P).
Context {ServerName : Type} (server_name : string → Result string ServerName).
Context (tls : TlsConfig → ServerName → P → S → BinNums.N * Result string T * S).

(** With the feature [tls].  The timer is only armed for the TCP connection: the
    handler of the branch runs after the [select].  When both are ready at the same
    time either may be taken; here it is the socket. *)
Definition connect (sockaddr : SocketAddr) (timeout_dur : BinNums.N) (host : string) (tls_connector : option TlsConfig)
    (tcp_no_delay : bool) (s : S) : BinNums.N * Result WsHandshakeError (EitherStream P T) * S :=
  let '(time, socket, s) := tcp sockaddr s in
  if decide (time <= timeout_dur)%N then
    match socket with
    | Err e => (time, Err (HsIo e), s)
    | Ok socket =>
      let '(_, socket) := set_nodelay tcp_no_delay socket in
      match tls_connector with
      | None => (time, Ok (EsPlain socket), s)
      | Some connector =>
        match server_name host with
        | Err e => (time, Err (HsUrl ("Invalid host: " +:+ host +:+ " " +:+ e)), s)
        | Ok server_name =>
          let '(tls_time, tls_stream, s) := tls connector server_name socket s in
          ((time + tls_time)%N, map_err HsIo (EsTls <$> tls_stream), s)
        end
      end
    end
  else (timeout_dur, Err (HsTimeout timeout_dur), s).
(** Without it. *)
Definition connect_no_tls (sockaddr : SocketAddr) (timeout_dur : BinNums.N) (s : S)
    : BinNums.N * Result WsHandshakeError (EitherStream P Empty_set) * S :=
  let '(time, socket, s) := tcp sockaddr s in
  if decide (time <= timeout_dur)%N then
    match socket with
    | Err e => (time, Err (HsIo e), s)
    | Ok socket => let '(_, socket) := set_nodelay true socket in (time, Ok (EsPlain socket), s)
    end
  else (timeout_dur, Err (HsTimeout timeout_dur), s).

(** The builder over such sockets, with a clock.  A host comes with a configuration:
    the loop asks for TLS only when [build_tls_config] has given one. *)
Context (b : WsTransportClientBuilder) (cert_store : CertificateStore).
Definition connect_timed (sockaddr : SocketAddr) (tls_host : option string) (s : S * BinNums.N)
    : Result WsHandshakeError unit * (S * BinNums.N) :=
  let connector := match tls_host with Some _ => result_ok (build_tls_config cert_store) | None => None end in
  let '(time, r, s') := connect sockaddr (wb_connection_timeout b) (default "" tls_host) connector (wb_tcp_no_delay b) s.1 in
  ((λ _, ()) <$> r, (s', (s.2 + time)%N)).
Context (handshake : string → string → HeaderMap → S → BinNums.N * Result string ServerResponse * S).
Definition handshake_timed (host path : string) (headers : HeaderMap) (s : S * BinNums.N)
    : Result string ServerResponse * (S * BinNums.N) :=
  let '(time, r, s') := handshake host path headers s.1 in (r, (s', (s.2 + time)%N)).
Definition build_timed (uri : Url) (s : S) : Result WsHandshakeError (Sender * Receiver) * (S * BinNums.N) :=
  build b connect_timed handshake_timed ((λ _, ()) <$> build_tls_config cert_store) uri (s, 0%N).

(** What the timeout bounds: without TLS an attempt ends in time, with the error of
    the timeout exactly when TCP was late; with TLS the handshake comes on top. *)
Lemma connect_outcomes sockaddr timeout_dur host connector no_delay s :
  let '(tcp_time, socket, s1) := tcp sockaddr s in
  let '(time, r, s2) := connect sockaddr timeout_dur host connector no_delay s in
  (r = Err (HsTimeout timeout_dur) ↔ (timeout_dur < tcp_time)%N) ∧
  (connector = None → (time <= timeout_dur)%N) ∧
  (time <= timeout_dur + match connector, server_name host, socket with
     | Some c, Ok name, Ok p => (tls c name (set_nodelay no_delay p).2 s1).1.1 | _, _, _ => 0 end)%N ∧
  (∀ p, r = Ok (EsPlain p) → connector = None) ∧ (∀ t, r = Ok (EsTls t) → is_Some connector).
Proof.
  unfold connect. destruct (tcp sockaddr s) as [[tcp_time socket] s1]. case_decide as Ht.
  2: { split; [by split; [lia|]|]. split; [done|]. split; [lia|]. by split. }
  destruct socket as [p|e]; [|split; [split; [done|lia]|]; split; [done|]; split; [lia|]; by split].
  destruct (set_nodelay no_delay p) as [o p'] eqn:En. cbn [snd].
  destruct connector as [c|]; [|split; [split; [done|lia]|]; split; [done|]; split; [lia|]; by split].
  destruct (server_name host) as [name|e]; [|split; [split; [done|lia]|]; split; [done|]; split; [lia|]; split; [done|by eexists]].
  cbn [snd]. destruct (tls c name p' s1) as [[tls_time [t|e]] s2]; cbn;
    (split; [split; [done|lia]|]; split; [done|]; split; [lia|]; split; [done|by eexists]).
Qed.

(** How long opening a connection takes at most: the builder bounds the TCP
    connections, by rounds, addresses and its timeout; the TLS and the WebSocket
    handshakes take what the peer makes them take. *)
Theorem connecting_time (bound : nat) (tls_max handshake_max : BinNums.N) uri s :
  (∀ uri addrs, socket_addrs uri = Ok addrs → length addrs <= bound) →
  (∀ c name p s, (tls c name p s).1.1 <= tls_max)%N →
  (∀ host path h s, (handshake host path h s).1.1 <= handshake_max)%N →
  ((build_timed uri s).2.2 <=
    N.of_nat (wb_max_redirections b * bound) * (wb_connection_timeout b + tls_max + handshake_max))%N.
Proof.
  intros Hb Ht Hh. unfold build_timed, build.
  pose proof (connect_measured b ((λ _, ()) <$> build_tls_config cert_store) connect_timed handshake_timed bound Hb snd
    (wb_connection_timeout b + tls_max) handshake_max) as H.
  specialize (H ltac:(intros a host [s1 n]; unfold connect_timed;
    pose proof (connect_outcomes a (wb_connection_timeout b) (default "" host)
      (match host with Some _ => result_ok (build_tls_config cert_store) | None => None end) (wb_tcp_no_delay b) s1) as Hc;
    destruct (tcp a s1) as [[tcp_time socket] s2]; cbn [fst snd]; destruct (connect _ _ _ _ _ _) as [[time r] s3];
    destruct Hc as (_ & _ & Hc & _); cbn [fst snd]; revert Hc; repeat case_match; try lia;
    match goal with |- context [tls ?c ?name ?p ?s] => pose proof (Ht c name p s) end; lia)).
  specialize (H ltac:(intros host path h [s1 n]; unfold handshake_timed; specialize (Hh host path h s1);
    destruct (handshake _ _ _ _) as [[time r] s2]; cbn in *; lia) uri (s, 0%N)).
  cbn [snd] in H. lia.
Qed.
End Connect.

(** ** Pings and the end *)
Section SenderEnd.
Context {S : Type}.
(** What [soketto] does on the socket. *)
Context (socket_ping : string → S → Result string unit * S) (socket_flush socket_close : S → Result string unit * S).
(** [ByteSlice125::try_from]. *)
Definition byte_slice_125 (slice : string) : option string := if decide (slen slice <= 125)%N then Some slice else None.
Definition ws_send_ping (s : S) : Result Panicked (Result WsError unit) * S :=
  match byte_slice_125 "" with
  | None => (Err Panic, s)
  | Some byte_slice =>
    match socket_ping byte_slice s with
    | (Err e, s) => (Ok (Err (WeConnection e)), s)
    | (Ok _, s) => let '(r, s) := socket_flush s in (Ok (map_err WeConnection r), s)
    end
  end.
Definition ws_close (s : S) : Result WsError unit * S :=
  let '(r, s) := socket_close s in (map_err WeConnection r, s).
(** A ping is one empty frame, flushed; it never panics. *)
Lemma ws_send_ping_spec s : ws_send_ping s =
  match socket_ping "" s with
  | (Ok _, s') => let '(r, s'') := socket_flush s' in (Ok (map_err WeConnection r), s'')
  | (Err e, s') => (Ok (Err (WeConnection e)), s')
  end.
Proof. unfold ws_send_ping, byte_slice_125. rewrite decide_True by done. by destruct (socket_ping "" s) as [[]]. Qed.
End SenderEnd.

(** ** A peer that takes its time *)
Section Slow.
#[local] Instance ex_tls : TlsLib := {| TlsConfig := unit; with_platform_verifier := None |}.
Definition ex_store : CertificateStore := @CsCustom ex_tls ().
#[local] Instance slow_url : UrlLib := {|
  Url := string; url_parse := Ok; url_scheme := λ _, "wss"; url_host_str := λ u, Some u; url_port := λ _, None;
  url_username := λ _, ""; url_password := λ _, None; url_path := λ _, "/"; url_query := λ _, None;
  url_no_fragment := id; url_no_password := id; url_no_username := id; url_as_str := id;
  base64_encode := id; header_value_ok := λ _, true
|}.
#[local] Instance slow_net : NetLib := {|
  SocketAddr := string; socket_addrs := λ u, Ok [u +:+ ":443"]; is_relative := λ _, false
|}.
(** The TCP connection takes 1 second, the TLS handshake 1000. *)
Definition slow_build (cert_store : CertificateStore) :=
  build_timed (N := slow_net) (S := unit) (P := unit) (T := unit) (λ _ s, (1%N, Ok (), s)) (λ _ p, (Ok (), p)) (λ host, Ok host)
    (λ _ _ _ s, (1000%N, Ok (), s)) WsTransportClientBuilder.default cert_store (λ _ _ _ s, (0%N, Ok SrAccepted, s)) "host" ().

Lemma connecting_time_witness : ((slow_build ex_store).2.2 <= 5 * (10 + 1000 + 0))%N.
Proof.
  apply (connecting_time (N := slow_net) (S := unit) (P := unit) (T := unit) (λ _ s, (1%N, Ok (), s)) (λ _ p, (Ok (), p))
    (λ host, Ok host) (λ _ _ _ s, (1000%N, Ok (), s)) WsTransportClientBuilder.default ex_store (λ _ _ _ s, (0%N, Ok SrAccepted, s))
    1 1000 0 "host" ()).
  - intros uri addrs [= <-]. cbn. lia.
  - intros. cbn. lia.
  - intros. cbn. lia.
Defined.
(** The timeout of the builder, 10 seconds, does not bound it. *)
Example timeout_covers_tcp_only :
  (is_ok (slow_build ex_store).1, (slow_build ex_store).2.2) = (true, 1001%N) ∧
  is_ok (slow_build CsNative).1 = false.
Proof. vm_compute. auto. Qed.
(** Without TLS the setting of the builder is not used: the socket remembers what it
    was set to. *)
Example no_tls_ignores_no_delay :
  let tcp (_ : SocketAddr) (s : unit) := (1%N, Ok false : Result string bool, s) in
  let set (b : bool) (_ : bool) := (Ok () : Result string unit, b) in
  (fst (connect (T := unit) tcp set (λ host : string, Ok host) (λ _ _ _ s, (0%N, Err "", s)) "a" 10 "" None false ())).2 = Ok (EsPlain false) ∧
  (fst (connect_no_tls tcp set "a" 10 ())).2 = Ok (EsPlain true).
Proof. vm_compute. auto. Qed.
End Slow.
