(* ===== verification/Streams.v ===== *)
(** The streams the select loops wait on: [MaybePendingFutures] and [IntervalStream]
    of [core/src/client/async_client/utils.rs], and [IntervalStream] of
    [server/src/future.rs].

    A task is named by its waker.  [FuturesUnordered] and the timers are code of
    other crates: parameters, with what their documentation says of them. *)
From stdpp Require Import base list.
From S2P Require Import Prelude.

(** ** An interval, or none *)
Module IntervalStream.
Section Ops.
Context {S A B : Type} (inner_poll : nat → S → Poll (option A) * S).
Definition pending : option S := None.
Definition new (s : S) : option S := Some s.
(** Of the client: an item is only a tick. *)
Definition poll_tick (cx : nat) (self : option S) : Poll (option unit) * option S :=
  match self with
  | Some stream =>
    let '(r, stream) := inner_poll cx stream in
    (match r with
     | Pending => Pending
     | Ready (Some _) => Ready (Some ())
     | Ready None => Ready None
     end, Some stream)
  | None => (Pending, None)
  end.
(** Of the server. *)
Definition poll_next (cx : nat) (self : option S) : Poll (option A) * option S :=
  match self with
  | Some stream => let '(r, stream) := inner_poll cx stream in (r, Some stream)
  | None => (Pending, None)
  end.
(** Without an interval no branch of a select is ever taken, however often it is
    polled. *)
Lemma pending_forever (cxs : list nat) :
  foldl (λ '(rs, s) cx, let '(r, s) := poll_tick cx s in (rs ++ [r], s)) ([], pending) cxs = (replicate (length cxs) Pending, None).
Proof.
  induction cxs as [|cx cxs IH] using rev_ind; [done|]. rewrite foldl_app, IH. cbn.
  by rewrite length_app, replicate_add.
Qed.
End Ops.
End IntervalStream.

(** ** Futures that may be none *)
(** [FuturesUnordered]: a set [F] of futures. *)
Class FuturesUnordered (Fut Out : Type) := {
  FuSet : Type;
  fu_new : FuSet;
  fu_push : Fut → FuSet → FuSet;
  fu_is_empty : FuSet → bool;
  fu_poll_next : nat → FuSet → Poll (option Out) * FuSet
}.
Arguments FuSet Fut Out {_}.
(** Its documentation: a new set is empty and a push adds to it; [poll_next] ends
    the stream only when no futures are left. *)
Record futures_law {Fut Out} (F : FuturesUnordered Fut Out) : Prop := {
  fl_new : fu_is_empty fu_new = true;
  fl_push f s : fu_is_empty (fu_push f s) = false;
  fl_none cx s s' : fu_poll_next cx s = (Ready None, s') → fu_is_empty s = true
}.

Record MaybePendingFutures (Fut Out : Type) `{FuturesUnordered Fut Out} := MkMaybePendingFutures {
  mp_futs : FuSet Fut Out;
  mp_waker : option nat
}.
Arguments MkMaybePendingFutures {Fut Out _} _ _. Arguments mp_futs {Fut Out _} _. Arguments mp_waker {Fut Out _} _.

Module MaybePendingFutures.
Section Ops.
Context {Fut Out : Type} {FU : FuturesUnordered Fut Out}.
Notation M := (MaybePendingFutures Fut Out).
Definition new : M := MkMaybePendingFutures fu_new None.
(** With the task that is woken. *)
Definition push (fut : Fut) (self : M) : option nat * M :=
  (mp_waker self, MkMaybePendingFutures (fu_push fut (mp_futs self)) None).
Definition poll_next (cx : nat) (self : M) : Poll (option Out) * M :=
  if fu_is_empty (mp_futs self) then (Pending, MkMaybePendingFutures (mp_futs self) (Some cx))
  else let '(r, futs) := fu_poll_next cx (mp_futs self) in (r, MkMaybePendingFutures futs (mp_waker self)).

(** Uses of the stream, in any order. *)
Inductive Use : Type := UPush (fut : Fut) | UPoll (cx : nat).
Inductive Seen : Type := SWoken (task : option nat) | SPolled (r : Poll (option Out)).
Definition use (u : Use) (self : M) : Seen * M :=
  match u with
  | UPush fut => let '(w, self) := push fut self in (SWoken w, self)
  | UPoll cx => let '(r, self) := poll_next cx self in (SPolled r, self)
  end.
Fixpoint uses (us : list Use) (self : M) : list Seen * M :=
  match us with
  | [] => ([], self)
  | u :: us => let '(o, self) := use u self in let '(os, self) := uses us self in (o :: os, self)
  end.
Lemma uses_app us1 us2 self :
  uses (us1 ++ us2) self =
  (let '(o1, self1) := uses us1 self in let '(o2, self2) := uses us2 self1 in (o1 ++ o2, self2)).
Proof.
  revert self. induction us1 as [|u us1 IH]; intros self; cbn [app uses]; [by destruct (uses us2 self)|].
  destruct (use u self) as [o s]. rewrite IH. destruct (uses us1 s) as [o1 s1]. by destruct (uses us2 s1).
Qed.

(** The stream never ends, so that the select that polls it never spins; and a task
    that found it empty is woken by the next future that is pushed, once: nothing
    is pushed unseen, and no task is woken for nothing. *)
Theorem pending_futures_live (HL : futures_law FU) (us : list Use) (self : M) (cx : nat) (fut : Fut) (futs : list Fut) :
  Forall (λ o, o ≠ SPolled (Ready None)) (uses us self).1 ∧
  (fu_is_empty (mp_futs (uses us self).2) = true →
   (uses (us ++ UPoll cx :: UPush fut :: (UPush <$> futs)) self).1 =
     (uses us self).1 ++ SPolled Pending :: SWoken (Some cx) :: replicate (length futs) (SWoken None)).
Proof.
  split.
  - revert self. induction us as [|u us IH]; intros self; [constructor|]. cbn [uses].
    destruct (use u self) as [o s] eqn:Eu. specialize (IH s). destruct (uses us s) as [os s']. cbn. constructor; [|exact IH].
    destruct u as [f|c]; cbn in Eu; [by injection Eu as <- _|]. unfold poll_next in Eu.
    destruct (fu_is_empty (mp_futs self)) eqn:Ee; [by injection Eu as <- _|].
    destruct (fu_poll_next c (mp_futs self)) as [r futs'] eqn:Ep. injection Eu as <- _. intros [= ->].
    apply (fl_none _ HL) in Ep. congruence.
  - intros He. rewrite uses_app. destruct (uses us self) as [os s]. cbn [snd fst] in *. cbn [uses use]. unfold poll_next. rewrite He.
    cbn [push mp_waker mp_futs]. match goal with |- context [uses _ (MkMaybePendingFutures ?x None)] => generalize x end. intros x.
    assert (uses (UPush <$> futs) (MkMaybePendingFutures x None) =
      (replicate (length futs) (SWoken None), (uses (UPush <$> futs) (MkMaybePendingFutures x None)).2)) as ->; [|done].
    revert x. induction futs as [|f futs IH]; intros x; [done|]. cbn. specialize (IH (fu_push f x)). rewrite IH. done.
Qed.
End Ops.
End MaybePendingFutures.

(** ** Futures that are done at once *)
Section StreamRun.
#[local] Instance ready_futures : FuturesUnordered nat nat := {|
  FuSet := list nat;
  fu_new := [];
  fu_push f s := s ++ [f];
  fu_is_empty s := match s with [] => true | _ => false end;
  fu_poll_next _ s := match s with [] => (Ready None, []) | f :: s => (Ready (Some f), s) end
|}.
Lemma ready_law : futures_law ready_futures.
Proof. split; [done|by intros f []|by intros cx [|f s] s']. Qed.
Lemma pending_futures_live_witness :
  (MaybePendingFutures.uses [MaybePendingFutures.UPoll 3; MaybePendingFutures.UPush 7; MaybePendingFutures.UPush 8] MaybePendingFutures.new).1 =
    [MaybePendingFutures.SPolled Pending; MaybePendingFutures.SWoken (Some 3); MaybePendingFutures.SWoken None].
Proof.
  exact (proj2 (MaybePendingFutures.pending_futures_live ready_law [] MaybePendingFutures.new 3 7 [8]) eq_refl).
Defined.
(** A push while futures are left wakes nobody: the task polls them when one of
    them wakes it. *)
Example push_beside_others :
  (MaybePendingFutures.uses [MaybePendingFutures.UPush 7; MaybePendingFutures.UPush 8; MaybePendingFutures.UPoll 3] MaybePendingFutures.new).1 =
    [MaybePendingFutures.SWoken None; MaybePendingFutures.SWoken None; MaybePendingFutures.SPolled (Ready (Some 7))].
Proof. reflexivity. Qed.
End StreamRun.
