(* ===== verification/AsyncFrontend.v ===== *)
(** The frontend of the async client: [core/src/client/async_client/mod.rs],
    [rpc_service.rs] and [utils.rs].

    The frontend hands messages to the background task over a bounded channel and
    waits for the answer on a oneshot.  What the background task and the rest of
    the world do while it waits is a parameter [bg]; [background] is the
    background task of [AsyncClient.v] on the messages a server sends.  The end of
    the two tasks, and how the frontend learns of it, is the transition system of
    the section [Shutdown]. *)
From stdpp Require Import base gmap strings list.
From S2P Require Import Prelude Serde RefJson Errors Params Wire ParamsBuilder Middleware ClientCore ClientService RequestManager AsyncClient AsyncClientProofs.
Import RequestManager.

(** ** Configuration *)
Record ClientPingConfig : Type := MkClientPingConfig {
  cp_ping_interval : N;
  cp_inactive_limit : N;
  cp_max_failures : N
}.
Module ClientPingConfig.
Definition default : ClientPingConfig := MkClientPingConfig 30 40 1.
Definition new : ClientPingConfig := default.
Definition ping_interval (interval : N) (p : ClientPingConfig) : ClientPingConfig :=
  MkClientPingConfig interval (cp_inactive_limit p) (cp_max_failures p).
Definition inactive_limit (limit : N) (p : ClientPingConfig) : ClientPingConfig :=
  MkClientPingConfig (cp_ping_interval p) limit (cp_max_failures p).
Definition max_failures (max : N) (p : ClientPingConfig) : Result Panicked ClientPingConfig :=
  if decide (0 < max)%N then Ok (MkClientPingConfig (cp_ping_interval p) (cp_inactive_limit p) max) else Err Panic.
End ClientPingConfig.

Record ClientBuilder : Type := MkClientBuilder {
  cb_request_timeout : N;
  cb_max_concurrent_requests : nat;
  cb_max_buffer_capacity_per_subscription : nat;
  cb_id_kind : IdKind;
  cb_ping_config : option ClientPingConfig;
  cb_tcp_no_delay : bool
}.
Module ClientBuilder.
Definition default : ClientBuilder := MkClientBuilder 60 256 1024 KNumber None true.
Definition new : ClientBuilder := default.
Definition request_timeout (timeout : N) (b : ClientBuilder) : ClientBuilder :=
  MkClientBuilder timeout (cb_max_concurrent_requests b) (cb_max_buffer_capacity_per_subscription b)
    (cb_id_kind b) (cb_ping_config b) (cb_tcp_no_delay b).
Definition max_concurrent_requests (max : nat) (b : ClientBuilder) : ClientBuilder :=
  MkClientBuilder (cb_request_timeout b) max (cb_max_buffer_capacity_per_subscription b)
    (cb_id_kind b) (cb_ping_config b) (cb_tcp_no_delay b).
Definition max_buffer_capacity_per_subscription (max : nat) (b : ClientBuilder) : Result Panicked ClientBuilder :=
  if decide (0 < max) then
    Ok (MkClientBuilder (cb_request_timeout b) (cb_max_concurrent_requests b) max
          (cb_id_kind b) (cb_ping_config b) (cb_tcp_no_delay b))
  else Err Panic.
Definition id_format (id_kind : IdKind) (b : ClientBuilder) : ClientBuilder :=
  MkClientBuilder (cb_request_timeout b) (cb_max_concurrent_requests b) (cb_max_buffer_capacity_per_subscription b)
    id_kind (cb_ping_config b) (cb_tcp_no_delay b).
Definition enable_ws_ping (cfg : ClientPingConfig) (b : ClientBuilder) : ClientBuilder :=
  MkClientBuilder (cb_request_timeout b) (cb_max_concurrent_requests b) (cb_max_buffer_capacity_per_subscription b)
    (cb_id_kind b) (Some cfg) (cb_tcp_no_delay b).
Definition disable_ws_ping (b : ClientBuilder) : ClientBuilder :=
  MkClientBuilder (cb_request_timeout b) (cb_max_concurrent_requests b) (cb_max_buffer_capacity_per_subscription b)
    (cb_id_kind b) None (cb_tcp_no_delay b).
Definition set_tcp_no_delay (no_delay : bool) (b : ClientBuilder) : ClientBuilder :=
  MkClientBuilder (cb_request_timeout b) (cb_max_concurrent_requests b) (cb_max_buffer_capacity_per_subscription b)
    (cb_id_kind b) (cb_ping_config b) no_delay.
End ClientBuilder.

(** ** [InactivityCheck]; times are passed in *)
Inductive InactivityCheck : Type :=
| IcDisabled
| IcEnabled (inactive_dur last_active count max_count : N).
Module InactivityCheck.
Definition new (inactive_dur max_count now : N) : InactivityCheck := IcEnabled inactive_dur now 0 max_count.
Definition is_inactive (now : N) (c : InactivityCheck) : bool * InactivityCheck :=
  match c with
  | IcDisabled => (false, c)
  | IcEnabled inactive_dur last_active count max_count =>
    let count := if decide (inactive_dur <= now - last_active)%N then (count + 1)%N else count in
    (bool_decide (max_count <= count)%N, IcEnabled inactive_dur last_active count max_count)
  end.
Definition mark_as_active (now : N) (c : InactivityCheck) : InactivityCheck :=
  match c with
  | IcDisabled => c
  | IcEnabled inactive_dur _ count max_count => IcEnabled inactive_dur now count max_count
  end.
End InactivityCheck.

(** ** The service of the async client *)
Section Service.
Context {J : SerdeJson} {X : HttpExtensions} {XS : ExtKey IsSubscription} {XB : ExtKey IsBatch} {Tr : Type}.

(** The background task, the channel to it, and why it ended. *)
Record Front : Type := MkFront {
  fr_back : Back (X := X) (Tr := Tr);
  fr_queue : list FrontToBack;
  fr_cap : nat;
  fr_closed : bool;
  fr_reason : option Error
}.
Context (bg : Front → Front).

Definition set_back b (s : Front) : Front := MkFront b (fr_queue s) (fr_cap s) (fr_closed s) (fr_reason s).
Definition set_queue q (s : Front) : Front := MkFront (fr_back s) q (fr_cap s) (fr_closed s) (fr_reason s).
Definition on_world_of (f : World → World) (s : Front) : Front :=
  set_back (MkBack (bk_manager (fr_back s)) (f (bk_world (fr_back s))) (bk_tr (fr_back s))) s.

(** [tx.send]: waits while the channel is full. *)
Definition tx_send (msg : FrontToBack) : Fut Front unit := λ s,
  let has_room s := bool_decide (length (fr_queue s) < fr_cap s) in
  let s := if fr_closed s || has_room s then s else bg s in
  if fr_closed s then (Some (Err (CsErr ErrServiceDisconnect)), s)
  else if has_room s then (Some (Ok ()), set_queue (fr_queue s ++ [msg]) s)
  else (None, s).
Definition oneshot_new : Fut Front nat := λ s,
  let h := fresh (dom (w_oneshots (bk_world (fr_back s)))) in
  (Some (Ok h), on_world_of (λ w, MkWorld (<[h := Waiting]> (w_oneshots w)) (w_chans w)) s).
(** [send_back_rx.await]; when the deadline comes first the receiver is dropped. *)
Definition oneshot_recv (h : nat) : Fut Front Reply := λ s,
  let s := bg s in
  match w_oneshots (bk_world (fr_back s)) !! h with
  | Some (Sent r) => (Some (Ok r), s)
  | Some TxDropped => (Some (Err (CsErr ErrServiceDisconnect)), s)
  | _ => (None, on_world_of (os_drop_rx h) s)
  end.
(** The outcome inside, for a oneshot of its type. *)
Definition call_reply (r : Reply) : Result ClientStop RawResponse :=
  match r with RCall r => map_err (λ e, CsErr (ErrInvalidRequestId e)) r | _ => Err CsPanic end.
Definition batch_reply (r : Reply) : Result ClientStop (list RawResponse) :=
  match r with RBatch r => map_err (λ e, CsErr (ErrInvalidRequestId e)) r | _ => Err CsPanic end.
Definition sub_reply (r : Reply) : Result ClientStop (nat * SubscriptionId) :=
  match r with RSub r => map_err CsErr r | _ => Err CsPanic end.
Definition reg_reply (r : Reply) : Result ClientStop (nat * string) :=
  match r with RReg r => map_err CsErr r | _ => Err CsPanic end.
Definition ser_text (v : Ser) : Fut Front string :=
  fut_result (ok_or (json_write v) (CsErr (ErrParseError (json_errmsg "")))).

Definition svc_call (request : Request) : Fut Front MiddlewareMethodResponse :=
  raw ← ser_text (request_serialize request);
  match ext_get (rq_extensions request) with
  | Some sub =>
    send_back ← oneshot_new;
    _ ← tx_send (FSubscribe (MkSubscriptionMessage raw (is_sub_id sub) (is_unsub_id sub) (is_unsub_method sub) send_back));
    reply ← oneshot_recv send_back;
    '(subscribe_rx, sub_id) ← fut_result (sub_reply reply);
    rp ← ser_text (SubscriptionId.serialize sub_id);
    mret (mm_subscription_response (response_new (ResponsePayload.success rp) (Id.into_owned (rq_id request)))
            (MkSubscriptionResponse sub_id subscribe_rx))
  | None =>
    send_back ← oneshot_new;
    _ ← tx_send (FRequest (MkRequestMessage raw (Id.into_owned (rq_id request)) (Some send_back)));
    reply ← oneshot_recv send_back;
    rp ← fut_result (call_reply reply);
    mret (mm_response (MkResponse (rp_jsonrpc rp) (rp_payload rp) (rp_id rp) (rq_extensions request)))
  end.
Definition svc_batch (batch : Batch) : Fut Front (list RawResponse) :=
  send_back ← oneshot_new;
  raw ← ser_text (Batch.serialize batch);
  match ext_get (fst (Batch.extensions batch)) with
  | Some b =>
    _ ← tx_send (FBatch (MkBatchMessage raw (ib_id_range b) send_back));
    reply ← oneshot_recv send_back;
    fut_result (batch_reply reply)
  | None => fut_result (Err CsPanic)
  end.
Definition svc_notification (n : MwNotification) : Fut Front Extensions :=
  raw ← ser_text (mw_notification_serialize n);
  _ ← tx_send (FNotification raw);
  mret (nf_extensions n).
Definition async_service : ClientService Front := {|
  cs_call := svc_call; cs_batch := svc_batch; cs_notification := svc_notification
|}.

(** [read_error], after the channel has closed. *)
Definition reason_error (disconnect_reason : option Error) : Error :=
  match disconnect_reason with
  | Some err => ErrRestartNeeded err
  | None => ErrCustom "Error reason could not be found. This is a bug. Please open an issue."
  end.
Definition read_error (s : Front) : Error := reason_error (fr_reason s).
Definition is_connected (s : Front) : bool := negb (fr_closed s).
End Service.
Arguments Front {X} Tr.

(** ** The client *)
Module Client.
Section Ops.
Context {J : SerdeJson} {X : HttpExtensions} {XS : ExtKey IsSubscription} {XB : ExtKey IsBatch}.
Context {S : Type} {svc : ClientService S}.
(** [on_disconnect]: waits until the channel has closed. *)
Context (on_disconnect : S → Error).
Notation M := (SM (RequestIdManager * S) ClientStop).

Definition err {A} (e : Error) : M A := sm_throw (CsErr e).
Definition lift {A} (r : Result Error A) : M A := sm_result (map_err CsErr r).
Definition next_request_id : M Id := λ s,
  let '(id, m) := RequestIdManager.next_request_id (fst s) in (Ok id, (m, snd s)).
Definition run_future_until_timeout {A} (fut : Fut S A) : M A := λ s,
  match fut (snd s) with
  | (Some (Ok r), s') => (Ok r, (fst s, s'))
  | (Some (Err (CsErr ErrServiceDisconnect)), s') => (Err (CsErr (on_disconnect s')), (fst s, s'))
  | (Some (Err e), s') => (Err e, (fst s, s'))
  | (None, s') => (Err (CsErr ErrRequestTimeout), (fst s, s'))
  end.

Definition notification (method : string) (params : Result Error (option string)) : M unit :=
  _ ← next_request_id;
  params ← lift params;
  _ ← run_future_until_timeout (cs_notification (notification_new method params));
  mret ().
Definition request {R} (de : string → Result string R) (method : string) (params : Result Error (option string)) : M R :=
  id ← next_request_id;
  params ← lift params;
  rp ← run_future_until_timeout (cs_call (request_new method params id));
  success ← lift (map_err ErrCall (success_try_from (mm_rp rp)));
  lift (map_err ErrParseError (de (sc_result success))).

(** The responses of a batch, in the order they come in. *)
Fixpoint collect {R} (de : string → Result string R) (json_values : list RawResponse)
    (responses : list (Result ErrorObject R)) (successful_calls failed_calls : N)
    : Result Error (BatchResponse R) :=
  match json_values with
  | [] => Ok (MkBatchResponse successful_calls failed_calls responses)
  | json_val :: vs =>
    match success_try_from json_val with
    | Ok val =>
      result ← map_err ErrParseError (de (sc_result val));
      collect de vs (responses ++ [Ok result]) (successful_calls + 1) failed_calls
    | Err err => collect de vs (responses ++ [Err err]) successful_calls (failed_calls + 1)
    end
  end.
Definition batch_of (kind : IdKind) (calls : BatchRequestBuilder.T) (ids : Range) : Batch :=
  Batch.extensions_mut (ext_insert (MkIsBatch ids))
    (foldl (λ b '((method, params), id),
              Batch.push (MkRequest V2 (IdKind.into_id kind id) method params ext_new) b)
           Batch.new (zip calls (range_ids ids))).
Definition batch_request {R} (de : string → Result string R) (batch : BatchRequestBuilder.T) : M (BatchResponse R) :=
  batch ← lift (map_err (λ _, ErrEmptyBatchRequest) (BatchRequestBuilder.build batch));
  id ← next_request_id;
  id_range ← lift (generate_batch_id_range id (N.of_nat (length batch)));
  m ← sm_get;
  json_values ← run_future_until_timeout
    (cs_batch (batch_of (RequestIdManager.as_id_kind (fst m)) batch id_range));
  lift (collect de json_values [] 0 0).

Definition subscribe (subscribe_method : string) (params : Result Error (option string)) (unsubscribe_method : string)
    : M ClientCore.Subscription :=
  if decide (subscribe_method = unsubscribe_method) then
    err (ErrRegisterMethod (SubscriptionNameConflict unsubscribe_method))
  else
    req_id_sub ← next_request_id;
    req_id_unsub ← next_request_id;
    params ← lift params;
    let ext := ext_insert (MkIsSubscription req_id_sub req_id_unsub unsubscribe_method) ext_new in
    let req := MkRequest V2 req_id_sub subscribe_method params ext in
    rp ← run_future_until_timeout (cs_call req);
    sub ← sm_result (ok_or (mm_subscription rp) CsPanic);
    mret (subscription_new (sr_stream sub) (KindSubscription (sr_sub_id sub))).
End Ops.

Section OnFront.
Context {X : HttpExtensions} {Tr : Type} (bg : Front Tr → Front Tr).
(** [None] inside is a sender that is gone. *)
Definition call_with_timeout (rx : nat) (s : Front Tr) : option (Result Error Reply) * Front Tr :=
  match oneshot_recv bg rx s with
  | (Some (Ok reply), s) => (Some (Ok reply), s)
  | (Some (Err _), s) => (None, s)
  | (None, s) => (Some (Err ErrRequestTimeout), s)
  end.
(** [subscribe_to_method] sends to the background task itself, and only the answer
    has a deadline: [None] is a wait for room in the channel. *)
Definition subscribe_to_method (method : string) (s : RequestIdManager * Front Tr)
    : option (Result ClientStop ClientCore.Subscription * (RequestIdManager * Front Tr)) :=
  let '(ids, s) := s in
  let send_back := fresh (dom (w_oneshots (bk_world (fr_back s)))) in
  match tx_send bg (FRegisterNotification (MkRegisterNotificationMessage method send_back)) (snd (oneshot_new s)) with
  | (None, _) => None
  | (Some (Err _), s) => Some (Err (CsErr (read_error s)), (ids, s))
  | (Some (Ok _), s) =>
    let '(res, s) := call_with_timeout send_back s in
    Some (match res with
          | Some (Ok val) => '(rx, method) ← reg_reply val; Ok (subscription_new rx (KindMethod method))
          | Some (Err err) => Err (CsErr err)
          | None => Err (CsErr (read_error s))
          end, (ids, s))
  end.
End OnFront.
End Client.

(** The background task at work: it takes what is in its channel, then handles
    what the server sends; an error ends it. *)
Section Background.
Context {J : SerdeJson} {X : HttpExtensions} {Tr : Type}.
Context (tr_send : string → Tr → Result string unit * Tr) (max_cap : nat).

(** The tasks are gone, and with the table the other ends of all channels. *)
Definition close_all (w : World) : World :=
  MkWorld ((λ o, match o with Sent r => Sent r | _ => TxDropped end) <$> w_oneshots w)
    (Chan.drop_tx <$> w_chans w).
Definition fail_with (f : Failure) (b : Back) (s : Front Tr) : Front Tr :=
  MkFront (MkBack (bk_manager b) (close_all (bk_world b)) (bk_tr b)) [] (fr_cap s) true
    (match f with FError e => Some e | FPanic => None end).
Fixpoint send_loop (msgs : list FrontToBack) (s : Front Tr) : Front Tr :=
  match msgs with
  | [] => set_queue [] s
  | msg :: msgs =>
    match handle_frontend_messages tr_send msg max_cap (fr_back s) with
    | (Ok _, b) => send_loop msgs (set_back b s)
    | (Err f, b) => fail_with f b s
    end
  end.
Fixpoint read_loop (msgs : list (Result string ReceivedMessage)) (s : Front Tr) : Front Tr :=
  match msgs with
  | [] => s
  | msg :: msgs =>
    match handle_backend_messages (Some msg) max_cap (fr_back s) with
    | (Ok messages, b) => read_loop msgs (set_queue (fr_queue s ++ messages) (set_back b s))
    | (Err f, b) => fail_with f b s
    end
  end.
Definition background (incoming : list (Result string ReceivedMessage)) (s : Front Tr) : Front Tr :=
  if fr_closed s then s
  else let s := send_loop (fr_queue s) s in if fr_closed s then s else read_loop incoming s.
End Background.

(** ** Calls *)
Section Calls.
Context {J : SerdeJson} {X : HttpExtensions} {XS : ExtKey IsSubscription} {XB : ExtKey IsBatch} {Tr : Type}.
Context (tr_send : string → Tr → Result string unit * Tr) (max_cap : nat).
Implicit Types s : Front Tr.

Lemma send_request raw id h (b : Back (X := X) (Tr := Tr)) t : requests (bk_manager b) !! id = None →
  tr_send raw (bk_tr b) = (Ok (), t) →
  handle_frontend_messages tr_send (FRequest (MkRequestMessage raw id (Some h))) max_cap b =
    (Ok (), MkBack (bk_manager (with_requests (<[id := PendingMethodCall (Some h)]> (requests (bk_manager b))) b))
              (bk_world b) t).
Proof.
  intros Hn Ht. cbn [handle_frontend_messages rm_id rm_send_back rm_raw]. unfold mbind, SM_bind, on_manager.
  unfold insert_pending_call. rewrite (proj2 (vacant_None _ _)) by done. unfold send_raw. cbn. by rewrite Ht.
Qed.
Lemma receive_answer raw rp h (b : Back (X := X) (Tr := Tr)) : is_response raw rp →
  requests (bk_manager b) !! rp_id rp = Some (PendingMethodCall (Some h)) →
  handle_backend_messages (Some (Ok (Text raw))) max_cap b =
    (Ok [], with_world (snd (os_send h (RCall (Ok rp)) (bk_world b)))
              (with_requests (delete (rp_id rp) (requests (bk_manager b))) b)).
Proof.
  intros Hr Hp. rewrite (recv_response _ rp) by done. unfold process_single_response. rewrite id_into_owned_id.
  unfold mbind, SM_bind, ask, request_status. rewrite Hp. unfold on_manager, complete_pending_call. rewrite Hp.
  unfold reply, on_world. cbn. by destruct (os_send _ _ _).
Qed.

(** The client is idle: nothing is queued, the tasks run. *)
Definition idle s : Prop := fr_queue s = [] ∧ fr_closed s = false ∧ 0 < fr_cap s.
(** The requests that are not subscriptions carry no marker. *)
Definition no_marker : Prop := ext_get (T := IsSubscription) ext_new = None.

(** The state after the request was sent: it waits under its identifier. *)
Definition waiting_front s (id : Id) (t : Tr) : nat * Front Tr :=
  let h := fresh (dom (w_oneshots (bk_world (fr_back s)))) in
  (h, set_queue [] (set_back (MkBack
        (bk_manager (with_requests (<[id := PendingMethodCall (Some h)]> (requests (bk_manager (fr_back s)))) (fr_back s)))
        (MkWorld (<[h := Waiting]> (w_oneshots (bk_world (fr_back s)))) (w_chans (bk_world (fr_back s)))) t) s)).
(** The front when the request is queued: that is where the background task is run. *)
Definition queued_call s (id : Id) (raw : string) : Front Tr :=
  let h := fresh (dom (w_oneshots (bk_world (fr_back s)))) in
  set_queue [FRequest (MkRequestMessage raw id (Some h))]
    (on_world_of (λ w, MkWorld (<[h := Waiting]> (w_oneshots w)) (w_chans w)) s).
Lemma svc_call_sends bg s q raw t incoming : idle s → no_marker → rq_extensions q = ext_new →
  json_write (request_serialize q) = Some raw → tr_send raw (bk_tr (fr_back s)) = (Ok (), t) →
  requests (bk_manager (fr_back s)) !! rq_id q = None →
  bg (queued_call s (rq_id q) raw) = background tr_send max_cap incoming (queued_call s (rq_id q) raw) →
  let '(h, w) := waiting_front s (rq_id q) t in
  svc_call bg q s =
    match w_oneshots (bk_world (fr_back (read_loop max_cap incoming w))) !! h with
    | Some (Sent r) =>
      match call_reply r with
      | Ok rp => (Some (Ok (mm_response (MkResponse (rp_jsonrpc rp) (rp_payload rp) (rp_id rp) ext_new))), read_loop max_cap incoming w)
      | Err e => (Some (Err e), read_loop max_cap incoming w)
      end
    | Some TxDropped => (Some (Err (CsErr ErrServiceDisconnect)), read_loop max_cap incoming w)
    | _ => (None, on_world_of (os_drop_rx h) (read_loop max_cap incoming w))
    end.
Proof.
  intros (Hq & Hc & Hcap) Hx Hext Hw Ht Hn Hbg. unfold svc_call, ser_text. rewrite Hw, Hext, Hx.
  unfold mbind, fut_bind, fut_result, oneshot_new, tx_send. cbn [ok_or].
  set (h := fresh (dom (w_oneshots (bk_world (fr_back s))))). set (s1 := on_world_of _ s).
  change (fr_closed s1) with (fr_closed s). change (fr_queue s1) with (fr_queue s). change (fr_cap s1) with (fr_cap s).
  rewrite Hc, Hq, (bool_decide_true (length [] < fr_cap s)) by (cbn; lia). cbn [orb].
  change (fr_closed s1) with (fr_closed s). change (fr_queue s1) with (fr_queue s). change (fr_cap s1) with (fr_cap s).
  rewrite Hc, Hq, (bool_decide_true (length [] < fr_cap s)) by (cbn; lia). cbn [app].
  assert (Id.into_owned (rq_id q) = rq_id q) as -> by apply id_into_owned_id.
  unfold oneshot_recv. change (set_queue [_] s1) with (queued_call s (rq_id q) raw). rewrite Hbg. unfold background.
  change (fr_closed (queued_call s (rq_id q) raw)) with (fr_closed s). rewrite Hc.
  change (fr_queue (queued_call s (rq_id q) raw)) with [FRequest (MkRequestMessage raw (rq_id q) (Some h))].
  cbn [send_loop]. erewrite (send_request raw (rq_id q) h _ t); [|exact Hn|exact Ht].
  destruct s as [[m w tr] queue cap closed reason]. cbn in Hc, Hq. subst closed queue.
  unfold queued_call, waiting_front, set_queue, set_back. cbn [fr_closed fr_back fr_queue fr_cap fr_reason bk_world bk_manager bk_tr on_world_of set_back].
  cbv zeta. fold h. by destruct (w_oneshots _ !! _) as [[| | |[]]|].
Qed.

Lemma svc_call_closed q raw s bg : no_marker → rq_extensions q = ext_new →
  json_write (request_serialize q) = Some raw → fr_closed s = true →
  svc_call bg q s = (Some (Err (CsErr ErrServiceDisconnect)), snd (oneshot_new s)).
Proof.
  intros Hx Hext Hw Hc. unfold svc_call, ser_text. rewrite Hw, Hext, Hx.
  destruct s. cbn in Hc. by subst.
Qed.

(** What the client makes of the outcome of the service. *)
Lemma client_request {R} bg (de : string → Result string R) name ps ids id ids' s :
  RequestIdManager.next_request_id ids = (id, ids') →
  Client.request (svc := async_service bg) read_error de name (Ok ps) (ids, s) =
    match svc_call bg (request_new name ps id) s with
    | (Some (Ok rp), s') =>
      (match rp_payload (mm_rp rp) with
       | Success v => map_err (λ e, CsErr (ErrParseError e)) (de v)
       | PayloadError e => Err (CsErr (ErrCall (ErrorObject.into_owned e)))
       end, (ids', s'))
    | (Some (Err (CsErr ErrServiceDisconnect)), s') => (Err (CsErr (read_error s')), (ids', s'))
    | (Some (Err e), s') => (Err e, (ids', s'))
    | (None, s') => (Err (CsErr ErrRequestTimeout), (ids', s'))
    end.
Proof.
  intros Eid. unfold Client.request, mbind, SM_bind, Client.next_request_id. cbn [fst]. rewrite Eid. cbn [snd].
  unfold Client.lift, sm_result, Client.run_future_until_timeout. cbn [map_err fst snd cs_call async_service].
  destruct (svc_call _ _ s) as [[[rp'|e]|] s']; [| |done].
  - unfold success_try_from. destruct (rp_payload (mm_rp rp')) as [v|]; cbn; [by destruct (de v)|done].
  - by destruct e as [[]|].
Qed.
(** The front while a call waits. *)
Lemma waiting_front_spec s id t : idle s → requests (bk_manager (fr_back s)) !! id = None →
  let '(h, w) := waiting_front s id t in
  idle w ∧ w_oneshots (bk_world (fr_back w)) !! h = Some Waiting ∧ bk_tr (fr_back w) = t ∧
  requests (bk_manager (fr_back w)) = <[id := PendingMethodCall (Some h)]> (requests (bk_manager (fr_back s))) ∧
  bk_manager (with_requests (delete id (requests (bk_manager (fr_back w)))) (fr_back w)) = bk_manager (fr_back s).
Proof.
  intros (_ & Hc & Hcap) Hn. cbn. rewrite lookup_insert_eq. split; [by split_and!|].
  do 3 (split; [done|]). rewrite delete_insert_id by done. by destruct (fr_back s) as [[]].
Qed.
(** A call that is answered. *)
Lemma call_answered {R} bg (de : string → Result string R) name ps ids id ids' s raw t answer rp :
  RequestIdManager.next_request_id ids = (id, ids') → no_marker →
  json_write (request_serialize (request_new name ps id)) = Some raw → tr_send raw (bk_tr (fr_back s)) = (Ok (), t) →
  idle s → requests (bk_manager (fr_back s)) !! id = None → is_response answer rp → rp_id rp = id →
  bg (queued_call s id raw) = background tr_send max_cap [Ok (Text answer)] (queued_call s id raw) →
  ∃ s', Client.request (svc := async_service bg) read_error de name (Ok ps) (ids, s) =
    (match rp_payload rp with
     | Success v => map_err (λ e, CsErr (ErrParseError e)) (de v)
     | PayloadError e => Err (CsErr (ErrCall (ErrorObject.into_owned e)))
     end, (ids', s')) ∧
    idle s' ∧ bk_manager (fr_back s') = bk_manager (fr_back s) ∧ bk_tr (fr_back s') = t.
Proof.
  intros Eid Hx Hw Ht Hidle Hn Hr Hid Hbg. pose proof (waiting_front_spec s id t Hidle Hn) as Hwf.
  pose proof (svc_call_sends bg s (request_new name ps id) raw t _ Hidle Hx eq_refl Hw Ht Hn Hbg) as Hs.
  destruct (waiting_front s (rq_id (request_new name ps id)) t) as [h w] eqn:Ew.
  change (rq_id (request_new name ps id)) with id in Ew. rewrite Ew in Hwf. destruct Hwf as (Hiw & Hh & Htw & Hreq & Hm).
  assert (requests (bk_manager (fr_back w)) !! rp_id rp = Some (PendingMethodCall (Some h))) as Hl
    by (by rewrite Hreq, Hid, lookup_insert_eq).
  eexists. rewrite (client_request bg de name ps ids id ids' s Eid), Hs. cbn [read_loop].
  rewrite (receive_answer answer rp h (fr_back w) Hr Hl). cbn [read_loop app].
  unfold set_queue, set_back, with_world, os_send. rewrite Hh. cbn. rewrite lookup_insert_eq. cbn.
  split; [done|]. rewrite Hid. split; [|by split]. destruct Hiw as (-> & ? & ?). by split_and!.
Qed.

Lemma register_handled method h (b : Back (X := X) (Tr := Tr)) : w_oneshots (bk_world b) !! h = Some Waiting →
  let rx := fresh (dom (w_chans (bk_world b))) in
  let handlers := notification_handlers (bk_manager b) in
  ∃ b', handle_frontend_messages tr_send (FRegisterNotification (MkRegisterNotificationMessage method h)) max_cap b = (Ok (), b') ∧
    bk_tr b' = bk_tr b ∧
    match handlers !! method with
    | None =>
      w_oneshots (bk_world b') !! h = Some (Sent (RReg (Ok (rx, method)))) ∧ w_chans (bk_world b') !! rx = Some (Chan.new max_cap) ∧
      bk_manager b' = MkRequestManager (requests (bk_manager b)) (subscriptions (bk_manager b)) (batches (bk_manager b)) (<[method := rx]> handlers)
    | Some _ =>
      w_oneshots (bk_world b') !! h = Some (Sent (RReg (Err (ErrRegisterMethod (AlreadyRegistered method))))) ∧
      bk_manager b' = bk_manager b
    end.
Proof.
  intros Hh. destruct b as [m [os chans] tr]. cbn in Hh. cbn zeta. cbn [bk_manager bk_world w_chans w_oneshots].
  cbn [handle_frontend_messages rn_method rn_send_back]. unfold mbind, SM_bind, on_world at 1, chan_new, on_manager, insert_notification_handler.
  cbn [bk_world bk_manager bk_tr w_oneshots w_chans]. unfold vacant. destruct (notification_handlers m !! method) as [x|]; cbn.
  - unfold reply, on_world, os_send. cbn. rewrite chan_drop_tx_oneshots. cbn. rewrite Hh. cbn.
    eexists. split; [reflexivity|]. cbn. rewrite chan_drop_rx_oneshots. cbn. by rewrite lookup_insert_eq.
  - unfold reply, on_world, os_send. cbn. rewrite Hh. cbn. eexists. split; [reflexivity|]. cbn. by rewrite !lookup_insert_eq.
Qed.
(** The outcomes of subscribing to a method.  After the end of the tasks the
    caller learns why; with the tasks at work, a method that nobody listens to gets a
    channel of its own, registered under its name, and nothing is sent to the
    server; a method that somebody listens to is refused, and nothing changes.
    When the channel to the background task is full and stays so, the call waits
    forever: its deadline begins only when the message is sent. *)
Theorem subscribe_to_method_outcomes ids s method :
  let bg := background tr_send max_cap [] in
  let m := bk_manager (fr_back s) in
  (fr_closed s = true → Client.subscribe_to_method bg method (ids, s) =
     Some (Err (CsErr (reason_error (fr_reason s))), (ids, snd (oneshot_new s)))) ∧
  (idle s → notification_handlers m !! method = None →
   ∃ rx s', Client.subscribe_to_method bg method (ids, s) = Some (Ok (subscription_new rx (KindMethod method)), (ids, s')) ∧
     w_chans (bk_world (fr_back s)) !! rx = None ∧ w_chans (bk_world (fr_back s')) !! rx = Some (Chan.new max_cap) ∧
     bk_manager (fr_back s') = MkRequestManager (requests m) (subscriptions m) (batches m) (<[method := rx]> (notification_handlers m)) ∧
     bk_tr (fr_back s') = bk_tr (fr_back s) ∧ idle s') ∧
  (idle s → is_Some (notification_handlers m !! method) →
   ∃ s', Client.subscribe_to_method bg method (ids, s) = Some (Err (CsErr (ErrRegisterMethod (AlreadyRegistered method))), (ids, s')) ∧
     bk_manager (fr_back s') = m ∧ bk_tr (fr_back s') = bk_tr (fr_back s) ∧ idle s') ∧
  (∀ stuck, fr_closed s = false → fr_cap s ≤ length (fr_queue s) → stuck (snd (oneshot_new s)) = snd (oneshot_new s) →
   Client.subscribe_to_method stuck method (ids, s) = None).
Proof.
  intros bg m. destruct s as [[m0 w tr] queue cap closed reason]. cbn in m. subst m. unfold idle. cbn.
  unfold Client.subscribe_to_method, tx_send. cbn.
  set (h := fresh (dom (w_oneshots w))).
  pose proof (register_handled method h (MkBack m0 (MkWorld (<[h := Waiting]> (w_oneshots w)) (w_chans w)) tr)) as Hreg.
  cbn [bk_world w_oneshots] in Hreg. specialize (Hreg (lookup_insert_eq _ _ _)) as (b' & Hb & Ht & Hm).
  cbn [bk_manager bk_world w_chans] in Hm. split_and!.
  - intros ->. reflexivity.
  - intros (-> & -> & Hcap) Hn. cbn. rewrite !(bool_decide_true (0 < cap)) by lia. rewrite Hn in Hm. destruct Hm as (Ho & Hc & Hm).
    unfold Client.call_with_timeout, oneshot_recv, bg, background, set_queue, on_world_of, set_back. cbn [app fr_closed fr_queue send_loop fr_back bk_manager bk_world bk_tr fr_cap fr_reason w_oneshots w_chans].
    rewrite Hb. cbn. rewrite Ho. cbn. eexists _, _. split; [reflexivity|]. cbn. split; [apply not_elem_of_dom, is_fresh|]. done.
  - intros (-> & -> & Hcap) [x Hx]. cbn. rewrite !(bool_decide_true (0 < cap)) by lia. rewrite Hx in Hm. destruct Hm as (Ho & Hm).
    unfold Client.call_with_timeout, oneshot_recv, bg, background, set_queue, on_world_of, set_back. cbn [app fr_closed fr_queue send_loop fr_back bk_manager bk_world bk_tr fr_cap fr_reason w_oneshots w_chans].
    rewrite Hb. cbn. rewrite Ho. cbn. eexists. split; [reflexivity|]. done.
  - intros stuck -> Hfull Hs. unfold oneshot_new in Hs |- *. cbn in *. rewrite (bool_decide_false (length queue < cap)) by lia. cbn.
    rewrite Hs. cbn. by rewrite (bool_decide_false (length queue < cap)) by lia.
Qed.

(** C9: the outcomes of a call, through the frontend and the background task.
    With an answer from the server, the caller gets its result or its error, and
    the client is as before but for the request that was sent, once, and the
    identifier that is used up.  With none, the call ends with the timeout; the
    request stays pending, its caller gone, until a late answer takes it out
    without harm.  After the tasks have ended nothing is sent, and the error is
    the one they ended with. *)
Theorem async_call_outcomes {R} (de : string → Result string R) (name : string) (ps : option string)
    (ids : RequestIdManager) s raw t answer rp :
  let '(id, ids') := RequestIdManager.next_request_id ids in
  let call incoming := Client.request (svc := async_service (background tr_send max_cap incoming)) read_error
                         de name (Ok ps) (ids, s) in
  let m := bk_manager (fr_back s) in
  no_marker →
  json_write (request_serialize (request_new name ps id)) = Some raw → tr_send raw (bk_tr (fr_back s)) = (Ok (), t) →
  (idle s → requests m !! id = None →
   (is_response answer rp → rp_id rp = id →
    ∃ s', call [Ok (Text answer)] =
        (match rp_payload rp with
         | Success v => map_err (λ e, CsErr (ErrParseError e)) (de v)
         | PayloadError e => Err (CsErr (ErrCall (ErrorObject.into_owned e)))
         end, (ids', s')) ∧
      idle s' ∧ bk_manager (fr_back s') = m ∧ bk_tr (fr_back s') = t) ∧
   (∃ s' h, call [] = (Err (CsErr ErrRequestTimeout), (ids', s')) ∧ idle s' ∧
      bk_tr (fr_back s') = t ∧ requests (bk_manager (fr_back s')) = <[id := PendingMethodCall (Some h)]> (requests m) ∧
      w_oneshots (bk_world (fr_back s')) !! h = Some RxDropped ∧
      (is_response answer rp → rp_id rp = id → ∃ b', handle_backend_messages (Some (Ok (Text answer))) max_cap (fr_back s') =
         (Ok [], b') ∧ bk_manager b' = m))) ∧
  (fr_closed s = true → ∀ incoming, ∃ s', call incoming = (Err (CsErr (read_error s)), (ids', s')) ∧
     bk_tr (fr_back s') = bk_tr (fr_back s)).
Proof.
  destruct (RequestIdManager.next_request_id ids) as [id ids'] eqn:Eid. intros call m Hx Hw Ht.
  pose proof (λ bg, client_request bg de name ps ids id ids' s Eid) as Hcall. split.
  - intros Hidle Hn. split.
    + intros Hr Hid. exact (call_answered _ de name ps ids id ids' s raw t answer rp Eid Hx Hw Ht Hidle Hn Hr Hid eq_refl).
    + pose proof (waiting_front_spec s id t Hidle Hn) as Hwf.
      pose proof (λ inc, svc_call_sends (background tr_send max_cap inc) s (request_new name ps id) raw t inc Hidle Hx eq_refl Hw Ht Hn eq_refl) as Hs.
      destruct (waiting_front s (rq_id (request_new name ps id)) t) as [h w] eqn:Ew.
      change (rq_id (request_new name ps id)) with id in Ew. rewrite Ew in Hwf. destruct Hwf as (Hiw & Hh & Htw & Hreq & Hm).
      assert (requests (bk_manager (fr_back w)) !! id = Some (PendingMethodCall (Some h))) as Hl by (by rewrite Hreq, lookup_insert_eq).
      exists (on_world_of (os_drop_rx h) w), h. unfold call. rewrite Hcall, Hs. cbn [read_loop]. rewrite Hh.
      split; [done|]. split; [exact Hiw|]. split; [exact Htw|]. split; [exact Hreq|].
      split; [unfold on_world_of, set_back, os_drop_rx; rewrite Hh; apply lookup_insert_eq|].
      intros Hr Hid. rewrite <-Hid in Hl. eexists. split; [exact (receive_answer answer rp h (fr_back (on_world_of (os_drop_rx h) w)) Hr Hl)|].
      rewrite Hid. exact Hm.
  - intros Hc incoming. eexists. unfold call. rewrite Hcall.
    rewrite (svc_call_closed (request_new name ps id) raw) by done. by split.
Qed.
End Calls.

(** ** The end of the tasks *)
Section Shutdown.

(** How far a task is from its end: [SClosed r] has closed the channel of the
    frontend, [RSending r] has left its loop; both have [r] to report. *)
Inductive SendStage : Type := SRun | SClosed (r : Result Error unit) | SDone.
Inductive ReadStage : Type := RRun | RSending (r : Result Error unit) | RDone.
Record Tasks : Type := MkTasks {
  tk_send : SendStage;
  tk_read : ReadStage;
  (** [wait_for_shutdown] still waits; it owns the receiver of [close_tx] *)
  tk_waits : bool;
  (** what is in the channel [close_tx], of capacity 1 *)
  tk_close : list (Result Error unit);
  tk_client : bool;
  (** some sender of the frontend's channel lives outside the read task: the
      client has one, and each of its subscriptions *)
  tk_handles : bool;
  tk_reason : option Error
}.
Definition tasks_new : Tasks := MkTasks SRun RRun true [] true true None.
Inductive Label : Type :=
| LSendFail (e : Error) | LReadFail (e : Error) | LDropClient | LDropHandles
| LSendStop | LSendPut | LReadStop | LReadPut | LWaitRecv | LWaitDropped.

(** [to_back.is_closed()], as the frontend sees it. *)
Definition front_closed (k : Tasks) : bool := match tk_send k with SRun => false | _ => true end.
(** [close_tx.send(res)]: waits while the channel is full, fails when nobody waits. *)
Definition close_send (r : Result Error unit) (k : Tasks) : option (list (Result Error unit)) :=
  if tk_waits k then match tk_close k with [] => Some [r] | _ => None end else Some (tk_close k).

Definition send_task (l : Label) (k : Tasks) : option Tasks :=
  let goto st close := MkTasks st (tk_read k) (tk_waits k) close (tk_client k) (tk_handles k) (tk_reason k) in
  match l, tk_send k with
  | LSendFail e, SRun => Some (goto (SClosed (Err e)) (tk_close k))
  | LSendStop, SRun =>
    if negb (tk_waits k) || (negb (tk_handles k) && match tk_read k with RDone => true | _ => false end)
    then Some (goto (SClosed (Ok ())) (tk_close k)) else None
  | LSendPut, SClosed r => goto SDone <$> close_send r k
  | _, _ => None
  end.
Definition read_task (l : Label) (k : Tasks) : option Tasks :=
  let goto st close := MkTasks (tk_send k) st (tk_waits k) close (tk_client k) (tk_handles k) (tk_reason k) in
  match l, tk_read k with
  | LReadFail e, RRun => Some (goto (RSending (Err e)) (tk_close k))
  | LReadStop, RRun => if tk_waits k then None else Some (goto (RSending (Ok ())) (tk_close k))
  | LReadPut, RSending r => goto RDone <$> close_send r k
  | _, _ => None
  end.
Definition wait_for_shutdown (l : Label) (k : Tasks) : option Tasks :=
  let finish reason := MkTasks (tk_send k) (tk_read k) false [] (tk_client k) (tk_handles k) reason in
  match l, tk_waits k with
  | LWaitRecv, true =>
    match tk_close k, tk_send k, tk_read k with
    | Err err :: _, _, _ => Some (finish (Some err))
    | Ok _ :: _, _, _ | [], SDone, RDone => Some (finish (tk_reason k))
    | _, _, _ => None
    end
  | LWaitDropped, true => if tk_client k then None else Some (finish (tk_reason k))
  | _, _ => None
  end.
Definition tasks_step (l : Label) (k : Tasks) : option Tasks :=
  match l with
  | LSendFail _ | LSendStop | LSendPut => send_task l k
  | LReadFail _ | LReadStop | LReadPut => read_task l k
  | LWaitRecv | LWaitDropped => wait_for_shutdown l k
  | LDropClient =>
    if tk_client k then Some (MkTasks (tk_send k) (tk_read k) (tk_waits k) (tk_close k) false (tk_handles k) (tk_reason k)) else None
  | LDropHandles =>
    if negb (tk_client k) && tk_handles k
    then Some (MkTasks (tk_send k) (tk_read k) (tk_waits k) (tk_close k) false false (tk_reason k)) else None
  end.
Definition run_tasks : list Label → Tasks → option Tasks := run_labels tasks_step.

(** The errors the tasks of a run failed with. *)
Definition failures : list Label → list Error :=
  omap (λ l, match l with LSendFail e | LReadFail e => Some e | _ => None end).
(** The steps the tasks take by themselves. *)
Definition internal (l : Label) : Prop :=
  match l with LSendFail _ | LReadFail _ | LDropClient | LDropHandles => False | _ => True end.
(** The reports that are under way, and the reason, are errors of the tasks. *)
Definition reports (k : Tasks) : list (Result Error unit) :=
  (match tk_send k with SClosed r => [r] | _ => [] end) ++
  (match tk_read k with RSending r => [r] | _ => [] end) ++ tk_close k ++
  (match tk_reason k with Some e => [Err e] | None => [] end).
Definition of_errors (errs : list Error) (r : Result Error unit) : Prop := ∀ e, r = Err e → e ∈ errs.
(** How far the tasks are from each other; [failed]: one of them failed.  While
    the client lives only errors are reported, and whoever waited got one. *)
Definition stages_ok (failed : bool) (k : Tasks) : bool :=
  (tk_handles k || negb (tk_client k)) &&
  match tk_waits k, tk_close k with
  | true, [] =>
    match tk_reason k with None => true | Some _ => false end &&
    match tk_send k, tk_read k with
    | SDone, _ | _, RDone => false
    | SRun, RRun => negb failed
    | SClosed (Ok _), _ | _, RSending (Ok _) => negb (tk_client k)
    | _, _ => true
    end
  | true, [r] =>
    match tk_reason k with None => true | Some _ => false end &&
    match tk_send k, tk_read k with SRun, RRun => false | _, _ => true end &&
    (negb (tk_client k) ||
     match r with Err _ => true | Ok _ => false end &&
     match tk_send k with SClosed (Ok _) => false | _ => true end &&
     match tk_read k with RSending (Ok _) => false | _ => true end)
  | true, _ => false
  | false, cl =>
    match cl with [] => true | _ => false end &&
    (negb (tk_client k) || match tk_reason k with Some _ => true | None => false end)
  end.
Definition failed_of (errs : list Error) : bool := match errs with [] => false | _ => true end.
(** What the tasks and the owners of the handles have left to do. *)
Definition tasks_left (k : Tasks) : nat :=
  (match tk_send k with SRun => 2 | SClosed _ => 1 | SDone => 0 end) +
  (match tk_read k with RRun => 2 | RSending _ => 1 | RDone => 0 end) +
  (if tk_waits k then 1 else 0) + (if tk_client k then 1 else 0) + (if tk_handles k then 1 else 0).

Lemma tasks_step_left l k k' : tasks_step l k = Some k' → tasks_left k' < tasks_left k.
Proof.
  destruct k as [st rd [] cl [] [] re], l, st, rd; cbn; unfold close_send; cbn;
    repeat (case_match; cbn; try done); intros [= <-]; unfold tasks_left; cbn; lia.
Qed.
Lemma tasks_step_stages errs l k k' : stages_ok (failed_of errs) k = true → tasks_step l k = Some k' →
  stages_ok (failed_of (errs ++ failures [l])) k' = true.
Proof.
  destruct k as [st rd [] [|[] [|]] [] [] [re|]]; cbn; try done;
    destruct l, st as [|[]|], rd as [|[]|], errs; cbn; try done; intros _ [= <-]; done.
Qed.
Lemma tasks_step_errors errs l k k' : Forall (of_errors errs) (reports k) → tasks_step l k = Some k' →
  Forall (of_errors (errs ++ failures [l])) (reports k').
Proof.
  intros H. assert (Forall (of_errors (errs ++ failures [l])) (reports k)) as H'.
  { eapply Forall_impl; [exact H|]. intros r Hr e ->. apply elem_of_app. by auto. }
  clear H. revert H'. destruct k as [st rd wt cl al hd re]. unfold reports.
  destruct l, st, rd; cbn; unfold close_send; cbn; repeat (case_match; cbn; try done); intros ? [= <-]; cbn;
    decompose_Forall_hyps; repeat first [done | apply Forall_app; split | constructor];
    intros ? [= <-]; apply elem_of_app; right; by constructor.
Qed.
Lemma run_tasks_inv ls k : run_tasks ls tasks_new = Some k →
  stages_ok (failed_of (failures ls)) k = true ∧ Forall (of_errors (failures ls)) (reports k) ∧
  length ls + tasks_left k ≤ 7.
Proof.
  revert k. induction ls as [|l ls IH] using rev_ind; intros k.
  - intros [= <-]. split; [done|]. split; [constructor|done].
  - unfold run_tasks, failures. rewrite run_labels_snoc, omap_app, length_app. cbn [length]. intros Hk.
    apply bind_Some in Hk as (k1 & Hk1 & Hk). destruct (IH _ Hk1) as (H1 & H2 & H3). split_and!.
    + by apply (tasks_step_stages _ l k1).
    + by apply (tasks_step_errors _ l k1).
    + pose proof (tasks_step_left _ _ _ Hk). lia.
Qed.
Lemma reason_of_errors errs k : Forall (of_errors errs) (reports k) → ∀ e, tk_reason k = Some e → e ∈ errs.
Proof. unfold reports. rewrite !Forall_app. intros (_ & _ & _ & H) e He. rewrite He in H. inversion_clear H. auto. Qed.

(** While the client lives, tasks that can do nothing more, and do not both run, are
    done, and the reason is there. *)
Lemma tasks_stuck failed k : stages_ok failed k = true → tk_client k = true →
  failed = true ∨ tk_send k ≠ SRun ∨ tk_read k ≠ RRun → (∀ l, internal l → tasks_step l k = None) →
  tk_send k = SDone ∧ tk_read k = RDone ∧ tk_waits k = false ∧ ∃ e, tk_reason k = Some e.
Proof.
  intros Hs Hc Hf Hstuck.
  pose proof (Hstuck LSendStop I) as K1. pose proof (Hstuck LSendPut I) as K2. pose proof (Hstuck LReadStop I) as K3.
  pose proof (Hstuck LReadPut I) as K4. pose proof (Hstuck LWaitRecv I) as K5. clear Hstuck.
  destruct k as [st rd [] [|[] [|]] [] [] [re|]]; cbn in *; try done;
    destruct st as [|[]|], rd as [|[]|]; cbn in *; try done; try (destruct Hf as [->|[]]; done); eauto.
Qed.

(** C19: when a task fails, the frontend learns why.  The tasks take at most
    seven steps to their end, however they interleave.  A reason is always an
    error a task failed with.  While the client lives and a task has failed, the
    tasks cannot stop before all of them are done, the frontend's channel is
    closed, and the reason is there; as long as it is not, the shutdown still
    waits and the error of a task is on its way to it. *)
Theorem failure_reaches_frontend (ls : list Label) (k : Tasks) : run_tasks ls tasks_new = Some k →
  length ls ≤ 7 ∧
  (∀ e, tk_reason k = Some e → e ∈ failures ls) ∧
  (tk_client k = true → failures ls ≠ [] →
    ((∀ l, internal l → tasks_step l k = None) →
       tk_send k = SDone ∧ tk_read k = RDone ∧ tk_waits k = false ∧ front_closed k = true ∧
       ∃ e, e ∈ failures ls ∧ reason_error (tk_reason k) = ErrRestartNeeded e) ∧
    (tk_reason k = None → tk_waits k = true ∧ ∃ e, e ∈ failures ls ∧ Err e ∈ reports k)).
Proof.
  intros Hk. destruct (run_tasks_inv _ _ Hk) as (Hs & Hr & Hl). split; [lia|].
  pose proof (reason_of_errors _ _ Hr) as Hre. split; [done|]. intros Hc Hne.
  assert (failed_of (failures ls) = true) as Hf by (by destruct (failures ls)). rewrite Hf in Hs. split.
  - intros Hstuck. destruct (tasks_stuck true k) as (Hsd & -> & -> & e & He); [done|done|by left|done|].
    unfold front_closed. rewrite Hsd, He. split_and!; try done. exists e. auto.
  - intros Hn. assert (tk_waits k = true ∧ ∃ e, Err e ∈ reports k) as (Hw & e & He).
    { clear Hr Hk Hl Hre. destruct k as [st rd [] [|[] [|]] [] [] [re|]]; cbn in *; try done; split; try done;
        destruct st as [|[]|], rd as [|[]|]; cbn in *; try done; eexists; unfold reports; cbn; repeat constructor. }
    split; [done|]. exists e. split; [|done]. by apply (proj1 (Forall_forall _ _) Hr _ He).
Qed.

(** The send task closes the frontend's channel before the reason is there: a
    frontend that looks in between is told that there is none. *)
Example closed_before_reason :
  let e := ErrTransport "broken pipe" in
  (λ k, (front_closed k, reason_error (tk_reason k))) <$> run_tasks [LSendFail e] tasks_new =
    Some (true, ErrCustom "Error reason could not be found. This is a bug. Please open an issue.") ∧
  (λ k, (front_closed k, reason_error (tk_reason k))) <$> run_tasks [LSendFail e; LSendPut; LWaitRecv] tasks_new =
    Some (true, ErrRestartNeeded e).
Proof. vm_compute. auto. Qed.

Lemma failure_reaches_frontend_witness :
  let e := ErrTransport "broken pipe" in let ls := [LReadFail e; LReadPut; LWaitRecv; LSendStop; LSendPut] in
  ∃ k, run_tasks ls tasks_new = Some k ∧ front_closed k = true ∧ ∃ e', e' ∈ failures ls ∧ reason_error (tk_reason k) = ErrRestartNeeded e'.
Proof.
  intros e ls. destruct (run_tasks ls tasks_new) as [k|] eqn:E; [|vm_compute in E; discriminate].
  destruct (failure_reaches_frontend ls k E) as (_ & _ & H). vm_compute in E. injection E as <-.
  destruct (H eq_refl ltac:(vm_compute; discriminate)) as [H1 _]. eexists. split; [reflexivity|].
  destruct H1 as (_ & _ & _ & Hc & He); [|split; [exact Hc|exact He]].
  intros [| | | | | | | | |]; cbn; intros []; reflexivity.
Defined.
End Shutdown.

(** ** A call over concrete texts *)
Section CallRun.
#[local] Existing Instance ref_json.
#[local] Instance front_ext : HttpExtensions := {|
  Extensions := option IsSubscription * option IsBatch;
  ext_new := (None, None);
  ext_extend a b := (match fst b with Some x => Some x | None => fst a end,
                     match snd b with Some x => Some x | None => snd a end)
|}.
#[local] Instance front_sub_ext : ExtKey IsSubscription := {| ext_get e := fst e; ext_insert x e := (Some x, snd e) |}.
#[local] Instance front_batch_ext : ExtKey IsBatch := {| ext_get e := snd e; ext_insert x e := (fst e, Some x) |}.
Definition front0 : Front (list string) :=
  MkFront (MkBack RequestManager.new (MkWorld ∅ ∅) []) [] 16 false None.
Definition front_answer : string := q "{'jsonrpc':'2.0','id':0,'result':42}".

(** Three requests: one answered, one without an answer, one after the end. *)
Lemma async_call_outcomes_witness :
  ∃ s', Client.request (svc := async_service (background log_send 2 [Ok (Text front_answer)])) read_error
    (λ raw, Ok raw) "say" (Ok (Some "[1]")) (RequestIdManager.new KNumber, front0) =
    (Ok "42", (snd (RequestIdManager.next_request_id (RequestIdManager.new KNumber)), s')) ∧
  bk_tr (fr_back s') = [q "{'jsonrpc':'2.0','id':0,'method':'say','params':[1]}"].
Proof.
  pose proof (async_call_outcomes log_send 2 (λ raw, Ok raw) "say" (Some "[1]") (RequestIdManager.new KNumber) front0
    (q "{'jsonrpc':'2.0','id':0,'method':'say','params':[1]}") [q "{'jsonrpc':'2.0','id':0,'method':'say','params':[1]}"]
    front_answer (response_new (Success "42") (IdNumber 0))) as H.
  destruct (RequestIdManager.next_request_id (RequestIdManager.new KNumber)) as [id ids] eqn:E.
  vm_compute in E. injection E as <- <-. cbv zeta in H.
  destruct H as [H _]; [reflexivity|vm_compute; reflexivity|vm_compute; reflexivity|].
  destruct H as [H _]; [vm_compute; repeat split; lia|reflexivity|].
  destruct H as (s' & H1 & _ & _ & H2); [split; vm_compute; reflexivity|reflexivity|].
  exists s'. split; [exact H1|exact H2].
Defined.
End CallRun.
