(* ===== verification/ClientLayers.v ===== *)
(** The logger in front of a client: [core/src/middleware/layer/logger.rs] over a
    client service, which the builders of all clients put there unless they are
    told otherwise ([RpcServiceBuilder::default().rpc_logger(1024)]).

    The services and the frontends of [HttpClient] and [AsyncFrontend] are used
    through [ClientService]; so is the logger. *)
From stdpp Require Import base gmap strings list.
From S2P Require Import Prelude Serde RefJson Errors Params Wire ParamsBuilder Middleware ClientCore ClientService MethodResponse Subscription RpcModule RpcService Http Layers HttpClient RequestManager AsyncClient AsyncClientProofs AsyncFrontend.

(** ** The logger over a client service *)
Section ClientLogger.
Context {J : SerdeJson} {X : HttpExtensions} {S : Type} {svc : ClientService S}.
Context (object_fmt : ErrorObject → string) (max : N).

(** [to_json] of a result: that of its value, or the text of its error. *)
Definition result_to_json {A} (ser : A → Ser) (r : Result Error A) : option string :=
  match r with Ok v => json_write (ser v) | Err e => json_write (SerStr (Error.fmt object_fmt e)) end.
(** [Serialize] of a [MiddlewareMethodResponse], and of what answers a batch. *)
Definition mm_serialize (rp : MiddlewareMethodResponse) : Ser := response_serialize SerRaw (mm_rp rp).
Definition mb_serialize (rps : list RawResponse) : Ser := SerSeq (response_serialize SerRaw <$> rps).

(** A future that is not awaited to its end, and a panic, write no second line. *)
Definition outcome_line {A} (what : string) (ser : A → Ser) (r : option (Result ClientStop A)) : option (string * option string) :=
  match r with
  | Some (Ok v) => Some (what, result_to_json ser (Ok v))
  | Some (Err (CsErr e)) => Some (what, result_to_json ser (Err e))
  | Some (Err CsPanic) | None => None
  end.
Definition log_before {A} (what : string) (json : option string) (fut : Fut (S * Log) A) : Fut (S * Log) A :=
  λ '(s, log), fut (s, log_line max what json log).
Definition log_after {A} (what : string) (ser : A → Ser) (fut : Fut (S * Log) A) : Fut (S * Log) A := λ sl,
  let '(r, (s, log)) := fut sl in
  (r, (s, match outcome_line what ser r with Some (what, json) => log_line max what json log | None => log end)).

Definition client_logger_call (request : Request) : Fut (S * Log) MiddlewareMethodResponse :=
  log_before "request" (json_write (request_serialize request))
    (log_after "response" mm_serialize (inner (cs_call request))).
Definition client_logger_batch (batch : Batch) : Fut (S * Log) (list RawResponse) :=
  log_before "batch request" (json_write (Batch.serialize batch))
    (log_after "batch response" mb_serialize (inner (cs_batch batch))).
Definition client_logger_notification (n : MwNotification) : Fut (S * Log) Extensions :=
  log_before "notification request" (json_write (mw_notification_serialize n)) (inner (cs_notification n)).
Definition client_logger : ClientService (S * Log) := {|
  cs_call := client_logger_call; cs_batch := client_logger_batch; cs_notification := client_logger_notification
|}.

Lemma log_before_only {A} what json (m : Fut S A) m' : only_logs max m m' → only_logs max m (log_before what json m').
Proof. apply only_logs_line. Qed.
Lemma log_after_only {A} what ser (m : Fut S A) m' : only_logs max m m' → only_logs max m (log_after what ser m').
Proof. intros H. exact (only_logs_after max m m' (outcome_line what ser) H). Qed.
Lemma client_call_only q : only_logs max (cs_call q) (cs_call (ClientService := client_logger) q).
Proof. apply log_before_only, log_after_only, only_logs_inner. Qed.
Lemma client_batch_only b : only_logs max (cs_batch b) (cs_batch (ClientService := client_logger) b).
Proof. apply log_before_only, log_after_only, only_logs_inner. Qed.
Lemma client_notification_only n : only_logs max (cs_notification n) (cs_notification (ClientService := client_logger) n).
Proof. apply log_before_only, only_logs_inner. Qed.

(** ** The frontends over it *)
(** An operation of a client [C] that does the same, but for the lines. *)
Definition same {C R} (m : C * S → R * (C * S)) (m' : C * (S * Log) → R * (C * (S * Log))) : Prop := ∀ c s log,
  ∃ lines, m' (c, (s, log)) = ((m (c, s)).1, ((m (c, s)).2.1, ((m (c, s)).2.2, log ++ lines))) ∧ cut_lines max lines.
Lemma same_bind {C E A B} (m : SM (C * S) E A) (m' : SM (C * (S * Log)) E A) (k : A → SM (C * S) E B) k' :
  same m m' → (∀ a, same (k a) (k' a)) → same (m ≫= k) (m' ≫= k').
Proof.
  intros H Hk c s log. destruct (H c s log) as (lines & E1 & Hl). unfold mbind, SM_bind. rewrite E1.
  destruct (m (c, s)) as [[a|e] [c1 s1]]; cbn; [|by exists lines].
  destruct (Hk a c1 s1 (log ++ lines)) as (lines' & E2 & Hl'). exists (lines ++ lines').
  split; [etransitivity; [exact E2|]; by rewrite <-app_assoc|]. by apply Forall_app.
Qed.
Lemma same_pure {C R} (r : R) : same (λ s : C * S, (r, s)) (λ s, (r, s)).
Proof. intros c s log. exists []. cbn. rewrite app_nil_r. by split; [|constructor]. Qed.
Lemma same_client {C R} (f : C → R * C) : same (λ s, let '(r, c) := f (fst s) in (r, (c, snd s))) (λ s, let '(r, c) := f (fst s) in (r, (c, snd s))).
Proof. intros c s log. exists []. cbn. rewrite app_nil_r. destruct (f c). by split; [|constructor]. Qed.
Lemma same_get {C E A} (k : C * S → SM (C * S) E A) (k' : C * (S * Log) → SM (C * (S * Log)) E A) :
  (∀ x x', fst x = fst x' → same (k x) (k' x')) → same (m ← sm_get; k m) (m ← sm_get; k' m).
Proof. intros H c s log. exact (H (c, s) (c, (s, log)) eq_refl c s log). Qed.
End ClientLogger.
Arguments same {S} max {C R} m m'.

Section Transparent.
Context {J : SerdeJson} {X : HttpExtensions} {XS : ExtKey IsSubscription} {XB : ExtKey IsBatch} {S : Type} {svc : ClientService S}.
Context (object_fmt : ErrorObject → string) (max : N).
#[local] Notation logged := (client_logger (svc := svc) object_fmt max).

Lemma same_result {C E A} (r : Result E A) : same (C := C) (S := S) max (sm_result r) (sm_result r).
Proof. apply same_pure. Qed.
Lemma same_ret {C E A} (a : A) : same (C := C) (S := S) max (mret (M := SM _ E) a) (mret (M := SM _ E) a).
Proof. apply same_pure. Qed.

(** *** Of the HTTP client *)
Lemma same_http_lift {A} (r : Result Error A) : same (S := S) max (HttpClient.lift r) (HttpClient.lift r).
Proof. apply same_pure. Qed.
Lemma same_http_err {A} e : same (S := S) max (HttpClient.err (A := A) e) (HttpClient.err e).
Proof. apply same_pure. Qed.
Lemma same_http_id : same (S := S) max HttpClient.next_request_id HttpClient.next_request_id.
Proof. apply (same_client max (λ c, let '(id, m) := RequestIdManager.next_request_id (hc_id_manager c) in
  (Ok id, MkHttpClient m (hc_request_guard c) (hc_request_timeout c)))). Qed.
Lemma same_on_service {A} (fut : Fut S A) fut' : only_logs max fut fut' →
  same max (HttpClient.on_service (run_future_until_timeout fut)) (HttpClient.on_service (run_future_until_timeout fut')).
Proof.
  intros H c s log. destruct (H s log) as (lines & E & Hl). exists lines. split; [|done].
  unfold HttpClient.on_service, run_future_until_timeout. cbn. rewrite E. by destruct (fut s) as [[r|] s'].
Qed.
Lemma same_catch {C E E' A} (m : SM (C * S) E A) m' (f : E → E') : same max m m' → same max (sm_catch m f) (sm_catch m' f).
Proof.
  intros H c s log. destruct (H c s log) as (lines & E1 & Hl). exists lines. split; [|done].
  unfold sm_catch. rewrite E1. by destruct (m (c, s)) as [[a|e] [c1 s1]].
Qed.
(** The same, waiting for a permit included. *)
Definition same_permit {A} (m : HttpClient * S → option (Result ClientStop A * (HttpClient * S)))
    (m' : HttpClient * (S * Log) → option (Result ClientStop A * (HttpClient * (S * Log)))) : Prop := ∀ c s log,
  match m (c, s) with
  | None => m' (c, (s, log)) = None
  | Some (r, (c', s')) => ∃ lines, m' (c, (s, log)) = Some (r, (c', (s', log ++ lines))) ∧ cut_lines max lines
  end.
Lemma same_with_permit {A} (m : SM (HttpClient * S) ClientStop A) m' : same max m m' →
  same_permit (HttpClient.with_permit m) (HttpClient.with_permit m').
Proof.
  intros H c s log. unfold HttpClient.with_permit. cbn. destruct (hc_request_guard c) as [g|].
  - destruct (Http.ConnectionGuard.try_acquire g) as [g'|]; [|done]. unfold HttpClient.set_guard. cbn.
    destruct (H (MkHttpClient (hc_id_manager c) (Some g') (hc_request_timeout c)) s log) as (lines & E & Hl). rewrite E.
    destruct (m _) as [r [c' s']]. cbn. by exists lines.
  - destruct (H c s log) as (lines & E & Hl). rewrite E. destruct (m _) as [r [c' s']]. by exists lines.
Qed.

(** *** Of the async client *)
Lemma same_lift {A} (r : Result Error A) : same (S := S) max (Client.lift r) (Client.lift r).
Proof. apply same_pure. Qed.
Lemma same_err {A} e : same (S := S) max (Client.err (A := A) e) (Client.err e).
Proof. apply same_pure. Qed.
Lemma same_id : same (S := S) max Client.next_request_id Client.next_request_id.
Proof. apply (same_client max (λ c, let '(id, m) := RequestIdManager.next_request_id c in (Ok id, m))). Qed.
Context (on_disconnect : S → Error).
Lemma same_run_future {A} (fut : Fut S A) fut' : only_logs max fut fut' →
  same max (Client.run_future_until_timeout on_disconnect fut) (Client.run_future_until_timeout (λ sl, on_disconnect (fst sl)) fut').
Proof.
  intros H c s log. destruct (H s log) as (lines & E & Hl). exists lines. split; [|done].
  unfold Client.run_future_until_timeout. cbn. rewrite E. by destruct (fut s) as [[[a|[[]|]]|] s'].
Qed.
End Transparent.
Create HintDb logged discriminated.
#[export] Hint Resolve same_result same_ret same_http_lift same_http_err same_http_id same_lift same_err same_id same_catch same_on_service same_run_future same_with_permit
  client_call_only client_batch_only client_notification_only : logged.

Section Clients.
Context {J : SerdeJson} {X : HttpExtensions} {XS : ExtKey IsSubscription} {XB : ExtKey IsBatch} {S : Type} {svc : ClientService S}.
Context (object_fmt : ErrorObject → string) (max : N).
#[local] Notation logged := (client_logger (svc := svc) object_fmt max).
#[local] Ltac same := cbv zeta; repeat (cbv zeta; lazymatch goal with
  | |- same _ (mbind _ sm_get) _ => apply same_get; intros [? ?] [? ?] [= <-]; cbn [fst]
  | |- same _ (mbind _ _) _ => apply same_bind; [|intros ?]
  | |- same _ (match ?x with _ => _ end) _ => destruct x
  | |- _ => solve [eauto 4 with logged nocore]
  end).

(** The logger changes nothing for the caller.  Every operation of the HTTP client
    and of the async client, over any service, gives with the logger in between
    what it gives without: the value or the error, a timeout or a wait for a permit
    included, with the same identifiers used and the same done by the service; all
    that is added are lines of the log, each cut to the limit. *)
Theorem client_logger_transparent :
  (∀ error_fmt method params, same_permit max (HttpClient.notification error_fmt method params) (HttpClient.notification (svc := logged) error_fmt method params)) ∧
  (∀ R (de : string → Result string R) method params, same_permit max (HttpClient.request de method params) (HttpClient.request (svc := logged) de method params)) ∧
  (∀ R (de : string → Result string R) batch, same_permit max (HttpClient.batch_request de batch) (HttpClient.batch_request (svc := logged) de batch)) ∧
  ∀ on_disconnect,
  (∀ method params, same max (Client.notification on_disconnect method params) (Client.notification (svc := logged) (λ s, on_disconnect (fst s)) method params)) ∧
  (∀ R (de : string → Result string R) method params, same max (Client.request on_disconnect de method params) (Client.request (svc := logged) (λ s, on_disconnect (fst s)) de method params)) ∧
  (∀ R (de : string → Result string R) batch, same max (Client.batch_request on_disconnect de batch) (Client.batch_request (svc := logged) (λ s, on_disconnect (fst s)) de batch)) ∧
  (∀ sub params unsub, same max (Client.subscribe on_disconnect sub params unsub) (Client.subscribe (svc := logged) (λ s, on_disconnect (fst s)) sub params unsub)).
Proof.
  split_and!; [| | |intros on_disconnect; split_and!]; intros; try apply same_with_permit.
  - same.
  - unfold HttpClient.request. same.
  - same.
  - unfold Client.notification. same.
  - unfold Client.request. same.
  - unfold Client.batch_request. same.
  - unfold Client.subscribe. same.
Qed.
End Clients.

(** ** A failed call in the log *)
Section LoggedRun.
#[local] Existing Instance ref_json.
#[local] Existing Instance ref_ext.
(** The response of a call that fails is the text of its error, as a string of JSON:
    cut to the limit like a response, and not to be told from one. *)
Example failed_call_logged :
  (λ o, match o with Some (r, (_, (_, log))) => Some (r, log) | None => None end)
    (HttpClient.request (svc := client_logger (svc := ex_answers []) ErrorObject.message 16) de_int "inc" (Ok (Some "[1]")) (ex_client, ((), []))) =
  Some (Err (CsErr ErrServiceDisconnect), [("request", q "{'jsonrpc':'2.0'"); ("response", q "'RPC service dis")]).
Proof. vm_compute. reflexivity. Qed.
End LoggedRun.
