(* ===== verification/AsyncSubscription.v ===== *)
(** Subscriptions of the async client from the call to the end of the stream:
    [subscribe], [unsubscribe] and [Drop] of [core/src/client/mod.rs] on the
    frontend, over the background task. *)
From stdpp Require Import base gmap strings list.
From S2P Require Import Prelude Serde RefJson Errors Params Wire ParamsBuilder Middleware ClientCore ClientService RequestManager AsyncClient AsyncClientProofs AsyncFrontend.
Import RequestManager.

(** ** [unsubscribe] and [Drop] *)
Section Ops.
Context {X : HttpExtensions} {Tr : Type} (bg : Front Tr → Front Tr).

(** [self.rx.next()] until it is [None] ([true]) or nothing is there ([false]);
    every round but the last one takes a message out of the queue. *)
Fixpoint drain (fuel rx : nat) (w : World) : bool * World :=
  match fuel with
  | 0 => (false, w)
  | S fuel =>
    let '(r, w) := chan_update (Some None) Chan.poll_next rx w in
    match r with Some (Some _) => drain fuel rx w | Some None => (true, w) | None => (false, w) end
  end.
Definition queued (rx : nat) (w : World) : nat :=
  match w_chans w !! rx with Some c => length (ch_queue c) | None => 0 end.
Definition drain_front (rx : nat) (s : Front Tr) : bool * Front Tr :=
  let w := bk_world (fr_back s) in
  let '(ended, w) := drain (S (queued rx w)) rx w in (ended, on_world_of (λ _, w) s).

(** What is there is read first; then the task waits for the background task. *)
Definition unsubscribe (sub : ClientCore.Subscription) : Fut (Front Tr) unit :=
  match closing_message (su_kind sub) with
  | None => fut_result (Err CsPanic)
  | Some msg => λ s,
    match tx_send bg msg s with
    | (None, s) => (None, s)
    | (Some _, s) =>
      let '(ended, s) := drain_front (su_rx sub) s in
      let '(ended, s) := if ended : bool then (true, s) else drain_front (su_rx sub) (bg s) in
      (if ended then Some (Ok ()) else None, s)
    end
  end.
(** [Drop], and the end of the receiver with it. *)
Definition drop_subscription (sub : ClientCore.Subscription) (s : Front Tr) : Front Tr :=
  let s :=
    match closing_message (su_kind sub) with
    | Some msg => if fr_closed s || negb (bool_decide (length (fr_queue s) < fr_cap s)) then s
                  else set_queue (fr_queue s ++ [msg]) s
    | None => s
    end in
  on_world_of (chan_drop_rx (su_rx sub)) s.
End Ops.

(** [next] as long as something is there: the items, and whether the stream ended. *)
Fixpoint next_all {X : HttpExtensions} {Notif} (fuel : nat) (de : string → Result string Notif)
    (sub : ClientCore.Subscription) (w : World)
    : list (Result string Notif) * bool * ClientCore.Subscription * World :=
  match fuel with
  | 0 => ([], false, sub, w)
  | S fuel =>
    match subscription_poll_next de sub w with
    | (Some (Some item), sub, w) =>
      let '(items, ended, sub, w) := next_all fuel de sub w in (item :: items, ended, sub, w)
    | (Some None, sub, w) => ([], true, sub, w)
    | (None, sub, w) => ([], false, sub, w)
    end
  end.

(** ** The stream of a subscription *)
Section Stream.
Context {X : HttpExtensions}.
Notation set_chan c ch w := (MkWorld (w_oneshots w) (<[c := ch]> (w_chans w))).

Lemma next_all_S {Notif} fuel (de : string → Result string Notif) sub w :
  next_all (S fuel) de sub w =
  match subscription_poll_next de sub w with
  | (Some (Some item), sub, w) =>
    let '(items, ended, sub, w) := next_all fuel de sub w in (item :: items, ended, sub, w)
  | (Some None, sub, w) => ([], true, sub, w)
  | (None, sub, w) => ([], false, sub, w)
  end.
Proof. done. Qed.
Lemma drain_S fuel rx w : drain (S fuel) rx w =
  let '(r, w) := chan_update (Some None) Chan.poll_next rx w in
  match r with Some (Some _) => drain fuel rx w | Some None => (true, w) | None => (false, w) end.
Proof. done. Qed.
(** The stream gives what is queued, decoded, in order; then it waits, or ends
    when its other end is gone. *)
Lemma next_all_spec {Notif} (de : string → Result string Notif) sub w cap vs rx tx lagged :
  w_chans w !! su_rx sub = Some (MkChan cap vs rx tx lagged) →
  next_all (S (length vs)) de sub w =
    (de <$> vs, tx, if tx then MkSubscription true (su_rx sub) (su_kind sub) else sub,
     set_chan (su_rx sub) (MkChan cap [] rx tx lagged) w).
Proof.
  revert w. induction vs as [|v vs IH]; intros w Hc; rewrite next_all_S; unfold subscription_poll_next, chan_update;
    rewrite Hc; cbn [Chan.poll_next length].
  - by destruct tx.
  - rewrite IH by apply lookup_insert_eq. cbn. by rewrite insert_insert_eq.
Qed.
Lemma drain_spec c w cap vs rx tx lagged : w_chans w !! c = Some (MkChan cap vs rx tx lagged) →
  drain (S (queued c w)) c w = (tx, set_chan c (MkChan cap [] rx tx lagged) w).
Proof.
  intros Hc. unfold queued. rewrite Hc. cbn [ch_queue]. revert w Hc. induction vs as [|v vs IH]; intros w Hc;
    rewrite drain_S; unfold chan_update; rewrite Hc; cbn [Chan.poll_next length]; [by destruct tx|].
  rewrite IH by apply lookup_insert_eq. cbn. by rewrite insert_insert_eq.
Qed.
End Stream.

Section Lifecycle.
Context {J : SerdeJson} {X : HttpExtensions} {XS : ExtKey IsSubscription} {XB : ExtKey IsBatch} {Tr : Type}.
Context (tr_send : string → Tr → Result string unit * Tr) (max_cap : nat).
Implicit Types s : Front Tr.
Notation background := (background tr_send max_cap).
Notation chan s c := (w_chans (bk_world (fr_back s)) !! c).
Notation set_chan c ch w := (MkWorld (w_oneshots w) (<[c := ch]> (w_chans w))).

(** The marker of a subscribe call is found again. *)
Definition marker_law : Prop := ∀ m : IsSubscription, ext_get (ext_insert m ext_new) = Some m.
(** Texts of messages of one subscription, with their values. *)
Definition notes (sid : SubscriptionId) (raws vs : list string) : Prop :=
  Forall2 (λ raw v, ∃ n, is_subscription_message raw n ∧ sp_subscription (nf_params n) = sid ∧ sp_value (nf_params n) = v) raws vs.
Definition texts (raws : list string) : list (Result string ReceivedMessage) := (λ raw, Ok (Text raw)) <$> raws.
(** A live subscription on a front. *)
Record live (s : Front Tr) (sid : SubscriptionId) (i u : Id) (c : nat) (unsub : string) (queue : list string) : Prop := {
  lv_idle : idle s;
  lv_active : active (fr_back s) sid i u c unsub;
  lv_reserved : requests (bk_manager (fr_back s)) !! u = Some (PendingMethodCall None);
  lv_chan : ∃ lagged, chan s c = Some (MkChan max_cap queue false false lagged)
}.

Lemma set_queue_empty s : fr_queue s = [] → set_queue [] s = s.
Proof. destruct s. cbn. by intros ->. Qed.
Lemma send_subscribe m h (b : Back (X := X) (Tr := Tr)) t : sm_send_back m = h →
  requests (bk_manager b) !! sm_subscribe_id m = None → requests (bk_manager b) !! sm_unsubscribe_id m = None →
  sm_subscribe_id m ≠ sm_unsubscribe_id m → tr_send (sm_raw m) (bk_tr b) = (Ok (), t) →
  handle_frontend_messages tr_send (FSubscribe m) max_cap b =
    (Ok (), MkBack (bk_manager (with_requests (<[sm_unsubscribe_id m := PendingMethodCall None]>
       (<[sm_subscribe_id m := PendingSubscription (sm_unsubscribe_id m, h, sm_unsubscribe_method m)]> (requests (bk_manager b)))) b))
       (bk_world b) t).
Proof.
  intros <- H1 H2 Hne Ht. cbn [handle_frontend_messages]. unfold mbind, SM_bind, on_manager, insert_pending_subscription.
  rewrite !(proj2 (vacant_None _ _)), bool_decide_eq_true_2 by done. cbn. unfold send_raw. cbn. by rewrite Ht.
Qed.

(** Messages of the subscription queue up while there is room. *)
Lemma read_notes sid i u c unsub raws vs s queue : notes sid raws vs → live s sid i u c unsub queue →
  length queue + length vs ≤ max_cap →
  let s' := read_loop max_cap (texts raws) s in
  live s' sid i u c unsub (queue ++ vs) ∧ bk_tr (fr_back s') = bk_tr (fr_back s) ∧
  w_oneshots (bk_world (fr_back s')) = w_oneshots (bk_world (fr_back s)).
Proof.
  intros Hn. cbv zeta. revert s queue. induction Hn as [|raw v raws vs (n & Hn & Hs & Hv) _ IH]; intros s queue Hl Hlen; cbn in Hlen.
  - by rewrite app_nil_r.
  - destruct Hl as [Hi Ha Hu [lagged Hc]]. cbn [texts fmap list_fmap read_loop].
    rewrite <-Hs in Ha. rewrite (notification_queued raw n max_cap (fr_back s) i u c unsub max_cap queue false lagged Hn Ha Hc).
    rewrite decide_True by lia. rewrite Hs in Ha. rewrite Hv, app_nil_r.
    match goal with |- live (read_loop _ _ ?s1) _ _ _ _ _ _ ∧ _ ∧ _ => assert (live s1 sid i u c unsub (queue ++ [v])) as Hl1 end.
    { split; [exact Hi|exact Ha|exact Hu|]. exists lagged. cbn. apply lookup_insert_eq. }
    destruct (IH _ _ Hl1) as [H1 H2]; [rewrite length_app; cbn; lia|]. split; [by rewrite <-app_assoc in H1|exact H2].
Qed.
Lemma background_notes sid i u c unsub raws vs s queue : notes sid raws vs → live s sid i u c unsub queue →
  length queue + length vs ≤ max_cap →
  live (background (texts raws) s) sid i u c unsub (queue ++ vs) ∧
  bk_tr (fr_back (background (texts raws) s)) = bk_tr (fr_back s).
Proof.
  intros Hn Hl Hlen. pose proof Hl as [(Hq & Hc & _) _ _ _]. unfold AsyncFrontend.background. rewrite Hc, Hq. cbn [send_loop].
  rewrite set_queue_empty, Hc by done. by destruct (read_notes sid i u c unsub raws vs s queue Hn Hl Hlen) as (? & ? & _).
Qed.

(** The message that closes the subscription reaches the background task; the
    answer to the unsubscribe call may follow. *)
Definition acknowledges (u : Id) (ack : list string) : Prop :=
  Forall (λ raw, ∃ rp, is_response raw rp ∧ rp_id rp = u) ack ∧ length ack ≤ 1.
Lemma background_closes s sid i u c unsub msg t ack : idle s → active (fr_back s) sid i u c unsub →
  requests (bk_manager (fr_back s)) !! u = Some (PendingMethodCall None) → acknowledges u ack →
  unsubscribe_request u unsub sid = Ok (Some msg) → tr_send (rm_raw msg) (bk_tr (fr_back s)) = (Ok (), t) →
  let s' := background (texts ack) (set_queue [FSubscriptionClosed sid] s) in
  idle s' ∧ bk_tr (fr_back s') = t ∧ subscriptions (bk_manager (fr_back s')) !! sid = None ∧
  chan s' c = Chan.drop_tx <$> chan s c.
Proof.
  intros (Hq & Hcl & Hcap) Ha Hu [Hack Hlen] Hm Ht s'.
  destruct (close_active tr_send max_cap (fr_back s) sid i u c unsub msg Ha Hm) as [H1 H2].
  unfold s', AsyncFrontend.background. cbn [set_queue fr_closed fr_queue]. rewrite Hcl. cbn [send_loop fr_back set_queue].
  rewrite H1. unfold send_raw. change (bk_tr (forgotten sid i c (fr_back s))) with (bk_tr (fr_back s)). rewrite Ht.
  cbn [map_err set_queue set_back fr_closed fr_back fr_queue fr_cap fr_reason]. rewrite Hcl.
  set (b := MkBack _ _ t).
  assert (w_chans (bk_world b) !! c = Chan.drop_tx <$> chan s c) as Hch.
  { cbn. unfold chan_drop_tx, chan_update. destruct (chan s c) eqn:Hc; cbn; [apply lookup_insert_eq|done]. }
  destruct Hack as [|raw ack (rp & Hr & Hid) Hack]; [|destruct ack; [|cbn in Hlen; lia]]; cbn [texts fmap list_fmap read_loop].
  - by split_and!.
  - assert (requests (bk_manager b) !! rp_id rp = Some (PendingMethodCall None)) as Hp.
    { rewrite Hid. subst b. cbn. unfold RequestManager.unsubscribe. destruct Ha as [Hs Hreq]. rewrite Hreq, Hs. cbn.
      destruct (decide (i = u)) as [->|]; [by rewrite lookup_insert_eq|]. by rewrite lookup_insert_ne, ?lookup_delete_ne. }
    cbn [fr_back set_queue set_back]. rewrite (receive_ack raw rp max_cap b Hr Hp). cbn [fr_queue app set_queue set_back fr_closed fr_cap fr_back].
    split; [by split_and!|]. split; [done|]. split; [exact H2|exact Hch].
Qed.

(** A subscribe call waits under its identifier; the one of the unsubscribe call is
    reserved. *)
Definition waiting_subscribe s (m : IsSubscription) (t : Tr) : nat * Front Tr :=
  let h := fresh (dom (w_oneshots (bk_world (fr_back s)))) in
  (h, set_queue [] (set_back (MkBack
        (bk_manager (with_requests (<[is_unsub_id m := PendingMethodCall None]>
          (<[is_sub_id m := PendingSubscription (is_unsub_id m, h, is_unsub_method m)]> (requests (bk_manager (fr_back s))))) (fr_back s)))
        (MkWorld (<[h := Waiting]> (w_oneshots (bk_world (fr_back s)))) (w_chans (bk_world (fr_back s)))) t) s)).
(** The front when the subscribe call is queued. *)
Definition queued_subscribe s (m : IsSubscription) (raw : string) : Front Tr :=
  let h := fresh (dom (w_oneshots (bk_world (fr_back s)))) in
  set_queue [FSubscribe (MkSubscriptionMessage raw (is_sub_id m) (is_unsub_id m) (is_unsub_method m) h)]
    (on_world_of (λ w, MkWorld (<[h := Waiting]> (w_oneshots w)) (w_chans w)) s).
Lemma svc_call_subscribes bg s q m raw t incoming : idle s → ext_get (rq_extensions q) = Some m →
  json_write (request_serialize q) = Some raw → tr_send raw (bk_tr (fr_back s)) = (Ok (), t) →
  requests (bk_manager (fr_back s)) !! is_sub_id m = None → requests (bk_manager (fr_back s)) !! is_unsub_id m = None →
  is_sub_id m ≠ is_unsub_id m →
  bg (queued_subscribe s m raw) = background incoming (queued_subscribe s m raw) →
  let '(h, w) := waiting_subscribe s m t in
  let w := read_loop max_cap incoming w in
  svc_call bg q s =
    match w_oneshots (bk_world (fr_back w)) !! h with
    | Some (Sent r) =>
      match sub_reply r with
      | Ok (rx, sub_id) =>
        match json_write (SubscriptionId.serialize sub_id) with
        | Some rp => (Some (Ok (mm_subscription_response (response_new (ResponsePayload.success rp) (Id.into_owned (rq_id q)))
                                 (MkSubscriptionResponse sub_id rx))), w)
        | None => (Some (Err (CsErr (ErrParseError (json_errmsg "")))), w)
        end
      | Err e => (Some (Err e), w)
      end
    | Some TxDropped => (Some (Err (CsErr ErrServiceDisconnect)), w)
    | _ => (None, on_world_of (os_drop_rx h) w)
    end.
Proof.
  destruct s as [[mg w tr] queue cap closed reason]. unfold idle. cbn. intros (-> & -> & Hcap) Hx Hw Ht Hn1 Hn2 Hne Hbg.
  unfold svc_call, ser_text. rewrite Hw, Hx.
  unfold mbind, fut_bind, fut_result, oneshot_new, tx_send, on_world_of, set_back. cbn.
  do 2 (rewrite (bool_decide_true (0 < cap)) by done; cbn).
  unfold oneshot_recv. match type of Hbg with bg ?f = _ => match goal with |- context [bg ?x] => change x with f end end.
  rewrite Hbg. unfold AsyncFrontend.background, queued_subscribe, on_world_of, set_back.
  cbn [fr_closed fr_queue set_queue send_loop fr_back].
  erewrite (send_subscribe (MkSubscriptionMessage raw (is_sub_id m) (is_unsub_id m) (is_unsub_method m) _) _ _ t);
    [|reflexivity|exact Hn1|exact Hn2|exact Hne|exact Ht].
  unfold set_queue, set_back. cbn [fr_closed fr_back fr_queue fr_cap fr_reason bk_world bk_manager bk_tr
    sm_subscribe_id sm_unsubscribe_id sm_unsubscribe_method].
  destruct (w_oneshots _ !! _) as [[| | |r]|]; [done..| |done]. destruct (sub_reply r) as [[rx sid]|]; [|done].
  by destruct (json_write (SubscriptionId.serialize sid)).
Qed.

(** The call that subscribes; messages of the subscription may follow the answer. *)
Lemma client_subscribes bg (ids ids1 ids2 : RequestIdManager) (id1 id2 : Id) s (name unsub : string) (ps : option string)
    raw t answer rp res sid sid_text raws vs :
  let m := MkIsSubscription id1 id2 unsub in
  RequestIdManager.next_request_id ids = (id1, ids1) → RequestIdManager.next_request_id ids1 = (id2, ids2) →
  marker_law → name ≠ unsub → id1 ≠ id2 → idle s →
  requests (bk_manager (fr_back s)) !! id1 = None → requests (bk_manager (fr_back s)) !! id2 = None →
  json_write (request_serialize (MkRequest V2 id1 name ps (ext_insert m ext_new))) = Some raw →
  tr_send raw (bk_tr (fr_back s)) = (Ok (), t) →
  is_response answer rp → rp_id rp = id1 → rp_payload rp = Success res →
  SubscriptionId.deserialize res = Some sid → json_write (SubscriptionId.serialize sid) = Some sid_text →
  subscriptions (bk_manager (fr_back s)) !! sid = None →
  notes sid raws vs → length vs ≤ max_cap →
  bg (queued_subscribe s m raw) = background (texts (answer :: raws)) (queued_subscribe s m raw) →
  ∃ c s1, Client.subscribe (svc := async_service bg) read_error name (Ok ps) unsub (ids, s) =
    (Ok (subscription_new c (KindSubscription sid)), (ids2, s1)) ∧
    live s1 sid id1 id2 c unsub vs ∧ bk_tr (fr_back s1) = t.
Proof.
  intros m E1 E2 Hmark Hname Hne (Hq & Hcl & Hcap) Hn1 Hn2 Hw Ht Hr Hid Hp Hd Hsw Hsub Hnotes Hlen Hbg.
  set (q := MkRequest V2 id1 name ps (ext_insert m ext_new)) in *.
  pose proof (svc_call_subscribes bg s q m raw t _ (conj Hq (conj Hcl Hcap)) (Hmark m) Hw Ht Hn1 Hn2 Hne Hbg) as Hs.
  unfold waiting_subscribe in Hs. cbn [texts fmap list_fmap read_loop is_sub_id is_unsub_id is_unsub_method m] in Hs.
  set (h := fresh (dom (w_oneshots (bk_world (fr_back s))))) in *.
  match type of Hs with context [handle_backend_messages _ _ (fr_back ?s0)] => set (s1 := s0) in * end.
  destruct (subscribe_accepted answer rp res sid max_cap (fr_back s1) id2 h unsub) as [Hb Ha]; try done.
  { cbn. rewrite Hid, lookup_insert_ne, lookup_insert_eq by done. done. }
  { cbn. by rewrite lookup_insert_eq. }
  rewrite Hb in Hs. set (c := fresh (dom (w_chans (bk_world (fr_back s1))))) in *. rewrite Hid in *.
  match type of Hs with context [read_loop _ _ ?s0] => set (s2 := s0) in * end.
  assert (live s2 sid id1 id2 c unsub []) as Hl.
  { split; [by split_and!|exact Ha| |].
    - cbn. by rewrite lookup_insert_ne, lookup_delete_ne, lookup_insert_eq by done.
    - exists false. cbn. apply lookup_insert_eq. }
  destruct (read_notes sid id1 id2 c unsub raws vs s2 [] Hnotes Hl Hlen) as (Hl2 & Htr & Hos).
  change ((λ raw, Ok (Text raw)) <$> raws) with (texts raws) in Hs.
  assert (w_oneshots (bk_world (fr_back s2)) !! h = Some (Sent (RSub (Ok (c, sid))))) as Hh by (cbn; apply lookup_insert_eq).
  rewrite Hos, Hh in Hs. eexists c, _. split; [|split].
  - unfold Client.subscribe. rewrite decide_False by done.
    unfold mbind, SM_bind, Client.next_request_id. cbn [fst snd]. rewrite E1. cbn [fst snd]. rewrite E2. cbn [snd].
    unfold Client.lift, sm_result, Client.run_future_until_timeout. cbn [map_err fst snd cs_call async_service].
    change (svc_call _ _ s) with (svc_call bg q s). rewrite Hs.
    cbn [sub_reply map_err]. rewrite Hsw. cbn. reflexivity.
  - exact Hl2.
  - exact Htr.
Qed.

(** [unsubscribe] sends the one call and ends when the background task is done. *)
Definition closing_front s (sid : SubscriptionId) (c : nat) (lagged : bool) : Front Tr :=
  set_queue [FSubscriptionClosed sid] (on_world_of (λ w, set_chan c (MkChan max_cap [] false false lagged) w) s).
Lemma unsubscribe_live bg s sid i u c unsub queue msg t sub ack lagged : live s sid i u c unsub queue →
  chan s c = Some (MkChan max_cap queue false false lagged) → acknowledges u ack →
  su_rx sub = c → su_kind sub = Some (KindSubscription sid) →
  unsubscribe_request u unsub sid = Ok (Some msg) → tr_send (rm_raw msg) (bk_tr (fr_back s)) = (Ok (), t) →
  bg (closing_front s sid c lagged) = background (texts ack) (closing_front s sid c lagged) →
  ∃ s', unsubscribe bg sub s = (Some (Ok ()), s') ∧ idle s' ∧ bk_tr (fr_back s') = t ∧
    subscriptions (bk_manager (fr_back s')) !! sid = None ∧
    chan s' c = Some (MkChan max_cap [] false true lagged).
Proof.
  intros [Hi Ha Hu _] Hc Hack Hrx Hk Hm Ht Hbg. pose proof Hi as (Hq & Hcl & Hcap).
  unfold unsubscribe. rewrite Hk. cbn [closing_message]. unfold tx_send. rewrite Hcl, Hq. cbn [orb].
  rewrite bool_decide_eq_true_2 by (cbn; lia). rewrite Hcl, bool_decide_eq_true_2 by (rewrite Hq; cbn; lia).
  rewrite Hq, Hrx. cbn [app]. unfold drain_front at 1. cbn [fr_back set_queue].
  rewrite (drain_spec c _ _ _ _ _ _ Hc).
  change (on_world_of _ _) with (closing_front s sid c lagged). rewrite Hbg.
  set (s1 := on_world_of (λ w, set_chan c (MkChan max_cap [] false false lagged) w) s).
  change (closing_front s sid c lagged) with (set_queue [FSubscriptionClosed sid] s1).
  destruct (background_closes s1 sid i u c unsub msg t ack) as (Hi' & Ht' & Hs' & Hc'); [by split_and!|exact Ha|exact Hu|done|done|exact Ht|].
  unfold drain_front. cbn in Hc'. rewrite lookup_insert_eq in Hc'. cbn in Hc'.
  rewrite (drain_spec c _ _ _ _ _ _ Hc'). eexists. split; [reflexivity|].
  destruct (background _ (set_queue [FSubscriptionClosed sid] s1)) as [[mg w tr] qu cap closed reason].
  split; [exact Hi'|]. split; [exact Ht'|]. split; [exact Hs'|]. cbn. apply lookup_insert_eq.
Qed.

(** C10: a subscription of the async client from its call to its end.  The call
    gives a stream; what the server sends for it meanwhile, as far as its buffer
    holds it, is read from the stream, decoded, whole and in order; unsubscribing
    sends exactly one more text, the unsubscribe call under the identifier that was
    reserved, and returns when the stream has ended and the client has forgotten
    the subscription. *)
Theorem subscription_lifecycle {Notif} (de : string → Result string Notif) (ids ids1 ids2 : RequestIdManager)
    (id1 id2 : Id) s (name unsub : string) (ps : option string) raw t answer rp res sid sid_text
    (raws vs : list string) msg t2 :
  RequestIdManager.next_request_id ids = (id1, ids1) → RequestIdManager.next_request_id ids1 = (id2, ids2) →
  marker_law → name ≠ unsub → id1 ≠ id2 → idle s →
  requests (bk_manager (fr_back s)) !! id1 = None → requests (bk_manager (fr_back s)) !! id2 = None →
  json_write (request_serialize (MkRequest V2 id1 name ps (ext_insert (MkIsSubscription id1 id2 unsub) ext_new))) = Some raw →
  tr_send raw (bk_tr (fr_back s)) = (Ok (), t) →
  is_response answer rp → rp_id rp = id1 → rp_payload rp = Success res →
  SubscriptionId.deserialize res = Some sid → json_write (SubscriptionId.serialize sid) = Some sid_text →
  subscriptions (bk_manager (fr_back s)) !! sid = None →
  notes sid raws vs → length vs ≤ max_cap →
  unsubscribe_request id2 unsub sid = Ok (Some msg) → tr_send (rm_raw msg) t = (Ok (), t2) →
  ∃ sub s1, Client.subscribe (svc := async_service (background (texts [answer]))) read_error name (Ok ps) unsub (ids, s) =
    (Ok sub, (ids2, s1)) ∧ bk_tr (fr_back s1) = t ∧ su_kind sub = Some (KindSubscription sid) ∧
  let s2 := background (texts raws) s1 in
  ∃ w, next_all (S (length vs)) de sub (bk_world (fr_back s2)) = (de <$> vs, false, sub, w) ∧
  ∃ s3, unsubscribe (background []) sub (on_world_of (λ _, w) s2) = (Some (Ok ()), s3) ∧
    idle s3 ∧ bk_tr (fr_back s3) = t2 ∧ subscriptions (bk_manager (fr_back s3)) !! sid = None ∧
    ∃ sub' w', next_all 1 de sub (bk_world (fr_back s3)) = ([], true, sub', w').
Proof.
  intros E1 E2 Hmark Hname Hne Hi Hn1 Hn2 Hw Ht Hr Hid Hp Hd Hsw Hsub Hnotes Hlen Hm Ht2.
  destruct (client_subscribes (background (texts [answer])) ids ids1 ids2 id1 id2 s name unsub ps raw t answer rp res sid sid_text [] [])
    as (c & s1 & Hcall & Hl & Ht1); try done; [by constructor|cbn; lia|].
  exists (subscription_new c (KindSubscription sid)), s1. split; [exact Hcall|]. split; [done|]. split; [done|].
  destruct (background_notes sid id1 id2 c unsub raws vs s1 [] Hnotes Hl Hlen) as [Hl2 Htr]. cbn [app] in Hl2.
  set (s2 := background (texts raws) s1) in *. destruct Hl2 as [Hi2 Ha2 Hu2 [lagged Hc2]].
  eexists. split; [apply (next_all_spec de (subscription_new c (KindSubscription sid)) _ _ _ _ _ _ Hc2)|].
  cbn [su_rx subscription_new].
  match goal with |- context [unsubscribe _ _ ?s'] => set (s2' := s') end.
  assert (chan s2' c = Some (MkChan max_cap [] false false lagged)) as Hc2' by (cbn; apply lookup_insert_eq).
  assert (live s2' sid id1 id2 c unsub []) as Hl3 by (split; [exact Hi2|exact Ha2|exact Hu2|by exists lagged]).
  destruct (unsubscribe_live (background []) s2' sid id1 id2 c unsub [] msg t2 (subscription_new c (KindSubscription sid)) [] lagged Hl3 Hc2')
    as (s3 & Hu & Hi3 & Ht3 & Hs3 & Hc3); [by split; [constructor|cbn; lia]|done|done|exact Hm|cbn; by rewrite Htr, Ht1|done|].
  exists s3. split; [exact Hu|]. split; [exact Hi3|]. split; [exact Ht3|]. split; [exact Hs3|].
  eexists _, _. apply (next_all_spec de (subscription_new c (KindSubscription sid)) _ _ [] _ _ _ Hc3).
Qed.

(** A stream that is dropped unsubscribes as well: at once when the channel to the
    background task has room, and otherwise when the next message arrives. *)
Theorem dropped_stream_unsubscribes s sid i u c unsub queue msg t sub raw v : live s sid i u c unsub queue →
  su_rx sub = c → su_kind sub = Some (KindSubscription sid) → notes sid [raw] [v] →
  unsubscribe_request u unsub sid = Ok (Some msg) → tr_send (rm_raw msg) (bk_tr (fr_back s)) = (Ok (), t) →
  let closed s' := idle s' ∧ bk_tr (fr_back s') = t ∧ subscriptions (bk_manager (fr_back s')) !! sid = None in
  closed (background [] (drop_subscription sub s)) ∧
  (∀ q, length q = fr_cap s →
     let full := drop_subscription sub (set_queue q s) in
     full = set_queue q (on_world_of (chan_drop_rx c) s) ∧
     closed (background [] (background (texts [raw]) (set_queue [] full)))).
Proof.
  intros [Hi Ha Hu [lagged Hc]] Hrx Hk Hn Hm Ht closed. pose proof Hi as (Hq & Hcl & Hcap).
  set (s0 := on_world_of (chan_drop_rx c) s).
  assert (idle s0) as Hi0 by (by split_and!). assert (active (fr_back s0) sid i u c unsub) as Ha0 by exact Ha.
  destruct (background_closes s0 sid i u c unsub msg t [] Hi0 Ha0 Hu) as (H1 & H2 & H3 & _); [by split; [constructor|cbn; lia]|done..|].
  unfold drop_subscription. rewrite Hk, Hrx. cbn [closing_message]. split.
  - rewrite Hcl, Hq, bool_decide_eq_true_2 by (cbn; lia). cbn [orb negb app]. by split_and!.
  - intros qu Hqu. cbn [set_queue fr_closed fr_queue fr_cap]. rewrite Hcl, bool_decide_eq_false_2 by lia. cbn [orb negb].
    split; [done|]. cbn [set_queue on_world_of set_back].
    match goal with |- closed (background [] (background _ ?s')) => assert (s' = s0) as -> end.
    { unfold s0, set_queue, on_world_of, set_back. cbn. by rewrite Hq. }
    inversion Hn as [|? ? ? ? (n & Hn1 & Hn2 & Hn3) _]; subst.
    assert (background (texts [raw]) s0 = set_queue [FSubscriptionClosed (sp_subscription (nf_params n))] s0) as ->; [|by split_and!].
    pose proof Hi0 as (Hq0 & Hcl0 & _). unfold AsyncFrontend.background. rewrite Hcl0, Hq0. cbn [send_loop].
    rewrite set_queue_empty, Hcl0 by done.
    cbn [texts fmap list_fmap read_loop].
    erewrite (notification_queued raw n max_cap _ i u _ unsub max_cap [] true lagged Hn1 Ha0).
    { unfold set_queue, set_back. cbn [fr_back fr_queue fr_cap fr_closed fr_reason]. by rewrite Hq0. }
    cbn. unfold chan_drop_rx, chan_update. rewrite Hc. cbn. apply lookup_insert_eq.
Qed.
End Lifecycle.

(** ** A subscription over concrete texts *)
Section SubscriptionRun.
#[local] Existing Instance ref_json.
#[local] Existing Instance front_ext.
#[local] Existing Instance front_sub_ext.
#[local] Existing Instance front_batch_ext.
Definition sub_text : string := q "{'jsonrpc':'2.0','id':0,'method':'sub','params':[]}".
Definition sub_answer : string := q "{'jsonrpc':'2.0','id':0,'result':7}".
Definition sub_note (v : string) : string :=
  q "{'jsonrpc':'2.0','method':'n','params':{'subscription':7,'result':" +:+ v +:+ "}}".
Lemma sub_notes : notes (SubNum 7) [sub_note "1"; sub_note "2"] ["1"; "2"].
Proof.
  repeat constructor; eexists (MkNotification V2 "n" (MkSubscriptionPayload _ _) _);
    (split; [split; [vm_compute; reflexivity|split; vm_compute; reflexivity]|split; reflexivity]).
Qed.

Lemma subscription_lifecycle_witness :
  ∃ sub s1, Client.subscribe (svc := async_service (background log_send 2 (texts [sub_answer]))) read_error "sub" (Ok (Some "[]")) "unsub"
      (RequestIdManager.new KNumber, front0) = (Ok sub, (snd (RequestIdManager.next_request_id (snd (RequestIdManager.next_request_id (RequestIdManager.new KNumber)))), s1)) ∧
    ∃ w, next_all 3 (λ v, Ok v) sub (bk_world (fr_back (background log_send 2 (texts [sub_note "1"; sub_note "2"]) s1))) =
      ([Ok "1"; Ok "2"], false, sub, w).
Proof.
  destruct (subscription_lifecycle log_send 2 (λ v, Ok v) (RequestIdManager.new KNumber)
    (snd (RequestIdManager.next_request_id (RequestIdManager.new KNumber)))
    (snd (RequestIdManager.next_request_id (snd (RequestIdManager.next_request_id (RequestIdManager.new KNumber)))))
    (IdNumber 0) (IdNumber 1) front0 "sub" "unsub" (Some "[]") sub_text [sub_text] sub_answer
    (response_new (Success "7") (IdNumber 0)) "7" (SubNum 7) "7" [sub_note "1"; sub_note "2"] ["1"; "2"]
    (MkRequestMessage unsub_text (IdNumber 1) None) [sub_text; unsub_text]) as (sub & s1 & H1 & _ & _ & w & H2 & _).
  - vm_compute. reflexivity.
  - vm_compute. reflexivity.
  - intros m. reflexivity.
  - vm_compute. discriminate.
  - vm_compute. discriminate.
  - vm_compute. repeat split; lia.
  - reflexivity.
  - reflexivity.
  - vm_compute. reflexivity.
  - vm_compute. reflexivity.
  - split; vm_compute; reflexivity.
  - reflexivity.
  - reflexivity.
  - vm_compute. reflexivity.
  - vm_compute. reflexivity.
  - reflexivity.
  - apply sub_notes.
  - vm_compute. lia.
  - vm_compute. reflexivity.
  - vm_compute. reflexivity.
  - exists sub, s1. split; [exact H1|]. exists w. exact H2.
Defined.
End SubscriptionRun.
