(* ===== verification/AsyncTasks.v ===== *)
(** The select loops of the async client: [send_task] and [read_task] of
    [core/src/client/async_client/mod.rs], turn by turn.

    [AsyncFrontend.v] runs the background task as a function, [background], and has
    the ends of the tasks as a system of their own, [tasks_step].  Here every turn of
    the two loops is a step, with the branch its [select!] takes: a branch is taken
    only when those before it are not ready.  The loops do what the frontend, the
    server and the clocks ask for, until there is a reason to end, and their ends are
    runs of [tasks_step] ([client_loops_exact]); [background] is one of their
    schedules ([background_runs]). *)
From stdpp Require Import base gmap strings list.
From S2P Require Import Prelude Serde RefJson Errors Params Wire ParamsBuilder Middleware ClientCore ClientService RequestManager AsyncClient AsyncClientProofs AsyncFrontend AsyncSubscription.
Import RequestManager.

#[export] Instance front_to_back_eq_dec : EqDecision FrontToBack.
Proof. intros x y. unfold Decision. repeat decide equality. Defined.
#[export] Instance received_message_eq_dec : EqDecision ReceivedMessage.
Proof. solve_decision. Defined.

Section Loops.
Context {J : SerdeJson} {X : HttpExtensions} {Tr : Type}.
(** [TransportSenderT]: [send], [send_ping] and [close]. *)
Context (tr_send : string → Tr → Result string unit * Tr) (tr_ping : Tr → Result string unit * Tr)
  (tr_close : Tr → Tr) (max_cap : nat).

(** The table, the channels and the transport; the channel of the frontend, with the
    places that are reserved in it; what the transport's receiver has to give; the
    messages [pending_unsubscribes] holds; the inactivity check; and how far the
    tasks are. *)
Record Loops : Type := MkLoops {
  lo_back : Back (X := X) (Tr := Tr);
  lo_queue : list FrontToBack;
  lo_cap : nat;
  lo_reserved : nat;
  lo_incoming : list (Result string ReceivedMessage);
  lo_pending : list FrontToBack;
  lo_check : InactivityCheck;
  lo_tasks : Tasks
}.
(** A turn: what the frontend, the server and the holders of the other ends of the
    channels do, the branch a select takes, with the message it has taken, a report
    of a task, and the shutdown. *)
Inductive Turn : Type :=
| TuOneshot | TuReserve | TuFront (m : FrontToBack)
| TuArrive (msg : Result string ReceivedMessage)
| TuHolder (e : Event)
| TuSendClosed | TuSendRecv (m : FrontToBack) | TuSendNone | TuSendPing | TuSendPut
| TuReadClosed | TuReadSent (i : nat) (m : FrontToBack)
| TuReadMessage (now : N) (msg : Result string ReceivedMessage) | TuReadTick (now : N) | TuReadPut
| TuShutdown (lab : Label).

Definition with_back b (l : Loops) : Loops :=
  MkLoops b (lo_queue l) (lo_cap l) (lo_reserved l) (lo_incoming l) (lo_pending l) (lo_check l) (lo_tasks l).
Definition with_queue q (l : Loops) : Loops :=
  MkLoops (lo_back l) q (lo_cap l) (lo_reserved l) (lo_incoming l) (lo_pending l) (lo_check l) (lo_tasks l).
Definition with_reserved n (l : Loops) : Loops :=
  MkLoops (lo_back l) (lo_queue l) (lo_cap l) n (lo_incoming l) (lo_pending l) (lo_check l) (lo_tasks l).
Definition with_incoming ms (l : Loops) : Loops :=
  MkLoops (lo_back l) (lo_queue l) (lo_cap l) (lo_reserved l) ms (lo_pending l) (lo_check l) (lo_tasks l).
Definition with_pending ms (l : Loops) : Loops :=
  MkLoops (lo_back l) (lo_queue l) (lo_cap l) (lo_reserved l) (lo_incoming l) ms (lo_check l) (lo_tasks l).
Definition with_check c (l : Loops) : Loops :=
  MkLoops (lo_back l) (lo_queue l) (lo_cap l) (lo_reserved l) (lo_incoming l) (lo_pending l) c (lo_tasks l).
Definition with_tasks k (l : Loops) : Loops :=
  MkLoops (lo_back l) (lo_queue l) (lo_cap l) (lo_reserved l) (lo_incoming l) (lo_pending l) (lo_check l) k.
Definition with_send st (l : Loops) : Loops :=
  let k := lo_tasks l in
  with_tasks (MkTasks st (tk_read k) (tk_waits k) (tk_close k) (tk_client k) (tk_handles k) (tk_reason k)) l.
Definition with_read st (l : Loops) : Loops :=
  let k := lo_tasks l in
  with_tasks (MkTasks (tk_send k) st (tk_waits k) (tk_close k) (tk_client k) (tk_handles k) (tk_reason k)) l.
Definition on_channels (f : World → World) (l : Loops) : Loops :=
  let b := lo_back l in with_back (MkBack (bk_manager b) (f (bk_world b)) (bk_tr b)) l.

(** *** What is dropped *)

(** The sender of a message that is dropped unread. *)
Definition send_back_of (m : FrontToBack) : option nat :=
  match m with
  | FBatch b => Some (bm_send_back b)
  | FRequest r => rm_send_back r
  | FSubscribe s => Some (sm_send_back s)
  | FRegisterNotification r => Some (rn_send_back r)
  | _ => None
  end.
Definition drop_messages (ms : list FrontToBack) (w : World) : World :=
  foldl (λ w m, match send_back_of m with Some h => os_drop_tx h w | None => w end) w ms.
(** The senders a table holds. *)
Definition drop_request (k : Kind) (w : World) : World :=
  match k with
  | PendingMethodCall (Some h) => os_drop_tx h w
  | PendingMethodCall None => w
  | PendingSubscription (_, h, _) => os_drop_tx h w
  | RequestManager.Subscription (_, sink, _) => chan_drop_tx sink w
  end.
Definition drop_manager (m : RequestManager) (w : World) : World :=
  let w := foldr drop_request w (map_to_list (requests m)).*2 in
  let w := foldr os_drop_tx w (map_to_list (batches m)).*2 in
  foldr chan_drop_tx w (map_to_list (notification_handlers m)).*2.
(** The table is shared by the two tasks, and dropped with the second one. *)
Definition release_table (l : Loops) : Loops :=
  match tk_send (lo_tasks l), tk_read (lo_tasks l) with
  | SDone, RDone =>
    let b := lo_back l in
    with_back (MkBack RequestManager.new (drop_manager (bk_manager b) (bk_world b)) (bk_tr b)) l
  | _, _ => l
  end.
(** A task is over: its locals are dropped. *)
Definition send_over (l : Loops) : Loops := release_table (with_queue [] (on_channels (drop_messages (lo_queue l)) l)).
Definition read_over (l : Loops) : Loops := release_table (with_pending [] (on_channels (drop_messages (lo_pending l)) l)).

(** *** [send_task] *)

(** [close_tx.closed()]: nobody waits for a report any more. *)
Definition closed (l : Loops) : bool := negb (tk_waits (lo_tasks l)).
(** Out of the loop: the channel and the transport are closed. *)
Definition leave_send (r : Result Error unit) (l : Loops) : Loops :=
  let b := lo_back l in with_send (SClosed r) (with_back (MkBack (bk_manager b) (bk_world b) (tr_close (bk_tr b))) l).
(** A task that panics reports nothing. *)
Definition send_result {A} (r : Result Failure A) (l : Loops) : Loops :=
  match r with
  | Ok _ => l
  | Err (FError e) => leave_send (Err e) l
  | Err FPanic => send_over (with_send SDone l)
  end.
(** All senders are gone: those of the frontend, and the one of the read task. *)
Definition senders_gone (l : Loops) : bool :=
  negb (tk_handles (lo_tasks l)) && match tk_read (lo_tasks l) with RDone => true | _ => false end.
Definition is_nil {A} (xs : list A) : bool := match xs with [] => true | _ => false end.

(** The branches in their order: closed, a message, all senders gone, a ping. *)
Definition send_turn (t : Turn) (l : Loops) : option Loops :=
  match tk_send (lo_tasks l), t with
  | SRun, TuSendClosed => if closed l then Some (leave_send (Ok ()) l) else None
  | SRun, TuSendRecv msg =>
    if negb (closed l) && bool_decide (head (lo_queue l) = Some msg) then
      let '(r, b) := handle_frontend_messages tr_send msg max_cap (lo_back l) in
      Some (send_result r (with_back b (with_queue (tail (lo_queue l)) l)))
    else None
  | SRun, TuSendNone =>
    if negb (closed l) && is_nil (lo_queue l) && senders_gone l then Some (leave_send (Ok ()) l) else None
  | SRun, TuSendPing =>
    if negb (closed l) && is_nil (lo_queue l) && negb (senders_gone l) then
      let b := lo_back l in
      let '(r, t) := tr_ping (bk_tr b) in
      Some (send_result (map_err (λ e, FError (ErrTransport e)) r) (with_back (MkBack (bk_manager b) (bk_world b) t) l))
    else None
  | SClosed _, TuSendPut => k ← tasks_step LSendPut (lo_tasks l); Some (send_over (with_tasks k l))
  | _, _ => None
  end.

(** *** [read_task] *)
Definition room (l : Loops) : bool := bool_decide (length (lo_queue l) + lo_reserved l < lo_cap l).
(** Some pending send can be completed: there is room, or nobody receives. *)
Definition sent_ready (l : Loops) : bool := negb (is_nil (lo_pending l)) && (front_closed (lo_tasks l) || room l).
Definition leave_read (r : Result Error unit) (l : Loops) : Loops := with_read (RSending r) l.
Definition inactive : Error := ErrTransport "WebSocket ping/pong inactive".

(** The branches in their order: closed, a pending send, a message, a tick. *)
Definition read_turn (t : Turn) (l : Loops) : option Loops :=
  match tk_read (lo_tasks l), t with
  | RRun, TuReadClosed => if closed l then Some (leave_read (Ok ()) l) else None
  | RRun, TuReadSent i m =>
    if negb (closed l) && sent_ready l && bool_decide (lo_pending l !! i = Some m) then
      let l := with_pending (delete i (lo_pending l)) l in
      Some (if front_closed (lo_tasks l) then on_channels (drop_messages [m]) l else with_queue (lo_queue l ++ [m]) l)
    else None
  | RRun, TuReadMessage now msg =>
    if negb (closed l) && negb (sent_ready l) && bool_decide (head (lo_incoming l) = Some msg) then
      let l := with_check (InactivityCheck.mark_as_active now (lo_check l)) (with_incoming (tail (lo_incoming l)) l) in
      let '(r, b) := handle_backend_messages (Some msg) max_cap (lo_back l) in
      let l := with_back b l in
      Some (match r with
            | Ok messages => with_pending (lo_pending l ++ messages) l
            | Err (FError e) => leave_read (Err e) l
            | Err FPanic => read_over (with_read RDone l)
            end)
    else None
  | RRun, TuReadTick now =>
    if negb (closed l) && negb (sent_ready l) && is_nil (lo_incoming l) then
      let '(b, c) := InactivityCheck.is_inactive now (lo_check l) in
      let l := with_check c l in
      Some (if b : bool then leave_read (Err inactive) l else l)
    else None
  | RSending _, TuReadPut => k ← tasks_step LReadPut (lo_tasks l); Some (read_over (with_tasks k l))
  | _, _ => None
  end.

(** *** The other parties *)

(** The frontend makes a oneshot for the answer, waits for a place in the channel,
    and puts its message there. *)
Definition front_turn (t : Turn) (l : Loops) : option Loops :=
  match t with
  | TuOneshot => Some (on_channels (λ w, MkWorld (<[fresh (dom (w_oneshots w)) := Waiting]> (w_oneshots w)) (w_chans w)) l)
  | TuReserve =>
    if tk_handles (lo_tasks l) && negb (front_closed (lo_tasks l)) && room l
    then Some (with_reserved (S (lo_reserved l)) l) else None
  | TuFront m =>
    match lo_reserved l with
    | 0 => None
    | S n =>
      let l := with_reserved n l in
      Some (match tk_send (lo_tasks l) with
            | SDone => on_channels (drop_messages [m]) l
            | _ => with_queue (lo_queue l ++ [m]) l
            end)
    end
  | _ => None
  end.
Definition world_turn (t : Turn) (l : Loops) : option Loops :=
  match t with
  | TuArrive msg => Some (with_incoming (lo_incoming l ++ [msg]) l)
  | TuHolder (EvPoll h as e) | TuHolder (EvDropStream h as e) | TuHolder (EvGiveUp h as e) =>
    Some (with_back (snd (run_event tr_send max_cap e (lo_back l))) l)
  | TuShutdown LDropHandles =>
    match lo_reserved l with 0 => k ← tasks_step LDropHandles (lo_tasks l); Some (with_tasks k l) | _ => None end
  | TuShutdown (LWaitRecv as lab) | TuShutdown (LWaitDropped as lab) | TuShutdown (LDropClient as lab) =>
    k ← tasks_step lab (lo_tasks l); Some (with_tasks k l)
  | _ => None
  end.
Definition loops_step (t : Turn) (l : Loops) : option Loops :=
  match t with
  | TuSendClosed | TuSendRecv _ | TuSendNone | TuSendPing | TuSendPut => send_turn t l
  | TuReadClosed | TuReadSent _ _ | TuReadMessage _ _ | TuReadTick _ | TuReadPut => read_turn t l
  | TuOneshot | TuReserve | TuFront _ => front_turn t l
  | TuArrive _ | TuHolder _ | TuShutdown _ => world_turn t l
  end.
Definition run_loops : list Turn → Loops → option Loops := run_labels loops_step.
(** The tasks are spawned. *)
Definition loops_start (c : InactivityCheck) (cap : nat) (t : Tr) : Loops :=
  MkLoops (MkBack RequestManager.new (MkWorld ∅ ∅) t) [] cap 0 [] [] c tasks_new.

(** ** What the loops are to do *)

(** The messages put into the channel of the frontend and those taken out of it; what
    the transport's receiver got and what was read. *)
Definition put_of (t : Turn) : option FrontToBack := match t with TuFront m | TuReadSent _ m => Some m | _ => None end.
Definition taken_of (t : Turn) : option FrontToBack := match t with TuSendRecv m => Some m | _ => None end.
Definition arrived_of (t : Turn) : option (Result string ReceivedMessage) := match t with TuArrive msg => Some msg | _ => None end.
Definition read_of (t : Turn) : option (Result string ReceivedMessage) := match t with TuReadMessage _ msg => Some msg | _ => None end.

(** The time of the last message, and the ticks that came too long after the last
    message before them. *)
Fixpoint last_message (t0 : N) (ts : list Turn) : N :=
  match ts with [] => t0 | TuReadMessage now _ :: ts => last_message now ts | _ :: ts => last_message t0 ts end.
Fixpoint late_ticks (dur t0 : N) (ts : list Turn) : N :=
  match ts with
  | [] => 0
  | TuReadMessage now _ :: ts => late_ticks dur now ts
  | TuReadTick now :: ts => (if decide (dur <= now - t0) then 1 else 0) + late_ticks dur t0 ts
  | _ :: ts => late_ticks dur t0 ts
  end%N.
(** The peer was silent for too long, by the check the client started with. *)
Definition expired (c : InactivityCheck) (ts : list Turn) : bool :=
  match c with
  | IcDisabled => false
  | IcEnabled dur t0 n max => bool_decide (max <= n + late_ticks dur t0 ts)%N
  end.
Definition counted (c : InactivityCheck) (ts : list Turn) : InactivityCheck :=
  match c with
  | IcDisabled => IcDisabled
  | IcEnabled dur t0 n max => IcEnabled dur (last_message t0 ts) (n + late_ticks dur t0 ts) max
  end.
(** A turn that handles something, a ping and a tick included. *)
Definition works (t : Turn) : bool :=
  match t with TuSendRecv _ | TuSendPing | TuReadSent _ _ | TuReadMessage _ _ | TuReadTick _ => true | _ => false end.
(** The turns the tasks take by themselves, clocks apart. *)
Definition own (t : Turn) : Prop :=
  match t with
  | TuSendClosed | TuSendRecv _ | TuSendNone | TuSendPut | TuReadClosed | TuReadSent _ _ | TuReadMessage _ _ | TuReadPut
  | TuShutdown LWaitRecv | TuShutdown LWaitDropped => True
  | _ => False
  end.

(** A transport that keeps its first error: [broken] is that error. *)
Context (broken : Tr → option string).
Definition keeps_error : Prop :=
  (∀ raw t, broken t = None → broken (snd (tr_send raw t)) = match fst (tr_send raw t) with Ok _ => None | Err e => Some e end) ∧
  (∀ t, broken t = None → broken (snd (tr_ping t)) = match fst (tr_ping t) with Ok _ => None | Err e => Some e end) ∧
  (∀ t, broken (tr_close t) = broken t).
Definition tr_of (l : Loops) : Tr := bk_tr (lo_back l).
(** Why a task of a run failed: the transport broke, the peer was silent, or what it
    sent is an error, for the table at that moment. *)
Definition cause (c : InactivityCheck) (ts : list Turn) (l : Loops) (e : Error) : Prop :=
  (∃ m, broken (tr_of l) = Some m ∧ e = ErrTransport m) ∨
  (expired c ts = true ∧ e = inactive) ∨
  (∃ now msg (b : Back (X := X) (Tr := Tr)), TuReadMessage now msg ∈ ts ∧ fst (handle_backend_messages (Some msg) max_cap b) = Err (FError e)).

Lemma last_message_snoc t0 ts t :
  last_message t0 (ts ++ [t]) = match t with TuReadMessage now _ => now | _ => last_message t0 ts end.
Proof. revert t0. induction ts as [|t' ts IH]; intros t0; [by destruct t|]. destruct t'; cbn; apply IH. Qed.
Lemma late_ticks_snoc dur t0 ts t : late_ticks dur t0 (ts ++ [t]) =
  (late_ticks dur t0 ts + match t with TuReadTick now => if decide (dur <= now - last_message t0 ts) then 1 else 0 | _ => 0 end)%N.
Proof.
  revert t0. induction ts as [|t' ts IH]; intros t0; [by destruct t; cbn; rewrite ?N.add_0_r|].
  destruct t'; cbn; rewrite IH; lia.
Qed.
Lemma expired_snoc c ts t : expired c ts = true → expired c (ts ++ [t]) = true.
Proof. destruct c; [done|]. unfold expired. rewrite late_ticks_snoc, !bool_decide_eq_true. lia. Qed.
Lemma counted_snoc c ts t : counted c (ts ++ [t]) =
  match t with
  | TuReadMessage now _ => InactivityCheck.mark_as_active now (counted c ts)
  | TuReadTick now => snd (InactivityCheck.is_inactive now (counted c ts))
  | _ => counted c ts
  end.
Proof.
  destruct c as [|dur t0 n max]; cbn; [by destruct t|]. rewrite last_message_snoc, late_ticks_snoc.
  destruct t; cbn; try (f_equal; lia). case_decide; f_equal; lia.
Qed.
Lemma inactive_counted c ts now : fst (InactivityCheck.is_inactive now (counted c ts)) = expired c (ts ++ [TuReadTick now]).
Proof.
  destruct c as [|dur t0 n max]; [done|]. cbn. rewrite late_ticks_snoc. case_decide; f_equal;
    apply bool_decide_ext; lia.
Qed.

(** ** What the handlers do to the transport *)

(** A computation that leaves the transport alone. *)
Definition keeps_tr {E A} (m : SM (Back (X := X) (Tr := Tr)) E A) : Prop := ∀ b, bk_tr (snd (m b)) = bk_tr b.
Lemma tr_bind {E A B} (m : SM _ E A) (f : A → SM _ E B) : keeps_tr m → (∀ a, keeps_tr (f a)) → keeps_tr (m ≫= f).
Proof.
  intros Hm Hf b. specialize (Hm b). unfold mbind, SM_bind. destruct (m b) as [[a|e] b']; cbn in *; [|done].
  by rewrite (Hf a b').
Qed.
Lemma tr_ret {E A} (a : A) : keeps_tr (E := E) (mret a).
Proof. done. Qed.
Lemma tr_throw {E A} (e : E) : keeps_tr (A := A) (sm_throw e).
Proof. done. Qed.
Lemma tr_result {E A} (r : Result E A) : keeps_tr (sm_result r).
Proof. by destruct r. Qed.
Lemma tr_manager {E A} (f : _ → A * _) : keeps_tr (E := E) (on_manager f).
Proof. intros b. unfold on_manager. by destruct (f _). Qed.
Lemma tr_world {E A} (f : _ → A * _) : keeps_tr (E := E) (on_world f).
Proof. intros b. unfold on_world. by destruct (f _). Qed.
Lemma tr_ask {E A} (f : _ → A) : keeps_tr (E := E) (ask f).
Proof. done. Qed.
Lemma tr_catch {E E' A} (m : SM _ E A) (f : E → E') : keeps_tr m → keeps_tr (sm_catch m f).
Proof. intros Hm b. specialize (Hm b). unfold sm_catch. by destruct (m b) as [[]]. Qed.
Ltac keeps :=
  repeat first
    [ apply tr_bind; [|intros ?] | apply tr_ret | apply tr_throw | apply tr_result | apply tr_manager
    | apply tr_world | apply tr_ask | apply tr_catch | case_match | progress unfold effect, reply, bad_request, drop_handler ].

Lemma build_unsubscribe_tr r s : keeps_tr (build_unsubscribe_message r s).
Proof. unfold build_unsubscribe_message. keeps. Qed.
Lemma single_response_tr rp cap : keeps_tr (process_single_response rp cap).
Proof. unfold process_single_response. keeps; apply build_unsubscribe_tr. Qed.
Lemma subscription_response_tr {E} n : keeps_tr (E := E) (process_subscription_response n).
Proof. unfold process_subscription_response. keeps. Qed.
Lemma close_response_tr n : keeps_tr (process_subscription_close_response n).
Proof. unfold process_subscription_close_response. keeps. Qed.
Lemma notification_tr {E} n : keeps_tr (E := E) (process_notification n).
Proof. unfold process_notification. keeps. Qed.
Lemma batch_response_tr rps rg : keeps_tr (process_batch_response rps rg).
Proof. unfold process_batch_response. keeps. Qed.
Lemma scan_element_tr raw r st : keeps_tr (scan_element raw r st).
Proof.
  destruct st. unfold scan_element. keeps; auto using subscription_response_tr, close_response_tr, notification_tr.
Qed.
Lemma scan_batch_tr raw rs st : keeps_tr (scan_batch raw rs st).
Proof. revert st. induction rs; intros st; cbn; keeps; auto using scan_element_tr. Qed.
Lemma recv_message_tr raw cap : keeps_tr (handle_recv_message raw cap).
Proof.
  unfold handle_recv_message, recv_single, recv_batch.
  keeps; auto using single_response_tr, subscription_response_tr, close_response_tr, notification_tr, scan_batch_tr, batch_response_tr.
Qed.
Lemma backend_tr msg cap : keeps_tr (handle_backend_messages msg cap).
Proof. unfold handle_backend_messages. keeps; apply recv_message_tr. Qed.

(** A computation that fails, a panic apart, when the transport breaks and not
    otherwise, and with its error. *)
Definition breaks {A} (r : Result Failure A) (t : Tr) : Prop :=
  match r with
  | Ok _ => broken t = None
  | Err (FError e) => ∃ m, e = ErrTransport m ∧ broken t = Some m
  | Err FPanic => True
  end.
Definition sends {A} (m : SM (Back (X := X) (Tr := Tr)) Failure A) : Prop :=
  ∀ b, broken (bk_tr b) = None → breaks (fst (m b)) (bk_tr (snd (m b))).
Lemma sends_bind {A B} (m : SM _ Failure A) (f : A → SM _ Failure B) : sends m → (∀ a, sends (f a)) → sends (m ≫= f).
Proof.
  intros Hm Hf b Hb. specialize (Hm b Hb). unfold mbind, SM_bind. destruct (m b) as [[a|e] b']; cbn in *; [|done].
  by apply Hf.
Qed.
Lemma sends_ret {A} (a : A) : sends (mret a).
Proof. by intros b. Qed.
Lemma sends_manager {A} (f : _ → A * _) : sends (on_manager f).
Proof. intros b Hb. unfold on_manager. by destruct (f _). Qed.
Lemma sends_world {A} (f : _ → A * _) : sends (on_world f).
Proof. intros b Hb. unfold on_world. by destruct (f _). Qed.
Lemma sends_ask {A} (f : _ → A) : sends (ask f).
Proof. by intros b. Qed.
Lemma sends_panic {A} (r : Result Panicked A) : sends (sm_result (map_err (λ _, FPanic) r)).
Proof. intros b Hb. by destruct r. Qed.
Lemma sends_raw raw : keeps_error → sends (send_raw tr_send raw).
Proof.
  intros [HE _] b Hb. specialize (HE raw (bk_tr b) Hb). unfold send_raw. destruct (tr_send raw (bk_tr b)) as [[]]; cbn in *; eauto.
Qed.
Lemma frontend_sends m : keeps_error → sends (handle_frontend_messages tr_send m max_cap).
Proof.
  intros HE. destruct m; unfold handle_frontend_messages, stop_subscription, build_unsubscribe_message, drop_handler;
    repeat first [apply sends_bind; [|intros ?] | apply sends_ret | apply sends_manager | apply sends_world | apply sends_ask
                 | apply sends_panic | by apply sends_raw | case_match | progress unfold effect, reply].
Qed.

(** ** The parts of a turn *)
Lemma release_table_spec l : ∃ b, release_table l = with_back b l ∧ bk_tr b = bk_tr (lo_back l) ∧ (wf (bk_manager (lo_back l)) → wf (bk_manager b)).
Proof.
  unfold release_table. destruct (tk_send (lo_tasks l)), (tk_read (lo_tasks l)); try (exists (lo_back l); by destruct l).
  eexists. split; [reflexivity|]. by split.
Qed.
Lemma drop_local_spec ms l : let l' := release_table (on_channels (drop_messages ms) l) in
  ∃ b, l' = with_back b l ∧ bk_tr b = bk_tr (lo_back l) ∧ (wf (bk_manager (lo_back l)) → wf (bk_manager b)).
Proof. intros l'. destruct (release_table_spec (on_channels (drop_messages ms) l)) as (b & E & Ht & Hw). by exists b. Qed.
Lemma send_over_spec l : ∃ b, send_over l = with_back b (with_queue [] l) ∧ bk_tr b = tr_of l ∧
  (wf (bk_manager (lo_back l)) → wf (bk_manager b)).
Proof. exact (drop_local_spec (lo_queue l) (with_queue [] l)). Qed.
Lemma read_over_spec l : ∃ b, read_over l = with_back b (with_pending [] l) ∧ bk_tr b = tr_of l ∧
  (wf (bk_manager (lo_back l)) → wf (bk_manager b)).
Proof. exact (drop_local_spec (lo_pending l) (with_pending [] l)). Qed.

(** The handlers in a state with a table that is well formed. *)
Lemma frontend_handled m b : sub_ids_read → wf (bk_manager b) →
  let '(r, b') := handle_frontend_messages tr_send m max_cap b in
  wf (bk_manager b') ∧ r ≠ Err FPanic ∧ (keeps_error → broken (bk_tr b) = None → breaks r (bk_tr b')).
Proof.
  intros Hs W. pose proof (handle_frontend_messages_inv tr_send Hs m max_cap b W) as H.
  pose proof (λ HE, frontend_sends m HE b) as HB. destruct (handle_frontend_messages _ _ _ _) as [[|f] b']; [done|].
  destruct H as [Hp W']. split; [done|]. split; [congruence|done].
Qed.
Lemma backend_handled msg (b : Back (X := X) (Tr := Tr)) : sub_ids_read → wf (bk_manager b) →
  let '(r, b') := handle_backend_messages msg max_cap b in
  wf (bk_manager b') ∧ r ≠ Err FPanic ∧ bk_tr b' = bk_tr b.
Proof.
  intros Hs W. pose proof (handle_backend_messages_inv Hs msg max_cap b W) as H.
  pose proof (backend_tr msg max_cap b) as HB. destruct (handle_backend_messages _ _ _) as [[|f] b']; [done|].
  destruct H as [Hp W']. split; [done|]. split; [congruence|done].
Qed.

Ltac turn_cases :=
  repeat match goal with
  | H : (if ?c then _ else _) = Some _ |- _ => destruct c eqn:?; [|discriminate H]
  | H : Some _ = Some _ |- _ => injection H as <-
  | H : None = Some _ |- _ => discriminate H
  | H : _ ≫= _ = Some _ |- _ => apply bind_Some in H as (? & ? & ?)
  | H : (_ && _)%bool = true |- _ => apply andb_true_iff in H as [? ?]
  | H : bool_decide _ = true |- _ => apply bool_decide_eq_true in H
  | H : negb _ = true |- _ => apply negb_true_iff in H
  end.
(** The end of a task, seen through its lemma. *)
Ltac see_over :=
  repeat match goal with
  | |- context [send_over ?l] => let b := fresh "bo" in destruct (send_over_spec l) as (b & -> & ? & ?)
  | |- context [read_over ?l] => let b := fresh "bo" in destruct (read_over_spec l) as (b & -> & ? & ?)
  end.

Lemma close_stage_put k k' : tasks_step LSendPut k = Some k' →
  (∃ r, tk_send k = SClosed r) ∧ tk_send k' = SDone ∧ tk_read k' = tk_read k.
Proof. unfold tasks_step, send_task. destruct (tk_send k); try done. intros (cl & _ & ->)%fmap_Some. by eauto. Qed.
Lemma read_stage_put k k' : tasks_step LReadPut k = Some k' →
  (∃ r, tk_read k = RSending r) ∧ tk_read k' = RDone ∧ tk_send k' = tk_send k.
Proof. unfold tasks_step, read_task. destruct (tk_read k); try done. intros (cl & _ & ->)%fmap_Some. by eauto. Qed.

(** ** One turn *)
Ltac turn_inv :=
  match goal with |- loops_step ?t _ = Some _ → _ => destruct t as [| |?m|?msg|e| |?m| | | | |i ?m|now ?msg|now| |lab] end;
  unfold loops_step, front_turn, world_turn, send_turn, read_turn;
  repeat match goal with
  | |- None = Some _ → _ => discriminate 1
  | |- Some _ = Some _ → _ => intros [= <-]
  | |- (match tk_send ?k with _ => _ end) = Some _ → _ => destruct (tk_send k) eqn:?
  | |- (match tk_read ?k with _ => _ end) = Some _ → _ => destruct (tk_read k) eqn:?
  | |- (if ?c then _ else _) = Some _ → _ => destruct c eqn:?
  | |- (let '(_, _) := ?m in _) = Some _ → _ => destruct m as [? ?] eqn:?
  | |- (match ?x with _ => _ end) = Some _ → _ => is_var x; destruct x
  | |- (match lo_reserved ?l with _ => _ end) = Some _ → _ => destruct (lo_reserved l) eqn:?
  | |- (_ ≫= _) = Some _ → _ => intros (?k & ?Hk & [= <-])%bind_Some
  end.
Ltac see_result :=
  repeat match goal with
  | |- context [map_err _ ?r] => destruct r; cbn [map_err send_result]
  | |- context [send_result ?r _] => is_var r; destruct r as [|[|]]; cbn [send_result]
  | |- context [match ?r with Ok _ => _ | Err _ => _ end] => destruct r as [|[|]]
  | |- context [if ?b then leave_read _ _ else _] => destruct b
  | |- context [match tk_send ?k with _ => _ end] => destruct (tk_send k) eqn:?
  | |- context [if front_closed ?k then _ else _] => destruct (front_closed k) eqn:?
  end;
  see_over.
Lemma turn_check t l l' : loops_step t l = Some l' → lo_check l' =
  match t with
  | TuReadMessage now _ => InactivityCheck.mark_as_active now (lo_check l)
  | TuReadTick now => snd (InactivityCheck.is_inactive now (lo_check l))
  | _ => lo_check l
  end.
Proof. turn_inv; see_result; cbn; try done; by rewrite Heqp. Qed.
Lemma head_tail {A} (xs : list A) x : head xs = Some x → xs = x :: tail xs.
Proof. destruct xs; [done|]. by intros [= ->]. Qed.
Ltac guards :=
  repeat match goal with
  | H : (_ && _)%bool = true |- _ => apply andb_true_iff in H as [? ?]
  | H : bool_decide _ = true |- _ => apply bool_decide_eq_true in H
  | H : negb _ = true |- _ => apply negb_true_iff in H
  | H : tasks_step LSendPut _ = Some _ |- _ => apply close_stage_put in H as (? & ? & ?)
  | H : tasks_step LReadPut _ = Some _ |- _ => apply read_stage_put in H as (? & ? & ?)
  end.
Lemma turn_incoming t l l' : loops_step t l = Some l' →
  lo_incoming l ++ option_list (arrived_of t) = option_list (read_of t) ++ lo_incoming l'.
Proof. turn_inv; see_result; cbn; rewrite ?app_nil_r; try done; guards; by apply head_tail. Qed.
Lemma turn_queue t l l' : loops_step t l = Some l' → tk_send (lo_tasks l') = SRun →
  lo_queue l ++ option_list (put_of t) = option_list (taken_of t) ++ lo_queue l'.
Proof.
  turn_inv; see_result; cbn; rewrite ?app_nil_r; try done; guards; try congruence; intros Hs; [by apply head_tail|].
  match goal with H : front_closed _ = true |- _ => cbn in H; unfold front_closed in H; by rewrite Hs in H end.
Qed.
(** Once the send task has left its loop it never comes back, and neither does the
    read task; the transport is used by the send loop alone. *)
Lemma shutdown_stages lab k k' : tasks_step lab k = Some k' → lab ∈ [LWaitRecv; LWaitDropped; LDropClient; LDropHandles] →
  tk_send k' = tk_send k ∧ tk_read k' = tk_read k.
Proof.
  intros H. rewrite !elem_of_cons, elem_of_nil. intros [->|[->|[->|[->|[]]]]]; revert H;
    unfold tasks_step, wait_for_shutdown; repeat case_match; try done; by intros [= <-].
Qed.
Lemma backend_state msg (b : Back (X := X) (Tr := Tr)) r b' :
  handle_backend_messages msg max_cap b = (r, b') → bk_tr b' = bk_tr b.
Proof. intros H. pose proof (backend_tr msg max_cap b) as HB. by rewrite H in HB. Qed.
Ltac stages :=
  repeat match goal with
  | H : tasks_step ?lab _ = Some _ |- _ =>
    apply (shutdown_stages lab) in H as [? ?];
      [|first [by left | right; by left | right; right; by left | right; right; right; by left]]
  | H : handle_backend_messages _ _ _ = _ |- _ => apply backend_state in H
  end.
Lemma turn_left t l l' : loops_step t l = Some l' →
  (tk_send (lo_tasks l) ≠ SRun → tk_send (lo_tasks l') ≠ SRun ∧ tr_of l' = tr_of l) ∧
  (tk_read (lo_tasks l) ≠ RRun → tk_read (lo_tasks l') ≠ RRun).
Proof. turn_inv; see_result; cbn; guards; stages; unfold tr_of in *; cbn in *; intuition congruence. Qed.
Lemma turn_send t l l' : sub_ids_read → keeps_error → wf (bk_manager (lo_back l)) → broken (tr_of l) = None →
  tk_send (lo_tasks l) = SRun → loops_step t l = Some l' →
  tk_send (lo_tasks l') =
    match broken (tr_of l') with
    | Some m => SClosed (Err (ErrTransport m))
    | None => match t with TuSendClosed | TuSendNone => SClosed (Ok ()) | _ => SRun end
    end.
Proof.
  intros Hs HE W Hb Hr. unfold tr_of in *. turn_inv; try congruence.
  all: match goal with
  | H : handle_frontend_messages _ ?m _ ?b = _ |- _ =>
    pose proof (frontend_handled m b Hs W) as HF; rewrite H in HF; destruct HF as (_ & HP & HF); specialize (HF HE Hb)
  | H : tr_ping ?t = _ |- _ => pose proof (proj1 (proj2 HE) t Hb) as HF; rewrite H in HF
  | _ => idtac
  end; pose proof (proj2 (proj2 HE)) as Hclose.
  all: see_result; cbn; guards; stages; unfold tr_of in *; cbn in *.
  all: try (by destruct HP); try (destruct HF as (? & -> & HF)).
  all: repeat match goal with H : bk_tr _ = _ |- _ => rewrite H; clear H end; rewrite ?Hclose, ?HF, ?Hb; congruence.
Qed.
(** The read task: what it handled, and why it left its loop. *)
Lemma turn_read t l l' : sub_ids_read → wf (bk_manager (lo_back l)) → tk_read (lo_tasks l) = RRun → loops_step t l = Some l' →
  tk_read (lo_tasks l') =
    match t with
    | TuReadClosed => RSending (Ok ())
    | TuReadMessage _ msg =>
      match fst (handle_backend_messages (Some msg) max_cap (lo_back l)) with
      | Err (FError e) => RSending (Err e)
      | _ => RRun
      end
    | TuReadTick now => if fst (InactivityCheck.is_inactive now (lo_check l)) then RSending (Err inactive) else RRun
    | _ => RRun
    end.
Proof.
  intros Hs W Hr. turn_inv; try congruence.
  all: match goal with
  | H : handle_backend_messages ?m _ ?b = _ |- _ =>
    change b with (lo_back l) in H; pose proof (backend_handled m (lo_back l) Hs W) as HF; rewrite H in HF |- *; cbn [fst]; destruct HF as (_ & HP & _)
  | H : InactivityCheck.is_inactive _ _ = _ |- _ => rewrite H
  | _ => idtac
  end; see_result; cbn; guards; stages; try done; try congruence.
Qed.
Lemma turn_wf t l l' : sub_ids_read → wf (bk_manager (lo_back l)) → loops_step t l = Some l' → wf (bk_manager (lo_back l')).
Proof.
  intros Hs W. turn_inv.
  all: match goal with
  | H : handle_frontend_messages _ ?m _ ?b = _ |- _ => pose proof (frontend_handled m b Hs W) as HF; rewrite H in HF; destruct HF as [HF _]
  | H : handle_backend_messages ?m _ ?b = _ |- _ => pose proof (backend_handled m b Hs W) as HF; rewrite H in HF; destruct HF as [HF _]
  | _ => idtac
  end; see_result; cbn in *; auto.
Qed.
(** The ends of the tasks are steps of [tasks_step], and its failures those of the
    loops. *)
Lemma by_label lab k k' (P : Error → Prop) : tasks_step lab k = Some k' → (∀ e, e ∈ failures [lab] → P e) →
  ∃ ls, run_tasks ls k = Some k' ∧ ∀ e, e ∈ failures ls → P e.
Proof. intros H HP. exists [lab]. split; [exact H|done]. Qed.
Lemma turn_tasks t l l' : sub_ids_read → wf (bk_manager (lo_back l)) → loops_step t l = Some l' →
  ∃ ls, run_tasks ls (lo_tasks l) = Some (lo_tasks l') ∧
    ∀ e, e ∈ failures ls → (tk_send (lo_tasks l) = SRun ∧ tk_send (lo_tasks l') = SClosed (Err e)) ∨
                           (tk_read (lo_tasks l) = RRun ∧ tk_read (lo_tasks l') = RSending (Err e)).
Proof.
  intros Hs W. turn_inv.
  all: match goal with
  | H : handle_frontend_messages _ ?m _ ?b = _ |- _ => pose proof (frontend_handled m b Hs W) as HF; rewrite H in HF; destruct HF as (_ & HP & _)
  | H : handle_backend_messages ?m _ ?b = _ |- _ => pose proof (backend_handled m b Hs W) as HF; rewrite H in HF; destruct HF as (_ & HP & _)
  | _ => idtac
  end; see_result; cbn; try (by destruct HP).
  all: try (exists []; split; [reflexivity|by intros ? []%elem_of_nil]).
  all: try (eapply by_label; [eassumption|by intros ? []%elem_of_nil]).
  all: guards; unfold closed, senders_gone in *; guards; destruct (lo_tasks l) as [st rd wt cl al hd re]; cbn in *; subst.
  all: first
    [ apply (by_label LSendStop); [try destruct wt; try destruct rd; done|by intros ? []%elem_of_nil]
    | apply (by_label LReadStop); [try destruct wt; try destruct rd; done|by intros ? []%elem_of_nil]
    | eapply (by_label (LSendFail _)); [reflexivity|intros ? ->%list_elem_of_singleton; by left]
    | eapply (by_label (LReadFail _)); [reflexivity|intros ? ->%list_elem_of_singleton; by right] ].
Qed.
(** After the shutdown nothing is handled; and the order of the branches. *)
Lemma turn_closed t l l' : tk_waits (lo_tasks l) = false → loops_step t l = Some l' → works t = false.
Proof.
  intros Hw. turn_inv; try done; guards; unfold closed in *; rewrite Hw in *; done.
Qed.
Lemma turn_order t l l' : loops_step t l = Some l' →
  match t with
  | TuReadMessage _ msg => sent_ready l = false ∧
      ∀ messages b, handle_backend_messages (Some msg) max_cap (lo_back l) = (Ok messages, b) →
        lo_back l' = b ∧ lo_pending l' = lo_pending l ++ messages
  | TuSendRecv m => ∀ b, handle_frontend_messages tr_send m max_cap (lo_back l) = (Ok (), b) → lo_back l' = b
  | TuSendPing => lo_queue l = []
  | TuReadTick _ => sent_ready l = false ∧ lo_incoming l = []
  | _ => True
  end.
Proof.
  turn_inv; try done; guards.
  - intros b' E. rewrite E in *. by simplify_eq.
  - by destruct (lo_queue l).
  - split; [done|]. intros ms b' E.
    match goal with H : ?x = (?r, ?b) |- _ => change x with (handle_backend_messages (Some msg) max_cap (lo_back l)) in H; rewrite E in H;
      injection H as <- <- end. split; reflexivity.
  - split; [done|]. by destruct (lo_incoming l).
Qed.

(** ** All turns *)
Lemma omap_snoc {A B} (f : A → option B) xs x : omap f (xs ++ [x]) = omap f xs ++ option_list (f x).
Proof. rewrite omap_app. cbn. by destruct (f x). Qed.
Lemma failures_app ls1 ls2 : failures (ls1 ++ ls2) = failures ls1 ++ failures ls2.
Proof. apply omap_app. Qed.

(** What holds after every run. *)
Record loops_inv (c : InactivityCheck) (ts : list Turn) (l : Loops) : Prop := MkLoopsInv {
  li_wf : wf (bk_manager (lo_back l));
  li_check : lo_check l = counted c ts;
  li_send : tk_send (lo_tasks l) = SRun → broken (tr_of l) = None ∧ omap put_of ts = omap taken_of ts ++ lo_queue l;
  li_read : tk_read (lo_tasks l) = RRun → expired c ts = false;
  li_incoming : omap arrived_of ts = omap read_of ts ++ lo_incoming l;
  li_tasks : ∃ ls, run_tasks ls tasks_new = Some (lo_tasks l) ∧ ∀ e, e ∈ failures ls → cause c ts l e
}.

(** Why the loops ended in a turn. *)
Lemma turn_cause c ts t l l' e : sub_ids_read → keeps_error → loops_inv c ts l → loops_step t l = Some l' →
  (tk_send (lo_tasks l) = SRun ∧ tk_send (lo_tasks l') = SClosed (Err e)) ∨
  (tk_read (lo_tasks l) = RRun ∧ tk_read (lo_tasks l') = RSending (Err e)) → cause c (ts ++ [t]) l' e.
Proof.
  intros Hs HE [W C S R _ _] Hst [[Hr He]|[Hr He]].
  - destruct (S Hr) as [Hb _]. rewrite (turn_send t l l' Hs HE W Hb Hr Hst) in He. left.
    destruct (broken (tr_of l')) as [m|]; [injection He as <-; eauto|]. by destruct t.
  - rewrite (turn_read t l l' Hs W Hr Hst) in He. right. destruct t as [| | | | | | | | | | | |now msg|now| |]; try done.
    + right. exists now, msg, (lo_back l). split; [set_solver|]. destruct (fst _) as [|[|]]; try discriminate He.
      injection He as ->. reflexivity.
    + left. rewrite C, inactive_counted in He. destruct (expired c (ts ++ [TuReadTick now])); [split; [done|congruence]|done].
Qed.
Lemma cause_kept c ts t l l' e : loops_inv c ts l → loops_step t l = Some l' → cause c ts l e → cause c (ts ++ [t]) l' e.
Proof.
  intros [_ _ S _ _ _] Hst [(m & Hm & ->)|[[He ->]|(now & msg & b & Hin & Hb)]].
  - left. exists m. split; [|done]. assert (tk_send (lo_tasks l) ≠ SRun) as Hr by (intros Hr; destruct (S Hr); congruence).
    by rewrite (proj2 (proj1 (turn_left t l l' Hst) Hr)).
  - right. left. split; [by apply expired_snoc|done].
  - right. right. exists now, msg, b. set_solver.
Qed.
Lemma loops_inv_step c ts t l l' : sub_ids_read → keeps_error → loops_inv c ts l → loops_step t l = Some l' →
  loops_inv c (ts ++ [t]) l'.
Proof.
  intros Hs HE HI Hst. pose proof HI as [W C S R N (ls & Hls & Hf)]. destruct (turn_left t l l' Hst) as [Hgs Hgr]. split.
  - by apply (turn_wf t l).
  - rewrite (turn_check t l l' Hst), counted_snoc, C. done.
  - intros Hr'. assert (tk_send (lo_tasks l) = SRun) as Hr.
    { destruct (tk_send (lo_tasks l)) eqn:Hr; [done|..]; by destruct (Hgs ltac:(congruence)). }
    destruct (S Hr) as [Hb Hq]. split.
    + pose proof (turn_send t l l' Hs HE W Hb Hr Hst) as H. by destruct (broken (tr_of l')); [congruence|].
    + rewrite !omap_snoc, Hq, <-!app_assoc. f_equal. by apply turn_queue.
  - intros Hr'. assert (tk_read (lo_tasks l) = RRun) as Hr.
    { destruct (tk_read (lo_tasks l)) eqn:Hr; [done|..]; by destruct (Hgr ltac:(congruence)). }
    pose proof (turn_read t l l' Hs W Hr Hst) as H. destruct (expired c (ts ++ [t])) eqn:Ex; [|done]. exfalso.
    specialize (R Hr). destruct c as [|dur t0 n max]; [done|]. unfold expired in *. rewrite late_ticks_snoc in Ex.
    destruct t; try (rewrite N.add_0_r in Ex; congruence).
    rewrite C, inactive_counted in H. unfold expired in H. rewrite late_ticks_snoc, Ex in H. congruence.
  - rewrite !omap_snoc, N, <-!app_assoc. f_equal. by apply turn_incoming.
  - destruct (turn_tasks t l l' Hs W Hst) as (ls' & Hls' & Hf'). exists (ls ++ ls'). split.
    + unfold run_tasks. rewrite run_labels_app. unfold run_tasks in Hls. by rewrite Hls.
    + intros e. rewrite failures_app, elem_of_app. intros [He|He]; [by eapply cause_kept; [|done|apply Hf]|].
      by eapply turn_cause; [..|apply Hf'].
Qed.
Lemma loops_inv_run c cap tr ts l : sub_ids_read → keeps_error → broken tr = None → expired c [] = false →
  run_loops ts (loops_start c cap tr) = Some l → loops_inv c ts l.
Proof.
  intros Hs HE Hb Hx. revert l. induction ts as [|t ts IH] using rev_ind; intros l.
  - intros [= <-]. split; try done.
    + destruct c; cbn; [done|]. by rewrite N.add_0_r.
    + exists []. split; [done|]. by intros e ?%elem_of_nil.
  - unfold run_loops. rewrite run_labels_snoc. intros (l1 & Hl1 & Hl)%bind_Some. by eapply loops_inv_step; [..|apply IH|].
Qed.

(** When the loops can do nothing by themselves, the system of their ends cannot. *)
Lemma loops_stuck l : (∀ t, own t → loops_step t l = None) → ∀ lab, internal lab → tasks_step lab (lo_tasks l) = None.
Proof.
  intros H. set (k := lo_tasks l).
  assert (∀ lab t, own t → (∀ k', tasks_step lab k = Some k' → is_Some (loops_step t l)) → tasks_step lab k = None) as Hn.
  { intros lab t Ho Hi. destruct (tasks_step lab k) eqn:E; [|done]. destruct (Hi _ eq_refl) as [? E']. by rewrite H in E'. }
  intros [| | | | | | | | |] Hin; try done.
  - destruct (lo_queue l) as [|m q] eqn:Eq; [destruct (closed l) eqn:Ec|destruct (closed l) eqn:Ec].
    + apply (Hn _ TuSendClosed I). intros k' E.
      unfold loops_step, send_turn. fold k. cbn in E. destruct (tk_send k); [|done..]. rewrite Ec. eauto.
    + apply (Hn _ TuSendNone I). intros k' E. unfold closed in Ec. fold k in Ec.
      unfold loops_step, send_turn, closed, senders_gone. fold k. cbn in E. destruct (tk_send k); [|done..].
      rewrite Eq. rewrite Ec in *. cbn in *. destruct (_ && _); [|done]. eauto.
    + apply (Hn _ TuSendClosed I). intros k' E.
      unfold loops_step, send_turn. fold k. cbn in E. destruct (tk_send k); [|done..]. rewrite Ec. eauto.
    + apply (Hn _ (TuSendRecv m) I). intros k' E. unfold loops_step, send_turn. fold k. cbn in E. destruct (tk_send k); [|done..].
      rewrite Ec, Eq. cbn. rewrite bool_decide_eq_true_2 by done. destruct (handle_frontend_messages _ _ _ _). eauto.
  - apply (Hn _ TuSendPut I). intros k' E. pose proof (close_stage_put _ _ E) as ((r & Er) & _).
    unfold loops_step, send_turn. fold k. rewrite Er, E. cbn. eauto.
  - apply (Hn _ TuReadClosed I). intros k' E. unfold loops_step, read_turn, closed. fold k. cbn in E.
    destruct (tk_read k); [|done..]. destruct (tk_waits k); [done|]. cbn. eauto.
  - apply (Hn _ TuReadPut I). intros k' E. pose proof (read_stage_put _ _ E) as ((r & Er) & _).
    unfold loops_step, read_turn. fold k. rewrite Er, E. cbn. eauto.
  - apply (Hn _ (TuShutdown LWaitRecv) I). intros k' E. unfold loops_step, world_turn. fold k. rewrite E. cbn. eauto.
  - apply (Hn _ (TuShutdown LWaitDropped) I). intros k' E. unfold loops_step, world_turn. fold k. rewrite E. cbn. eauto.
Qed.

(** C39: the select loops, whatever happens around them and in whatever order.
    - While the send task is in its loop the transport has not failed, and what was
      put into the channel of the frontend is what was taken out of it, in order,
      with what is still there.
    - While the read task is in its loop its peer was not silent for too long; what
      the transport received was read in order.
    - The ends of the tasks are a run of [tasks_step], and every failure in it has its
      cause here: the error of the transport, a silent peer, a message that is an
      error.
    - A turn more: after the shutdown nothing is handled any more.  The send task goes
      on unless the transport breaks, which ends it with that error, or there is
      nobody left to serve.  The read task goes on unless the shutdown is over, its
      message is an error, which ends it with that error, or the late ticks since the
      messages are as many as are allowed.  What it makes of a message waits to be
      sent.  A ping waits for messages to send, a message for what is to be sent, a
      tick for messages.
    - When a task has left its loop while the client lives, and the tasks can do
      nothing more, both are done, and the frontend has the reason, which has such a
      cause. *)
Theorem client_loops_exact (c : InactivityCheck) (cap : nat) (tr : Tr) (ts : list Turn) (l : Loops) :
  sub_ids_read → keeps_error → broken tr = None → expired c [] = false →
  run_loops ts (loops_start c cap tr) = Some l →
  let k := lo_tasks l in
  (tk_send k = SRun → broken (tr_of l) = None ∧ omap put_of ts = omap taken_of ts ++ lo_queue l) ∧
  (tk_read k = RRun → expired c ts = false) ∧ omap arrived_of ts = omap read_of ts ++ lo_incoming l ∧
  (∃ ls, run_tasks ls tasks_new = Some k ∧ ∀ e, e ∈ failures ls → cause c ts l e) ∧
  (∀ t l', loops_step t l = Some l' →
    (tk_waits k = false → works t = false) ∧
    (tk_send k = SRun → tk_send (lo_tasks l') =
       match broken (tr_of l') with
       | Some m => SClosed (Err (ErrTransport m))
       | None => match t with TuSendClosed | TuSendNone => SClosed (Ok ()) | _ => SRun end
       end) ∧
    (tk_read k = RRun → tk_read (lo_tasks l') =
       match t with
       | TuReadClosed => RSending (Ok ())
       | TuReadMessage _ msg =>
         match fst (handle_backend_messages (Some msg) max_cap (lo_back l)) with
         | Err (FError e) => RSending (Err e)
         | _ => RRun
         end
       | TuReadTick _ => if expired c (ts ++ [t]) then RSending (Err inactive) else RRun
       | _ => RRun
       end) ∧
    match t with
    | TuReadMessage _ msg => sent_ready l = false ∧
        ∀ messages b, handle_backend_messages (Some msg) max_cap (lo_back l) = (Ok messages, b) →
          lo_back l' = b ∧ lo_pending l' = lo_pending l ++ messages
    | TuSendRecv m => ∀ b, handle_frontend_messages tr_send m max_cap (lo_back l) = (Ok (), b) → lo_back l' = b
    | TuSendPing => lo_queue l = []
    | TuReadTick _ => sent_ready l = false ∧ lo_incoming l = []
    | _ => True
    end) ∧
  (tk_client k = true → tk_send k ≠ SRun ∨ tk_read k ≠ RRun → (∀ t, own t → loops_step t l = None) →
     tk_send k = SDone ∧ tk_read k = RDone ∧ tk_waits k = false ∧ ∃ e, tk_reason k = Some e ∧ cause c ts l e).
Proof.
  intros Hs HE Hb Hx Hrun k. pose proof (loops_inv_run c cap tr ts l Hs HE Hb Hx Hrun) as HI.
  destruct HI as [W C S R N (ls & Hls & Hf)]. split; [exact S|]. split; [exact R|]. split; [exact N|].
  split; [by exists ls|]. split.
  - intros t l' Hst. split; [|split; [|split]].
    + intros Hw. by apply (turn_closed t l l').
    + intros Hr. destruct (S Hr) as [Hb' _]. by apply (turn_send t l l').
    + intros Hr. rewrite (turn_read t l l' Hs W Hr Hst), C. destruct t; try done. by rewrite inactive_counted.
    + by apply turn_order.
  - intros Hc Hl Hstuck. destruct (run_tasks_inv _ _ Hls) as (Hst & Hre & _).
    destruct (tasks_stuck _ k Hst Hc) as (H1 & H2 & H3 & e & He); [by right|exact (loops_stuck l Hstuck)|].
    split_and!; try done. exists e. split; [done|]. apply Hf. by eapply reason_of_errors.
Qed.

(** ** The function [background] *)

(** The loops at the state of a front whose tasks run. *)
Definition loops_of (c : InactivityCheck) (ms : list (Result string ReceivedMessage)) (s : Front Tr) : Loops :=
  MkLoops (fr_back s) (fr_queue s) (fr_cap s) 0 ms [] c tasks_new.
Lemma run_loops_cons t ts l l' : loops_step t l = Some l' → run_loops (t :: ts) l = run_loops ts l'.
Proof. intros H. unfold run_loops, run_labels. cbn. by rewrite H. Qed.
Lemma run_loops_app ts1 ts2 l l' : run_loops ts1 l = Some l' → run_loops (ts1 ++ ts2) l = run_loops ts2 l'.
Proof. unfold run_loops. rewrite run_labels_app. intros H. by rewrite H. Qed.
(** The queue is taken message by message. *)
Lemma send_loop_runs msgs s c ms : fr_queue s = msgs →
  fr_closed (send_loop tr_send max_cap msgs s) = false →
  run_loops (TuSendRecv <$> msgs) (loops_of c ms s) = Some (loops_of c ms (send_loop tr_send max_cap msgs s)).
Proof.
  revert s. induction msgs as [|msg msgs IH]; intros s Hq; cbn [send_loop].
  - intros _. destruct s. cbn in *. by subst.
  - destruct (handle_frontend_messages tr_send msg max_cap (fr_back s)) as [[[]|f] b] eqn:E; [|done]. intros He.
    cbn [fmap list_fmap]. erewrite run_loops_cons.
    2: { unfold loops_step, send_turn, closed. cbn. rewrite Hq, bool_decide_eq_true_2 by done. cbn. rewrite E. reflexivity. }
    assert (∀ ms s1, send_loop tr_send max_cap ms (set_queue msgs s1) = send_loop tr_send max_cap ms s1) as Hsl.
    { clear. intros ms. induction ms as [|m ms IHm]; intros s1; [done|]. cbn [send_loop]. cbn.
      destruct (handle_frontend_messages _ _ _ _) as [[?|?] b]; [|done]. apply (IHm (set_back b s1)). }
    pose proof (IH (set_queue msgs (set_back b s))) as IH'. rewrite Hsl in IH'. by apply IH'.
Qed.
(** What the reading produced is sent before the next message is read. *)
Lemma pending_runs ps ms s c : length (fr_queue s) + length ps ≤ fr_cap s →
  run_loops (TuReadSent 0 <$> ps) (with_pending ps (loops_of c ms s)) = Some (loops_of c ms (set_queue (fr_queue s ++ ps) s)).
Proof.
  revert s. induction ps as [|m ps IH]; intros s Hl; cbn [fmap list_fmap].
  - rewrite app_nil_r. by destruct s.
  - cbn in Hl. erewrite run_loops_cons.
    2: { unfold loops_step, read_turn, closed, sent_ready, room. cbn.
         rewrite !bool_decide_eq_true_2 by (done || lia). cbn. reflexivity. }
    cbn. change (with_queue _ _) with (with_pending ps (loops_of c ms (set_queue (fr_queue s ++ [m]) s))).
    rewrite IH by (cbn; rewrite length_app; cbn; lia). cbn. by rewrite <-app_assoc.
Qed.
Lemma read_loop_grows msgs (s : Front Tr) : fr_closed s = false → fr_closed (read_loop max_cap msgs s) = false →
  length (fr_queue s) ≤ length (fr_queue (read_loop max_cap msgs s)) ∧ fr_cap (read_loop max_cap msgs s) = fr_cap s.
Proof.
  revert s. induction msgs as [|msg msgs IH]; intros s Hc; [done|]. cbn [read_loop].
  destruct (handle_backend_messages _ _ _) as [[ms|f] b]; [|done]. intros He.
  destruct (IH (set_queue (fr_queue s ++ ms) (set_back b s)) Hc He) as [H1 H2]. cbn in H1. rewrite length_app in H1. split; [lia|exact H2].
Qed.
Lemma read_loop_runs msgs (s : Front Tr) c : fr_closed s = false → fr_closed (read_loop max_cap msgs s) = false →
  length (fr_queue (read_loop max_cap msgs s)) ≤ fr_cap s →
  ∃ ts c', run_loops ts (loops_of c msgs s) = Some (loops_of c' [] (read_loop max_cap msgs s)).
Proof.
  revert s c. induction msgs as [|msg msgs IH]; intros s c Hc; cbn [read_loop]; [by exists [], c|].
  destruct (handle_backend_messages (Some msg) max_cap (fr_back s)) as [[ms|f] b] eqn:E; [|done]. intros He Hl.
  set (s1 := set_queue (fr_queue s ++ ms) (set_back b s)) in *.
  destruct (read_loop_grows msgs s1 Hc He) as [Hg _]. cbn in Hg. rewrite length_app in Hg.
  destruct (IH s1 (InactivityCheck.mark_as_active 0 c) Hc He Hl) as (ts & c' & Hts).
  exists (TuReadMessage 0 msg :: (TuReadSent 0 <$> ms) ++ ts), c'. erewrite run_loops_cons.
  2: { unfold loops_step, read_turn, closed, sent_ready, room. cbn -[handle_backend_messages].
       rewrite bool_decide_eq_true_2 by done. cbn -[handle_backend_messages]. rewrite E. reflexivity. }
  erewrite run_loops_app; [exact Hts|].
  exact (pending_runs ms msgs (set_back b s) (InactivityCheck.mark_as_active 0 c) ltac:(cbn; lia)).
Qed.

(** Whatever the background task does as a function, the two loops can do turn by
    turn: when nothing fails and what the reading produces fits the channel,
    [background] is the result of one of their schedules. *)
Theorem background_runs incoming s c : fr_closed s = false →
  let s' := background tr_send max_cap incoming s in
  fr_closed s' = false → length (fr_queue s') ≤ fr_cap s' →
  ∃ ts c', run_loops ts (loops_of c [] s) = Some (loops_of c' [] s').
Proof.
  intros Hc. unfold background. rewrite Hc.
  destruct (fr_closed (send_loop tr_send max_cap (fr_queue s) s)) eqn:Hs; [by rewrite Hs|]. intros He Hl.
  destruct (read_loop_grows incoming _ Hs He) as [_ Hcap].
  destruct (read_loop_runs incoming _ c Hs He ltac:(by rewrite <-Hcap)) as (ts & c' & H2).
  assert (∀ ms1 ms2, run_loops (TuArrive <$> ms2) (loops_of c ms1 s) = Some (loops_of c (ms1 ++ ms2) s)) as Ha.
  { intros ms1 ms2. revert ms1. induction ms2 as [|m ms2 IH]; intros ms1; [by rewrite app_nil_r|].
    cbn [fmap list_fmap]. erewrite run_loops_cons by reflexivity.
    pose proof (IH (ms1 ++ [m])) as H. rewrite <-app_assoc in H. exact H. }
  exists ((TuArrive <$> incoming) ++ (TuSendRecv <$> fr_queue s) ++ ts), c'.
  erewrite run_loops_app by apply (Ha []). erewrite run_loops_app by (by apply send_loop_runs). exact H2.
Qed.
End Loops.

(** ** A run *)
Section LoopsRun.
#[local] Existing Instance ref_json.
#[local] Existing Instance front_ext.

(** A transport that logs what it sends, and whose second ping fails. *)
Definition Wire : Type := list string * nat * option string.
Definition wire_send (raw : string) (t : Wire) : Result string unit * Wire := (Ok (), (t.1.1 ++ [raw], t.1.2, t.2)).
Definition wire_ping (t : Wire) : Result string unit * Wire :=
  match t.1.2 with
  | 0 => (Ok (), (t.1.1, 1, t.2))
  | _ => (Err "broken pipe", (t.1, Some "broken pipe"))
  end.
Lemma wire_keeps_error : keeps_error wire_send wire_ping id snd.
Proof. split_and!; [done| |done]. intros [[log [|n]] o]; [done|]. by intros _. Qed.
Notation run ts := (run_loops wire_send wire_ping id 2 ts (loops_start (InactivityCheck.new 30 2 0) 4 ([], 0, None))).

(** A message is sent and one is read; then the peer is silent. *)
Definition ex_hello : FrontToBack := FNotification "hello".
Definition ex_note : Result string ReceivedMessage := Ok (Text (q "{'jsonrpc':'2.0','method':'m','params':[1]}")).
Definition silent_turns : list Turn :=
  [TuReserve; TuFront ex_hello; TuSendPing; TuSendRecv ex_hello; TuReadTick 20; TuArrive ex_note; TuReadMessage 25 ex_note;
   TuReadTick 40; TuReadTick 60; TuReadTick 100].
Definition silent_end : list Turn := [TuReadPut; TuShutdown LWaitRecv; TuSendClosed; TuSendPut].
(** The ping of a turn waits for the message: the turns above are not a run. *)
Example ping_waits : run silent_turns = None.
Proof. vm_compute. reflexivity. Qed.
Definition silent_run : list Turn :=
  [TuReserve; TuFront ex_hello; TuSendRecv ex_hello; TuSendPing; TuReadTick 20; TuArrive ex_note; TuReadMessage 25 ex_note;
   TuReadTick 40; TuReadTick 60; TuReadTick 100] ++ silent_end.

Lemma client_loops_exact_witness :
  (∃ l, run silent_run = Some l ∧ (tr_of l).1.1 = ["hello"] ∧
    ∃ e, tk_reason (lo_tasks l) = Some e ∧ cause 2 snd (InactivityCheck.new 30 2 0) silent_run l e) ∧
  ∃ l, run [TuSendPing] = Some l ∧
    ∀ l', loops_step wire_send wire_ping id 2 TuSendPing l = Some l' →
      tk_send (lo_tasks l') = SClosed (Err (ErrTransport "broken pipe")).
Proof.
  split.
  - destruct (run silent_run) as [l|] eqn:E; [|vm_compute in E; discriminate]. exists l. split; [reflexivity|].
    destruct (client_loops_exact wire_send wire_ping id 2 snd (InactivityCheck.new 30 2 0) 4 ([], 0, None) silent_run l ref_sub_ids_read wire_keeps_error
      eq_refl eq_refl E) as (_ & _ & _ & _ & _ & H).
    vm_compute in E. injection E as <-. split; [reflexivity|].
    destruct H as (_ & _ & _ & H); [reflexivity|left; discriminate| |exact H].
    intros [| | | | | | | | | | | | | | |[]] []; reflexivity.
  - destruct (run [TuSendPing]) as [l|] eqn:E; [|vm_compute in E; discriminate]. exists l. split; [reflexivity|].
    intros l' Hl'. destruct (client_loops_exact wire_send wire_ping id 2 snd (InactivityCheck.new 30 2 0) 4 ([], 0, None) [TuSendPing] l ref_sub_ids_read wire_keeps_error
      eq_refl eq_refl E) as (_ & _ & _ & _ & H & _).
    destruct (H TuSendPing l' Hl') as (_ & Hs & _). vm_compute in E. injection E as <-. specialize (Hs eq_refl).
    vm_compute in Hl'. injection Hl' as <-. exact Hs.
Defined.
(** The schedule of a call of [background]. *)
Definition front_note : Front (list string) := set_queue [FNotification "hello"] front0.
Example background_schedule :
  (λ l, (bk_tr (lo_back l), lo_queue l)) <$>
    run_loops log_send (λ t, (Ok (), t)) id 2 [TuArrive ex_note; TuSendRecv ex_hello; TuReadMessage 0 ex_note]
      (loops_of IcDisabled [] front_note) = Some (["hello"], []).
Proof. vm_compute. reflexivity. Qed.
End LoopsRun.
