(* ===== verification/WsClientBuilder.v ===== *)
(** The builder of the WebSocket client, [client/ws-client/src/lib.rs], and
    [build_with_tokio] of [core/src/client/async_client/mod.rs]: from the settings
    to a client that is ready. *)
From stdpp Require Import base gmap strings list.
From S2P Require Import Prelude Serde RefJson Errors Params Wire ParamsBuilder Middleware ClientCore ClientService RequestManager AsyncClient AsyncClientProofs RpcModule RpcService Http WsServer Server HttpClient WsClient AsyncFrontend.

(** ** [ClientBuilder::build_with_tokio] *)
Section Built.
Context {X : HttpExtensions} {Tr : Type}.
(** What it hands to the tasks and to the client. *)
Record BuiltClient : Type := MkBuiltClient {
  bu_front : Front Tr;
  bu_id_manager : RequestIdManager;
  bu_request_timeout : N;
  bu_max_buffer_capacity_per_subscription : nat;
  bu_ping_interval : option N;
  bu_inactivity_stream : option N;
  bu_inactivity_check : InactivityCheck
}.
(** [mpsc::channel] panics on a capacity of zero. *)
Definition build_with_tokio (now : N) (transport : Tr) (b : AsyncFrontend.ClientBuilder)
    : Result Panicked BuiltClient :=
  if decide (0 < cb_max_concurrent_requests b) then
    let '(ping_interval, inactivity_stream, inactivity_check) :=
      match cb_ping_config b with
      | None => (None, None, IcDisabled)
      | Some p => (Some (cp_ping_interval p), Some (cp_inactive_limit p),
                   InactivityCheck.new (cp_inactive_limit p) (cp_max_failures p) now)
      end in
    Ok (MkBuiltClient (MkFront (MkBack RequestManager.new (MkWorld ∅ ∅) transport) [] (cb_max_concurrent_requests b) false None)
          (RequestIdManager.new (cb_id_kind b)) (cb_request_timeout b) (cb_max_buffer_capacity_per_subscription b)
          ping_interval inactivity_stream inactivity_check)
  else Err Panic.
End Built.
Arguments BuiltClient {X} Tr.

(** ** [WsClientBuilder] *)
Record WsClientBuilder : Type := MkWsClientBuilder {
  ws_max_request_size : N;
  ws_max_response_size : N;
  ws_request_timeout : N;
  ws_connection_timeout : N;
  ws_ping_config : option ClientPingConfig;
  ws_headers : HeaderMap;
  ws_max_concurrent_requests : nat;
  ws_max_buffer_capacity_per_subscription : nat;
  ws_max_redirections : nat;
  ws_id_kind : IdKind;
  ws_tcp_no_delay : bool;
  ws_message_encryption : option MessageEncryption
}.
(** Both causes are boxed into [Error::Transport]. *)
Inductive BuildError : Type := BeTransport (e : string + WsHandshakeError).

Module WsClientBuilder.
Notation B := WsClientBuilder.
Definition default : B :=
  MkWsClientBuilder TEN_MB_SIZE_BYTES TEN_MB_SIZE_BYTES 60 10 None [] 256 1024 5 KNumber true None.
Definition new : B := default.
Definition max_request_size (size : N) (b : B) : B :=
  MkWsClientBuilder size (ws_max_response_size b) (ws_request_timeout b) (ws_connection_timeout b) (ws_ping_config b)
    (ws_headers b) (ws_max_concurrent_requests b) (ws_max_buffer_capacity_per_subscription b) (ws_max_redirections b)
    (ws_id_kind b) (ws_tcp_no_delay b) (ws_message_encryption b).
Definition max_response_size (size : N) (b : B) : B :=
  MkWsClientBuilder (ws_max_request_size b) size (ws_request_timeout b) (ws_connection_timeout b) (ws_ping_config b)
    (ws_headers b) (ws_max_concurrent_requests b) (ws_max_buffer_capacity_per_subscription b) (ws_max_redirections b)
    (ws_id_kind b) (ws_tcp_no_delay b) (ws_message_encryption b).
Definition request_timeout (timeout : N) (b : B) : B :=
  MkWsClientBuilder (ws_max_request_size b) (ws_max_response_size b) timeout (ws_connection_timeout b) (ws_ping_config b)
    (ws_headers b) (ws_max_concurrent_requests b) (ws_max_buffer_capacity_per_subscription b) (ws_max_redirections b)
    (ws_id_kind b) (ws_tcp_no_delay b) (ws_message_encryption b).
Definition connection_timeout (timeout : N) (b : B) : B :=
  MkWsClientBuilder (ws_max_request_size b) (ws_max_response_size b) (ws_request_timeout b) timeout (ws_ping_config b)
    (ws_headers b) (ws_max_concurrent_requests b) (ws_max_buffer_capacity_per_subscription b) (ws_max_redirections b)
    (ws_id_kind b) (ws_tcp_no_delay b) (ws_message_encryption b).
Definition set_ping (cfg : option ClientPingConfig) (b : B) : B :=
  MkWsClientBuilder (ws_max_request_size b) (ws_max_response_size b) (ws_request_timeout b) (ws_connection_timeout b) cfg
    (ws_headers b) (ws_max_concurrent_requests b) (ws_max_buffer_capacity_per_subscription b) (ws_max_redirections b)
    (ws_id_kind b) (ws_tcp_no_delay b) (ws_message_encryption b).
Definition enable_ws_ping (cfg : ClientPingConfig) : B → B := set_ping (Some cfg).
Definition disable_ws_ping : B → B := set_ping None.
Definition set_headers (headers : HeaderMap) (b : B) : B :=
  MkWsClientBuilder (ws_max_request_size b) (ws_max_response_size b) (ws_request_timeout b) (ws_connection_timeout b) (ws_ping_config b)
    headers (ws_max_concurrent_requests b) (ws_max_buffer_capacity_per_subscription b) (ws_max_redirections b)
    (ws_id_kind b) (ws_tcp_no_delay b) (ws_message_encryption b).
Definition max_concurrent_requests (max : nat) (b : B) : B :=
  MkWsClientBuilder (ws_max_request_size b) (ws_max_response_size b) (ws_request_timeout b) (ws_connection_timeout b) (ws_ping_config b)
    (ws_headers b) max (ws_max_buffer_capacity_per_subscription b) (ws_max_redirections b)
    (ws_id_kind b) (ws_tcp_no_delay b) (ws_message_encryption b).
Definition max_buffer_capacity_per_subscription (max : nat) (b : B) : B :=
  MkWsClientBuilder (ws_max_request_size b) (ws_max_response_size b) (ws_request_timeout b) (ws_connection_timeout b) (ws_ping_config b)
    (ws_headers b) (ws_max_concurrent_requests b) max (ws_max_redirections b)
    (ws_id_kind b) (ws_tcp_no_delay b) (ws_message_encryption b).
Definition max_redirections (redirect : nat) (b : B) : B :=
  MkWsClientBuilder (ws_max_request_size b) (ws_max_response_size b) (ws_request_timeout b) (ws_connection_timeout b) (ws_ping_config b)
    (ws_headers b) (ws_max_concurrent_requests b) (ws_max_buffer_capacity_per_subscription b) redirect
    (ws_id_kind b) (ws_tcp_no_delay b) (ws_message_encryption b).
Definition id_format (kind : IdKind) (b : B) : B :=
  MkWsClientBuilder (ws_max_request_size b) (ws_max_response_size b) (ws_request_timeout b) (ws_connection_timeout b) (ws_ping_config b)
    (ws_headers b) (ws_max_concurrent_requests b) (ws_max_buffer_capacity_per_subscription b) (ws_max_redirections b)
    kind (ws_tcp_no_delay b) (ws_message_encryption b).
Definition set_tcp_no_delay (no_delay : bool) (b : B) : B :=
  MkWsClientBuilder (ws_max_request_size b) (ws_max_response_size b) (ws_request_timeout b) (ws_connection_timeout b) (ws_ping_config b)
    (ws_headers b) (ws_max_concurrent_requests b) (ws_max_buffer_capacity_per_subscription b) (ws_max_redirections b)
    (ws_id_kind b) no_delay (ws_message_encryption b).
Definition set_message_encryption (encryption : MessageEncryption) (b : B) : B :=
  MkWsClientBuilder (ws_max_request_size b) (ws_max_response_size b) (ws_request_timeout b) (ws_connection_timeout b) (ws_ping_config b)
    (ws_headers b) (ws_max_concurrent_requests b) (ws_max_buffer_capacity_per_subscription b) (ws_max_redirections b)
    (ws_id_kind b) (ws_tcp_no_delay b) (Some encryption).

Section Build.
Context {X : HttpExtensions} {L : UrlLib} {N : NetLib} {S : Type}.
Context (connect : SocketAddr → option string → S → Result WsHandshakeError unit * S).
Context (handshake : string → string → HeaderMap → S → Result string ServerResponse * S).
Context (build_tls_config : Result WsHandshakeError unit).
(** The time when the client is built. *)
Context (now : BinNums.N).

Definition build_with_transport {Tr} (transport : Tr) (b : B) : Result Panicked (BuiltClient Tr) :=
  client ← AsyncFrontend.ClientBuilder.max_buffer_capacity_per_subscription (ws_max_buffer_capacity_per_subscription b)
             AsyncFrontend.ClientBuilder.default;
  let client := AsyncFrontend.ClientBuilder.request_timeout (ws_request_timeout b) client in
  let client := AsyncFrontend.ClientBuilder.max_concurrent_requests (ws_max_concurrent_requests b) client in
  let client := AsyncFrontend.ClientBuilder.id_format (ws_id_kind b) client in
  let client := AsyncFrontend.ClientBuilder.set_tcp_no_delay (ws_tcp_no_delay b) client in
  let client := match ws_ping_config b with
                | Some cfg => AsyncFrontend.ClientBuilder.enable_ws_ping cfg client
                | None => client
                end in
  build_with_tokio now transport client.
Definition transport_builder (b : B) : WsTransportClientBuilder :=
  MkWsTransportClientBuilder (ws_connection_timeout b) (ws_headers b) (ws_max_request_size b) (ws_max_response_size b)
    (ws_max_redirections b) (ws_tcp_no_delay b) (ws_message_encryption b).
Definition over (transport : Url → S → Result WsHandshakeError (Sender * Receiver) * S) (url : string) (b : B) (s : S)
    : Result Panicked (Result BuildError (BuiltClient (Sender * Receiver))) * S :=
  match url_parse url with
  | Err e => (Ok (Err (BeTransport (inl e))), s)
  | Ok uri =>
    match transport uri s with
    | (Err e, s) => (Ok (Err (BeTransport (inr e))), s)
    | (Ok ends, s) => (Ok <$> build_with_transport ends b, s)
    end
  end.
Definition build_with_stream (url : string) (b : B) : S → _ :=
  over (WsClient.build_with_stream (transport_builder b) handshake) url b.
Definition build (url : string) (b : B) : S → _ :=
  over (WsClient.build (transport_builder b) connect handshake build_tls_config) url b.

(** A builder makes a client exactly when its two capacities are positive; the
    client is idle, with an empty table and the settings of the builder. *)
Theorem built_client_ready {J : SerdeJson} {Tr} (transport : Tr) (b : B) :
  match build_with_transport transport b with
  | Err _ => ws_max_buffer_capacity_per_subscription b = 0 ∨ ws_max_concurrent_requests b = 0
  | Ok c =>
    0 < ws_max_buffer_capacity_per_subscription b ∧
    idle (bu_front c) ∧ fr_back (bu_front c) = MkBack RequestManager.new (MkWorld ∅ ∅) transport ∧
    fr_cap (bu_front c) = ws_max_concurrent_requests b ∧ bu_id_manager c = RequestIdManager.new (ws_id_kind b) ∧
    bu_request_timeout c = ws_request_timeout b ∧
    bu_max_buffer_capacity_per_subscription c = ws_max_buffer_capacity_per_subscription b ∧
    (bu_inactivity_check c = IcDisabled ↔ ws_ping_config b = None)
  end.
Proof.
  unfold build_with_transport, AsyncFrontend.ClientBuilder.max_buffer_capacity_per_subscription.
  destruct (decide (0 < ws_max_buffer_capacity_per_subscription b)) as [H1|H1]; cbn; [|lia].
  unfold build_with_tokio. destruct (ws_ping_config b) as [p|]; cbn;
    (destruct (decide (0 < ws_max_concurrent_requests b)) as [H2|H2]; cbn; [|lia]); by split_and!.
Qed.
End Build.
End WsClientBuilder.
