(* ===== verification/Wasm.v ===== *)
(** The client in a browser: [client/wasm-client/src/lib.rs], its transport
    [client/transport/src/web.rs], and [build_with_wasm] of
    [core/src/client/async_client/mod.rs].

    The socket of the browser ([gloo_net]) is a parameter.  The client is the one of
    [AsyncFrontend.v], without pings and without the check for inactivity. *)
From stdpp Require Import base gmap strings list.
From S2P Require Import Prelude Serde RefJson Errors Params Wire ParamsBuilder Middleware ClientCore ClientService RequestManager AsyncClient AsyncClientProofs RpcModule RpcService Http WsServer Server HttpClient WsClient AsyncFrontend WsClientBuilder.
Import RequestManager.

(** ** The transport *)
Module Web.
(** Errors of the crates behind are their texts. *)
Inductive Error : Type :=
| SendError (e : string)
| SenderDisconnected
| Js (e : string)
| WebSocket (e : string)
| NotSupported.
Inductive Message : Type := MText (txt : string) | MBytes (bytes : string).

Section Ops.
Context {S : Type}.
(** [WebSocket::open], and the two halves of a socket: the sink accepts a message or
    fails; the stream yields a message or an error, or has ended. *)
Context (open : string → S → Result string unit * S) (sink : Message → S → Result string unit * S).
Definition connect (url : string) (s : S) : Result Error unit * S :=
  let '(websocket, s) := open url s in (map_err Js websocket, s).
Definition send (msg : string) (s : S) : Result Error unit * S :=
  let '(r, s) := sink (MText msg) s in (map_err WebSocket r, s).
Definition receive (next : option (Result string Message)) : Result Error AsyncClient.ReceivedMessage :=
  match next with
  | Some (Ok msg) =>
    match msg with
    | MBytes bytes => Ok (Bytes bytes)
    | MText txt => Ok (Text txt)
    end
  | Some (Err err) => Err (WebSocket err)
  | None => Err SenderDisconnected
  end.
End Ops.
End Web.

(** ** [build_with_wasm] *)
Definition build_with_wasm {X : HttpExtensions} {Tr : Type} (transport : Tr) (b : AsyncFrontend.ClientBuilder)
    : Result Panicked (BuiltClient Tr) :=
  if decide (0 < cb_max_concurrent_requests b) then
    Ok (MkBuiltClient (MkFront (MkBack RequestManager.new (MkWorld ∅ ∅) transport) [] (cb_max_concurrent_requests b) false None)
          (RequestIdManager.new (cb_id_kind b)) (cb_request_timeout b) (cb_max_buffer_capacity_per_subscription b)
          None None IcDisabled)
  else Err Panic.

(** ** The builder *)
Record WasmClientBuilder : Type := MkWasmClientBuilder {
  wa_id_kind : IdKind;
  wa_max_concurrent_requests : nat;
  wa_max_buffer_capacity_per_subscription : nat;
  wa_request_timeout : N
}.
Module WasmClientBuilder.
Notation B := WasmClientBuilder.
Definition default : B := MkWasmClientBuilder KNumber 256 1024 60.
Definition new : B := default.
Definition request_timeout (timeout : N) (b : B) : B :=
  MkWasmClientBuilder (wa_id_kind b) (wa_max_concurrent_requests b) (wa_max_buffer_capacity_per_subscription b) timeout.
Definition max_concurrent_requests (max : nat) (b : B) : B :=
  MkWasmClientBuilder (wa_id_kind b) max (wa_max_buffer_capacity_per_subscription b) (wa_request_timeout b).
Definition max_buffer_capacity_per_subscription (max : nat) (b : B) : B :=
  MkWasmClientBuilder (wa_id_kind b) (wa_max_concurrent_requests b) max (wa_request_timeout b).
Definition id_format (kind : IdKind) (b : B) : B :=
  MkWasmClientBuilder kind (wa_max_concurrent_requests b) (wa_max_buffer_capacity_per_subscription b) (wa_request_timeout b).

Section Build.
Context {X : HttpExtensions} {S : Type} (open : string → S → Result string unit * S).
(** The settings are handed to the builder of the async client; the transport is
    the socket itself. *)
Definition build (url : string) (b : B) (s : S) : Result Panicked (Result Web.Error (BuiltClient S)) * S :=
  match Web.connect open url s with
  | (Err e, s) => (Ok (Err e), s)
  | (Ok _, s) =>
    (client ← AsyncFrontend.ClientBuilder.max_buffer_capacity_per_subscription (wa_max_buffer_capacity_per_subscription b)
                (AsyncFrontend.ClientBuilder.id_format (wa_id_kind b)
                  (AsyncFrontend.ClientBuilder.request_timeout (wa_request_timeout b) AsyncFrontend.ClientBuilder.default));
     let client := AsyncFrontend.ClientBuilder.max_concurrent_requests (wa_max_concurrent_requests b) client in
     Ok <$> build_with_wasm s client, s)
  end.

(** When the socket opens, the client is built exactly if its capacities are
    positive; it is idle, has the settings of the builder, and neither sends pings
    nor closes an inactive connection.  Otherwise the error is the browser's. *)
Theorem wasm_client_ready (url : string) (b : B) (s : S) :
  match build url b s with
  | (Err _, s') => open url s = (Ok (), s') ∧ (wa_max_buffer_capacity_per_subscription b = 0 ∨ wa_max_concurrent_requests b = 0)
  | (Ok (Err e), s') => ∃ text, open url s = (Err text, s') ∧ e = Web.Js text
  | (Ok (Ok c), s') =>
    open url s = (Ok (), s') ∧ idle (bu_front c) ∧ fr_back (bu_front c) = MkBack RequestManager.new (MkWorld ∅ ∅) s' ∧
    fr_cap (bu_front c) = wa_max_concurrent_requests b ∧ bu_id_manager c = RequestIdManager.new (wa_id_kind b) ∧
    bu_request_timeout c = wa_request_timeout b ∧
    bu_max_buffer_capacity_per_subscription c = wa_max_buffer_capacity_per_subscription b ∧
    bu_ping_interval c = None ∧ ∀ now, fst (InactivityCheck.is_inactive now (bu_inactivity_check c)) = false
  end.
Proof.
  unfold build, Web.connect. destruct (open url s) as [[[]|e] s']; cbn [map_err]; [|by exists e].
  unfold AsyncFrontend.ClientBuilder.max_buffer_capacity_per_subscription.
  destruct (decide (0 < wa_max_buffer_capacity_per_subscription b)) as [H1|H1]; cbn; [|split; [done|lia]].
  unfold build_with_wasm. cbn. destruct (decide (0 < wa_max_concurrent_requests b)) as [H2|H2]; cbn; [by split_and!|split; [done|lia]].
Qed.
End Build.
End WasmClientBuilder.

(** ** A call of a new client *)
Section Call.
Context {J : SerdeJson} {X : HttpExtensions} {XS : ExtKey IsSubscription} {XB : ExtKey IsBatch} {S : Type}.
Context (open : string → S → Result string unit * S) (sink : Web.Message → S → Result string unit * S).
(** Errors of the transport are their texts. *)
Context (error_text : Web.Error → string) (max_cap : nat).
Definition web_tr_send (raw : string) (s : S) : Result string unit * S :=
  let '(r, s) := Web.send sink raw s in (map_err error_text r, s).
Definition web_incoming (next : option (Result string Web.Message)) : Result string AsyncClient.ReceivedMessage :=
  map_err error_text (Web.receive next).

(** The first call of a client that was built: the text of the request goes to the
    socket once, and when the next message of the socket is its response the caller
    gets the result; the client is ready for the next call.  A socket that ends
    instead ends the client, and the caller learns why. *)
Theorem wasm_first_call {R} (de : string → Result string R) url (b : WasmClientBuilder) c s s' s'' name ps raw :
  let ids := bu_id_manager c in
  let '(id, ids') := RequestIdManager.next_request_id ids in
  let bg next := background web_tr_send max_cap [web_incoming next] in
  no_marker → WasmClientBuilder.build open url b s = (Ok (Ok c), s') →
  json_write (request_serialize (request_new name ps id)) = Some raw → sink (Web.MText raw) s' = (Ok (), s'') →
  (∀ answer rp, is_response answer rp → rp_id rp = id →
   ∃ front, Client.request (svc := async_service (bg (Some (Ok (Web.MText answer))))) read_error de name (Ok ps) (ids, bu_front c) =
     (match rp_payload rp with
      | Success v => map_err (λ e, CsErr (ErrParseError e)) (de v)
      | PayloadError e => Err (CsErr (ErrCall (ErrorObject.into_owned e)))
      end, (ids', front)) ∧
     idle front ∧ bk_manager (fr_back front) = RequestManager.new ∧ bk_tr (fr_back front) = s'') ∧
  ∃ front, Client.request (svc := async_service (bg None)) read_error de name (Ok ps) (ids, bu_front c) =
     (Err (CsErr (ErrRestartNeeded (ErrTransport (error_text Web.SenderDisconnected)))), (ids', front)) ∧
   is_connected front = false.
Proof.
  intros ids. destruct (RequestIdManager.next_request_id ids) as [id ids'] eqn:Eid. intros bg Hx Hb Hw Hs.
  pose proof (WasmClientBuilder.wasm_client_ready open url b s) as H. rewrite Hb in H. destruct H as (_ & Hi & Hf & _).
  assert (web_tr_send raw (bk_tr (fr_back (bu_front c))) = (Ok (), s'')) as Ht by (rewrite Hf; unfold web_tr_send, Web.send; cbn; by rewrite Hs).
  assert (requests (bk_manager (fr_back (bu_front c))) !! id = None) as Hn by (rewrite Hf; apply lookup_empty).
  split.
  - intros answer rp Hr Hid.
    destruct (call_answered web_tr_send max_cap (bg (Some (Ok (Web.MText answer)))) de name ps ids id ids' (bu_front c) raw s'' answer rp
      Eid Hx Hw Ht Hi Hn Hr Hid eq_refl) as (front & Hc & Hi' & Hm & Htr).
    exists front. split; [exact Hc|]. split; [done|]. by rewrite Hm, Hf.
  - pose proof (svc_call_sends web_tr_send max_cap (bg None) (bu_front c) (request_new name ps id) raw s'' _ Hi Hx eq_refl Hw Ht Hn eq_refl) as Hcall.
    rewrite (client_request _ de name ps ids id ids' _ Eid), Hcall. cbn.
    rewrite lookup_fmap, lookup_insert_eq. cbn. by eexists.
Qed.
End Call.

(** ** A call over concrete texts *)
Section WasmRun.
#[local] Existing Instance ref_json.
#[local] Existing Instance front_ext.
#[local] Existing Instance front_sub_ext.
#[local] Existing Instance front_batch_ext.
(** A browser that opens any socket, and remembers what is sent. *)
Definition ex_open (url : string) (s : list Web.Message) : Result string unit * list Web.Message :=
  (if decide (url = "") then Err "SyntaxError" else Ok (), s).
Definition ex_sink (m : Web.Message) (s : list Web.Message) : Result string unit * list Web.Message := (Ok (), s ++ [m]).
Definition wasm_built : Result Panicked (Result Web.Error (BuiltClient (list Web.Message))) * list Web.Message :=
  WasmClientBuilder.build ex_open "wss://localhost" (WasmClientBuilder.max_concurrent_requests 2 WasmClientBuilder.default) [].

Lemma wasm_first_call_witness : match wasm_built with
  | (Ok (Ok c), _) => ∃ front, Client.request (svc := async_service (background (web_tr_send ex_sink (λ _, "")) 16
        [web_incoming (λ _, "") (Some (Ok (Web.MText (q "{'jsonrpc':'2.0','id':0,'result':7}"))))])) read_error de_int "f" (Ok None)
        (bu_id_manager c, bu_front c) = (Ok 7%Z, (snd (RequestIdManager.next_request_id (bu_id_manager c)), front)) ∧
      bk_tr (fr_back front) = [Web.MText (q "{'jsonrpc':'2.0','id':0,'method':'f'}")]
  | _ => False
  end.
Proof.
  destruct wasm_built as [[[c|]|] s'] eqn:E; try (vm_compute in E; discriminate).
  pose proof (wasm_first_call ex_open ex_sink (λ _, "") 16 de_int "wss://localhost"
    (WasmClientBuilder.max_concurrent_requests 2 WasmClientBuilder.default) c [] s' [Web.MText (q "{'jsonrpc':'2.0','id':0,'method':'f'}")]
    "f" None (q "{'jsonrpc':'2.0','id':0,'method':'f'}")) as H.
  assert (bu_id_manager c = RequestIdManager.new KNumber ∧ s' = []) as [Hids Hs'].
  { vm_compute in E. injection E as <- <-. split; reflexivity. }
  rewrite Hids in *. destruct (RequestIdManager.next_request_id (RequestIdManager.new KNumber)) as [id ids] eqn:Eid.
  vm_compute in Eid. injection Eid as <- <-. destruct H as [H _]; [reflexivity|exact E|vm_compute; reflexivity|by rewrite Hs'|].
  destruct (H (q "{'jsonrpc':'2.0','id':0,'result':7}") (MkResponse (Some V2) (Success "7") (IdNumber 0) ext_new)) as (front & Hc & _ & _ & Ht).
  - split; vm_compute; reflexivity.
  - reflexivity.
  - exists front. split; [exact Hc|exact Ht].
Defined.
End WasmRun.
