(* ===== verification/WsCall.v ===== *)
(** A call over a WebSocket, from the caller to the method and back: the async
    client ([AsyncFrontend.v]) on the WebSocket connection of [WsClient.v], with a
    session of the server ([WsSession.v]) whose service is [rpc_service] at the
    other end.

    The socket between them delivers what it is given.  A text the client sends is
    served at once: the session takes the steps of [serve]; what it put on the wire
    is what the client's background task then reads.  The session and its service
    have one world: a call works on the channels of the session. *)
From stdpp Require Import base gmap strings list.
From S2P Require Import Prelude Serde RefJson Errors Params Wire Middleware ClientCore ClientService RequestManager AsyncClient AsyncClientProofs MethodResponse Subscription RpcModule RpcService Http WsServer Server WsSession HttpClient WsClient AsyncFrontend AsyncSubscription.
Import RequestManager.

Section WsCall.
Context {J : SerdeJson} {X : HttpExtensions} {XC : ExtKey ConnectionId} {XS : ExtKey IsSubscription} {XB : ExtKey IsBatch}.
Context {U : Type} (rest : SubscribeCall → W U → W U) (s : RpcService U).
(** The session of the server, and the encryption both ends were given. *)
Context (ping_config : option PingConfig) (max_request_body_size : N) (batch_config : BatchRequestConfig).
Context (encryption : option MessageEncryption) (policy : MessageCryptoErrorPolicy).
Context (extensions : Extensions) (sink : MethodSink) (biased : bool).
(** The connection of the client; errors of the transport are their texts. *)
Context (max_request_size : N) (error_text : WsError → string) (max_cap : nat).
Notation step := (session_step (svc := rpc_service rest s) ping_config max_request_body_size batch_config
  encryption policy extensions sink biased).
Implicit Types ses : Session (W U).

(** ** The connection *)

(** The world of the session and the user's state. *)
Definition world_of ses : W U := (ss_srv ses, snd (ss_svc ses)).
(** A task runs its call on that world; what the call puts in the channel of the
    connection, as the answer of a subscribe call, is put there. *)
Definition run_shared (i : nat) ses : option (Session (W U)) :=
  (λ ses', put_by sink None (fst (ss_svc ses')) ses') <$>
    step (LRun i) (MkSession (ss_srv ses) (world_of ses) (ss_loop ses) (ss_send ses) (ss_tasks ses) (ss_closed ses)
                     (ss_received ses) (ss_outcomes ses) (ss_put ses) (ss_taken ses) (ss_wire ses) (ss_notified ses)).
Definition shared_step (l : WsSession.Label) ses : option (Session (W U)) :=
  match l with LRun i => run_shared i ses | _ => step l ses end.
(** A step of the session, when it can be taken. *)
Definition try_step ses (l : WsSession.Label) : Session (W U) := default ses (shared_step l ses).
(** What the server's socket makes of a text. *)
Definition socket_event (text : string) : WsEvent :=
  if decide (slen text <= max_request_body_size)%N then EvData text
  else EvError (SkMessageTooLarge (slen text) max_request_body_size).
(** The channel of the connection is emptied into the socket. *)
Definition flush ses : Session (W U) :=
  foldl try_step ses (replicate (length (queue_of sink (ss_srv ses))) (LSend (Ok ()))).
Definition serve (text : string) ses : Session (W U) :=
  let i := length (ss_received ses) in
  flush (foldl try_step ses [LTurn 0 [(0%N, socket_event text)]; LLoop; LRun i; LPut i]).

Definition ws_tr_send (raw : string) ses : Result string unit * Session (W U) :=
  match ws_send (λ _, Ok ()) (MkSender max_request_size encryption) raw with
  | (texts, Ok _) => (Ok (), foldl (λ ses text, serve text ses) ses texts)
  | (_, Err e) => (Err (error_text e), ses)
  end.
Definition incoming (text : string) : Result string AsyncClient.ReceivedMessage :=
  match ws_receive (MkReceiver encryption) (Ok (WiText text)) with
  | Ok (RmText t) => Ok (Text t)
  | Ok (RmBytes b) => Ok (Bytes b)
  | Ok RmPong => Ok Pong
  | Err e => Err (error_text e)
  end.
(** What the server put on the wire while the client's queue was sent. *)
Definition wire_of_front (f : Front (Session (W U))) : list string := ss_wire (bk_tr (fr_back f)).
Definition new_replies (f : Front (Session (W U))) : list string :=
  drop (length (wire_of_front f)) (wire_of_front (send_loop ws_tr_send max_cap (fr_queue f) f)).
Definition ws_background (f : Front (Session (W U))) : Front (Session (W U)) :=
  background ws_tr_send max_cap (incoming <$> new_replies f) f.

(** ** One message *)

(** The session waits for a message, and has nothing left to send. *)
Definition ready ses : Prop :=
  (∃ missed_pings, ss_loop ses = LpReceiving missed_pings) ∧ ss_send ses = SdRunning ∧
  queue_of sink (ss_srv ses) = [] ∧ cc_closed (get_chan (ms_tx sink) (ss_srv ses)) = false ∧
  0 < cc_cap (get_chan (ms_tx sink) (ss_srv ses)).
(** [data] is what goes over the wire for [text]. *)
Definition crosses (text data : string) : Prop :=
  utf8_valid data = true ∧
  match encryption with Some enc => encryption_law enc ∧ encrypt enc text = Ok data | None => data = text end.

Lemma crosses_decrypted text data : crosses text data → decrypted encryption policy data = Ok text.
Proof. unfold crosses, decrypted. intros [-> H]. destruct encryption as [enc|]; [|by subst]. destruct H as [HL He]. by rewrite (HL _ _ He). Qed.
Lemma crosses_incoming text data : crosses text data → incoming data = Ok (Text text).
Proof.
  unfold crosses, incoming. cbn. intros [-> H]. destruct encryption as [enc|]; [|by subst].
  destruct H as [HL He]. by rewrite (HL _ _ He).
Qed.
Lemma crosses_turn text data sent : crosses text data → turn_of encryption policy (SeMessage text) sent = ([data], is_ok sent).
Proof.
  unfold crosses, turn_of, send_task_step, send_message. intros [_ H]. destruct encryption as [enc|]; [|by subst].
  destruct H as [_ He]. by rewrite He.
Qed.
Lemma crosses_send text data ses : crosses text data → (slen data <= max_request_size)%N →
  ws_tr_send text ses = (Ok (), serve data ses).
Proof.
  unfold crosses, ws_tr_send, ws_send. cbn. intros [_ H] Hl. destruct encryption as [enc|].
  - destruct H as [_ He]. rewrite He. cbn. by rewrite decide_False by lia.
  - subst. by rewrite decide_False by lia.
Qed.

Lemma try_step_some l ses ses' : shared_step l ses = Some ses' → try_step ses l = ses'.
Proof. unfold try_step. by intros ->. Qed.
Lemma chan_after_set h c w : get_chan h (set_chans (<[h := c]> (sw_chans w)) w) = c.
Proof. unfold get_chan, set_chans. cbn. by rewrite lookup_insert_eq. Qed.
Lemma chan_after_enqueue json w : get_chan (ms_tx sink) (enqueue sink json w) =
  let c := get_chan (ms_tx sink) w in MkConnChan (cc_cap c) (cc_queue c ++ [json]) (cc_closed c).
Proof. apply chan_after_set. Qed.
(** A text that is put in a channel with room. *)
Lemma sink_send_room json w : cc_closed (get_chan (ms_tx sink) w) = false →
  length (queue_of sink w) < cc_cap (get_chan (ms_tx sink) w) →
  sink_send sink json w = Some (Ok (), enqueue sink json w) ∧ queue_of sink (enqueue sink json w) = queue_of sink w ++ [json].
Proof.
  unfold sink_send, sink_try_send, sink_is_closed, sink_capacity, queue_of. intros -> Hc.
  rewrite decide_True by lia. split; [done|]. by rewrite chan_after_enqueue.
Qed.

(** The world when the channel is empty. *)
Definition drained (w : SrvWorld) : SrvWorld :=
  let c := get_chan (ms_tx sink) w in set_chans (<[ms_tx sink := MkConnChan (cc_cap c) [] (cc_closed c)]> (sw_chans w)) w.
Lemma drained_idle w : cc_closed (get_chan (ms_tx sink) w) = false → queue_of sink w = [] → drained w = w.
Proof.
  unfold drained, queue_of, get_chan, set_chans. destruct w as [cs sb ac an sm nx]. cbn. intros Hc Hq.
  destruct (cs !! ms_tx sink) as [[cap qu cl]|] eqn:E; cbn in *; [|done]. subst. by rewrite insert_id.
Qed.
Lemma drained_set c w : drained (set_chans (<[ms_tx sink := c]> (sw_chans w)) w) =
  set_chans (<[ms_tx sink := MkConnChan (cc_cap c) [] (cc_closed c)]> (sw_chans w)) w.
Proof.
  unfold drained. rewrite chan_after_set. unfold set_chans. cbn. by rewrite insert_insert_eq.
Qed.
(** Everything in the channel goes to the socket, in order. *)
Lemma flush_spec ses texts replies : ss_send ses = SdRunning → queue_of sink (ss_srv ses) = texts →
  cc_closed (get_chan (ms_tx sink) (ss_srv ses)) = false → Forall2 crosses texts replies →
  let ses' := flush ses in
  ss_srv ses' = drained (ss_srv ses) ∧ ss_svc ses' = ss_svc ses ∧ ss_loop ses' = ss_loop ses ∧ ss_send ses' = SdRunning ∧
  ss_received ses' = ss_received ses ∧ ss_wire ses' = ss_wire ses ++ replies.
Proof.
  unfold flush. intros Hs Hq Ho Hx. rewrite Hq. revert ses Hs Hq Ho. induction Hx as [|t r ts rs Hx _ IH]; intros ses Hs Hq Ho.
  - cbn. rewrite app_nil_r, drained_idle by done. by split_and!.
  - cbn [length replicate foldl]. unfold queue_of in *.
    erewrite (try_step_some (LSend _) ses).
    2: { cbn [shared_step session_step]. unfold send_turn, queue_of. rewrite Hs, Hq, (crosses_turn _ r) by done. reflexivity. }
    cbn [go_on is_ok].
    specialize (IH (take_text sink t ts [r] ses)). unfold take_text in *. cbn [ss_send ss_srv ss_svc ss_loop ss_received ss_wire] in *.
    destruct IH as (H1 & H2 & H3 & H4 & H5 & H6); [done|by rewrite chan_after_set..|].
    rewrite H1, H2, H3, H4, H5, H6, drained_set. cbn. rewrite <-app_assoc. by split_and!.
Qed.

(** A message that is handled: the session is ready again; what the outside saw of
    it is the message, what its call put in the channel, and its answer. *)
Lemma serve_handled ses data task st pushed replies : ready ses → (slen data <= max_request_body_size)%N →
  handle_message (svc := rpc_service rest s) encryption policy batch_config extensions data (world_of ses) = (Ok task, st) →
  queue_of sink (fst st) = pushed → cc_closed (get_chan (ms_tx sink) (fst st)) = false →
  0 < cc_cap (get_chan (ms_tx sink) (fst st)) →
  length (pushed ++ task_texts task) ≤ cc_cap (get_chan (ms_tx sink) (fst st)) → Forall2 crosses (pushed ++ task_texts task) replies →
  ready (serve data ses) ∧ world_of (serve data ses) = (drained (fst st), snd st) ∧
  ss_received (serve data ses) = ss_received ses ++ [data] ∧ ss_wire (serve data ses) = ss_wire ses ++ replies.
Proof.
  intros ([mp Hl] & Hs & Hq & Ho & Hc) Hd Hm Hp Ho' Hpos Hc' Hx.
  destruct ses as [srv sv lp sd ts cl rc oc pt tk wi nt]. cbn in Hl, Hs, Hq, Ho, Hc, Hm. unfold world_of in Hm. cbn in Hm. subst lp sd.
  unfold serve, socket_event. rewrite decide_True by done. cbn [ss_received foldl]. cbv zeta. cbn [foldl].
  erewrite (try_step_some (LTurn _ _)) by reflexivity.
  erewrite (try_step_some LLoop) by reflexivity.
  erewrite (try_step_some (LRun _)).
  2: { cbn. unfold run_shared. cbn. unfold task_run. cbn. rewrite lookup_insert_eq. unfold world_of. cbn. rewrite Hm. reflexivity. }
  assert (∃ n w', msg_task_poll sink task (fst st) = Some (n, w') ∧ queue_of sink w' = pushed ++ task_texts task ∧
    drained w' = drained (fst st) ∧ get_chan (ms_tx sink) w' =
      MkConnChan (cc_cap (get_chan (ms_tx sink) (fst st))) (pushed ++ task_texts task) false) as (n & w' & Hpoll & Hq' & Hdr & Hch).
  { rewrite length_app in Hc'. assert (∀ json, length pushed < cc_cap (get_chan (ms_tx sink) (fst st)) → sink_send sink json (fst st) = Some (Ok (), enqueue sink json (fst st)) ∧
      queue_of sink (enqueue sink json (fst st)) = pushed ++ [json] ∧ drained (enqueue sink json (fst st)) = drained (fst st) ∧
      get_chan (ms_tx sink) (enqueue sink json (fst st)) =
        MkConnChan (cc_cap (get_chan (ms_tx sink) (fst st))) (pushed ++ [json]) false) as Hput.
    { intros json Hr. rewrite <-Hp. destruct (sink_send_room json (fst st) Ho') as [-> ->]; [by rewrite Hp|]. split; [done|]. split; [done|].
      split; [|rewrite chan_after_enqueue; cbv zeta; by rewrite Ho']. unfold enqueue. by rewrite drained_set. }
    destruct task as [|json|json oc' ok]; cbn [msg_task_poll task_texts].
    - eexists _, _. split; [done|]. rewrite app_nil_r. split; [done|]. split; [done|].
      unfold queue_of in Hp. destruct (get_chan (ms_tx sink) (fst st)); cbn in *. by subst.
    - cbn in Hc'. destruct (Hput json ltac:(lia)) as (-> & H). by eexists _, _.
    - cbn in Hc'. destruct (Hput json ltac:(lia)) as (-> & H). by eexists _, _. }
  erewrite (try_step_some (LPut _)).
  2: { cbn. unfold task_put. cbn. rewrite lookup_insert_eq. cbn. rewrite Hpoll. reflexivity. }
  match goal with |- context [flush ?x] => destruct (flush_spec x (pushed ++ task_texts task) replies) as (H1 & H2 & H3 & H4 & H5 & H6) end;
    [done|exact Hq'|cbn; by rewrite Hch|done|].
  rewrite H5, H6. unfold world_of, ready. rewrite H1, H2, H3, H4. cbn [ss_srv ss_svc ss_loop task_done put_by ss_received ss_wire set_loop spawn snd fst].
  rewrite Hdr. split; [|done]. split; [by eexists|]. split; [done|]. unfold drained, queue_of. rewrite !chan_after_set. cbn.
  split; [done|]. split; [done|]. lia.
Qed.
(** A message that is answered: of its call the world has no trace. *)
Lemma serve_answered ses data json on_close ok reply st : ready ses → (slen data <= max_request_body_size)%N →
  handle_message (svc := rpc_service rest s) encryption policy batch_config extensions data (world_of ses) =
    (Ok (MtSend json on_close ok), st) → fst st = ss_srv ses →
  crosses json reply →
  ready (serve data ses) ∧ world_of (serve data ses) = st ∧ ss_received (serve data ses) = ss_received ses ++ [data] ∧
  ss_wire (serve data ses) = ss_wire ses ++ [reply].
Proof.
  intros Hr Hd Hm Hst Hx. pose proof Hr as (_ & _ & Hq & Ho & Hc).
  destruct (serve_handled ses data _ st [] [reply] Hr Hd Hm) as (H1 & H2 & H3); try (rewrite Hst; done).
  { by constructor. }
  split; [done|]. split; [|done]. rewrite H2, Hst, drained_idle by done. destruct st. cbn in *. by subst.
Qed.

Lemma incoming_texts ts rs : Forall2 crosses ts rs → incoming <$> rs = texts ts.
Proof.
  induction 1 as [|t r ts rs H _ IH]; [done|]. cbn [fmap list_fmap texts] in *. rewrite IH. f_equal. by apply crosses_incoming.
Qed.
(** What is new on the wire when the front's queue has been sent. *)
Lemma ws_background_replies (front : Front (Session (W U))) t ts rs :
  bk_tr (fr_back (send_loop ws_tr_send max_cap (fr_queue front) front)) = t →
  ss_wire t = ss_wire (bk_tr (fr_back front)) ++ rs → Forall2 crosses ts rs →
  ws_background front = background ws_tr_send max_cap (texts ts) front.
Proof.
  intros Hl Hw Hx. unfold ws_background. f_equal. unfold new_replies, wire_of_front. rewrite Hl, Hw, drop_app_length.
  by apply incoming_texts.
Qed.

Lemma new_replies_call (front : Front (Session (W U))) id text ses' replies :
  requests (bk_manager (fr_back front)) !! id = None →
  ws_tr_send text (bk_tr (fr_back front)) = (Ok (), ses') → ss_wire ses' = wire_of_front front ++ replies →
  new_replies (queued_call front id text) = replies.
Proof.
  intros Hn Ht Hw. unfold new_replies.
  change (wire_of_front (queued_call front id text)) with (wire_of_front front).
  set (h := fresh (dom (w_oneshots (bk_world (fr_back front))))).
  change (fr_queue (queued_call front id text)) with [FRequest (MkRequestMessage text id (Some h))].
  cbn [send_loop]. rewrite (send_request ws_tr_send max_cap text id h (fr_back (queued_call front id text)) ses' Hn Ht).
  unfold wire_of_front at 2. cbn [fr_back set_queue set_back bk_tr]. rewrite Hw. apply drop_app_length.
Qed.

(** ** A call *)

(** C3: calling a method over a WebSocket is calling it, encrypted or not: for a
    method that looks at its parameters and the user's state only, the client gets
    what a direct call of the registered method gives, value or error, and leaves
    the user's state as the direct call does, once.  One text went each way.  The
    client's table and the session are ready for the next call. *)
Theorem ws_call_equals_direct {R T} `{IntoResponse R} (ser : T → Ser) (de : string → Result string T)
    (name : string) (ps : option string) (f : Params → U → R * U) (r : R) (p : ResponsePayload T) (random : N)
    (ids : RequestIdManager) (front : Front (Session (W U))) (u' : U) (data reply : string) :
  let '(id, ids') := RequestIdManager.next_request_id ids in
  let q := request_new name ps id in
  let ses := bk_tr (fr_back front) in
  let respond := RpcModule.respond (user_method f) in
  (* the method *)
  Methods.method name (rs_methods s) = Some (McSync (λ id ps max x, respond id ps max x)) ∨
    Methods.method name (rs_methods s) = Some (McAsync (λ id ps _ max x, respond id ps max x)) →
  f (params_new ps) (snd (world_of ses)) = (r, u') → mp_inner (into_response r) = payload_map ser p →
  match p with Success v => de (text_of (ser v)) = Ok v ∧ json_read (text_of (ser v)) ≠ None | PayloadError e => eo_ok e end →
  (* the request and its response fit *)
  entry_ok (BeCall q) → opens true (text_of (request_serialize q)) →
  crosses (text_of (request_serialize q)) data →
  crosses (text_of (response_serialize ser (response_new p id))) reply →
  (slen data <= max_request_size)%N → (slen data <= max_request_body_size)%N →
  response_ok ser p (rs_max_response_body_size s) id → response_ok ser p usize_max (IdNumber 0) →
  (* both ends are ready *)
  no_marker → idle front → requests (bk_manager (fr_back front)) !! id = None → ready ses →
  ∃ out w1 front',
    RpcModule.call rest (λ raw, result_ok (de raw)) (rs_methods s) name (Ok ps) random (world_of ses) = (Ok out, (w1, u')) ∧
    Client.request (svc := async_service ws_background) read_error de name (Ok ps) (ids, front) =
      (as_client out, (ids', front')) ∧
    idle front' ∧ bk_manager (fr_back front') = bk_manager (fr_back front) ∧
    let ses' := bk_tr (fr_back front') in
    ready ses' ∧ world_of ses' = (ss_srv ses, u') ∧
    ss_received ses' = ss_received ses ++ [data] ∧ ss_wire ses' = ss_wire ses ++ [reply].
Proof.
  destruct (RequestIdManager.next_request_id ids) as [id ids'] eqn:Eid.
  intros q ses respond Hreg Hf Hp Hv Hq [tl Hop] Hdata Hreply Hl1 Hl2 (F & He & Hl3 & Ho) (F0 & He0 & Hl0 & _) Hx Hidle Hn Hr.
  set (out := match p with Success v => Ok v | PayloadError e => Err (MeJsonRpc e) end : Result MethodsError T).
  assert (∀ (w : W U) ext, snd w = snd (world_of ses) →
    user_method f (params_new ps) ext w = (Ok r, (fst w, u'))) as Hcb by (intros w ext E; unfold user_method; by rewrite E, Hf).
  destruct (service_call_registered rest ser (λ _, match p with Success v => Some v | _ => None end) s
    (MkRequest (rq_jsonrpc q) id name ps extensions) (user_method f) (world_of ses) (ss_srv ses, u') r p)
    as (m & Hm & Hj & Hk & _); [done|by apply Hcb|done..|by destruct p|apply Hq|].
  assert (handle_message (svc := rpc_service rest s) encryption policy batch_config extensions data (world_of ses) =
    (Ok (MtSend (mr_json m) (mr_on_close m) (MethodResponse.is_success m)), (ss_srv ses, u'))) as Hmsg.
  { unfold handle_message. rewrite (crosses_decrypted _ _ Hdata).
    assert (json_start (text_of (request_serialize q)) = Some (0, true)) as -> by (by rewrite Hop).
    rewrite (bind_step _ _ _ m (ss_srv ses, u')); [|cbn [drop_str]; rewrite handle_request by done; exact Hm].
    unfold MethodResponse.is_method_call. by rewrite Hk. }
  cbn [rq_id] in Hj. rewrite <-Hj in Hreply. destruct (serve_answered ses data _ _ _ reply _ Hr Hl2 Hmsg eq_refl Hreply) as (Hr' & Hst & Hrc & Hw).
  assert (json_write (request_serialize q) = Some (text_of (request_serialize q))) as Hwr.
  { destruct Hq as [Fq _]. by apply faithful_write. }
  pose proof (crosses_send _ _ ses Hdata Hl1) as Hsnd.
  set (rp := MkResponse (rp_jsonrpc (response_new p id)) (payload_map (λ v, text_of (ser v)) p) id ext_new : RawResponse).
  destruct (call_answered ws_tr_send max_cap ws_background de name ps ids id ids' front _ _ (mr_json m) rp
    Eid Hx Hwr Hsnd Hidle Hn) as (front' & Hcall & Hi' & Hm' & Ht').
  - rewrite Hj. split.
    + destruct Ho as [t' ->]. done.
    + apply (response_decode_map ser de_raw (λ v, text_of (ser v))); [done|apply Hq|].
      destruct p as [v|]; [|done]. cbn. unfold de_raw. destruct Hv as [_ Hv]. by destruct (json_read _).
  - done.
  - unfold ws_background. rewrite (new_replies_call _ _ _ _ [reply] Hn Hsnd Hw). cbn.
    by rewrite (crosses_incoming _ _ Hreply).
  - exists out. eexists. exists front'. split; [|split; [|split; [done|split; [done|]]]].
    + eapply (call_registered rest ser (λ raw, result_ok (de raw))); try done; [by apply plain_callbacks|by apply Hcb|].
      destruct p as [v|e]; [|done]. cbn. by destruct Hv as [-> _].
    + rewrite Hcall. destruct p as [v|e]; cbn; [by destruct Hv as [-> _]|by destruct e].
    + rewrite Ht'. by split_and!.
Qed.
End WsCall.

(** ** Calls over concrete texts *)
Section WsCallRun.
#[local] Existing Instance ref_json.
#[local] Instance call_ext : HttpExtensions := {|
  Extensions := option IsSubscription * option IsBatch * option ConnectionId;
  ext_new := (None, None, None);
  ext_extend a b := (match b.1.1 with Some x => Some x | None => a.1.1 end,
                     match b.1.2 with Some x => Some x | None => a.1.2 end,
                     match b.2 with Some x => Some x | None => a.2 end)
|}.
#[local] Instance call_conn_ext : ExtKey ConnectionId := {| ext_get e := e.2; ext_insert x e := (e.1, Some x) |}.
#[local] Instance call_sub_ext : ExtKey IsSubscription := {| ext_get e := e.1.1; ext_insert x e := (Some x, e.1.2, e.2) |}.
#[local] Instance call_batch_ext : ExtKey IsBatch := {| ext_get e := e.1.2; ext_insert x e := (e.1.1, Some x, e.2) |}.

Definition call_world : SrvWorld := MkSrvWorld {[0 := MkConnChan 2 [] false]} ∅ ∅ ∅ ∅ 0.
Definition call_methods : Methods N :=
  match RpcModule.register_method "inc" (user_method ex_count) Methods.new with Ok m => m | Err _ => Methods.new end.
Definition call_service : RpcService N :=
  snd (fst (TowerServiceNoHttp.ws_service (MkServiceData call_methods 0 (ServerConfigBuilder.build (ServerConfigBuilder.new (mret (SubNum 3))))) (call_world, 5%N))).
Definition call_session : Session (W N) := session_start call_world (call_world, 5%N).
Definition call_front : Front (Session (W N)) :=
  MkFront (MkBack RequestManager.new (MkWorld ∅ ∅) call_session) [] 16 false None.
Notation ws_bg max := (ws_background (λ _ w, w) call_service None max BrcUnlimited (Some ex_enc) SendError ext_new
  (method_sink_new 0) true 1000 (λ _, "") 16).
Notation call_inc max ps := (Client.request (svc := async_service (ws_bg max)) read_error de_int "inc" (Ok ps)).
Definition inc_text : string := q "{'jsonrpc':'2.0','id':0,'method':'inc','params':[41]}".
Definition inc_reply : string := q "{'jsonrpc':'2.0','id':0,'result':42}".

(** The law of the example encryption. *)
Lemma ex_enc_law : encryption_law ex_enc.
Proof. intros p c. unfold ex_enc. cbn. case_decide; [done|]. by intros [= <-]. Qed.

Lemma ws_call_equals_direct_witness :
  ∃ w1 front', RpcModule.call (λ _ w, w) (λ raw, result_ok (de_int raw)) call_methods "inc" (Ok (Some "[41]")) 0 (call_world, 5%N) =
      (Ok (Ok 42%Z), (w1, 6%N)) ∧
    call_inc 1000%N (Some "[41]") (RequestIdManager.new KNumber, call_front) =
      (Ok 42%Z, (snd (RequestIdManager.next_request_id (RequestIdManager.new KNumber)), front')) ∧
    ss_wire (bk_tr (fr_back front')) = ["#" +:+ inc_reply].
Proof.
  pose proof (ws_call_equals_direct (λ _ w, w) call_service None 1000 BrcUnlimited (Some ex_enc) SendError ext_new
    (method_sink_new 0) true 1000 (λ _, "") 16 SerInt de_int "inc" (Some "[41]") ex_count (Ok (SerInt 42)) (Success 42%Z) 0
    (RequestIdManager.new KNumber) call_front 6%N ("#" +:+ inc_text) ("#" +:+ inc_reply)) as H.
  destruct (RequestIdManager.next_request_id (RequestIdManager.new KNumber)) as [id ids] eqn:E.
  vm_compute in E. injection E as <- <-. cbv zeta in H.
  pose proof ex_enc_law as HL.
  edestruct H as (out & w1 & front' & H1 & H2 & _ & _ & _ & _ & _ & H3).
  - left. reflexivity.
  - vm_compute. reflexivity.
  - reflexivity.
  - split; [vm_compute; reflexivity|vm_compute; discriminate].
  - split; [vm_compute; repeat (split; eauto)|]. split; [vm_compute; discriminate|].
    intros p [= <-]. vm_compute. discriminate.
  - vm_compute. eauto.
  - split; [vm_compute; reflexivity|]. split; [exact HL|vm_compute; reflexivity].
  - split; [vm_compute; reflexivity|]. split; [exact HL|vm_compute; reflexivity].
  - vm_compute. discriminate.
  - vm_compute. discriminate.
  - response_ok_concrete.
  - response_ok_concrete.
  - reflexivity.
  - vm_compute. repeat split; lia.
  - reflexivity.
  - split; [by eexists|]. vm_compute. repeat split; lia.
  - assert (out = Ok 42%Z) as ->.
    { vm_compute in H1. by injection H1. }
    exists w1, front'. split; [exact H1|]. split; [exact H2|exact H3].
Defined.

(** Two calls, one after the other. *)
Example two_calls :
  let '(r1, st) := call_inc 1000%N (Some "[41]") (RequestIdManager.new KNumber, call_front) in
  let '(r2, st) := call_inc 1000%N (Some "[-1]") st in
  (r1, r2, snd (ss_svc (bk_tr (fr_back (snd st))))) = (Ok 42%Z, Ok 0%Z, 7%N).
Proof. vm_compute. reflexivity. Qed.

(** A request that is too large for the server: the server answers with an error
    for the identifier null and goes on; the client takes that for an answer to
    nothing it asked and ends, with all its calls. *)
Example oversized_request_ends_client :
  let '(r1, st) := call_inc 10%N (Some "[41]") (RequestIdManager.new KNumber, call_front) in
  let ses := bk_tr (fr_back (snd st)) in
  (r1, is_connected (snd st)) =
    (Err (CsErr (ErrRestartNeeded (ErrInvalidRequestId (NotPendingRequest "null")))), false) ∧
  (ss_loop ses, ss_send ses, snd (ss_svc ses)) = (LpReceiving 0, SdRunning, 5%N) ∧
  ss_wire ses = ["#" +:+ q "{'jsonrpc':'2.0','id':null,'error':{'code':-32007,'message':'Request is too big','data':'Exceeded max limit of 10'}}"].
Proof. vm_compute. auto. Qed.
End WsCallRun.
