(* ===== verification/WsBatch.v ===== *)
(** A batch over a WebSocket, from the caller to the methods and back: the batch of
    the async client ([AsyncFrontend.v]) on the connection of [WsCall.v], with a
    session of the server at the other end.

    The first part is about the client: a batch that is queued, sent and answered.
    The second is about the service: a batch of calls whose methods all answer.
    The third puts them together. *)
From stdpp Require Import base gmap strings list.
From Stdlib Require Import Ascii.
From S2P Require Import Prelude Serde RefJson Errors Params Wire ParamsBuilder Middleware ClientCore ClientService RequestManager AsyncClient AsyncClientProofs MethodResponse Subscription RpcModule RpcService Http WsServer Server WsSession HttpClient WsClient AsyncFrontend WsCall.
Import RequestManager.

(** ** A batch of the client *)
Section FrontBatch.
Context {J : SerdeJson} {X : HttpExtensions} {XS : ExtKey IsSubscription} {XB : ExtKey IsBatch} {Tr : Type}.
Context (tr_send : string → Tr → Result string unit * Tr) (max_cap : nat).
Implicit Types s : Front Tr.

(** Answers in the order of the calls are filled in as they are. *)
Lemma fill_in_order start n (rps : list RawResponse) : Forall2 has_number rps (range_ids (start, (start + n)%N)) →
  fill_responses start rps (replicate (N.to_nat n) placeholder) = Ok rps.
Proof.
  intros Hf. destruct (fill_responses_range start n rps _ Hf) as (rs & -> & Hrs & Hp); [done|]. f_equal.
  apply list_eq_same_length with (length rps); [done|by rewrite Hp|]. intros i r r' _ Hr Hr'.
  destruct (Forall2_lookup_l _ _ _ _ _ Hrs Hr) as (m & Hm & Hn).
  assert (r ∈ rps) as [k Hk]%list_elem_of_lookup by (rewrite <-Hp; by eapply list_elem_of_lookup_2).
  destruct (Forall2_lookup_l _ _ _ _ _ Hf Hk) as (m' & Hm' & Hn'). unfold has_number in *. rewrite Hn in Hn'. injection Hn' as <-.
  assert (i = k) as -> by (by eapply NoDup_lookup; [apply range_ids_NoDup|..]). rewrite Hk in Hr'. by injection Hr'.
Qed.

(** The batch when it is queued. *)
Definition queued_batch s (ids : Range) (raw : string) : Front Tr :=
  let h := fresh (dom (w_oneshots (bk_world (fr_back s)))) in
  set_queue [FBatch (MkBatchMessage raw ids h)]
    (on_world_of (λ w, MkWorld (<[h := Waiting]> (w_oneshots w)) (w_chans w)) s).
Definition waits_batch (ids : Range) (h : nat) (b : Back (X := X) (Tr := Tr)) (t : Tr) : Back (X := X) (Tr := Tr) :=
  let m := bk_manager b in
  MkBack (MkRequestManager (requests m) (subscriptions m) (<[ids := h]> (batches m)) (notification_handlers m)) (bk_world b) t.
Lemma send_batch raw ids h (b : Back (X := X) (Tr := Tr)) t : batches (bk_manager b) !! ids = None →
  tr_send raw (bk_tr b) = (Ok (), t) →
  handle_frontend_messages tr_send (FBatch (MkBatchMessage raw ids h)) max_cap b = (Ok (), waits_batch ids h b t).
Proof.
  intros Hn Ht. cbn [handle_frontend_messages bm_ids bm_send_back bm_raw]. unfold mbind, SM_bind, AsyncClient.on_manager, insert_pending_batch, vacant.
  rewrite Hn. unfold send_raw. cbn. by rewrite Ht.
Qed.
Lemma receive_batch raw texts rps start n h (b : Back (X := X) (Tr := Tr)) t : opens false raw → json_read raw = Some (NArr texts) →
  Forall2 (λ t rp, response_deserialize de_raw t = Some rp) texts rps → Forall2 has_number rps (range_ids (start, (start + n)%N)) →
  (0 < n)%N → (start + n <= u64_max)%N → batches (bk_manager b) !! (start, (start + n)%N) = None →
  w_oneshots (bk_world b) !! h = Some Waiting →
  handle_backend_messages (Some (Ok (Text raw))) max_cap (waits_batch (start, (start + n)%N) h b t) =
    (Ok [], MkBack (bk_manager b) (MkWorld (<[h := Sent (RBatch (Ok rps))]> (w_oneshots (bk_world b))) (w_chans (bk_world b))) t).
Proof.
  intros [r Ho] Hr Ht Hn Hpos Hmax Hb Hh. assert (first_non_whitespace raw = Some "["%char) as Hf by (by rewrite Ho).
  cbn. unfold handle_recv_message. rewrite Hf, decide_False, decide_True by done.
  rewrite (recv_batch_answered raw texts rps rps (range_ids (start, (start + n)%N)) start n h); try done; [|apply lookup_insert_eq|by apply fill_in_order].
  cbn. rewrite delete_insert_id by done. by destruct b as [[]].
Qed.

Lemma svc_batch_answered bg s batch raw t answer texts rps start n : let ids := (start, (start + n)%N) in
  idle s → json_write (Batch.serialize batch) = Some raw → ext_get (fst (Batch.extensions batch)) = Some (MkIsBatch ids) →
  tr_send raw (bk_tr (fr_back s)) = (Ok (), t) → batches (bk_manager (fr_back s)) !! ids = None →
  opens false answer → json_read answer = Some (NArr texts) →
  Forall2 (λ t rp, response_deserialize de_raw t = Some rp) texts rps → Forall2 has_number rps (range_ids ids) →
  (0 < n)%N → (start + n <= u64_max)%N →
  bg (queued_batch s ids raw) = background tr_send max_cap [Ok (Text answer)] (queued_batch s ids raw) →
  ∃ s', svc_batch bg batch s = (Some (Ok rps), s') ∧ idle s' ∧ bk_manager (fr_back s') = bk_manager (fr_back s) ∧ bk_tr (fr_back s') = t.
Proof.
  intros ids (Hq & Hc & Hcap) Hw Hx Ht Hn Ho Hr Hd Hnum Hpos Hmax Hbg.
  unfold svc_batch, ser_text. unfold mbind, fut_bind, fut_result, oneshot_new, tx_send. rewrite Hw, Hx. cbn [ok_or ib_id_range].
  set (h := fresh (dom (w_oneshots (bk_world (fr_back s))))). set (s1 := on_world_of _ s).
  change (fr_closed s1) with (fr_closed s). change (fr_queue s1) with (fr_queue s). change (fr_cap s1) with (fr_cap s).
  rewrite Hc, Hq, (bool_decide_true (length [] < fr_cap s)) by (cbn; lia). cbn [orb].
  change (fr_closed s1) with (fr_closed s). change (fr_queue s1) with (fr_queue s). change (fr_cap s1) with (fr_cap s).
  rewrite Hc, Hq, (bool_decide_true (length [] < fr_cap s)) by (cbn; lia). cbn [app].
  unfold oneshot_recv. change (set_queue [_] s1) with (queued_batch s ids raw). rewrite Hbg. unfold background.
  change (fr_closed (queued_batch s ids raw)) with (fr_closed s). rewrite Hc.
  change (fr_queue (queued_batch s ids raw)) with [FBatch (MkBatchMessage raw ids h)].
  cbn [send_loop]. erewrite (send_batch raw ids h _ t); [|exact Hn|exact Ht].
  change (fr_closed (set_queue [] (set_back _ (queued_batch s ids raw)))) with (fr_closed s). rewrite Hc. cbn [read_loop].
  change (fr_back (set_queue [] (set_back ?b _))) with b.
  assert (batches (bk_manager (fr_back (queued_batch s ids raw))) !! ids = None) as Hn' by exact Hn.
  pose proof (receive_batch answer texts rps start n h _ t Ho Hr Hd Hnum Hpos Hmax Hn' (lookup_insert_eq _ h Waiting)) as Hrecv.
  fold ids in Hrecv. rewrite Hrecv.
  cbn. rewrite lookup_insert_eq. eexists. split; [done|]. by split_and!.
Qed.

(** *** The calls and their results *)
Definition batch_marker_law : Prop := ∀ (m : IsBatch) ext, ext_get (ext_insert m ext) = Some m.
Definition batch_call (kind : IdKind) (c : (string * option string) * N) : Request :=
  let '((name, ps), id) := c in MkRequest V2 (IdKind.into_id kind id) name ps ext_new.
Definition batch_calls (kind : IdKind) (calls : BatchRequestBuilder.T) (ids : Range) : list Request :=
  batch_call kind <$> zip calls (range_ids ids).
Lemma push_all kind l b : b_inner (foldl (λ b '((name, ps), id),
    Batch.push (MkRequest V2 (IdKind.into_id kind id) name ps ext_new) b) b l) =
  b_inner b ++ (Ok <$> (BeCall <$> (batch_call kind <$> l))).
Proof.
  revert b. induction l as [|[[name ps] id] l IH]; intros b; [by rewrite app_nil_r|]. cbn [foldl]. rewrite IH. cbn. by rewrite <-app_assoc.
Qed.
Lemma batch_of_spec kind calls ids : let batch := Client.batch_of kind calls ids in
  Batch.serialize batch = Batch.serialize (Batch.from (Ok <$> (BeCall <$> batch_calls kind calls ids))) ∧
  (batch_marker_law → ext_get (fst (Batch.extensions batch)) = Some (MkIsBatch ids)).
Proof.
  unfold Client.batch_of, Batch.extensions_mut. destruct (Batch.extensions _) as [e b] eqn:E. cbv zeta. split; [|intros Hm; apply Hm].
  unfold Batch.serialize. cbn [b_inner Batch.from]. f_equal. f_equal.
  pose proof (push_all kind (zip calls (range_ids ids)) Batch.new) as H. cbn [b_inner Batch.new app] in H.
  unfold batch_calls. rewrite <-H.
  unfold Batch.extensions in E. case_match; by injection E as _ <-.
Qed.

Lemma collect_spec {R} (de : string → Result string R) rps rs l a f : Forall2 (λ rp r, result_of de rp = Some r) rps rs →
  Client.collect de rps l a f = Ok (MkBatchResponse (a + count_ok rs) (f + count_err rs) (l ++ rs)).
Proof.
  intros H. revert l a f. induction H as [|rp r rps rs Hr _ IH]; intros l a f.
  { cbn. by rewrite !N.add_0_r, app_nil_r. }
  cbn [Client.collect]. unfold success_try_from, result_of in *. unfold count_ok, count_err in *. rewrite !filter_cons.
  destruct (rp_payload rp) as [raw|e].
  - cbn [sc_result]. destruct (de raw) as [v|]; [|done]. cbn in Hr. injection Hr as <-. cbn [map_err mbind result_bind].
    rewrite IH, <-app_assoc, decide_True, decide_False by done. cbn [length app]. do 2 f_equal; lia.
  - injection Hr as <-. rewrite IH, <-app_assoc, decide_False, decide_True by done. cbn [length app].
    assert (ErrorObject.into_owned e = e) as -> by (by destruct e). do 2 f_equal; lia.
Qed.
End FrontBatch.

(** The client's outcome, from that of its service. *)
Section ClientBatch.
Context {J : SerdeJson} {X : HttpExtensions} {XS : ExtKey IsSubscription} {XB : ExtKey IsBatch} {Tr : Type}.
Lemma client_batch {R} bg (de : string → Result string R) calls ids id ids' (s s' : Front Tr) range rps rs :
  calls ≠ [] → RequestIdManager.next_request_id ids = (id, ids') →
  generate_batch_id_range id (N.of_nat (length calls)) = Ok range →
  svc_batch bg (Client.batch_of (ri_id_kind ids) calls range) s = (Some (Ok rps), s') →
  Forall2 (λ rp r, result_of de rp = Some r) rps rs →
  Client.batch_request (svc := async_service bg) read_error de calls (ids, s) =
    (Ok (MkBatchResponse (count_ok rs) (count_err rs) rs), (ids', s')).
Proof.
  intros Hne Eid Hrg Hsvc Hrs. assert (BatchRequestBuilder.build calls = Ok calls) as Hb by (by destruct calls).
  assert (RequestIdManager.as_id_kind ids' = ri_id_kind ids) as Hk.
  { unfold RequestIdManager.next_request_id in Eid. destruct (CurrentId.next _). by injection Eid as _ <-. }
  unfold Client.batch_request, mbind, SM_bind, Client.lift, sm_result, Client.next_request_id, sm_get. rewrite Hb. cbn [map_err fst snd].
  rewrite Eid. cbn [map_err fst snd]. rewrite Hrg. cbn [map_err fst snd]. rewrite Hk. unfold Client.run_future_until_timeout. cbn [cs_batch async_service snd fst].
  by rewrite Hsvc, (collect_spec de rps rs).
Qed.
End ClientBatch.

(** ** A batch at the service *)
Section ServiceBatch.
Context {J : SerdeJson} {X : HttpExtensions} {XC : ExtKey ConnectionId} {U T : Type}.
Context (rest : SubscribeCall → W U → W U) (methods : Methods U) (ser : T → Ser).

(** A call of the batch that a method answers which looks at its parameters and the
    user's state only; and calls one after the other. *)
Definition answers (call : string * option string) (u : U) (p : ResponsePayload T) (u' : U) : Prop :=
  ∃ (R : Type) (_ : IntoResponse R) (f : Params → U → R * U) (r : R),
    let respond := RpcModule.respond (user_method f) in
    (Methods.method call.1 methods = Some (McSync (λ id ps max x, respond id ps max x)) ∨
     Methods.method call.1 methods = Some (McAsync (λ id ps _ max x, respond id ps max x))) ∧
    f (params_new call.2) u = (r, u') ∧ mp_inner (into_response r) = payload_map ser p.
Inductive answer_all : BatchRequestBuilder.T → U → list (ResponsePayload T) → U → Prop :=
| answer_nil u : answer_all [] u [] u
| answer_cons call calls u p u1 ps u2 : answers call u p u1 → answer_all calls u1 ps u2 →
    answer_all (call :: calls) u (p :: ps) u2.
Lemma answer_all_length calls u ps u' : answer_all calls u ps u' → length ps = length calls.
Proof. induction 1; cbn; congruence. Qed.

(** The direct calls of the registered methods. *)
Fixpoint direct_calls (de : string → option T) (random : N) (calls : BatchRequestBuilder.T)
    : SM (W U) Stop (list (Result MethodsError T)) :=
  match calls with
  | [] => mret []
  | (name, ps) :: calls =>
    r ← RpcModule.call rest de methods name (Ok ps) random;
    rs ← direct_calls de random calls; mret (r :: rs)
  end.
Definition payload_result (p : ResponsePayload T) : Result ErrorObject T :=
  match p with Success t => Ok t | PayloadError e => Err e end.
Lemma user_method_step {R} (f : Params → U → R * U) ps ext w r u' : f ps (snd w) = (r, u') →
  user_method f ps ext w = (Ok r, (fst w, u')).
Proof. intros E. unfold user_method. by rewrite E. Qed.

Lemma direct_calls_run de random calls u ps u' w : answer_all calls u ps u' →
  Forall (λ p, response_ok ser p usize_max (IdNumber 0) ∧ payload_ok ser de p) ps →
  ∃ w', direct_calls de random calls (w, u) = (Ok (map_err MeJsonRpc ∘ payload_result <$> ps), (w', u')).
Proof.
  intros H. revert w. induction H as [u|[name raw] calls u p u1 ps u2 (R & I & f & r & Hreg & Hf & Hp) _ IH]; intros w Hok.
  { by exists w. }
  apply Forall_cons in Hok as [[(F & He & Hl & _) Hpay] Hok]. cbn [fst snd] in Hreg, Hf. cbn [direct_calls].
  set (w1 := snd (new_chan 1 (snd (mock_permit w)))). destruct (IH w1 Hok) as [w' Hw'].
  exists w'. erewrite bind_step.
  2: { eapply (call_registered rest ser de methods name (user_method f) raw random (w, u)); try done.
       - by apply plain_callbacks.
       - by apply user_method_step. }
  cbn [fst snd]. fold w1. rewrite (bind_step _ _ _ _ _ Hw'). cbn. by destruct p.
Qed.

Lemma batch_entries_run (s : RpcService U) kind ext calls u ps u' ns (srv : SrvWorld) : rs_methods s = methods →
  answer_all calls u ps u' →
  Forall2 (λ p n, response_ok ser p (rs_max_response_body_size s) (IdKind.into_id kind n) ∧
                  match p with PayloadError e => eo_ok e | _ => True end) ps ns →
  Forall (λ n, Id.in_range (IdKind.into_id kind n)) ns →
  ∃ ms, run_entries (service_call rest s) (Ok <$> (with_ext ext <$> (BeCall <$> (batch_call kind <$> zip calls ns)))) (srv, u) =
      (Ok ms, (srv, u')) ∧
    mr_json <$> ms = zip_with (λ p n, text_of (response_serialize ser (response_new p (IdKind.into_id kind n)))) ps ns.
Proof.
  intros Hms H. revert ns. induction H as [u|[name raw] calls u p u1 ps u2 (R & I & f & r & Hreg & Hf & Hp) _ IH]; intros ns Hok Hid.
  { inversion Hok; subst. by exists []. }
  inversion Hok as [|? n ? ns' [(F & He & Hl & _) Hpay] Hok']; subst. apply Forall_cons in Hid as [Hn Hid].
  destruct (IH ns' Hok' Hid) as (ms & Hrun & Hjs).
  destruct (service_call_registered rest ser (λ _, match p with Success v => Some v | _ => None end) s
    (MkRequest V2 (IdKind.into_id kind n) name raw ext) (user_method f) (srv, u) (srv, u1) r p)
    as (m & Hm & Hj & _); [exact Hreg|by apply user_method_step|done..|by destruct p|exact Hn|].
  exists (m :: ms). split; [|cbn; by rewrite Hjs, Hj].
  cbn [zip zip_with fmap list_fmap batch_call with_ext rq_jsonrpc rq_id rq_method rq_params run_entries run_entry].
  erewrite bind_step; [|erewrite bind_step; [reflexivity|exact Hm]]. cbn [mret SM_ret].
  by rewrite (bind_step _ _ _ _ _ Hrun).
Qed.
End ServiceBatch.

(** ** The batch over the WebSocket *)
Section WsBatch.
Context {J : SerdeJson} {X : HttpExtensions} {XC : ExtKey ConnectionId} {XS : ExtKey IsSubscription} {XB : ExtKey IsBatch}.
Context {U : Type} (rest : SubscribeCall → W U → W U) (s : RpcService U).
Context (ping_config : option PingConfig) (max_request_body_size : N) (batch_config : BatchRequestConfig).
Context (encryption : option MessageEncryption) (policy : MessageCryptoErrorPolicy).
Context (extensions : Extensions) (sink : MethodSink) (biased : bool).
Context (max_request_size : N) (error_text : WsError → string) (max_cap : nat).
Notation ws_background := (ws_background rest s ping_config max_request_body_size batch_config encryption policy extensions sink
  biased max_request_size error_text max_cap).
Notation serve := (serve rest s ping_config max_request_body_size batch_config encryption policy extensions sink biased).
Notation ws_tr_send := (ws_tr_send rest s ping_config max_request_body_size batch_config encryption policy extensions sink biased
  max_request_size error_text).

(** What goes over the wire for a batch, and comes back for it. *)
Definition batch_ser (kind : IdKind) (calls : BatchRequestBuilder.T) (ids : Range) : Ser :=
  Batch.serialize (Batch.from (Ok <$> (BeCall <$> batch_calls kind calls ids))).
Definition answer_texts {T} (ser : T → Ser) (kind : IdKind) (ps : list (ResponsePayload T)) (ids : Range) : list string :=
  zip_with (λ p n, text_of (response_serialize ser (response_new p (IdKind.into_id kind n)))) ps (range_ids ids).
Definition array_text (texts : list string) : string := "[" +:+ join texts +:+ "]".

Lemma answers_decode {T} (ser : T → Ser) (de : string → Result string T) kind ps ns max :
  Forall2 (λ p n, response_ok ser p max (IdKind.into_id kind n)) ps ns →
  Forall (λ n, (n <= u64_max)%N) ns →
  Forall (λ p, match p with Success v => de (text_of (ser v)) = Ok v ∧ json_read (text_of (ser v)) ≠ None | PayloadError e => eo_ok e end) ps →
  ∃ rps, Forall2 (λ t rp, response_deserialize de_raw t = Some rp)
      (zip_with (λ p n, text_of (response_serialize ser (response_new p (IdKind.into_id kind n)))) ps ns) rps ∧
    Forall2 has_number rps ns ∧ Forall2 (λ rp r, result_of de rp = Some r) rps (payload_result <$> ps).
Proof.
  intros H. induction H as [|p n ps ns (F & _) _ IH]; intros Hn Hp; [by exists []|].
  apply Forall_cons in Hn as [Hn Hns]. apply Forall_cons in Hp as [Hp Hps]. destruct (IH Hns Hps) as (rps & H1 & H2 & H3).
  assert (Id.in_range (IdKind.into_id kind n)) as Hid by (by destruct kind).
  exists (MkResponse (Some V2) (payload_map (λ v, text_of (ser v)) p) (IdKind.into_id kind n) ext_new :: rps). split; [|split].
  - constructor; [|done]. apply (response_decode_map ser de_raw (λ v, text_of (ser v)) (response_new p (IdKind.into_id kind n)) F Hid).
    destruct p as [v|e]; [|done]. cbn. unfold de_raw. destruct Hp as [_ Hp]. by destruct (json_read _).
  - constructor; [|done]. by apply into_id_parse.
  - constructor; [|done]. unfold result_of. destruct p as [v|e]; cbn; [by destruct Hp as [-> _]|done].
Qed.

(** The session serves a batch whose calls are all answered. *)
Lemma serve_batch {T} (ser : T → Ser) kind calls (ps : list (ResponsePayload T)) range u' ses data reply :
  let texts := answer_texts ser kind ps range in
  calls ≠ [] → length (range_ids range) = length calls → Forall (λ n, (n <= u64_max)%N) (range_ids range) →
  answer_all (rs_methods s) ser calls (snd (world_of ses)) ps u' → Forall (λ p, match p with PayloadError e => eo_ok e | _ => True end) ps →
  Forall (λ q, entry_ok (BeCall q)) (batch_calls kind calls range) →
  faithful (batch_ser kind calls range) → opens false (text_of (batch_ser kind calls range)) →
  batch_config ≠ BrcDisabled → (N.of_nat (length calls) <= batch_limit batch_config)%N →
  Forall2 (λ p n, response_ok ser p (rs_max_response_body_size s) (IdKind.into_id kind n)) ps (range_ids range) →
  json_read (array_text texts) = Some (NArr texts) → (slen (array_text texts) <= rs_max_response_body_size s)%N →
  crosses encryption (text_of (batch_ser kind calls range)) data → crosses encryption (array_text texts) reply →
  (slen data <= max_request_body_size)%N → errors_write IdNull → ready sink ses →
  ready sink (serve data ses) ∧ world_of (serve data ses) = (ss_srv ses, u') ∧
  ss_received (serve data ses) = ss_received ses ++ [data] ∧ ss_wire (serve data ses) = ss_wire ses ++ [reply].
Proof.
  intros texts Hne Hidlen Hns Hall Heok Hentries Fb [tl Hop] Hbc Hlim Hok Hjr Hlen Hxd Hxr Hl2 Hew Hr.
  destruct (batch_entries_run rest (rs_methods s) ser s kind extensions calls _ ps u' (range_ids range) (ss_srv ses) eq_refl Hall)
    as (ms & Hrun & Hjs).
  { clear -Heok Hok. induction Hok as [|p n ps ns H _ IH]; [done|]. apply Forall_cons in Heok as [Hp Hps]. constructor; [done|by apply IH]. }
  { eapply Forall_impl; [exact Hns|]. intros n Hn. by destruct kind. }
  fold (answer_texts ser kind ps range) in Hjs. fold texts in Hjs.
  assert (ms ≠ []) as Hms.
  { intros ->. apply (f_equal length) in Hjs. cbn in Hjs. unfold texts, answer_texts in Hjs. rewrite length_zip_with in Hjs.
    pose proof (answer_all_length _ _ _ _ _ _ Hall). destruct calls; [done|]. cbn in *. lia. }
  destruct (batch_answer rest s _ ms (world_of ses) _ Hew Hrun) as (m & Hsvc & Hm).
  { rewrite <-batch_len_text by done. by rewrite Hjs. } { rewrite Hjs. by eexists. }
  destruct ms as [|m0 ms']; [done|]. destruct Hm as (Hib & Hj & _). rewrite Hjs in Hj. fold (array_text texts) in Hj.
  rewrite <-Hj in Hxr.
  eapply (serve_answered rest s ping_config max_request_body_size batch_config encryption policy extensions sink biased
    ses data (mr_json m) (mr_on_close m) (MethodResponse.is_success m) reply (ss_srv ses, u') Hr Hl2); [|done|exact Hxr].
  unfold handle_message. rewrite (crosses_decrypted _ _ _ _ Hxd).
  assert (json_start (text_of (batch_ser kind calls range)) = Some (0, false)) as -> by (by rewrite Hop).
  rewrite (bind_step _ _ _ m (ss_srv ses, u')); [by rewrite Hib, orb_true_r|].
  cbn [drop_str]. unfold batch_ser. rewrite handle_batch; [exact Hsvc|by apply Forall_fmap|exact Fb|done|].
  unfold batch_calls. rewrite !length_fmap, length_zip_with, Hidlen. lia.
Qed.

(** C4: a batch over a WebSocket, encrypted or not, is its calls one after the
    other: for methods that look at their parameters and the user's state only, the
    client gets, at the place of each call, what a direct call of the registered
    method gives there, value or error, with the numbers of both; the user's state
    is left as by the direct calls in that order.  One text went each way, and
    both ends are ready for the next call. *)
Theorem ws_batch_equals_direct {T} (ser : T → Ser) (de : string → Result string T) (calls : BatchRequestBuilder.T)
    (ps : list (ResponsePayload T)) (random : N) (ids ids' : RequestIdManager) (id : Id) (range : Range)
    (front : Front (Session (W U))) (u' : U) (data reply : string) :
  let kind := ri_id_kind ids in
  let ses := bk_tr (fr_back front) in
  let texts := answer_texts ser kind ps range in
  (* the batch, and what the methods make of it *)
  calls ≠ [] → RequestIdManager.next_request_id ids = (id, ids') →
  generate_batch_id_range id (N.of_nat (length calls)) = Ok range →
  answer_all (rs_methods s) ser calls (snd (world_of ses)) ps u' →
  Forall (λ p, match p with Success v => de (text_of (ser v)) = Ok v ∧ json_read (text_of (ser v)) ≠ None | PayloadError e => eo_ok e end) ps →
  (* the batch and its answer fit *)
  Forall (λ q, entry_ok (BeCall q)) (batch_calls kind calls range) →
  faithful (batch_ser kind calls range) → opens false (text_of (batch_ser kind calls range)) →
  batch_config ≠ BrcDisabled → (N.of_nat (length calls) <= batch_limit batch_config)%N →
  Forall2 (λ p n, response_ok ser p (rs_max_response_body_size s) (IdKind.into_id kind n)) ps (range_ids range) →
  Forall (λ p, response_ok ser p usize_max (IdNumber 0)) ps →
  json_read (array_text texts) = Some (NArr texts) → (slen (array_text texts) <= rs_max_response_body_size s)%N →
  crosses encryption (text_of (batch_ser kind calls range)) data → crosses encryption (array_text texts) reply →
  (slen data <= max_request_size)%N → (slen data <= max_request_body_size)%N →
  (* both ends are ready *)
  errors_write IdNull → batch_marker_law → idle front → batches (bk_manager (fr_back front)) !! range = None → ready sink ses →
  ∃ rs w1 front',
    direct_calls rest (rs_methods s) (λ raw, result_ok (de raw)) random calls (world_of ses) = (Ok (map_err MeJsonRpc <$> rs), (w1, u')) ∧
    Client.batch_request (svc := async_service ws_background) read_error de calls (ids, front) =
      (Ok (MkBatchResponse (count_ok rs) (count_err rs) rs), (ids', front')) ∧
    idle front' ∧ bk_manager (fr_back front') = bk_manager (fr_back front) ∧
    let ses' := bk_tr (fr_back front') in
    ready sink ses' ∧ world_of ses' = (ss_srv ses, u') ∧
    ss_received ses' = ss_received ses ++ [data] ∧ ss_wire ses' = ss_wire ses ++ [reply].
Proof.
  intros kind ses texts Hne Eid Hrg Hall Hpay Hentries Fb Hop Hbc Hlim Hok Hok0 Hjr Hlen Hxd Hxr Hl1 Hl2 Hew Hmk Hidle Hnb Hr.
  pose proof (batch_id_range kind id (N.of_nat (length calls))) as Hids. rewrite Hrg in Hids.
  destruct Hids as (_ & Hend & Hmax & Hidlen & _ & _). destruct range as [start stop]. cbn [fst snd] in Hend, Hmax. subst stop.
  set (range := (start, (start + N.of_nat (length calls))%N)) in *.
  assert (0 < length calls) as Hpos by (destruct calls; [done|cbn; lia]).
  assert (Forall (λ n, (n <= u64_max)%N) (range_ids range)) as Hns.
  { apply Forall_forall. intros n Hn%elem_of_range_ids. cbn in Hn. lia. }
  assert (Forall (λ p, response_ok ser p usize_max (IdNumber 0) ∧ payload_ok ser (λ raw, result_ok (de raw)) p) ps) as Hdok.
  { clear -Hpay Hok0. induction Hok0 as [|p ps H _ IH]; [done|]. apply Forall_cons in Hpay as [Hp Hps]. constructor; [|by apply IH].
    split; [done|]. destruct p; [|done]. cbn. by destruct Hp as [-> _]. }
  assert (Forall (λ p : ResponsePayload T, match p with PayloadError e => eo_ok e | _ => True end) ps) as Heok.
  { eapply Forall_impl; [exact Hpay|]. by intros []. }
  destruct (direct_calls_run rest (rs_methods s) ser _ random calls _ ps u' (fst (world_of ses)) Hall Hdok) as [w1 Hdir].
  destruct (serve_batch ser kind calls ps range u' ses data reply) as (Hr' & Hst & Hrc & Hw); try done.
  { rewrite Hidlen. lia. }
  pose proof (crosses_send rest s ping_config max_request_body_size batch_config encryption policy extensions sink biased
    max_request_size error_text _ _ ses Hxd Hl1) as Hsnd.
  destruct (batch_of_spec kind calls range) as [Hser Hext].
  destruct (answers_decode ser de kind ps (range_ids range) _ Hok Hns Hpay) as (rps & Hdec & Hnum & Hres).
  destruct (svc_batch_answered ws_tr_send max_cap ws_background front (Client.batch_of kind calls range) (text_of (batch_ser kind calls range))
    (serve data ses) (array_text texts) texts rps start (N.of_nat (length calls)) Hidle) as (front' & Hb & Hi' & Hm' & Ht'); try done.
  { rewrite Hser. by apply faithful_write. } { by apply Hext. } { by eexists. } { lia. }
  { eapply (ws_background_replies rest s ping_config max_request_body_size batch_config encryption policy extensions sink biased
      max_request_size error_text max_cap _ (serve data ses) [array_text texts] [reply]); [|exact Hw|by constructor].
    cbn [fr_queue queued_batch set_queue send_loop].
    by rewrite (send_batch ws_tr_send max_cap _ range _ (fr_back (queued_batch front range _)) _ Hnb Hsnd). }
  exists (payload_result <$> ps), w1, front'. split; [rewrite <-list_fmap_compose; exact Hdir|].
  split; [by eapply client_batch|]. do 2 (split; [done|]). rewrite Ht'. by split_and!.
Qed.
End WsBatch.

(** ** A batch over concrete texts *)
Section WsBatchRun.
#[local] Existing Instance ref_json.
#[local] Existing Instance call_ext.
#[local] Existing Instance call_conn_ext.
#[local] Existing Instance call_sub_ext.
#[local] Existing Instance call_batch_ext.

Notation batch_bg config := (ws_background (λ _ w, w) call_service None 1000 config (Some ex_enc) SendError ext_new
  (method_sink_new 0) true 1000 (λ _, "") 16).
Notation call_batch config := (Client.batch_request (svc := async_service (batch_bg config)) read_error de_int).
Definition inc_calls : BatchRequestBuilder.T := [("inc", Some "[41]"); ("inc", Some "[-1]")].
Definition inc_batch_text : string :=
  q "[{'jsonrpc':'2.0','id':0,'method':'inc','params':[41]},{'jsonrpc':'2.0','id':1,'method':'inc','params':[-1]}]".
Definition inc_batch_reply : string := q "[{'jsonrpc':'2.0','id':0,'result':42},{'jsonrpc':'2.0','id':1,'result':0}]".

Lemma ws_batch_equals_direct_witness :
  ∃ w1 front', direct_calls (λ _ w, w) call_methods (λ raw, result_ok (de_int raw)) 0 inc_calls (call_world, 5%N) =
      (Ok [Ok 42%Z; Ok 0%Z], (w1, 7%N)) ∧
    call_batch (BrcLimit 2) inc_calls (RequestIdManager.new KNumber, call_front) =
      (Ok (MkBatchResponse 2 0 [Ok 42%Z; Ok 0%Z]), (snd (RequestIdManager.next_request_id (RequestIdManager.new KNumber)), front')) ∧
    ss_wire (bk_tr (fr_back front')) = ["#" +:+ inc_batch_reply].
Proof.
  pose proof (ws_batch_equals_direct (λ _ w, w) call_service None 1000 (BrcLimit 2) (Some ex_enc) SendError ext_new
    (method_sink_new 0) true 1000 (λ _, "") 16 SerInt de_int inc_calls [Success 42%Z; Success 0%Z] 0
    (RequestIdManager.new KNumber) (snd (RequestIdManager.next_request_id (RequestIdManager.new KNumber))) (IdNumber 0) (0, 2)%N
    call_front 7%N ("#" +:+ inc_batch_text) ("#" +:+ inc_batch_reply)) as H. cbv zeta in H.
  assert (∀ a u r u', ex_count (params_new (Some a)) u = (r, u') → ∀ v, mp_inner (into_response r) = payload_map SerInt (Success v) →
    answers (rs_methods call_service) SerInt ("inc", Some a) u (Success v) u') as Hans.
  { intros a u r u' Hf v Hv. exists (Result ErrorObject Ser), _, ex_count, r. split; [left; reflexivity|]. by split. }
  edestruct H as (rs & w1 & front' & H1 & H2 & _ & _ & _ & _ & _ & H3); clear H.
  - discriminate.
  - reflexivity.
  - reflexivity.
  - econstructor; [apply (Hans "[41]" 5%N (Ok (SerInt 42)) 6%N); vm_compute; reflexivity|].
    econstructor; [apply (Hans "[-1]" 6%N (Ok (SerInt 0)) 7%N); vm_compute; reflexivity|constructor].
  - repeat constructor; vm_compute; discriminate.
  - assert (∀ id a, entry_ok (BeCall (MkRequest V2 (IdNumber id) "inc" (Some a) ext_new)) →
      entry_ok (BeCall (batch_call KNumber (("inc", Some a), id)))) as He by done.
    repeat (apply List.Forall_cons; [apply He; (split; [vm_compute; repeat (split; eauto)|]);
      (split; [vm_compute; discriminate|]); intros p [= <-]; vm_compute; discriminate|]). apply List.Forall_nil.
  - vm_compute. repeat (split; eauto).
  - vm_compute. eauto.
  - discriminate.
  - vm_compute. discriminate.
  - constructor; [response_ok_concrete|]. constructor; [response_ok_concrete|constructor].
  - constructor; [response_ok_concrete|]. constructor; [response_ok_concrete|constructor].
  - vm_compute. reflexivity.
  - vm_compute. discriminate.
  - split; [vm_compute; reflexivity|]. split; [apply ex_enc_law|vm_compute; reflexivity].
  - split; [vm_compute; reflexivity|]. split; [apply ex_enc_law|vm_compute; reflexivity].
  - vm_compute. discriminate.
  - vm_compute. discriminate.
  - apply ref_errors_write.
  - intros m ext. reflexivity.
  - vm_compute. repeat split; lia.
  - reflexivity.
  - split; [by eexists|]. vm_compute. repeat split; lia.
  - assert (rs = [Ok 42%Z; Ok 0%Z]) as ->.
    { vm_compute in H1. injection H1 as H1 _. destruct rs as [|[] [|[] [|]]]; try discriminate H1. by injection H1 as <- <-. }
    exists w1, front'. split; [exact H1|]. split; [exact H2|exact H3].
Defined.

(** A batch with more calls than the server allows is answered with an error for the
    identifier null, which ends the client as an oversized request does. *)
Example long_batch_ends_client :
  let '(r, st) := call_batch (BrcLimit 1) inc_calls (RequestIdManager.new KNumber, call_front) in
  (r, is_connected (snd st), snd (ss_svc (bk_tr (fr_back (snd st))))) =
    (Err (CsErr (ErrRestartNeeded (ErrInvalidRequestId (NotPendingRequest "null")))), false, 5%N).
Proof. vm_compute. reflexivity. Qed.
End WsBatchRun.
