(* ===== verification/WsSubscription.v ===== *)
(** A subscription over a WebSocket, from the caller to the method and back:
    [subscribe] of the async client ([AsyncSubscription.v]) on the WebSocket
    connection of [WsClient.v], with a session of the server ([WsSession.v]) at the
    other end whose service has the subscription registered ([RpcModule.v]).

    The connection is the one of [WsCall.v]. *)
From stdpp Require Import base gmap strings list.
From S2P Require Import Prelude Serde RefJson Errors Params Wire ParamsBuilder Middleware ClientCore ClientService RequestManager AsyncClient AsyncClientProofs MethodResponse Subscription RpcModule RpcService Http WsServer Server WsSession HttpClient WsClient AsyncFrontend AsyncSubscription WsCall.
Import RequestManager.

(** ** A subscription of the user *)
Section Streaming.
Context {J : SerdeJson} {X : HttpExtensions} {U : Type}.

(** The callback of a user that accepts, and sends values through the sink as far
    as there is room; then it waits, with the sink. *)
Fixpoint send_values (sink : SubscriptionSink) (values : list string) (w : SrvWorld) : Result Panicked SrvWorld :=
  match values with
  | [] => Ok w
  | v :: vs =>
    o ← sub_send sink (NeedsData v) w;
    match o with
    | Some (Ok _, w) => send_values sink vs w
    | Some (Err _, w) => Ok (sub_drop sink true w)
    | None => Ok w
    end
  end.
Definition streaming (values : Params → U → list string) (pending : PendingSubscriptionSink) : UserFn U unit :=
  λ params _ w,
  match accept pending (fst w) with
  | Some (Ok sink, s) =>
    match send_values sink (values params (snd w)) s with
    | Ok s => (Ok (), (s, snd w))
    | Err e => (Err e, (s, snd w))
    end
  | Some (Err AePanic, s) => (Err Panic, (s, snd w))
  | Some (Err AeClosed, s) => (Ok (), (s, snd w))
  | None => (Ok (), w)
  end.

(** A text for the channel: what is written is whole, and an object. *)
Definition text_ok (s : Ser) : Prop :=
  faithful s ∧ events_text (json_events s) = (text_of s, true) ∧ opens true (text_of s).
Definition value_ser (method : string) (sub_id : SubscriptionId) (value : string) : Ser :=
  subscription_response_ser method sub_id (SerRaw value).
Definition answer_ser (sub_id : SubscriptionId) (id : Id) : Ser :=
  response_serialize SubscriptionId.serialize (response_new (ResponsePayload.success sub_id) id).

(** *** Texts in the channel *)
Definition enqueue_all (sink : MethodSink) (texts : list string) (w : SrvWorld) : SrvWorld :=
  foldl (λ w t, enqueue sink t w) w texts.
Lemma chan_enqueue_all sink texts w : get_chan (ms_tx sink) (enqueue_all sink texts w) =
  let c := get_chan (ms_tx sink) w in match texts with [] => c | _ => MkConnChan (cc_cap c) (cc_queue c ++ texts) (cc_closed c) end.
Proof.
  unfold enqueue_all. revert w. induction texts as [|t ts IH]; intros w; [done|]. cbn [foldl]. rewrite IH, chan_after_enqueue. cbv zeta.
  destruct ts; [done|]. cbn. by rewrite <-app_assoc.
Qed.
Lemma enqueue_all_same sink texts w : sw_subscribers (enqueue_all sink texts w) = sw_subscribers w ∧
  sw_active (enqueue_all sink texts w) = sw_active w ∧ sw_answers (enqueue_all sink texts w) = sw_answers w.
Proof. unfold enqueue_all. revert w. induction texts as [|t ts IH]; intros w; [done|]. apply (IH (enqueue sink t w)). Qed.
Lemma send_values_spec sink values w :
  Forall (λ v, faithful (value_ser (ss_method sink) (sk_sub_id (ss_uniq_sub sink)) v)) values →
  sub_is_closed sink w = false →
  length (queue_of (ss_inner sink) w) + length values ≤ cc_cap (get_chan (ms_tx (ss_inner sink)) w) →
  send_values sink values w =
    Ok (enqueue_all (ss_inner sink) ((λ v, text_of (value_ser (ss_method sink) (sk_sub_id (ss_uniq_sub sink)) v)) <$> values) w).
Proof.
  intros F. revert w. induction F as [|v vs Fv _ IH]; intros w Hc Hcap; [done|]. cbn [length] in Hcap. cbn [send_values].
  rewrite (sub_send_enqueues sink v w Fv Hc) by (unfold sink_capacity, queue_of in *; lia). cbn [mbind result_bind].
  rewrite IH; [done|..].
  - revert Hc. unfold sub_is_closed, sink_is_closed, is_active_subscription, is_unsubscribed. by rewrite chan_after_enqueue.
  - unfold queue_of in *. rewrite chan_after_enqueue. cbn. rewrite length_app. cbn. lia.
Qed.

(** The entry of the subscription, and what the callback has put in the channel. *)
Definition subscribed_on (tbl : nat) (key : SubscriptionKey) (sink : SubscriptionSink) (w : SrvWorld) : Prop :=
  ss_subscribers sink = tbl ∧ ss_uniq_sub sink = key ∧
  subscribers_of tbl w !! key = Some (ss_inner sink, ss_unsubscribe sink) ∧ is_active_subscription sink w = true.
Lemma streaming_runs p values params ext (s : SrvWorld) (u : U) :
  let sid := sk_sub_id (ps_uniq_sub p) in
  let answer := answer_ser sid (ps_id p) in
  let vs := values params u in
  text_ok answer → (slen (text_of answer) <= ms_max_response_size (ps_inner p))%N →
  Forall (λ v, faithful (value_ser (ps_method p) sid v)) vs →
  sw_answers s !! ps_subscribe p = Some AwWaiting →
  cc_closed (get_chan (ms_tx (ps_inner p)) s) = false →
  length (queue_of (ps_inner p) s) + S (length vs) ≤ cc_cap (get_chan (ms_tx (ps_inner p)) s) →
  ∃ m sink s', streaming values p params ext (s, u) = (Ok (), (s', u)) ∧
    sw_answers s' !! ps_subscribe p = Some (AwSent m) ∧ mr_kind m = RkSubscription ∧
    subscribed_on (ps_subscribers p) (ps_uniq_sub p) sink s' ∧ ss_inner sink = ps_inner p ∧
    queue_of (ps_inner p) s' = queue_of (ps_inner p) s ++ text_of answer :: ((λ v, text_of (value_ser (ps_method p) sid v)) <$> vs) ∧
    cc_closed (get_chan (ms_tx (ps_inner p)) s') = false ∧
    cc_cap (get_chan (ms_tx (ps_inner p)) s') = cc_cap (get_chan (ms_tx (ps_inner p)) s).
Proof.
  intros sid answer vs (F & He & _) Hl Fvs Haw Ho Hcap.
  assert (accept_response p = Ok (MkMethodResponse (text_of answer) MrSuccess RkSubscription None ext_new)) as Hr.
  { unfold accept_response, MethodResponse.subscription_response.
    rewrite (response_fits SubscriptionId.serialize (ps_id p) (MrPayload.success sid) _ (text_of answer)); [done|exact He|exact Hl|].
    by apply faithful_reads. }
  destruct (sink_send_room (ps_inner p) (text_of answer) s Ho) as [Hsend _]; [lia|].
  unfold streaming, accept. cbn [fst snd]. rewrite Hr. cbn [mr_json]. rewrite Hsend. unfold answer_send.
  change (sw_answers (enqueue (ps_inner p) (text_of answer) s)) with (sw_answers s). rewrite Haw.
  cbn [MethodResponse.is_success mr_success_or_error MethodResponseResult.is_success].
  set (m := MkMethodResponse _ _ _ _ _). set (s1 := set_answers _ _).
  destruct (accept_insert p s1) as [sink s2] eqn:Ei. unfold accept_insert in Ei. injection Ei as Hsink Hs2.
  assert (subscribed_on (ps_subscribers p) (ps_uniq_sub p) sink s2) as Hon.
  { subst sink s2. split; [done|]. split; [done|]. cbn. split; [unfold subscribers_of at 1; cbn; by rewrite lookup_insert_eq; cbn; rewrite lookup_insert_eq|].
    unfold is_active_subscription, is_unsubscribed. cbn. apply negb_true_iff, bool_decide_eq_false. set_solver. }
  assert (get_chan (ms_tx (ps_inner p)) s2 = get_chan (ms_tx (ps_inner p)) (enqueue (ps_inner p) (text_of answer) s)) as Hch by by subst s2.
  assert (ss_inner sink = ps_inner p ∧ ss_method sink = ps_method p ∧ ss_uniq_sub sink = ps_uniq_sub p) as (Hi & Hmth & Hu) by by subst sink.
  rewrite chan_after_enqueue in Hch. cbv zeta in Hch. fold vs.
  rewrite (send_values_spec sink vs s2).
  - rewrite Hi, Hmth, Hu. fold sid. set (ts := (λ v, text_of (value_ser (ps_method p) sid v)) <$> vs).
    destruct (enqueue_all_same (ps_inner p) ts s2) as (E1 & E2 & E3).
    exists m, sink, (enqueue_all (ps_inner p) ts s2). split; [done|].
    rewrite E3. split; [subst s2; cbn; apply lookup_insert_eq|]. split; [done|].
    split. { destruct Hon as (? & ? & H3 & H4). unfold subscribed_on, subscribers_of, is_active_subscription, is_unsubscribed in *. by rewrite E1, E2. }
    split; [done|]. unfold queue_of. rewrite chan_enqueue_all, Hch. cbv zeta.
    destruct ts as [|t ts']; cbn; rewrite ?Ho; [done|]. by rewrite <-app_assoc.
  - by rewrite Hmth, Hu.
  - unfold sub_is_closed, sink_is_closed. rewrite Hi, Hch. cbn. rewrite Ho. destruct Hon as (_ & _ & _ & ->). done.
  - rewrite Hi. unfold queue_of in *. rewrite Hch. cbn. rewrite length_app. cbn. lia.
Qed.
End Streaming.

(** ** The two calls, at the server *)
Section ServerCalls.
Context {J : SerdeJson} {X : HttpExtensions} {U : Type}.
(** Nothing else works on the world while a subscribe call is answered. *)
Notation rest := (λ (_ : SubscribeCall) (w : W U), w).

Lemma service_subscribes (s : RpcService U) q notif tbl values sem sink next_id sid w1 u (w : SrvWorld) permit :
  let key := MkSubscriptionKey (rs_conn_id s) sid in
  let answer := answer_ser sid (rq_id q) in
  let vs := values (params_new (rq_params q)) u in
  Methods.method (rq_method q) (rs_methods s) = Some (McSubscription (RpcModule.subscribe_callback notif tbl (streaming values))) →
  rs_cfg s = CallsAndSubscriptions sem sink next_id →
  acquire sem w = (Some permit, w1) → next_id (w1, u) = (Ok sid, (w1, u)) →
  text_ok answer → (slen (text_of answer) <= ms_max_response_size sink)%N →
  Forall (λ v, faithful (value_ser notif sid v)) vs →
  cc_closed (get_chan (ms_tx sink) w) = false →
  length (queue_of sink w) + S (length vs) ≤ cc_cap (get_chan (ms_tx sink) w) →
  ∃ m ssink w', service_call rest s q (w, u) = (Ok m, (w', u)) ∧ mr_kind m = RkSubscription ∧
    subscribed_on tbl key ssink w' ∧ ss_inner ssink = sink ∧
    queue_of sink w' = queue_of sink w ++ text_of answer :: ((λ v, text_of (value_ser notif sid v)) <$> vs) ∧
    cc_closed (get_chan (ms_tx sink) w') = false ∧
    cc_cap (get_chan (ms_tx sink) w') = cc_cap (get_chan (ms_tx sink) w).
Proof.
  intros key answer vs Hreg Hcfg Hacq Hid Hans Hl Fvs Ho Hcap.
  assert (sw_chans w1 = sw_chans w ∧ sw_answers w1 = sw_answers w) as [Ec Ea].
  { unfold acquire in Hacq. destruct (sw_semaphores w !! sem); [|done]. case_decide; [|done]. by injection Hacq as _ <-. }
  set (rx := fresh (dom (sw_answers w1))). set (w2 := set_answers (<[rx := AwWaiting]> (sw_answers w1)) w1).
  set (p := MkPending sink notif tbl key (Id.into_owned (rq_id q)) rx permit).
  assert (Id.into_owned (rq_id q) = rq_id q) as Hown by by destruct (rq_id q).
  assert (∀ h, get_chan h w2 = get_chan h w) as Hch by (intros h; unfold get_chan; cbn; by rewrite Ec).
  destruct (streaming_runs p values (params_new (rq_params q)) (rq_extensions q) w2 u) as (m & ssink & w' & Hrun & Haw & Hk & Hon & Hi & Hq & Hcl & Hcp).
  { cbn. by rewrite Hown. } { cbn. by rewrite Hown. } { done. } { cbn. apply lookup_insert_eq. }
  { cbn [ps_inner p]. by rewrite Hch. } { cbn [ps_inner p]. unfold queue_of. by rewrite Hch. }
  cbn [ps_inner ps_uniq_sub ps_subscribers ps_id ps_method ps_subscribe sk_sub_id p key] in *.
  rewrite Hown in Hq. unfold queue_of in Hq. rewrite Hch in Hq, Hcp.
  exists (MethodResponse.with_extensions (rq_extensions q) m), ssink, w'. split; [|by split_and!].
  unfold service_call, Methods.method_with_name. unfold Methods.method in Hreg. rewrite Hreg. cbn [fmap option_fmap option_map]. rewrite Hcfg.
  unfold mbind, SM_bind, panics, sm_catch, srv. cbn [fst snd]. rewrite Hacq. cbn [map_err fst snd]. rewrite Hid. cbn [map_err].
  unfold RpcModule.subscribe_callback, mbind, SM_bind, srv, RpcModule.new_answer. cbn [fst snd st_conn_id st_sub_id st_permit].
  fold rx. fold w2. change (params_into_owned (params_new (rq_params q))) with (params_new (rq_params q)).
  fold key. fold p. rewrite Hrun. cbn [map_err]. unfold mret, SM_ret, await. cbn [fst]. unfold SubscribeCall.poll. cbn [sc_rx].
  cbn [fst snd map_err sc_rx]. by rewrite Haw.
Qed.

(** The unsubscribe call, whose parameters are the array of the identifier. *)
Definition ids_text (sid : SubscriptionId) : string := "[" +:+ text_of (SubscriptionId.serialize sid) +:+ "]".
Definition id_ok (sid : SubscriptionId) : Prop :=
  faithful (SubscriptionId.serialize sid) ∧ SubscriptionId.in_range sid ∧
  events_text (json_events (SubscriptionId.serialize sid)) = (text_of (SubscriptionId.serialize sid), true) ∧
  json_read (ids_text sid) = Some (NArr [text_of (SubscriptionId.serialize sid)]).
Definition done_ser (id : Id) : Ser := response_serialize SerBool (response_new (ResponsePayload.success true) id).
Lemma ids_text_read sid : id_ok sid →
  one (λ raw, ok_or (SubscriptionId.deserialize raw) (json_errmsg raw)) (params_new (Some (ids_text sid))) = Ok sid.
Proof.
  intros (F & Hr & _ & Hj). unfold one, parse, de_array1, params_new. cbn [params_raw fmap option_fmap option_map from_option id].
  unfold ids_text in *. rewrite trim_array, Hj. by rewrite SubscriptionId.sub_id_decode.
Qed.
Lemma service_unsubscribes (s : RpcService U) q tbl sem sink next_id sid ssink u (w : SrvWorld) :
  let key := MkSubscriptionKey (rs_conn_id s) sid in
  let rp := done_ser (rq_id q) in
  Methods.method (rq_method q) (rs_methods s) = Some (McUnsubscription (RpcModule.unsubscribe_callback tbl)) →
  rs_cfg s = CallsAndSubscriptions sem sink next_id → rq_params q = Some (ids_text sid) →
  id_ok sid → text_ok rp → (slen (text_of rp) <= rs_max_response_body_size s)%N →
  subscribed_on tbl key ssink w →
  ∃ m w', service_call rest s q (w, u) = (Ok m, (w', u)) ∧ mr_kind m = RkMethodCall ∧ mr_json m = text_of rp ∧
    sw_chans w' = sw_chans w ∧ subscribers_of tbl w' !! key = None ∧ is_active_subscription ssink w' = false.
Proof.
  intros key rp Hreg Hcfg Hps Hid (Frp & He & _) Hl (Htbl & Hkey & Hsub & Hact).
  assert (SubscriptionId.into_owned sid = sid) as Hown by by destruct sid.
  assert (MethodResponse.response SerBool (rq_id q) (MrPayload.success true) (rs_max_response_body_size s) =
    Ok (MkMethodResponse (text_of rp) MrSuccess RkMethodCall None ext_new)) as Hrp.
  { rewrite (response_fits SerBool (rq_id q) (MrPayload.success true) _ (text_of rp)); [done|exact He|exact Hl|]. by apply faithful_reads. }
  eexists _, _. split.
  - unfold service_call, Methods.method_with_name. unfold Methods.method in Hreg. rewrite Hreg. cbn [fmap option_fmap option_map]. rewrite Hcfg.
    unfold panics, sm_catch, RpcModule.unsubscribe_callback. rewrite Hps, ids_text_read by done. rewrite Hown. fold key.
    unfold mbind, SM_bind, srv, remove_subscriber. cbn [fst snd]. rewrite Hsub. cbn [fst snd]. unfold sm_result. rewrite Hrp. reflexivity.
  - cbn. split; [done|]. split; [done|]. split; [done|]. split.
    + unfold subscribers_of at 1. cbn. rewrite lookup_insert_eq. cbn. apply lookup_delete_eq.
    + unfold is_active_subscription, is_unsubscribed. cbn. apply negb_false_iff, bool_decide_eq_true. set_solver.
Qed.
End ServerCalls.

(** ** From the call to the end of the stream *)
Section WsSubscription.
Context {J : SerdeJson} {X : HttpExtensions} {XC : ExtKey ConnectionId} {XS : ExtKey IsSubscription} {XB : ExtKey IsBatch}.
Context {U : Type} (s : RpcService U).
Context (ping_config : option PingConfig) (max_request_body_size : N) (batch_config : BatchRequestConfig).
Context (encryption : option MessageEncryption) (policy : MessageCryptoErrorPolicy).
Context (extensions : Extensions) (sink : MethodSink) (biased : bool).
Context (max_request_size : N) (error_text : WsError → string) (max_cap : nat).
Notation rest := (λ (_ : SubscribeCall) (w : W U), w).
Notation serve := (serve rest s ping_config max_request_body_size batch_config encryption policy extensions sink biased).
Notation ws_tr_send := (ws_tr_send rest s ping_config max_request_body_size batch_config encryption policy extensions sink biased
  max_request_size error_text).
Notation ws_background := (ws_background rest s ping_config max_request_body_size batch_config encryption policy extensions sink
  biased max_request_size error_text max_cap).
Notation new_replies := (new_replies rest s ping_config max_request_body_size batch_config encryption policy extensions sink
  biased max_request_size error_text max_cap).
Notation crosses := (crosses encryption).
Notation incoming := (incoming encryption error_text).
Notation ready := (ready sink).
Notation drained := (drained sink).
Implicit Types ses : Session (W U).

Lemma unsubscribe_request_text u unsub sid : id_ok sid →
  let q := MkRequest V2 u unsub (Some (ids_text sid)) ext_new in
  faithful (request_serialize q) →
  unsubscribe_request u unsub sid = Ok (Some (MkRequestMessage (text_of (request_serialize q)) u None)).
Proof.
  intros (F & _ & He & Hj) q Fq. pose proof (array_params_text [SubscriptionId.serialize sid] [text_of (SubscriptionId.serialize sid)]) as H.
  cbn [insert_all join] in H. unfold mbind, SM_bind in H. unfold unsubscribe_request.
  destruct (ArrayParams.insert (SubscriptionId.serialize sid) ArrayParams.new) as [[[]|] b]; cbn in H.
  - destruct H as [_ H]; [by constructor; [split; [by apply faithful_write|]|]|done|exact (mk_is_Some _ _ Hj)|].
    assert (ArrayParams.to_rpc_params b = Ok (Some (ids_text sid))) as Hb by exact H.
    cbn [mbind result_bind]. rewrite Hb. cbn [mbind result_bind]. fold q. by rewrite (faithful_write _ Fq).
  - destruct H as [H _]; [by constructor; [split; [by apply faithful_write|]|]|done|exact (mk_is_Some _ _ Hj)|done].
Qed.
(** The texts of a subscription are messages of it. *)
Lemma de_raw_text v : faithful v → de_raw (text_of v) = Some (text_of v).
Proof. intros F. unfold de_raw. by destruct (faithful_reads _ F) as [n ->]. Qed.
Lemma values_are_notes notif sid vs : Forall (λ v, text_ok (value_ser notif sid v)) vs → SubscriptionId.in_range sid →
  notes sid ((λ v, text_of (value_ser notif sid v)) <$> vs) vs.
Proof.
  intros H Hr. induction H as [|v vs (F & _ & [t Ho]) _ IH]; [constructor|]. constructor; [|exact IH].
  exists (notification_new notif (MkSubscriptionPayload sid v)). split; [|done]. split; [by rewrite Ho|]. split.
  - unfold value_ser, subscription_response_ser in *. by apply notification_not_response.
  - by apply subscription_text_decode.
Qed.
Lemma subscribed_drained tbl key ssink w : subscribed_on tbl key ssink w → subscribed_on tbl key ssink (drained w).
Proof. done. Qed.

(** The server's half of the subscribe call. *)
Lemma serve_subscribe ses q notif tbl values sem next_id sid w1 permit data replies :
  let u := snd (world_of ses) in
  let key := MkSubscriptionKey (rs_conn_id s) sid in
  let vs := values (params_new (rq_params q)) u in
  let pushed := text_of (answer_ser sid (rq_id q)) :: ((λ v, text_of (value_ser notif sid v)) <$> vs) in
  Methods.method (rq_method q) (rs_methods s) = Some (McSubscription (RpcModule.subscribe_callback notif tbl (streaming values))) →
  rs_cfg s = CallsAndSubscriptions sem sink next_id →
  acquire sem (ss_srv ses) = (Some permit, w1) → next_id (w1, u) = (Ok sid, (w1, u)) →
  text_ok (answer_ser sid (rq_id q)) → (slen (text_of (answer_ser sid (rq_id q))) <= ms_max_response_size sink)%N →
  Forall (λ v, faithful (value_ser notif sid v)) vs →
  entry_ok (BeCall q) → opens true (text_of (request_serialize q)) → crosses (text_of (request_serialize q)) data →
  (slen data <= max_request_body_size)%N → ready ses →
  S (length vs) ≤ cc_cap (get_chan (ms_tx sink) (ss_srv ses)) → Forall2 crosses pushed replies →
  ∃ ssink, let ses' := serve data ses in
    ready ses' ∧ snd (world_of ses') = u ∧ subscribed_on tbl key ssink (ss_srv ses') ∧ ss_inner ssink = sink ∧
    ss_received ses' = ss_received ses ++ [data] ∧ ss_wire ses' = ss_wire ses ++ replies.
Proof.
  intros u key vs pushed Hreg Hcfg Hacq Hid Hans Hl Fvs Hq [tl Hop] Hx Hd Hr Hcap Hxs.
  pose proof Hr as (_ & _ & Hemp & Ho & _).
  destruct (service_subscribes s (MkRequest (rq_jsonrpc q) (rq_id q) (rq_method q) (rq_params q) extensions) notif tbl values sem sink next_id
    sid w1 u (ss_srv ses) permit) as (m & ssink & w' & Hcall & Hk & Hon & Hi & Hqu & Hcl & Hcp); try done.
  { by rewrite Hemp. }
  rewrite Hemp in Hqu. cbn [app rq_id rq_params] in Hqu. fold vs in Hqu. fold pushed in Hqu.
  exists ssink. destruct (serve_handled rest s ping_config max_request_body_size batch_config encryption policy extensions sink biased
    ses data MtReturn (w', u) pushed replies Hr Hd) as (H1 & H2 & H3 & H4); try done.
  - unfold handle_message. rewrite (crosses_decrypted _ _ _ _ Hx).
    assert (json_start (text_of (request_serialize q)) = Some (0, true)) as -> by (by rewrite Hop).
    rewrite (bind_step _ _ _ m (w', u)); [|cbn [drop_str]; rewrite handle_request by done; exact Hcall].
    unfold MethodResponse.is_method_call, MethodResponse.is_batch. by rewrite Hk.
  - cbn [fst]. rewrite Hcp. lia.
  - cbn [fst task_texts]. rewrite app_nil_r, Hcp. unfold pushed. cbn. by rewrite length_fmap.
  - by rewrite app_nil_r.
  - assert (ss_srv (serve data ses) = drained w' ∧ snd (world_of (serve data ses)) = u) as [E1 E2]
      by (split; [exact (f_equal fst H2)|exact (f_equal snd H2)]).
    cbv zeta. rewrite E1, E2. split; [exact H1|]. split; [done|]. split; [exact (subscribed_drained _ _ _ _ Hon)|].
    split; [exact Hi|]. split; [exact H3|exact H4].
Qed.

(** The server's half of the unsubscribe call. *)
Lemma serve_unsubscribe ses q tbl sem next_id sid ssink data reply :
  let key := MkSubscriptionKey (rs_conn_id s) sid in
  let rp := done_ser (rq_id q) in
  Methods.method (rq_method q) (rs_methods s) = Some (McUnsubscription (RpcModule.unsubscribe_callback tbl)) →
  rs_cfg s = CallsAndSubscriptions sem sink next_id → rq_params q = Some (ids_text sid) → id_ok sid →
  text_ok rp → (slen (text_of rp) <= rs_max_response_body_size s)%N →
  entry_ok (BeCall q) → opens true (text_of (request_serialize q)) → crosses (text_of (request_serialize q)) data →
  (slen data <= max_request_body_size)%N → ready ses → crosses (text_of rp) reply →
  subscribed_on tbl key ssink (ss_srv ses) →
  let ses' := serve data ses in
  ready ses' ∧ snd (world_of ses') = snd (world_of ses) ∧ subscribers_of tbl (ss_srv ses') !! key = None ∧
  is_active_subscription ssink (ss_srv ses') = false ∧
  ss_received ses' = ss_received ses ++ [data] ∧ ss_wire ses' = ss_wire ses ++ [reply].
Proof.
  intros key rp Hreg Hcfg Hps Hid Hrp Hl Hq [tl Hop] Hx Hd Hr Hxr Hon ses'.
  pose proof Hr as (_ & _ & Hemp & Ho & Hc).
  destruct (service_unsubscribes s (MkRequest (rq_jsonrpc q) (rq_id q) (rq_method q) (rq_params q) extensions) tbl sem sink next_id
    sid ssink (snd (world_of ses)) (ss_srv ses)) as (m & w' & Hcall & Hk & Hj & Hch & Hnone & Hact); try done.
  assert (get_chan (ms_tx sink) w' = get_chan (ms_tx sink) (ss_srv ses)) as Hg by (unfold get_chan; by rewrite Hch).
  assert (queue_of sink w' = []) as Hemp' by (unfold queue_of in *; by rewrite Hg).
  rewrite <-Hg in Ho, Hc.
  destruct (serve_handled rest s ping_config max_request_body_size batch_config encryption policy extensions sink biased
    ses data (MtSend (mr_json m) (mr_on_close m) (MethodResponse.is_success m)) (w', snd (world_of ses)) [] [reply] Hr Hd) as (H1 & H2 & H3 & H4);
    [|exact Hemp'|exact Ho|exact Hc|exact Hc| |].
  - unfold handle_message. rewrite (crosses_decrypted _ _ _ _ Hx).
    assert (json_start (text_of (request_serialize q)) = Some (0, true)) as -> by (by rewrite Hop).
    rewrite (bind_step _ _ _ m (w', snd (world_of ses))); [|cbn [drop_str]; rewrite handle_request by done; exact Hcall].
    unfold MethodResponse.is_method_call. by rewrite Hk.
  - cbn [app task_texts]. rewrite Hj. by constructor.
  - assert (ss_srv ses' = drained w' ∧ snd (world_of ses') = snd (world_of ses)) as [E1 E2]
      by (split; [exact (f_equal fst H2)|exact (f_equal snd H2)]).
    unfold ses'. unfold ses' in E1, E2. rewrite E1, E2. split; [exact H1|]. split; [done|]. split; [exact Hnone|]. split; [exact Hact|]. split; [exact H3|exact H4].
Qed.

(** The replies the client reads: to the subscribe call, and to the unsubscribe call. *)
Lemma subscribe_background front m raw ses' ts rs : requests (bk_manager (fr_back front)) !! is_sub_id m = None →
  requests (bk_manager (fr_back front)) !! is_unsub_id m = None → is_sub_id m ≠ is_unsub_id m →
  ws_tr_send raw (bk_tr (fr_back front)) = (Ok (), ses') → ss_wire ses' = ss_wire (bk_tr (fr_back front)) ++ rs →
  Forall2 crosses ts rs →
  ws_background (queued_subscribe front m raw) = background ws_tr_send max_cap (texts ts) (queued_subscribe front m raw).
Proof.
  intros Hn1 Hn2 Hne Ht Hw Hx. eapply (ws_background_replies (λ _ w, w) s); [|exact Hw|exact Hx].
  cbn [fr_queue queued_subscribe set_queue send_loop].
  by erewrite (send_subscribe ws_tr_send max_cap); [|reflexivity|exact Hn1|exact Hn2|exact Hne|exact Ht].
Qed.
Lemma closing_background front sid i u c unsub lagged msg ses' ts rs : active (fr_back front) sid i u c unsub →
  unsubscribe_request u unsub sid = Ok (Some msg) → ws_tr_send (rm_raw msg) (bk_tr (fr_back front)) = (Ok (), ses') →
  ss_wire ses' = ss_wire (bk_tr (fr_back front)) ++ rs → Forall2 crosses ts rs →
  ws_background (closing_front max_cap front sid c lagged) =
    background ws_tr_send max_cap (texts ts) (closing_front max_cap front sid c lagged).
Proof.
  intros Ha Hmsg Ht Hw Hx. eapply (ws_background_replies (λ _ w, w) s); [|exact Hw|exact Hx].
  cbn [fr_queue closing_front set_queue send_loop].
  destruct (close_active ws_tr_send max_cap (fr_back (closing_front max_cap front sid c lagged)) sid i u c unsub msg Ha Hmsg) as [-> _].
  unfold send_raw. change (bk_tr (forgotten sid i c _)) with (bk_tr (fr_back front)). by rewrite Ht.
Qed.
Lemma success_is_response {T} (ser : T → Ser) (v : T) id :
  let rp := response_serialize ser (response_new (ResponsePayload.success v) id) in
  text_ok rp → Id.in_range id →
  is_response (text_of rp) (MkResponse (Some V2) (Success (text_of (ser v))) id ext_new).
Proof.
  intros rp (F & _ & [t Ho]) Hid. split; [by rewrite Ho|].
  apply (response_decode_map ser de_raw (λ v, text_of (ser v)) (response_new (ResponsePayload.success v) id) F Hid).
  apply de_raw_text. destruct (faithful_map _ F) as [_ Fs]. cbn in Fs. by split_Forall.
Qed.

(** C5: a subscription over a WebSocket, encrypted or not, from its call to its end.
    The client's call is accepted by the user's callback at the server; the stream
    the client gets yields exactly the values the callback sent, decoded, all of
    them and in the order they were sent.  When the client unsubscribes, the call
    reaches that subscription: the server forgets it, its sink sends nothing any
    more, and on the client the stream ends and the subscription is forgotten.  Two
    texts went to the server; the answer, the values and the acknowledgement came
    back; both ends are ready for the next call. *)
Theorem ws_subscription_streams {Notif} (de : string → Result string Notif) (ids ids1 ids2 : RequestIdManager) (id1 id2 : Id)
    (front : Front (Session (W U))) (name unsub notif : string) (ps : option string) values tbl sem next_id sid w1 permit
    (data1 data2 reply2 : string) (replies1 : list string) :
  let m := MkIsSubscription id1 id2 unsub in
  let q1 := MkRequest V2 id1 name ps (ext_insert m ext_new) in
  let q2 := MkRequest V2 id2 unsub (Some (ids_text sid)) ext_new in
  let ses := bk_tr (fr_back front) in
  let u := snd (world_of ses) in
  let vs := values (params_new ps) u in
  let answer := answer_ser sid id1 in
  let key := MkSubscriptionKey (rs_conn_id s) sid in
  (* the subscription is registered; the connection has a permit for it, and room *)
  Methods.method name (rs_methods s) = Some (McSubscription (RpcModule.subscribe_callback notif tbl (streaming values))) →
  Methods.method unsub (rs_methods s) = Some (McUnsubscription (RpcModule.unsubscribe_callback tbl)) →
  rs_cfg s = CallsAndSubscriptions sem sink next_id →
  acquire sem (ss_srv ses) = (Some permit, w1) → next_id (w1, u) = (Ok sid, (w1, u)) →
  S (length vs) ≤ cc_cap (get_chan (ms_tx sink) (ss_srv ses)) → length vs ≤ max_cap →
  (* the texts, and what goes over the wire for them *)
  entry_ok (BeCall q1) → opens true (text_of (request_serialize q1)) →
  entry_ok (BeCall q2) → opens true (text_of (request_serialize q2)) →
  text_ok answer → (slen (text_of answer) <= ms_max_response_size sink)%N →
  text_ok (done_ser id2) → (slen (text_of (done_ser id2)) <= rs_max_response_body_size s)%N →
  Forall (λ v, text_ok (value_ser notif sid v)) vs → id_ok sid →
  crosses (text_of (request_serialize q1)) data1 → (slen data1 <= max_request_size)%N → (slen data1 <= max_request_body_size)%N →
  crosses (text_of (request_serialize q2)) data2 → (slen data2 <= max_request_size)%N → (slen data2 <= max_request_body_size)%N →
  Forall2 crosses (text_of answer :: ((λ v, text_of (value_ser notif sid v)) <$> vs)) replies1 →
  crosses (text_of (done_ser id2)) reply2 →
  (* both ends are ready *)
  RequestIdManager.next_request_id ids = (id1, ids1) → RequestIdManager.next_request_id ids1 = (id2, ids2) →
  marker_law → name ≠ unsub → id1 ≠ id2 → idle front → ready ses →
  requests (bk_manager (fr_back front)) !! id1 = None → requests (bk_manager (fr_back front)) !! id2 = None →
  subscriptions (bk_manager (fr_back front)) !! sid = None →
  ∃ sub front1 ssink,
    Client.subscribe (svc := async_service ws_background) read_error name (Ok ps) unsub (ids, front) = (Ok sub, (ids2, front1)) ∧
    subscribed_on tbl key ssink (ss_srv (bk_tr (fr_back front1))) ∧
    ∃ w', next_all (S (length vs)) de sub (bk_world (fr_back front1)) = (de <$> vs, false, sub, w') ∧
    ∃ front2, AsyncSubscription.unsubscribe ws_background sub (on_world_of (λ _, w') front1) = (Some (Ok ()), front2) ∧
      idle front2 ∧ subscriptions (bk_manager (fr_back front2)) !! sid = None ∧
      (∃ sub' w'', next_all 1 de sub (bk_world (fr_back front2)) = ([], true, sub', w'')) ∧
      let ses2 := bk_tr (fr_back front2) in
      ready ses2 ∧ snd (world_of ses2) = u ∧ subscribers_of tbl (ss_srv ses2) !! key = None ∧
      (∀ msg, sub_send ssink msg (ss_srv ses2) = Ok (Some (Err (Disconnect msg), ss_srv ses2))) ∧
      ss_received ses2 = ss_received ses ++ [data1; data2] ∧ ss_wire ses2 = ss_wire ses ++ replies1 ++ [reply2].
Proof.
  intros m q1 q2 ses u vs answer key Hreg1 Hreg2 Hcfg Hacq Hnext Hcap Hmax Hq1 Hop1 Hq2 Hop2 Hans Hl1 Hrp Hl2 Hvs Hid
    Hx1 Hs1 Hb1 Hx2 Hs2 Hb2 Hxs Hxr E1 E2 Hmark Hname Hne Hidle Hr Hn1 Hn2 Hsub.
  set (notes_texts := (λ v, text_of (value_ser notif sid v)) <$> vs) in *.
  assert (notes sid notes_texts vs) as Hnotes by (by apply values_are_notes; [|apply Hid]).
  pose proof (crosses_send rest s ping_config max_request_body_size batch_config encryption policy extensions sink biased
    max_request_size error_text) as Hsend.
  (* the subscribe call *)
  destruct (serve_subscribe ses q1 notif tbl values sem next_id sid w1 permit data1 replies1) as (ssink & Hr1 & Hu1 & Hon & Hi & Hrc1 & Hw1);
    [done..| |done|done|done|done|done|done|done|]. { by eapply Forall_impl; [exact Hvs|intros v []]. }
  pose proof (Hsend _ _ ses Hx1 Hs1) as Ht1.
  assert (json_write (request_serialize q1) = Some (text_of (request_serialize q1))) as Hjw by (apply faithful_write; apply Hq1).
  destruct (client_subscribes ws_tr_send max_cap ws_background ids ids1 ids2 id1 id2 front name unsub ps (text_of (request_serialize q1))
    (serve data1 ses) (text_of answer) (MkResponse (Some V2) (Success (text_of (SubscriptionId.serialize sid))) id1 ext_new)
    (text_of (SubscriptionId.serialize sid)) sid (text_of (SubscriptionId.serialize sid)) notes_texts vs)
    as (c & front1 & Hcall & Hlive & Htr1); try done.
  { by apply (success_is_response SubscriptionId.serialize); [|apply (proj1 (proj2 Hq1))]. }
  { by apply SubscriptionId.sub_id_decode; apply Hid. }
  { apply faithful_write, Hid. }
  { by apply (subscribe_background front m _ (serve data1 ses) _ replies1). }
  exists (subscription_new c (KindSubscription sid)), front1, ssink. split; [exact Hcall|]. rewrite Htr1. split; [exact Hon|].
  destruct Hlive as [Hi1 Ha1 Hu' [lagged Hc1]].
  eexists. split; [apply (next_all_spec de (subscription_new c (KindSubscription sid)) _ _ _ _ _ _ Hc1)|]. cbn [su_rx subscription_new].
  (* the unsubscribe call *)
  set (front1' := on_world_of _ front1).
  assert (w_chans (bk_world (fr_back front1')) !! c = Some (MkChan max_cap [] false false lagged)) as Hc1' by (cbn; apply lookup_insert_eq).
  assert (live max_cap front1' sid id1 id2 c unsub []) as Hlive' by (split; [exact Hi1|exact Ha1|exact Hu'|by exists lagged]).
  destruct (serve_unsubscribe (serve data1 ses) q2 tbl sem next_id sid ssink data2 reply2) as (Hr2 & Hu2 & Hnone & Hact & Hrc2 & Hw2); try done.
  pose proof (Hsend _ _ (serve data1 ses) Hx2 Hs2) as Ht2.
  pose proof (unsubscribe_request_text id2 unsub sid Hid (proj1 Hq2)) as Hmsg.
  assert (is_response (text_of (done_ser id2)) (MkResponse (Some V2) (Success (text_of (SerBool true))) id2 ext_new)) as Hack.
  { by apply (success_is_response SerBool); [|apply (proj1 (proj2 Hq2))]. }
  destruct (unsubscribe_live ws_tr_send max_cap ws_background front1' sid id1 id2 c unsub []
    (MkRequestMessage (text_of (request_serialize q2)) id2 None) (serve data2 (serve data1 ses))
    (subscription_new c (KindSubscription sid)) [text_of (done_ser id2)] lagged Hlive' Hc1') as (front2 & Hun & Hi2 & Htr2 & Hs2' & Hc2); try done.
  { split; [|done]. by repeat constructor; exists (MkResponse (Some V2) (Success (text_of (SerBool true))) id2 ext_new). }
  { cbn [rm_raw]. change (bk_tr (fr_back front1')) with (bk_tr (fr_back front1)). by rewrite Htr1. }
  { apply (closing_background front1' sid id1 id2 c unsub lagged _ (serve data2 (serve data1 ses)) _ [reply2] Ha1 Hmsg).
    - change (bk_tr (fr_back front1')) with (bk_tr (fr_back front1)). by rewrite Htr1.
    - change (bk_tr (fr_back front1')) with (bk_tr (fr_back front1)). by rewrite Htr1.
    - by constructor. }
  exists front2. split; [exact Hun|]. split; [exact Hi2|]. split; [exact Hs2'|].
  split. { eexists _, _. apply (next_all_spec de (subscription_new c (KindSubscription sid)) _ _ [] _ _ _ Hc2). }
  rewrite Htr2, Hrc2, Hw2, Hrc1, Hw1, <-!app_assoc. split; [exact Hr2|]. split; [by rewrite Hu2|]. split; [exact Hnone|].
  split; [|done]. intros msg. unfold sub_send, sub_is_closed. rewrite Hact. by destruct (sink_is_closed _ _).
Qed.
End WsSubscription.

(** ** A subscription over concrete texts *)
Section WsSubscriptionRun.
#[local] Existing Instance ref_json.
#[local] Existing Instance call_ext.
#[local] Existing Instance call_conn_ext.
#[local] Existing Instance call_sub_ext.
#[local] Existing Instance call_batch_ext.

Definition tick_values : Params → N → list string := λ _ u, ["1"; to_dec u].
Definition tick_methods : Methods N :=
  snd (RpcModule.register_subscription "sub" "tick" "unsub" 0 (streaming tick_values) Methods.new).
Definition tick_setup : MethodSink * RpcService N * W N :=
  TowerServiceNoHttp.ws_service (MkServiceData tick_methods 0 (ServerConfigBuilder.build (ServerConfigBuilder.new (mret (SubNum 3)))))
    (call_world, 5%N).
Notation tick_sink := (fst (fst tick_setup)).
Notation tick_service := (snd (fst tick_setup)).
Definition tick_session : Session (W N) := session_start (fst (snd tick_setup)) (snd tick_setup).
Definition tick_front : Front (Session (W N)) :=
  MkFront (MkBack RequestManager.new (MkWorld ∅ ∅) tick_session) [] 16 false None.
Notation tick_bg := (ws_background (λ _ w, w) tick_service None 1000 BrcUnlimited (Some ex_enc) SendError ext_new
  tick_sink true 1000 (λ _, "") 16).
Definition tick_ids (n : nat) : RequestIdManager := Nat.iter n (λ m, snd (RequestIdManager.next_request_id m)) (RequestIdManager.new KNumber).
Definition tick_wire : list string := (λ t, "#" +:+ q t) <$>
  ["{'jsonrpc':'2.0','id':0,'result':3}"; "{'jsonrpc':'2.0','method':'tick','params':{'subscription':3,'result':1}}";
   "{'jsonrpc':'2.0','method':'tick','params':{'subscription':3,'result':5}}"].
Definition tick_done : string := "#" +:+ q "{'jsonrpc':'2.0','id':1,'result':true}".

Lemma ex_crosses text : utf8_valid ("#" +:+ text) = true → encrypt ex_enc text = Ok ("#" +:+ text) →
  crosses (Some ex_enc) text ("#" +:+ text).
Proof. intros H1 H2. split; [exact H1|]. split; [apply ex_enc_law|exact H2]. Qed.

Lemma ws_subscription_streams_witness :
  ∃ sub front1 front2 w', Client.subscribe (svc := async_service tick_bg) read_error "sub" (Ok (Some "[]")) "unsub"
      (tick_ids 0, tick_front) = (Ok sub, (tick_ids 2, front1)) ∧
    next_all 3 de_int sub (bk_world (fr_back front1)) = ([Ok 1%Z; Ok 5%Z], false, sub, w') ∧
    AsyncSubscription.unsubscribe tick_bg sub (on_world_of (λ _, w') front1) = (Some (Ok ()), front2) ∧
    ss_wire (bk_tr (fr_back front2)) = tick_wire ++ [tick_done].
Proof.
  pose proof (ws_subscription_streams tick_service None 1000 BrcUnlimited (Some ex_enc) SendError ext_new tick_sink true 1000 (λ _, "") 16
    de_int (tick_ids 0) (tick_ids 1) (tick_ids 2) (IdNumber 0) (IdNumber 1) tick_front "sub" "unsub" "tick" (Some "[]") tick_values 0
    0 (mret (SubNum 3)) (SubNum 3)) as H.
  destruct (acquire 0 (ss_srv tick_session)) as [[permit|] w1] eqn:Ea; [|vm_compute in Ea; discriminate].
  assert (permit = 0) as -> by (vm_compute in Ea; by injection Ea).
  assert (∀ f : Ser, faithful f → events_text (json_events f) = (text_of f, true) → opens true (text_of f) → text_ok f) as Hok by done.
  edestruct (H w1 0 ("#" +:+ q "{'jsonrpc':'2.0','id':0,'method':'sub','params':[]}")
    ("#" +:+ q "{'jsonrpc':'2.0','id':1,'method':'unsub','params':[3]}") tick_done tick_wire)
    as (sub & front1 & ssink & H1 & _ & w' & H2 & front2 & H4 & _ & _ & _ & _ & _ & _ & _ & _ & H3).
  - reflexivity.
  - reflexivity.
  - reflexivity.
  - exact Ea.
  - reflexivity.
  - vm_compute. lia.
  - vm_compute. lia.
  - split; [vm_compute; repeat (split; eauto)|]. split; [vm_compute; discriminate|]. intros p [= <-]. vm_compute. discriminate.
  - vm_compute. eauto.
  - split; [vm_compute; repeat (split; eauto)|]. split; [vm_compute; discriminate|]. intros p [= <-]. vm_compute. discriminate.
  - vm_compute. eauto.
  - apply Hok; [vm_compute; repeat (split; eauto)|vm_compute; reflexivity|vm_compute; eauto].
  - vm_compute. discriminate.
  - apply Hok; [vm_compute; repeat (split; eauto)|vm_compute; reflexivity|vm_compute; eauto].
  - vm_compute. discriminate.
  - repeat constructor; try (vm_compute; repeat (split; eauto)); vm_compute; eauto.
  - split; [vm_compute; repeat (split; eauto)|]. split; [vm_compute; discriminate|]. split; vm_compute; reflexivity.
  - apply ex_crosses; vm_compute; reflexivity.
  - vm_compute. discriminate.
  - vm_compute. discriminate.
  - apply ex_crosses; vm_compute; reflexivity.
  - vm_compute. discriminate.
  - vm_compute. discriminate.
  - repeat constructor; try apply ex_enc_law; vm_compute; reflexivity.
  - apply ex_crosses; vm_compute; reflexivity.
  - reflexivity.
  - reflexivity.
  - intros m. reflexivity.
  - discriminate.
  - discriminate.
  - vm_compute. repeat split; lia.
  - split; [by eexists|]. vm_compute. repeat split; lia.
  - reflexivity.
  - reflexivity.
  - reflexivity.
  - exists sub, front1, front2, w'. split; [exact H1|]. split; [exact H2|]. split; [exact H4|exact H3].
Defined.
End WsSubscriptionRun.
