(* ===== verification/ProcMacro.v ===== *)
(** The [#[rpc]] macro, part one: what it reads.

    [proc-macros/src/attributes.rs] and [rpc_macro.rs]: the arguments of the
    attributes, the methods and subscriptions of a trait, the checks on them and
    the names they get.  Tokens and the parsers of single syntax elements belong
    to [syn] ([SynLib]); a trait is what [syn] parsed.  Doc comments, bounds and
    generics only pass through the macro and are left out. *)
From stdpp Require Import base strings list.
From Stdlib Require Import Ascii.
From S2P Require Import Prelude.

(** Errors of the macro: a [syn::Error] becomes a compile error, as does a panic. *)
Inductive MacroError : Type := SynError (message : string) | MacroPanic (message : string).

(** [syn::Type], as far as the macro looks into it: the segments of a path. *)
Inductive RustType : Type := TyPath (segments : list string) | TyOther (text : string).

(** What the macro asks of [syn] about token streams: parsers of single syntax
    elements, which give what is left of the stream. *)
Class SynLib := {
  TokenTree : Type;
  parse_ident : TokenTree → option string;
  (** [input.peek(Token![c])] for one of the characters [,], [<] and [>]; and for [=>] *)
  peek : ascii → list TokenTree → bool;
  peek_arrow : list TokenTree → bool;
  (** [input.parse::<Token![=]>()] and [Token![=>]] *)
  parse_eq : list TokenTree → Result string (list TokenTree);
  parse_arrow : list TokenTree → Result string (list TokenTree);
  parse_lit_str : list TokenTree → Result string (string * list TokenTree);
  parse_type : list TokenTree → Result string (RustType * list TokenTree);
  (** [syn::WherePredicate] *)
  parse_bound : list TokenTree → Result string (unit * list TokenTree);
  (** [syn::bracketed!] and [syn::parenthesized!]: what is inside, and after it *)
  bracketed : list TokenTree → Result string (list TokenTree * list TokenTree);
  parenthesized : list TokenTree → Result string (list TokenTree * list TokenTree);
  (** [input.parse_terminated(p, Token![,])] *)
  parse_terminated {T} : (list TokenTree → Result string (T * list TokenTree)) →
    list TokenTree → Result string (list T);
  (** [p.parse2(tokens)]: the parser must take all the tokens *)
  parse2 {T} : (list TokenTree → Result string (T * list TokenTree)) → list TokenTree → Result string T
}.

(** ** Arguments of attributes *)
Section Attributes.
Context {S : SynLib}.

Record Argument : Type := MkArgument { arg_label : string; arg_tokens : list TokenTree }.
Record AttributeMeta : Type := MkAttributeMeta { am_path : string; am_arguments : list Argument }.
Record Attribute : Type := MkAttribute { at_path : string; at_tokens : list TokenTree }.
Inductive MissingArgument : Type := MkMissingArgument (name : string).

(** The tokens up to the end, or to the next comma that is not inside angle
    brackets. *)
Fixpoint argument_tokens (scope : nat) (input : list TokenTree) : list TokenTree * list TokenTree :=
  match input with
  | [] => ([], [])
  | t :: rest =>
    if bool_decide (scope = 0) && peek ","%char input then ([], input)
    else
      let scope := if peek "<"%char input then scope + 1
                   else if peek ">"%char input then scope - 1 else scope in
      let '(tokens, rest) := argument_tokens scope rest in (t :: tokens, rest)
  end.
(** [input.parse::<syn::Ident>()]. *)
Definition ident_parse (input : list TokenTree) : Result string (string * list TokenTree) :=
  match input with
  | [] => Err "unexpected end of input, expected identifier"
  | t :: rest => label ← ok_or (parse_ident t) "expected identifier"; Ok (label, rest)
  end.
Definition argument_parse (input : list TokenTree) : Result string (Argument * list TokenTree) :=
  '(label, rest) ← ident_parse input;
  let '(tokens, rest) := argument_tokens 0 rest in Ok (MkArgument label tokens, rest).
(** [NameMapping]: a name, and what it is mapped to. *)
Definition name_mapping_parse (input : list TokenTree) : Result string ((string * option string) * list TokenTree) :=
  '(name, input) ← parse_lit_str input;
  if peek_arrow input then
    input ← parse_arrow input;
    '(mapped, input) ← parse_lit_str input;
    Ok ((name, Some mapped), input)
  else Ok ((name, None), input).
(** [Bracketed]. *)
Definition bracketed_parse {T} (p : list TokenTree → Result string (T * list TokenTree)) (input : list TokenTree)
    : Result string (list T * list TokenTree) :=
  '(content, input) ← bracketed input;
  l ← parse_terminated p content;
  Ok (l, input).
(** [Aliases]. *)
Definition aliases_parse : list TokenTree → Result string (list string * list TokenTree) := bracketed_parse parse_lit_str.
Definition parenthesized_parse {T} (p : list TokenTree → Result string (T * list TokenTree)) (input : list TokenTree)
    : Result string (list T * list TokenTree) :=
  '(content, input) ← parenthesized input;
  l ← parse_terminated p content;
  Ok (l, input).
End Attributes.

Module AttributeMeta.
Section Ops.
Context {S : SynLib}.
Definition parse (attr : Attribute) : Result MacroError AttributeMeta :=
  map_err SynError (MkAttributeMeta (at_path attr) <$> parse_terminated argument_parse (at_tokens attr)).

(** The position of a label in the list of the allowed ones. *)
Fixpoint position (label : string) (allowed : list string) : option nat :=
  match allowed with
  | [] => None
  | probe :: allowed => if decide (label = probe) then Some 0 else Datatypes.S <$> position label allowed
  end.
Definition unknown (label : string) (allowed : list string) : string :=
  "Unknown argument `" +:+ label +:+ "`, expected one of: `" +:+
  match allowed with
  | [] => ""
  | first :: others => first +:+ foldr (λ l s, "`, `" +:+ l +:+ s) "" others
  end +:+ "`".
Fixpoint retain_loop (allowed : list string) (arguments : list Argument)
    (result : list (Result MissingArgument Argument)) : Result MacroError (list (Result MissingArgument Argument)) :=
  match arguments with
  | [] => Ok result
  | argument :: arguments =>
    match position (arg_label argument) allowed with
    | Some idx =>
      match result !! idx with
      | Some (Ok old) => Err (SynError ("Duplicate argument `" +:+ arg_label old +:+ "`"))
      | _ => retain_loop allowed arguments (<[idx := Ok argument]> result)
      end
    | None => Err (SynError (unknown (arg_label argument) allowed))
    end
  end.
Definition retain (allowed : list string) (self : AttributeMeta)
    : Result MacroError (list (Result MissingArgument Argument)) :=
  match allowed with
  | [] => Err (MacroPanic "Calling `AttributeMeta::retain` with an empty `allowed` list, this is a bug, please report it")
  | _ => retain_loop allowed (am_arguments self) ((λ name, Err (MkMissingArgument name)) <$> allowed)
  end.
End Ops.
End AttributeMeta.

Definition missing_argument (m : MissingArgument) : MacroError :=
  let 'MkMissingArgument missing := m in SynError ("Missing argument `" +:+ missing +:+ "`").

Module Argument.
Section Ops.
Context {S : SynLib}.
Definition flag (a : Argument) : Result MacroError unit :=
  match arg_tokens a with [] => Ok () | _ => Err (SynError "Expected a flag argument") end.
Definition value_parser {T} (parse : list TokenTree → Result Strings.String.string (T * list TokenTree))
    (stream : list TokenTree) : Result Strings.String.string (T * list TokenTree) :=
  stream ← parse_eq stream; parse stream.
Definition value {T} (parse : list TokenTree → Result Strings.String.string (T * list TokenTree)) (a : Argument)
    : Result MacroError T :=
  map_err SynError (parse2 (value_parser parse) (arg_tokens a)).
Definition group {T} (parse : list TokenTree → Result Strings.String.string (T * list TokenTree)) (a : Argument)
    : Result MacroError (list T) :=
  map_err SynError (parse2 (parenthesized_parse parse) (arg_tokens a)).
Definition string (a : Argument) : Result MacroError Strings.String.string := value parse_lit_str a.
End Ops.
End Argument.

Section Kinds.
Context {S : SynLib}.
Definition optional {T} (transform : Argument → Result MacroError T) (arg : Result MissingArgument Argument)
    : Result MacroError (option T) :=
  match arg with Ok a => Some <$> transform a | Err _ => Ok None end.

Inductive ParamKind : Type := PkArray | PkMap | PkObject.
Definition parse_param_kind (arg : Result MissingArgument Argument) : Result MacroError ParamKind :=
  kind ← optional (Argument.value ident_parse) arg;
  match kind with
  | None => Ok PkArray
  | Some ident =>
    if decide (ident = "array") then Ok PkArray
    else if decide (ident = "map") then Ok PkMap
    else if decide (ident = "object") then Ok PkObject
    else Err (SynError "param_kind must be either `array`, `map`, or `object`")
  end.
Definition parse_aliases (arg : Result MissingArgument Argument) : Result MacroError (list string) :=
  aliases ← optional (Argument.value aliases_parse) arg; Ok (default [] aliases).
Definition parse_subscribe (arg : Result MissingArgument Argument) : Result MacroError (option string) :=
  optional Argument.string arg.
Definition find_attr (attrs : list Attribute) (ident : string) : option Attribute :=
  snd <$> list_find (λ a, at_path a = ident) attrs.
End Kinds.

(** ** Traits, as [syn] parses them *)
Section Trait.
Context {S : SynLib}.

Inductive Pat : Type := PIdent (ident : string) | PWild | POther (debug : string).
Inductive FnArg : Type := FaReceiver | FaTyped (pat : Pat) (ty : RustType) (attrs : list Attribute).
Record TraitItemFn : Type := MkTraitItemFn {
  fn_attrs : list Attribute;
  fn_ident : string;
  fn_async : bool;
  fn_inputs : list FnArg;
  fn_output : option RustType
}.
Inductive TraitItem : Type := TiFn (f : TraitItemFn) | TiOther.
Record ItemTrait : Type := MkItemTrait { tr_ident : string; tr_items : list TraitItem }.

(** ** [RpcFnArg] *)
Record RpcFnArg : Type := MkRpcFnArg { ra_arg_pat : string; ra_rename_to : option string; ra_ty : RustType }.
Definition from_arg_attrs (arg_pat : string) (ty : RustType) (attrs : list Attribute) : Result MacroError RpcFnArg :=
  match find_attr attrs "argument" with
  | Some attr =>
    meta ← AttributeMeta.parse attr;
    r ← AttributeMeta.retain ["rename"] meta;
    match r with
    | [rename] => rename_to ← optional Argument.string rename; Ok (MkRpcFnArg arg_pat rename_to ty)
    | _ => Err (MacroPanic "")
    end
  | None => Ok (MkRpcFnArg arg_pat None ty)
  end.
(** [name]. *)
Definition arg_name (a : RpcFnArg) : string := default (ra_arg_pat a) (ra_rename_to a).

(** The arguments of a signature, without the receiver; [wild] and [other] are
    what the patterns that are no identifiers give. *)
Fixpoint fn_params (wild : MacroError) (other : string → MacroError) (inputs : list FnArg)
    : Result MacroError (list RpcFnArg) :=
  match inputs with
  | [] => Ok []
  | FaReceiver :: inputs => fn_params wild other inputs
  | FaTyped pat ty attrs :: inputs =>
    match pat with
    | PIdent name => a ← from_arg_attrs name ty attrs; l ← fn_params wild other inputs; Ok (a :: l)
    | PWild => Err wild
    | POther d => Err (other d)
    end
  end.

(** ** [RpcMethod] *)
Record RpcMethod : Type := MkRpcMethod {
  rm_name : string;
  rm_blocking : bool;
  rm_params : list RpcFnArg;
  rm_param_kind : ParamKind;
  rm_returns : option RustType;
  rm_signature : TraitItemFn;
  rm_aliases : list string;
  rm_with_extensions : bool
}.
Definition is_object_kind (k : ParamKind) : bool := match k with PkObject => true | _ => false end.
Definition object_params_error : MacroError :=
  SynError "param_kind = object can only be used with exactly one parameter".
(** The attributes of the function go, and the [argument] ones of its inputs. *)
Definition clear_argument (a : FnArg) : FnArg :=
  match a with
  | FaTyped (PIdent name) ty attrs => FaTyped (PIdent name) ty (filter (λ a, at_path a ≠ "argument") attrs)
  | a => a
  end.
Definition clear_attrs (f : TraitItemFn) : TraitItemFn :=
  MkTraitItemFn [] (fn_ident f) (fn_async f) (clear_argument <$> fn_inputs f) (fn_output f).

Definition method_from_item (attr : Attribute) (method : TraitItemFn) : Result MacroError RpcMethod :=
  meta ← AttributeMeta.parse attr;
  r ← AttributeMeta.retain ["aliases"; "blocking"; "name"; "param_kind"; "with_extensions"] meta;
  match r with
  | [aliases; blocking; name; param_kind; with_extensions] =>
    aliases ← parse_aliases aliases;
    blocking ← optional Argument.flag blocking;
    name ← map_err missing_argument name;
    name ← Argument.string name;
    param_kind ← parse_param_kind param_kind;
    with_extensions ← optional Argument.flag with_extensions;
    let blocking := bool_decide (is_Some blocking) in
    if blocking && fn_async method then Err (SynError "Blocking method must be synchronous")
    else
      params ← fn_params (SynError "Method argument names must be valid Rust identifiers; got `_` instead")
                 (λ d, SynError ("Unexpected method signature input; got " +:+ d +:+ " ")) (fn_inputs method);
      if is_object_kind param_kind && negb (bool_decide (length params = 1)) then Err object_params_error
      else Ok (MkRpcMethod name blocking params param_kind (fn_output method) (clear_attrs method) aliases
                 (bool_decide (is_Some with_extensions)))
  | _ => Err (MacroPanic "")
  end.

(** ** [RpcSubscription] *)
Record RpcSubscription : Type := MkRpcSubscription {
  rs_name : string;
  rs_notif_name_override : option string;
  rs_unsubscribe : string;
  rs_params : list RpcFnArg;
  rs_param_kind : ParamKind;
  rs_item : RustType;
  rs_signature : TraitItemFn;
  rs_aliases : list string;
  rs_unsubscribe_aliases : list string;
  rs_with_extensions : bool
}.
Fixpoint strip_prefix (prefix s : string) : option string :=
  match prefix, s with
  | EmptyString, _ => Some s
  | String a prefix, String b s => if decide (a = b) then strip_prefix prefix s else None
  | String _ _, EmptyString => None
  end.
Definition build_unsubscribe_method (method : string) : option string :=
  (λ s, "unsubscribe" +:+ s) <$> strip_prefix "subscribe" method.

Definition subscription_from_item (attr : Attribute) (sub : TraitItemFn) : Result MacroError RpcSubscription :=
  meta ← AttributeMeta.parse attr;
  r ← AttributeMeta.retain ["aliases"; "item"; "name"; "param_kind"; "unsubscribe"; "unsubscribe_aliases";
                            "with_extensions"] meta;
  match r with
  | [aliases; item; name; param_kind; unsubscribe; unsubscribe_aliases; with_extensions] =>
    aliases ← parse_aliases aliases;
    name ← map_err missing_argument name;
    '(name, notif_name_override) ← Argument.value name_mapping_parse name;
    item ← map_err missing_argument item;
    item ← Argument.value parse_type item;
    param_kind ← parse_param_kind param_kind;
    unsubscribe_aliases ← parse_aliases unsubscribe_aliases;
    with_extensions ← optional Argument.flag with_extensions;
    unsub ← parse_subscribe unsubscribe;
    unsubscribe ← match unsub with
                  | Some unsub => Ok unsub
                  | None => ok_or (build_unsubscribe_method name)
                      (MacroPanic ("Could not generate the unsubscribe method with name '" +:+ name +:+
                         "'. You need to provide the name manually using the `unsubscribe` attribute in your RPC API definition"))
                  end;
    params ← fn_params (MacroPanic "Identifier in signature must be an ident")
               (λ _, MacroPanic "Identifier in signature must be an ident") (fn_inputs sub);
    if is_object_kind param_kind && negb (bool_decide (length params = 1)) then Err object_params_error
    else Ok (MkRpcSubscription name notif_name_override unsubscribe params param_kind item (clear_attrs sub)
               aliases unsubscribe_aliases (bool_decide (is_Some with_extensions)))
  | _ => Err (MacroPanic "")
  end.

(** ** [RpcDescription] *)
Record RpcDescription : Type := MkRpcDescription {
  rd_needs_server : bool;
  rd_needs_client : bool;
  rd_namespace : option string;
  rd_namespace_separator : option string;
  rd_trait : string;
  rd_methods : list RpcMethod;
  rd_subscriptions : list RpcSubscription
}.
Definition has_receiver (f : TraitItemFn) : bool :=
  match fn_inputs f with FaReceiver :: _ => true | _ => false end.

(** One item of the trait. *)
Definition entry (item : TraitItem) : Result MacroError (RpcMethod + RpcSubscription) :=
  match item with
  | TiOther => Err (SynError "Only methods allowed in RPC traits")
  | TiFn f =>
    if negb (has_receiver f) then Err (SynError "First argument of the trait must be '&self'")
    else
      match find_attr (fn_attrs f) "method", find_attr (fn_attrs f) "subscription" with
      | Some attr, None => inl <$> method_from_item attr f
      | Some attr, Some _ =>
        _ ← method_from_item attr f;
        Err (SynError "Element cannot be both subscription and method at the same time")
      | None, Some attr => inr <$> subscription_from_item attr f
      | None, None => Err (SynError "Methods must have either 'method' or 'subscription' attribute")
      end
  end.
Fixpoint entries (items : list TraitItem) : Result MacroError (list RpcMethod * list RpcSubscription) :=
  match items with
  | [] => Ok ([], [])
  | item :: items =>
    e ← entry item;
    '(methods, subscriptions) ← entries items;
    Ok match e with
       | inl m => (m :: methods, subscriptions)
       | inr s => (methods, s :: subscriptions)
       end
  end.

(** [find_jsonrpsee_client_crate] and its companion found the crates. *)
Context (client_path server_path : bool).
Definition description_from_item (attr : Attribute) (item : ItemTrait) : Result MacroError RpcDescription :=
  meta ← AttributeMeta.parse attr;
  r ← AttributeMeta.retain ["client"; "server"; "namespace"; "namespace_separator"; "client_bounds"; "server_bounds"] meta;
  match r with
  | [client; server; namespace; namespace_separator; client_bounds; server_bounds] =>
    needs_server ← optional Argument.flag server;
    needs_client ← optional Argument.flag client;
    namespace ← optional Argument.string namespace;
    namespace_separator ← optional Argument.string namespace_separator;
    client_bounds ← optional (Argument.group parse_bound) client_bounds;
    server_bounds ← optional (Argument.group parse_bound) server_bounds;
    let needs_server := bool_decide (is_Some needs_server) in
    let needs_client := bool_decide (is_Some needs_client) in
    if negb needs_server && negb needs_client then
      Err (SynError "Either 'server' or 'client' attribute must be applied")
    else if bool_decide (is_Some client_bounds) && negb needs_client then
      Err (SynError "Attribute 'client' must be specified with 'client_bounds'")
    else if bool_decide (is_Some server_bounds) && negb needs_server then
      Err (SynError "Attribute 'server' must be specified with 'server_bounds'")
    else if needs_client && negb client_path then Err (SynError "Unable to locate 'jsonrpsee' client dependency")
    else if needs_server && negb server_path then Err (SynError "Unable to locate 'jsonrpsee' server dependency")
    else
      '(methods, subscriptions) ← entries (tr_items item);
      match methods, subscriptions with
      | [], [] => Err (SynError "RPC cannot be empty")
      | _, _ => Ok (MkRpcDescription needs_server needs_client namespace namespace_separator (tr_ident item)
                      methods subscriptions)
      end
  | _ => Err (MacroPanic "")
  end.
Definition rpc_identifier (d : RpcDescription) (method : string) : string :=
  match rd_namespace d with
  | Some ns => ns +:+ default "_" (rd_namespace_separator d) +:+ method
  | None => method
  end.
End Trait.

(** ** What a description that passed the checks looks like *)
Section Checked.
Context {S : SynLib}.

Definition method_ok (m : RpcMethod) : Prop :=
  (rm_param_kind m = PkObject → length (rm_params m) = 1) ∧
  (rm_blocking m = true → fn_async (rm_signature m) = false) ∧ fn_attrs (rm_signature m) = [].
Definition subscription_ok (s : RpcSubscription) : Prop :=
  (rs_param_kind s = PkObject → length (rs_params s) = 1) ∧ fn_attrs (rs_signature s) = [].

Lemma object_kind_one {k} {l : list RpcFnArg} :
  is_object_kind k && negb (bool_decide (length l = 1)) = false → k = PkObject → length l = 1.
Proof. intros H ->. cbn in H. by destruct (bool_decide_reflect (length l = 1)). Qed.
Lemma method_from_item_ok attr f m : method_from_item attr f = Ok m → method_ok m.
Proof.
  unfold method_from_item, mbind, result_bind. intros H.
  repeat (case_match; try done); simplify_eq/=; split_and!; cbn; try done.
  - by apply object_kind_one.
  - intros Hb. rewrite Hb in *. by destruct (fn_async f).
Qed.
Lemma subscription_from_item_ok attr f s : subscription_from_item attr f = Ok s → subscription_ok s.
Proof.
  unfold subscription_from_item, mbind, result_bind. intros H.
  repeat (case_match; try done); simplify_eq/=; split; cbn; try done; by apply object_kind_one.
Qed.
Lemma entries_ok items ms ss : entries items = Ok (ms, ss) →
  Forall method_ok ms ∧ Forall subscription_ok ss ∧ length items = length ms + length ss.
Proof.
  revert ms ss. induction items as [|item items IH]; cbn; [by intros ? ? [= <- <-]|].
  unfold mbind, result_bind. intros ms ss H. destruct (entry item) as [e|] eqn:He; [|done].
  destruct (entries items) as [[ms0 ss0]|]; [|done]. destruct (IH _ _ eq_refl) as (H1 & H2 & H3).
  assert (match e with inl m => method_ok m | inr s => subscription_ok s end) as Hok.
  { unfold entry, mbind, result_bind, fmap, result_fmap in He. repeat (case_match; try done); simplify_eq/=;
      [by eapply method_from_item_ok|by eapply subscription_from_item_ok]. }
  destruct e; simplify_eq; split_and!; eauto; cbn; lia.
Qed.

(** [retain] takes every argument to the place of its label. *)
Lemma position_lookup label allowed i : AttributeMeta.position label allowed = Some i → allowed !! i = Some label.
Proof.
  revert i. induction allowed as [|a l IH]; intros i; cbn; [done|].
  case_decide; [by intros [= <-]; subst|]. destruct (AttributeMeta.position label l); [|done]. intros [= <-]. by apply IH.
Qed.
Lemma position_None label allowed : AttributeMeta.position label allowed = None ↔ label ∉ allowed.
Proof.
  induction allowed as [|a l IH]; cbn; [split; [intros _; apply not_elem_of_nil|done]|].
  rewrite not_elem_of_cons. case_decide; [split; [done|naive_solver]|].
  destruct (AttributeMeta.position label l); cbn; naive_solver.
Qed.
Definition slot (args : list Argument) (name : string) : Result MissingArgument Argument :=
  match list_find (λ a, arg_label a = name) args with
  | Some (_, a) => Ok a
  | None => Err (MkMissingArgument name)
  end.
Lemma slot_cons a args name :
  slot (a :: args) name = if decide (arg_label a = name) then Ok a else slot args name.
Proof. unfold slot. cbn. case_decide; [done|]. by destruct (list_find _ args) as [[]|]. Qed.

Lemma slot_app done a name : arg_label a ∉ arg_label <$> done →
  slot (done ++ [a]) name = if decide (arg_label a = name) then Ok a else slot done name.
Proof.
  induction done as [|b done IH]; cbn; [intros _; by rewrite slot_cons|].
  rewrite not_elem_of_cons. intros [Hb Hd]. rewrite !slot_cons, IH by done.
  repeat case_decide; congruence.
Qed.
Lemma slot_found args a : arg_label a ∈ arg_label <$> args → ∃ old, slot args (arg_label a) = Ok old.
Proof.
  induction args as [|b args IH]; cbn; [by intros ?%elem_of_nil|]. rewrite elem_of_cons, slot_cons.
  case_decide; [eauto|]. intros [E|Hin]; [congruence|auto].
Qed.
Lemma slot_missing args name : name ∉ arg_label <$> args → slot args name = Err (MkMissingArgument name).
Proof.
  induction args as [|b args IH]; [done|]. cbn. rewrite not_elem_of_cons, slot_cons. intros [H1 H2].
  rewrite decide_False by congruence. auto.
Qed.
Lemma retain_loop_spec allowed args seen : NoDup allowed → NoDup (arg_label <$> seen) →
  match AttributeMeta.retain_loop allowed args (slot seen <$> allowed) with
  | Ok result => result = slot (seen ++ args) <$> allowed ∧ NoDup (arg_label <$> seen ++ args) ∧
                 Forall (λ a, arg_label a ∈ allowed) args
  | Err e => (∃ msg, e = SynError msg) ∧
             (¬ NoDup (arg_label <$> seen ++ args) ∨ Exists (λ a, arg_label a ∉ allowed) args)
  end.
Proof.
  intros Hnd. revert seen. induction args as [|a args IH]; intros seen Hs; cbn [AttributeMeta.retain_loop].
  { rewrite app_nil_r. split_and!; [done..|constructor]. }
  destruct (AttributeMeta.position (arg_label a) allowed) as [i|] eqn:Hp.
  2: { split; [eauto|]. right. apply Exists_cons. left. by apply position_None. }
  apply position_lookup in Hp. rewrite list_lookup_fmap, Hp. cbn.
  destruct (decide (arg_label a ∈ arg_label <$> seen)) as [Hin|Hni].
  - destruct (slot_found _ _ Hin) as [old ->]. split; [eauto|]. left. rewrite fmap_app. cbn. intros Hn.
    apply NoDup_app in Hn as (_ & Hd & _). apply (Hd _ Hin). by left.
  - rewrite slot_missing by done.
    assert (<[i:=Ok a]> (slot seen <$> allowed) = slot (seen ++ [a]) <$> allowed) as ->.
    { apply list_eq. intros j. rewrite list_lookup_fmap. destruct (decide (i = j)) as [<-|Hij].
      - rewrite list_lookup_insert_eq by (rewrite length_fmap; by eapply lookup_lt_Some).
        rewrite Hp. cbn. by rewrite slot_app, decide_True.
      - rewrite list_lookup_insert_ne, list_lookup_fmap by done. destruct (allowed !! j) as [name|] eqn:Hj; [|done].
        cbn. rewrite slot_app, decide_False; [done| |done]. intros E. apply Hij, (NoDup_lookup allowed i j name); congruence. }
    specialize (IH (seen ++ [a])). rewrite <-app_assoc in IH. cbn [app] in IH.
    assert (NoDup (arg_label <$> seen ++ [a])) as Hs'.
    { rewrite fmap_app. apply NoDup_app. split_and!; [done| |apply NoDup_singleton].
      by intros x Hx ->%list_elem_of_singleton. }
    specialize (IH Hs'). destruct (AttributeMeta.retain_loop _ _ _).
    + destruct IH as (-> & H1 & H2). split_and!; [done..|]. constructor; [by eapply list_elem_of_lookup_2|done].
    + destruct IH as (H1 & [H2|H2]); (split; [done|]); [by left|]. right. by apply Exists_cons; right.
Qed.

(** An attribute gives the macro exactly its arguments, each at the place of
    its label and the others marked as missing; a label that occurs twice, or is
    not one of those allowed, is a compile error. *)
Theorem arguments_retained (allowed : list string) (self : AttributeMeta) : NoDup allowed → allowed ≠ [] →
  match AttributeMeta.retain allowed self with
  | Ok result => result = slot (am_arguments self) <$> allowed ∧ NoDup (arg_label <$> am_arguments self) ∧
                 Forall (λ a, arg_label a ∈ allowed) (am_arguments self)
  | Err e => (∃ msg, e = SynError msg) ∧
             (¬ NoDup (arg_label <$> am_arguments self) ∨ Exists (λ a, arg_label a ∉ allowed) (am_arguments self))
  end.
Proof.
  intros Hnd Hne. pose proof (retain_loop_spec allowed (am_arguments self) [] Hnd ltac:(constructor)) as H.
  assert ((λ name, Err (MkMissingArgument name)) <$> allowed = slot [] <$> allowed) as E by done.
  unfold AttributeMeta.retain. destruct allowed as [|x l]; [done|]. rewrite E. exact H.
Qed.

(** What a trait that the macro accepts looks like.  It asks for a server or a
    client, has at least one method or subscription, and every item of the trait
    is exactly one of them; an argument object is the only argument of its
    function, blocking methods are synchronous, and no attribute is left in the
    signatures that are generated.  Anything else is a compile error. *)
Theorem accepted_trait_checked (client_path server_path : bool) attr (item : ItemTrait) d :
  description_from_item client_path server_path attr item = Ok d →
  (rd_needs_server d = true ∨ rd_needs_client d = true) ∧
  (rd_needs_client d = true → client_path = true) ∧ (rd_needs_server d = true → server_path = true) ∧
  0 < length (tr_items item) ∧ length (tr_items item) = length (rd_methods d) + length (rd_subscriptions d) ∧
  Forall method_ok (rd_methods d) ∧ Forall subscription_ok (rd_subscriptions d).
Proof.
  unfold description_from_item, mbind, result_bind. intros H.
  repeat match type of H with context [match ?x with _ => _ end] =>
    lazymatch x with entries _ => fail | _ => destruct x eqn:?; try done end end.
  destruct (entries (tr_items item)) as [[ms ss]|] eqn:He; [|done].
  destruct (entries_ok _ _ _ He) as (Hm & Hs & Hn).
  assert (0 < length ms + length ss) as Hpos by (destruct ms, ss; cbn in *; try lia; done).
  assert (d = MkRpcDescription (bool_decide (is_Some t1)) (bool_decide (is_Some t2)) t3 t4 (tr_ident item) ms ss) as ->
    by (by destruct ms, ss; simplify_eq).
  cbn. rewrite Hn. split_and!; try done;
    by destruct (bool_decide (is_Some t1)), (bool_decide (is_Some t2)), client_path, server_path; auto.
Qed.
End Checked.

(** ** A trait, for the witnesses *)
Inductive RefTok : Type := RtIdent (s : string) | RtPunct (c : ascii) | RtLit (s : string) | RtGroup (delimiter : ascii) (content : list RefTok).
Fixpoint ref_terminated {T} (fuel : nat) (f : list RefTok → Result string (T * list RefTok)) (ts : list RefTok)
    : Result string (list T) :=
  match fuel, ts with
  | _, [] => Ok []
  | O, _ => Err "unexpected token"
  | Datatypes.S fuel, _ =>
    '(t, rest) ← f ts;
    match rest with
    | [] => Ok [t]
    | RtPunct "," :: rest => l ← ref_terminated fuel f rest; Ok (t :: l)
    | _ => Err "expected `,`"
    end
  end.
Definition ref_syn : SynLib := {|
  TokenTree := RefTok;
  parse_ident t := match t with RtIdent s => Some s | _ => None end;
  peek c ts := match ts with RtPunct c' :: _ => bool_decide (c = c') | _ => false end;
  parse_terminated T f ts := ref_terminated (length ts) f ts;
  peek_arrow ts := match ts with RtPunct "=" :: RtPunct ">" :: _ => true | _ => false end;
  parse_eq ts := match ts with RtPunct "=" :: rest => Ok rest | _ => Err "expected `=`" end;
  parse_arrow ts := match ts with RtPunct "=" :: RtPunct ">" :: rest => Ok rest | _ => Err "expected `=>`" end;
  parse_lit_str ts := match ts with RtLit s :: rest => Ok (s, rest) | _ => Err "expected string literal" end;
  parse_type ts := match ts with RtIdent s :: _ => Ok (TyPath [s], []) | _ => Err "expected a type" end;
  parse_bound ts := match ts with RtIdent _ :: rest => Ok ((), rest) | _ => Err "expected a bound" end;
  bracketed ts := match ts with RtGroup "[" l :: rest => Ok (l, rest) | _ => Err "expected square brackets" end;
  parenthesized ts := match ts with RtGroup "(" l :: rest => Ok (l, rest) | _ => Err "expected parentheses" end;
  parse2 T p ts := '(v, rest) ← p ts; match rest with [] => Ok v | _ => Err "unexpected token" end
|}.

Section Example.
#[local] Existing Instance ref_syn.

(** [#[rpc(server, client, namespace = "state")]] over a method and a
    subscription. *)
Definition comma : RefTok := RtPunct ",".
Definition assign (label : string) (value : list RefTok) : list RefTok := RtIdent label :: RtPunct "=" :: value.
Definition ex_attr : Attribute :=
  MkAttribute "rpc" ([RtIdent "server"; comma; RtIdent "client"; comma] ++ assign "namespace" [RtLit "state"]).
Definition ex_method_attr : Attribute :=
  MkAttribute "method" (assign "name" [RtLit "getKeys"] ++ [comma] ++ assign "aliases" [RtGroup "[" [RtLit "keys"]] ++
    [comma] ++ assign "param_kind" [RtIdent "map"]).
Definition ex_method_fn : TraitItemFn :=
  MkTraitItemFn [ex_method_attr] "storage_keys" true
    [FaReceiver; FaTyped (PIdent "start_key") (TyPath ["u64"]) [];
     FaTyped (PIdent "hash") (TyPath ["std"; "option"; "Option"]) []] (Some (TyPath ["Result"])).
Definition ex_sub_attr : Attribute :=
  MkAttribute "subscription" (assign "name" [RtLit "subscribeStorage"; RtPunct "="; RtPunct ">"; RtLit "storage"] ++
    [comma] ++ assign "item" [RtIdent "Vec"; RtPunct "<"; RtIdent "u8"; comma; RtIdent "A"; RtPunct ">"]).
Definition ex_sub_fn : TraitItemFn := MkTraitItemFn [ex_sub_attr] "subscribe_storage" false [FaReceiver] None.
Definition ex_trait : ItemTrait := MkItemTrait "Rpc" [TiFn ex_method_fn; TiFn ex_sub_fn].
Definition ex_description : RpcDescription :=
  MkRpcDescription true true (Some "state") None "Rpc"
    [MkRpcMethod "getKeys" false [MkRpcFnArg "start_key" None (TyPath ["u64"]);
                                  MkRpcFnArg "hash" None (TyPath ["std"; "option"; "Option"])] PkMap
       (Some (TyPath ["Result"])) (clear_attrs ex_method_fn) ["keys"] false]
    [MkRpcSubscription "subscribeStorage" (Some "storage") "unsubscribeStorage" [] PkArray (TyPath ["Vec"])
       (clear_attrs ex_sub_fn) [] [] false].
Example ex_accepted : description_from_item true true ex_attr ex_trait = Ok ex_description.
Proof. vm_compute. reflexivity. Qed.
Example ex_names : rpc_identifier ex_description <$> ["getKeys"; "unsubscribeStorage"] =
  ["state_getKeys"; "state_unsubscribeStorage"].
Proof. vm_compute. reflexivity. Qed.
Example ex_unknown_argument :
  description_from_item true true (MkAttribute "rpc" [RtIdent "sever"]) ex_trait =
  Err (SynError "Unknown argument `sever`, expected one of: `client`, `server`, `namespace`, `namespace_separator`, `client_bounds`, `server_bounds`").
Proof. vm_compute. reflexivity. Qed.

Lemma accepted_trait_checked_witness :
  length (tr_items ex_trait) = 2 ∧ Forall method_ok (rd_methods ex_description).
Proof.
  destruct (accepted_trait_checked true true ex_attr ex_trait ex_description) as (_ & _ & _ & _ & Hl & Hm & _);
    [vm_compute; reflexivity|]. split; [exact Hl|exact Hm].
Defined.
Lemma arguments_retained_witness :
  AttributeMeta.retain ["aliases"; "name"] (MkAttributeMeta "method" [MkArgument "name" [RtPunct "="; RtLit "getKeys"]]) =
    Ok [Err (MkMissingArgument "aliases"); Ok (MkArgument "name" [RtPunct "="; RtLit "getKeys"])].
Proof.
  pose proof (arguments_retained ["aliases"; "name"]
    (MkAttributeMeta "method" [MkArgument "name" [RtPunct "="; RtLit "getKeys"]])
    ltac:(by apply (bool_decide_unpack _); vm_compute) ltac:(discriminate)) as H.
  destruct (AttributeMeta.retain _ _) as [result|e] eqn:E; [|vm_compute in E; discriminate].
  destruct H as (-> & _ & _). vm_compute. reflexivity.
Defined.
End Example.
