(* ===== verification/MacroCode.v ===== *)
(** The [#[rpc]] macro, part two: what the code it generates does.

    [proc-macros/src/render_server.rs] and [render_client.rs] put together the
    text of a server trait, with [into_rpc] that registers its methods, and of a
    client.  The definitions say what these texts do when they run: how the
    parameters are decoded and encoded, and which registrations are made. *)
From stdpp Require Import base gmap strings list.
From Stdlib Require Import Ascii.
From S2P Require Import Prelude Serde RefJson Errors Params Wire ParamsBuilder ClientCore MethodResponse Subscription RpcModule ProcMacro.

(** ** Values of arguments

    A value of an [Option<T>] is an option of values; [V] are all the others. *)
Inductive ArgVal (V : Type) : Type := Plain (v : V) | Opt (o : option V).
Arguments Plain {V} _. Arguments Opt {V} _.

(** The leaf segment of the path is [Option]. *)
Fixpoint ends_in_option (it : list string) : bool :=
  match it with
  | [] => false
  | seg :: it => if decide (seg = "Option" ∧ it = []) then true else ends_in_option it
  end.
Definition is_option (ty : RustType) : bool :=
  match ty with TyPath segments => ends_in_option segments | TyOther _ => false end.

(** ** Decoding, in the server *)
Section Decode.
Context {J : SerdeJson} {S : SynLib} (debug : string → string) {V : Type}.
(** The user's types: [Deserialize] (of [T], for an [Option<T>]), and what serde
    puts for an absent field. *)
Context (de : RustType → string → Result string V) (missing : RustType → option V).
(** The crate [heck]. *)
Context (to_snake_case to_lower_camel_case : string → string).

Definition de_arg (arg : RpcFnArg) (raw : string) : Result string (ArgVal V) :=
  if is_option (ra_ty arg) then Opt <$> de_opt (de (ra_ty arg)) raw else Plain <$> de (ra_ty arg) raw.
Definition missing_arg (arg : RpcFnArg) : option (ArgVal V) :=
  if is_option (ra_ty arg) then Some (Opt None) else Plain <$> missing (ra_ty arg).

Fixpoint decode_fields (args : list RpcFnArg) (seq : ParamsSequence) : Result ErrorObject (list (ArgVal V)) :=
  match args with
  | [] => Ok []
  | arg :: args =>
    let '(r, seq) :=
      if is_option (ra_ty arg)
      then let '(r, seq) := optional_next debug (de (ra_ty arg)) seq in (Opt <$> r, seq)
      else let '(r, seq) := next debug (de (ra_ty arg)) seq in (Plain <$> r, seq) in
    v ← r;
    vs ← decode_fields args seq;
    Ok (v :: vs)
  end.
Definition decode_array (args : list RpcFnArg) (params : Params) : Result ErrorObject (list (ArgVal V)) :=
  decode_fields args (sequence params).

(** [ParamsObject]: every field has its name and two aliases; the derived code
    takes the first field that knows the key. *)
Definition field_keys (arg : RpcFnArg) : list string :=
  let name := arg_name arg in [name; to_snake_case name; to_lower_camel_case name].
Fixpoint field_index (k : string) (args : list RpcFnArg) : option nat :=
  match args with
  | [] => None
  | arg :: args => if decide (k ∈ field_keys arg) then Some 0 else Datatypes.S <$> field_index k args
  end.
Fixpoint collect_params (args : list RpcFnArg) (members : list (string * string)) (found : gmap nat string)
    : option (gmap nat string) :=
  match members with
  | [] => Some found
  | (k, raw) :: members =>
    match field_index k args with
    | Some i => if vacant found i then collect_params args members (<[i := raw]> found) else None
    | None => collect_params args members found
    end
  end.
Fixpoint fields_of (i : nat) (args : list RpcFnArg) (found : gmap nat string) : option (list (ArgVal V)) :=
  match args with
  | [] => Some []
  | arg :: args =>
    v ← match found !! i with Some raw => result_ok (de_arg arg raw) | None => missing_arg arg end;
    vs ← fields_of (Datatypes.S i) args found;
    Some (v :: vs)
  end.
(** A text that starts with a brace is an object or no document at all. *)
Definition de_params_object (args : list RpcFnArg) (raw : string) : Result string (list (ArgVal V)) :=
  ok_or (match json_read raw with
         | Some (NObj members) => found ← collect_params args members ∅; fields_of 0 args found
         | _ => None
         end) (json_errmsg raw).
Definition decode_map (args : list RpcFnArg) (params : Params) : Result ErrorObject (list (ArgVal V)) :=
  parse (de_params_object args) params.

(** [render_params_decoding]. *)
Definition decode_params (args : list RpcFnArg) (kind : ParamKind) (params : Params)
    : Result ErrorObject (list (ArgVal V)) :=
  match args with
  | [] => Ok []
  | _ =>
    match kind with
    | PkObject =>
      match args with
      | [arg] => (λ v, [v]) <$> parse (de_arg arg) params
      | _ => Ok []
      end
    | _ => if is_object params then decode_map args params else decode_array args params
    end
  end.
End Decode.

(** ** Encoding, in the client *)
Section Encode.
Context {J : SerdeJson} {S : SynLib} {V : Type} (ser : V → Ser).

Definition ser_arg (v : ArgVal V) : Ser :=
  match v with Plain v => ser v | Opt (Some v) => ser v | Opt None => SerNull end.

(** [panic_fail_serialize]. *)
Definition or_panic {A} (r : Result unit A) : Result Panicked A := map_err (λ _, Panic) r.
Fixpoint insert_args (args : list (RpcFnArg * ArgVal V)) (p : ParamsBuilder) : Result Panicked ParamsBuilder :=
  match args with
  | [] => Ok p
  | (_, v) :: args =>
    let '(r, p) := ArrayParams.insert (ser_arg v) p in _ ← or_panic r; insert_args args p
  end.
Fixpoint insert_named_args (args : list (RpcFnArg * ArgVal V)) (p : ParamsBuilder) : Result Panicked ParamsBuilder :=
  match args with
  | [] => Ok p
  | (arg, v) :: args =>
    let '(r, p) := ObjectParams.insert (arg_name arg) (ser_arg v) p in _ ← or_panic r; insert_named_args args p
  end.
(** The parameters of the request, as [to_rpc_params] hands them on. *)
Definition encode_params (kind : ParamKind) (args : list (RpcFnArg * ArgVal V)) : Result Panicked (option string) :=
  match args with
  | [] => ArrayParams.to_rpc_params ArrayParams.new
  | _ =>
    match kind with
    | PkObject =>
      match args with
      | [(_, v)] =>
        raw ← or_panic (ok_or (json_write (ser_arg v)) ());
        or_panic (raw_to_rpc_params raw)
      | _ => ArrayParams.to_rpc_params ArrayParams.new
      end
    | PkMap => p ← insert_named_args args ObjectParams.new; ObjectParams.to_rpc_params p
    | PkArray => p ← insert_args args ArrayParams.new; ArrayParams.to_rpc_params p
    end
  end.

(** A client cannot be generated for a parameter with the name of the builder. *)
Definition ILLEGAL_PARAM_NAME : string := "__RpcParams__".
Definition legal_params (args : list RpcFnArg) : bool :=
  forallb (λ arg, negb (bool_decide (ra_arg_pat arg = ILLEGAL_PARAM_NAME))) args.

(** [render_method] and [render_sub]: what the generated functions call. *)
Inductive ClientCall : Type :=
| CcRequest (method : string) (params : option string)
| CcNotification (method : string) (params : option string)
| CcSubscribe (method : string) (params : option string) (unsubscribe_method : string).
Definition client_method (d : RpcDescription) (m : RpcMethod) (vals : list (ArgVal V)) : Result Panicked ClientCall :=
  params ← encode_params (rm_param_kind m) (zip (rm_params m) vals);
  let name := rpc_identifier d (rm_name m) in
  Ok match rm_returns m with Some _ => CcRequest name params | None => CcNotification name params end.
Definition client_subscription (d : RpcDescription) (s : RpcSubscription) (vals : list (ArgVal V)) : Result Panicked ClientCall :=
  params ← encode_params (rs_param_kind s) (zip (rs_params s) vals);
  Ok (CcSubscribe (rpc_identifier d (rs_name s)) params (rpc_identifier d (rs_unsubscribe s))).
End Encode.

(** ** [into_rpc] *)
Section IntoRpc.
Context {J : SerdeJson} {X : HttpExtensions} {XC : ExtKey ConnectionId} {S : SynLib} {U R V : Type} `{IntoResponse R}.
Context (debug : string → string) (de : RustType → string → Result string V) (missing : RustType → option V).
Context (to_snake_case to_lower_camel_case : string → string).

(** The implementation of the trait: its methods by their identifiers; the
    extensions are passed to those that ask for them.  Of a subscription it is
    what runs before the first [await]. *)
Record TraitImpl : Type := MkTraitImpl {
  ti_call : string → option Extensions → list (ArgVal V) → SM (W U) Panicked R;
  ti_subscribe : string → PendingSubscriptionSink → option Extensions → list (ArgVal V) → SM (W U) Panicked unit
}.
(** [tokio::spawn(pending.reject(e))]: what the runtime has done when the
    callback returns. *)
Context (impl : TraitImpl) (spawn_reject : PendingSubscriptionSink → ErrorObject → SM (W U) Panicked unit).
Implicit Types rpc : Methods U.

Definition decode := decode_params debug de missing to_snake_case to_lower_camel_case.
Definition method_handler (m : RpcMethod) : UserFn U (MrPayload Ser) := λ params ext,
  match decode (rm_params m) (rm_param_kind m) params with
  | Err e => mret (MrPayload.error e)
  | Ok args =>
    r ← ti_call impl (fn_ident (rm_signature m)) (if rm_with_extensions m then Some ext else None) args;
    mret (into_response r)
  end.
Definition subscription_handler (s : RpcSubscription) (pending : PendingSubscriptionSink) : UserFn U unit := λ params ext,
  match decode (rs_params s) (rs_param_kind s) params with
  | Err e => spawn_reject pending e
  | Ok args =>
    ti_subscribe impl (fn_ident (rs_signature s)) pending (if rs_with_extensions s then Some ext else None) args
  end.

(** The registrations change the module in place. *)
Definition in_place (r : Result RegisterMethodError (Methods U)) rpc : Result RegisterMethodError unit * Methods U :=
  match r with Ok rpc => (Ok (), rpc) | Err e => (Err e, rpc) end.
(** [handle_register_result]. *)
Definition handle_register_result (debug_assertions : bool) (res : Result RegisterMethodError unit * Methods U)
    : Result Panicked (Methods U) :=
  if debug_assertions && negb (is_ok (fst res)) then Err Panic else Ok (snd res).
Definition register_one (d : RpcDescription) (m : RpcMethod) rpc : Result RegisterMethodError unit * Methods U :=
  let name := rpc_identifier d (rm_name m) in
  in_place (if fn_async (rm_signature m) then RpcModule.register_async_method name (method_handler m) rpc
            else if rm_blocking m then RpcModule.register_blocking_method name (method_handler m) rpc
            else RpcModule.register_method name (method_handler m) rpc) rpc.
Definition notif_name (d : RpcDescription) (s : RpcSubscription) : string :=
  rpc_identifier d (default (rs_name s) (rs_notif_name_override s)).
(** [subscribers] is the handle of the table the registration makes. *)
Definition register_sub (d : RpcDescription) (subscribers : nat) (s : RpcSubscription) rpc
    : Result RegisterMethodError unit * Methods U :=
  (if fn_async (rs_signature s) then RpcModule.register_subscription else RpcModule.register_subscription_raw)
    (rpc_identifier d (rs_name s)) (notif_name d s) (rpc_identifier d (rs_unsubscribe s))
    subscribers (subscription_handler s) rpc.

Fixpoint register_methods (dbg : bool) (d : RpcDescription) (ms : list RpcMethod) rpc : Result Panicked (Methods U) :=
  match ms with
  | [] => Ok rpc
  | m :: ms => rpc ← handle_register_result dbg (register_one d m rpc); register_methods dbg d ms rpc
  end.
Fixpoint register_subs (dbg : bool) (d : RpcDescription) (tbl : nat) (ss : list RpcSubscription) rpc : Result Panicked (Methods U) :=
  match ss with
  | [] => Ok rpc
  | s :: ss => rpc ← handle_register_result dbg (register_sub d tbl s rpc); register_subs dbg d (Datatypes.S tbl) ss rpc
  end.
Fixpoint register_aliases (dbg : bool) (aliases : list (string * string)) rpc : Result Panicked (Methods U) :=
  match aliases with
  | [] => Ok rpc
  | (alias, name) :: aliases =>
    rpc ← handle_register_result dbg (in_place (RpcModule.register_alias alias name rpc) rpc); register_aliases dbg aliases rpc
  end.
Definition method_aliases (d : RpcDescription) : list (string * string) :=
  rd_methods d ≫= λ m, (λ alias, (alias, rpc_identifier d (rm_name m))) <$> rm_aliases m.
Definition subscription_aliases (d : RpcDescription) : list (string * string) :=
  rd_subscriptions d ≫= λ s,
    ((λ alias, (alias, rpc_identifier d (rs_name s))) <$> rs_aliases s) ++
    ((λ alias, (alias, rpc_identifier d (rs_unsubscribe s))) <$> rs_unsubscribe_aliases s).

(** [check_name]: the names so far, and those of the [compile_error!]s. *)
Definition check_name (st : gset string * list string) (name : string) : gset string * list string :=
  let '(registered, errors) := st in
  if decide (name ∈ registered) then (registered, errors ++ [name]) else ({[name]} ∪ registered, errors).
Definition subscription_names (d : RpcDescription) (s : RpcSubscription) : list string :=
  [rpc_identifier d (rs_name s); rpc_identifier d (rs_unsubscribe s)] ++
  match rs_notif_name_override s with Some m => [rpc_identifier d m] | None => [] end.
Definition checked_names (d : RpcDescription) : list string :=
  ((λ m, rpc_identifier d (rm_name m)) <$> rd_methods d) ++ (rd_subscriptions d ≫= subscription_names d) ++
  (method_aliases d).*1 ++ (subscription_aliases d).*1.
Definition compile_errors (d : RpcDescription) : list string :=
  snd (foldl check_name (∅, []) (checked_names d)).

Definition into_rpc (dbg : bool) (d : RpcDescription) (tbl : nat) : Result Panicked (Methods U) :=
  rpc ← register_methods dbg d (rd_methods d) Methods.new;
  rpc ← register_subs dbg d tbl (rd_subscriptions d) rpc;
  rpc ← register_aliases dbg (method_aliases d) rpc;
  register_aliases dbg (subscription_aliases d) rpc.
End IntoRpc.

(** ** The names of a trait do not clash *)
Lemma foldl_check_name names reg errs :
  let '(reg', errs') := foldl check_name (reg, errs) names in
  errs' = errs ↔ NoDup names ∧ Forall (λ n, n ∉ reg) names.
Proof.
  assert (∀ names reg errs, ∃ l, snd (foldl check_name (reg, errs) names) = errs ++ l) as Hext.
  { intros ns. induction ns as [|n l IH]; intros r e; cbn; [exists []; by rewrite app_nil_r|].
    case_decide; [|apply IH]. destruct (IH r (e ++ [n])) as [k ->]. exists (n :: k). by rewrite <-app_assoc. }
  revert reg. induction names as [|n names IH]; intros reg; cbn; [split; [intros _; by repeat constructor|done]|].
  case_decide as Hin.
  - destruct (Hext names reg (errs ++ [n])) as [k Hk]. destruct (foldl _ _ names) as [reg' errs']. cbn in Hk. subst errs'.
    split; [|by intros [_ Hf%Forall_inv]].
    rewrite <-app_assoc. intros E. exfalso. assert (n :: k = []) by (apply (app_inv_head errs); by rewrite app_nil_r). done.
  - specialize (IH ({[n]} ∪ reg)). destruct (foldl _ _ names) as [reg' errs']. rewrite IH, NoDup_cons, Forall_cons, !Forall_forall.
    set_solver.
Qed.
Lemma compile_errors_nil `{SynLib} (d : RpcDescription) : compile_errors d = [] ↔ NoDup (checked_names d).
Proof.
  unfold compile_errors. pose proof (foldl_check_name (checked_names d) ∅ []) as Hf.
  destruct (foldl _ _ _) as [reg errs]. cbn. rewrite Hf. split; [by intros []|]. intros ?. split; [done|].
  apply Forall_forall. set_solver.
Qed.

Section Registered.
Context {J : SerdeJson} {X : HttpExtensions} {XC : ExtKey ConnectionId} {S : SynLib} {U R V : Type} `{IntoResponse R}.
Context (debug : string → string) (de : RustType → string → Result string V) (missing : RustType → option V).
Context (to_snake_case to_lower_camel_case : string → string).
Context (impl : TraitImpl (U := U) (R := R) (V := V))
  (spawn_reject : PendingSubscriptionSink → ErrorObject → SM (W U) Panicked unit).
Implicit Types rpc : Methods U.
Notation method_handler := (method_handler debug de missing to_snake_case to_lower_camel_case impl).
Notation subscription_handler := (subscription_handler debug de missing to_snake_case to_lower_camel_case impl spawn_reject).
Notation into_rpc := (into_rpc debug de missing to_snake_case to_lower_camel_case impl spawn_reject).
Notation register_one := (register_one debug de missing to_snake_case to_lower_camel_case impl).
Notation register_sub := (register_sub debug de missing to_snake_case to_lower_camel_case impl spawn_reject).
Notation register_methods := (register_methods debug de missing to_snake_case to_lower_camel_case impl).
Notation register_subs := (register_subs debug de missing to_snake_case to_lower_camel_case impl spawn_reject).

(** What is registered for a method and for a subscription. *)
Definition method_callback (m : RpcMethod) : MethodCallback U :=
  if fn_async (rm_signature m) then RpcModule.async_callback (method_handler m)
  else if rm_blocking m then RpcModule.blocking_callback (method_handler m)
  else RpcModule.sync_callback (method_handler m).
Definition sub_callback (d : RpcDescription) (tbl : nat) (s : RpcSubscription) : MethodCallback U :=
  McSubscription ((if fn_async (rs_signature s) then RpcModule.subscribe_callback else RpcModule.subscribe_raw_callback)
    (notif_name d s) tbl (subscription_handler s)).
Definition unsub_callback (tbl : nat) : MethodCallback U := McUnsubscription (RpcModule.unsubscribe_callback tbl).

Fixpoint add (ps : list (string * MethodCallback U)) rpc : Methods U :=
  match ps with
  | [] => rpc
  | p :: ps => add ps (Methods.set_callbacks (<[p.1 := p.2]> (m_callbacks rpc)) rpc)
  end.
Lemma add_app ps qs rpc : add (ps ++ qs) rpc = add qs (add ps rpc).
Proof. revert rpc. by induction ps; intros; cbn. Qed.
Lemma add_other ps rpc n : n ∉ ps.*1 → Methods.method n (add ps rpc) = Methods.method n rpc.
Proof.
  revert rpc. induction ps as [|p ps IH]; intros rpc; cbn; [done|]. rewrite not_elem_of_cons. intros [Hn Hni].
  rewrite IH by done. unfold Methods.method. cbn. by rewrite lookup_insert_ne.
Qed.
Lemma add_in ps rpc n c : NoDup ps.*1 → (n, c) ∈ ps → Methods.method n (add ps rpc) = Some c.
Proof.
  revert rpc. induction ps as [|p ps IH]; intros rpc; cbn; [by intros _ ?%elem_of_nil|].
  rewrite NoDup_cons, elem_of_cons. intros [Hp Hnd] [<-|Hin]; [|by apply IH].
  rewrite add_other by done. apply lookup_insert_eq.
Qed.
Lemma insert_fresh n c rpc : Methods.method n rpc = None → Methods.verify_and_insert n c rpc = Ok (add [(n, c)] rpc).
Proof. unfold Methods.method, Methods.verify_and_insert. by intros ->. Qed.

Lemma register_one_fresh d m rpc : Methods.method (rpc_identifier d (rm_name m)) rpc = None →
  register_one d m rpc = (Ok (), add [(rpc_identifier d (rm_name m), method_callback m)] rpc).
Proof.
  intros Hn. unfold MacroCode.register_one, method_callback, RpcModule.register_async_method,
    RpcModule.register_blocking_method, RpcModule.register_method.
  repeat case_match; by rewrite insert_fresh.
Qed.
Lemma register_sub_fresh d tbl s rpc :
  let sub := rpc_identifier d (rs_name s) in let unsub := rpc_identifier d (rs_unsubscribe s) in
  sub ≠ unsub → Methods.method sub rpc = None → Methods.method unsub rpc = None →
  register_sub d tbl s rpc = (Ok (), add [(sub, sub_callback d tbl s); (unsub, unsub_callback tbl)] rpc).
Proof.
  intros sub unsub Hne Hs Hu. unfold MacroCode.register_sub, sub_callback. fold sub unsub.
  assert (∀ cb, RpcModule.register_subscription_with cb sub (notif_name d s) unsub tbl (subscription_handler s) rpc =
    (Ok (), add [(sub, McSubscription (cb (notif_name d s) tbl (subscription_handler s))); (unsub, unsub_callback tbl)] rpc)) as E.
  { intros cb. unfold RpcModule.register_subscription_with, RpcModule.verify_and_register_unsubscribe,
      Methods.verify_method_name, vacant. rewrite decide_False by done. unfold Methods.method in Hs, Hu. rewrite Hs, Hu. cbn.
    rewrite insert_fresh; [|unfold Methods.method; cbn; by rewrite lookup_insert_ne].
    unfold Methods.set_callbacks. cbn. by rewrite insert_insert_ne. }
  destruct (fn_async _); [unfold RpcModule.register_subscription|unfold RpcModule.register_subscription_raw]; by rewrite E.
Qed.

(** The stages of [into_rpc], on names that are free. *)
Definition free (names : list string) rpc : Prop := Forall (λ n, Methods.method n rpc = None) names.
Lemma free_add ps names rpc : free names rpc → NoDup (ps.*1 ++ names) → free names (add ps rpc).
Proof.
  intros Hf (_ & Hd & _)%NoDup_app. apply Forall_forall. intros n Hn. rewrite add_other; [by apply (proj1 (Forall_forall _ _) Hf)|].
  intros Hin. by apply (Hd n).
Qed.
Definition method_pairs d (ms : list RpcMethod) := (λ m, (rpc_identifier d (rm_name m), method_callback m)) <$> ms.
Lemma register_methods_free dbg d ms rpc :
  NoDup (method_pairs d ms).*1 → free (method_pairs d ms).*1 rpc →
  register_methods dbg d ms rpc = Ok (add (method_pairs d ms) rpc).
Proof.
  revert rpc. induction ms as [|m ms IH]; intros rpc; cbn; [done|]. intros Hnd [Hm Hf]%Forall_cons.
  rewrite register_one_fresh by done. unfold handle_register_result. cbn [fst snd is_ok]. rewrite andb_false_r. cbn.
  apply IH; [by apply NoDup_cons in Hnd as []|]. apply (free_add [(rpc_identifier d (rm_name m), method_callback m)] (method_pairs d ms).*1 rpc Hf Hnd).
Qed.
Fixpoint sub_pairs d (tbl : nat) (ss : list RpcSubscription) : list (string * MethodCallback U) :=
  match ss with
  | [] => []
  | s :: ss => (rpc_identifier d (rs_name s), sub_callback d tbl s) ::
               (rpc_identifier d (rs_unsubscribe s), unsub_callback tbl) :: sub_pairs d (Datatypes.S tbl) ss
  end.
Lemma register_subs_free dbg d tbl ss rpc :
  NoDup (sub_pairs d tbl ss).*1 → free (sub_pairs d tbl ss).*1 rpc →
  register_subs dbg d tbl ss rpc = Ok (add (sub_pairs d tbl ss) rpc).
Proof.
  revert tbl rpc. induction ss as [|s ss IH]; intros tbl rpc; cbn; [done|]. intros Hnd [Hs [Hu Hf]%Forall_cons]%Forall_cons.
  pose proof Hnd as [Hn1 [Hn2 Hnd']%NoDup_cons]%NoDup_cons. rewrite not_elem_of_cons in Hn1. destruct Hn1 as [Hne _].
  rewrite register_sub_fresh by done. unfold handle_register_result. cbn [fst snd is_ok]. rewrite andb_false_r. cbn.
  apply IH; [done|]. apply (free_add [(_, sub_callback d tbl s); (_, unsub_callback tbl)] (sub_pairs d (Datatypes.S tbl) ss).*1 rpc Hf Hnd).
Qed.
(** Every alias leads to what is registered under the name it stands for. *)
Definition resolves rpc (an : string * string) (p : string * MethodCallback U) : Prop :=
  p.1 = an.1 ∧ Methods.method an.2 rpc = Some p.2.
Lemma register_aliases_free dbg aliases ps rpc :
  Forall2 (resolves rpc) aliases ps →
  NoDup ps.*1 → free ps.*1 rpc →
  register_aliases dbg aliases rpc = Ok (add ps rpc).
Proof.
  intros Ha. revert rpc ps Ha. induction aliases as [|[alias name] aliases IH]; intros rpc ps Ha Hnd Hf;
    inversion Ha as [|? [n c] ? ps' [E Hc] Ha']; subst; [done|]. cbn in *. subst n.
  apply Forall_cons in Hf as [Hn Hf]. unfold RpcModule.register_alias, Methods.verify_method_name, vacant.
  unfold Methods.method in Hn, Hc. rewrite Hn. cbn. rewrite Hc. unfold handle_register_result. cbn.
  rewrite andb_false_r. cbn. apply (IH (add [(alias, c)] rpc) ps').
  - eapply Forall2_impl; [exact Ha'|]. intros [a b] p [E1 E2]. split; [done|]. cbn in *.
    unfold Methods.method. cbn. rewrite lookup_insert_ne; [done|]. intros ->. unfold Methods.method in E2. congruence.
  - by apply NoDup_cons in Hnd as [].
  - exact (free_add [(alias, c)] ps'.*1 rpc Hf Hnd).
Qed.

Definition method_alias_pairs d := rd_methods d ≫= λ m, (λ alias, (alias, method_callback m)) <$> rm_aliases m.
Fixpoint sub_alias_pairs d (tbl : nat) (ss : list RpcSubscription) : list (string * MethodCallback U) :=
  match ss with
  | [] => []
  | s :: ss => ((λ alias, (alias, sub_callback d tbl s)) <$> rs_aliases s) ++
               ((λ alias, (alias, unsub_callback tbl)) <$> rs_unsubscribe_aliases s) ++
               sub_alias_pairs d (Datatypes.S tbl) ss
  end.
Definition all_pairs d tbl : list (string * MethodCallback U) :=
  method_pairs d (rd_methods d) ++ sub_pairs d tbl (rd_subscriptions d) ++ method_alias_pairs d ++
  sub_alias_pairs d tbl (rd_subscriptions d).

Lemma sub_pairs_names d tbl ss : (sub_pairs d tbl ss).*1 `sublist_of` ss ≫= subscription_names d.
Proof.
  revert tbl. induction ss as [|s ss IH]; intros tbl; cbn; [constructor|].
  do 2 constructor. apply sublist_inserts_l, IH.
Qed.
Lemma alias_pairs_names d tbl :
  (method_alias_pairs d).*1 = (method_aliases d).*1 ∧
  (sub_alias_pairs d tbl (rd_subscriptions d)).*1 = (subscription_aliases d).*1.
Proof.
  unfold method_alias_pairs, method_aliases, subscription_aliases. split.
  - induction (rd_methods d) as [|m ms IH]; [done|]. cbn. rewrite !fmap_app, IH, <-!list_fmap_compose. done.
  - generalize (rd_subscriptions d) as ss. intros ss. revert tbl. induction ss as [|s ss IH]; intros tbl; [done|]. cbn.
    rewrite !fmap_app, IH, <-!list_fmap_compose, <-app_assoc. done.
Qed.
Lemma all_pairs_names d tbl : (all_pairs d tbl).*1 `sublist_of` checked_names d.
Proof.
  unfold all_pairs, checked_names. rewrite !fmap_app. destruct (alias_pairs_names d tbl) as [-> ->].
  unfold method_pairs. rewrite <-list_fmap_compose. apply sublist_app; [done|]. by apply sublist_app; [apply sub_pairs_names|].
Qed.
Lemma in_sub_pairs d tbl ss i s : ss !! i = Some s →
  (rpc_identifier d (rs_name s), sub_callback d (tbl + i) s) ∈ sub_pairs d tbl ss ∧
  (rpc_identifier d (rs_unsubscribe s), unsub_callback (tbl + i)) ∈ sub_pairs d tbl ss ∧
  (∀ a, a ∈ rs_aliases s → (a, sub_callback d (tbl + i) s) ∈ sub_alias_pairs d tbl ss) ∧
  (∀ a, a ∈ rs_unsubscribe_aliases s → (a, unsub_callback (tbl + i)) ∈ sub_alias_pairs d tbl ss).
Proof.
  revert tbl i. induction ss as [|s' ss IH]; intros tbl [|i] Hs; try done; cbn.
  - injection Hs as ->. rewrite Nat.add_0_r. set_solver.
  - destruct (IH (Datatypes.S tbl) i Hs) as (H1 & H2 & H3 & H4).
    replace (tbl + Datatypes.S i) with (Datatypes.S tbl + i) by lia. set_solver.
Qed.

Lemma all_pairs_in d tbl :
  (∀ m name, m ∈ rd_methods d → name ∈ rpc_identifier d (rm_name m) :: rm_aliases m →
     (name, method_callback m) ∈ all_pairs d tbl) ∧
  (∀ i s name, rd_subscriptions d !! i = Some s →
     (name ∈ rpc_identifier d (rs_name s) :: rs_aliases s → (name, sub_callback d (tbl + i) s) ∈ all_pairs d tbl) ∧
     (name ∈ rpc_identifier d (rs_unsubscribe s) :: rs_unsubscribe_aliases s →
        (name, unsub_callback (tbl + i)) ∈ all_pairs d tbl)).
Proof.
  unfold all_pairs. setoid_rewrite elem_of_app. setoid_rewrite elem_of_cons. split.
  - intros m name Hm [->|Hn].
    + left. apply list_elem_of_fmap. by exists m.
    + rewrite !elem_of_app. do 2 right. left. apply list_elem_of_bind. exists m. split; [|done].
      apply list_elem_of_fmap. by exists name.
  - intros i s name Hs. destruct (in_sub_pairs d tbl _ i s Hs) as (H1 & H2 & H3 & H4). rewrite !elem_of_app.
    split; (intros [->|Hn]; [auto|]); do 3 right; auto.
Qed.
Lemma resolves_all rpc name cb (aliases : list string) : Methods.method name rpc = Some cb →
  Forall2 (resolves rpc) ((λ alias, (alias, name)) <$> aliases) ((λ alias, (alias, cb)) <$> aliases).
Proof. intros Hc. induction aliases as [|a l IH]; constructor; [by split|exact IH]. Qed.
Lemma method_aliases_resolve d rpc :
  (∀ m, m ∈ rd_methods d → Methods.method (rpc_identifier d (rm_name m)) rpc = Some (method_callback m)) →
  Forall2 (resolves rpc) (method_aliases d) (method_alias_pairs d).
Proof.
  unfold method_aliases, method_alias_pairs. induction (rd_methods d) as [|m ms IH]; intros Hm; cbn; [constructor|].
  apply Forall2_app; [apply resolves_all, Hm; by left|apply IH; intros; apply Hm; by right].
Qed.
Lemma sub_aliases_resolve d tbl rpc :
  (∀ i s, rd_subscriptions d !! i = Some s →
     Methods.method (rpc_identifier d (rs_name s)) rpc = Some (sub_callback d (tbl + i) s) ∧
     Methods.method (rpc_identifier d (rs_unsubscribe s)) rpc = Some (unsub_callback (tbl + i))) →
  Forall2 (resolves rpc) (subscription_aliases d) (sub_alias_pairs d tbl (rd_subscriptions d)).
Proof.
  unfold subscription_aliases. revert tbl. induction (rd_subscriptions d) as [|s ss IH]; intros tbl Hs; cbn; [constructor|].
  destruct (Hs 0 s eq_refl) as [H1 H2]. rewrite Nat.add_0_r in H1, H2. rewrite <-app_assoc.
  do 2 (apply Forall2_app; [by apply resolves_all|]). apply IH. intros i s' Hi.
  replace (Datatypes.S tbl + i) with (tbl + Datatypes.S i) by lia. by apply Hs.
Qed.
Lemma NoDup_front (A B C : list string) : NoDup (A ++ B ++ C) → NoDup (A ++ B).
Proof. rewrite app_assoc. by intros [? _]%NoDup_app. Qed.
Lemma NoDup_back (A B : list string) : NoDup (A ++ B) → NoDup B.
Proof. by intros (_ & _ & ?)%NoDup_app. Qed.
Lemma free_new names : free names (Methods.new (U := U)).
Proof. apply Forall_forall. intros n _. unfold Methods.method. apply lookup_empty. Qed.
Lemma into_rpc_adds dbg d tbl : NoDup (checked_names d) → into_rpc dbg d tbl = Ok (add (all_pairs d tbl) Methods.new).
Proof.
  intros Hnd. pose proof (sublist_NoDup _ _ Hnd (all_pairs_names d tbl)) as N0.
  unfold all_pairs in N0. rewrite !fmap_app in N0.
  pose proof (NoDup_back _ _ N0) as N1. pose proof (NoDup_back _ _ N1) as N2. pose proof (NoDup_back _ _ N2) as N3.
  pose proof N0 as M1. rewrite app_assoc, <-fmap_app in M1. pose proof M1 as M2. rewrite app_assoc, <-fmap_app in M2.
  unfold MacroCode.into_rpc, mbind, result_bind.
  rewrite register_methods_free by (apply free_new || by apply NoDup_app in N0 as []).
  rewrite register_subs_free; [|by apply NoDup_app in N1 as []|].
  2: { apply free_add; [apply free_new|]. by apply NoDup_front in N0. }
  rewrite <-add_app. assert (∀ n c, (n, c) ∈ method_pairs d (rd_methods d) ++ sub_pairs d tbl (rd_subscriptions d) →
    Methods.method n (add (method_pairs d (rd_methods d) ++ sub_pairs d tbl (rd_subscriptions d)) Methods.new) = Some c) as Hget.
  { intros n c. apply add_in. by apply NoDup_app in M1 as []. }
  rewrite (register_aliases_free dbg _ (method_alias_pairs d)); [| |by apply NoDup_app in N2 as []|].
  2: { apply method_aliases_resolve. intros m Hm. apply Hget, elem_of_app. left. apply list_elem_of_fmap. by exists m. }
  2: { apply free_add; [apply free_new|]. by apply NoDup_front in M1. }
  rewrite <-add_app, (register_aliases_free dbg _ (sub_alias_pairs d tbl (rd_subscriptions d))); [| |done|].
  2: { apply sub_aliases_resolve. intros i s Hs. destruct (in_sub_pairs d tbl _ i s Hs) as (H1 & H2 & _).
       split; (apply add_in; [by apply NoDup_app in M2 as []|]); rewrite !elem_of_app; auto. }
  2: { apply free_add; [apply free_new|done]. }
  unfold all_pairs. by rewrite <-add_app, <-!app_assoc.
Qed.

(** C24: the generated [into_rpc].  The macro reports a compile error exactly when
    two names of the trait clash.  A trait without such an error registers
    everything, and neither debug nor release builds see a registration fail:
    each method and its aliases lead to the handler of the method, each
    subscription and its aliases to its subscribe and unsubscribe callbacks, over
    one table of its own; and no other name is registered. *)
Theorem into_rpc_complete (d : RpcDescription) (tbl : nat) :
  (compile_errors d = [] ↔ NoDup (checked_names d)) ∧
  (compile_errors d = [] → ∃ rpc, (∀ dbg, into_rpc dbg d tbl = Ok rpc) ∧
    (∀ m name, m ∈ rd_methods d → name ∈ rpc_identifier d (rm_name m) :: rm_aliases m →
       Methods.method name rpc = Some (method_callback m)) ∧
    (∀ i s name, rd_subscriptions d !! i = Some s →
       (name ∈ rpc_identifier d (rs_name s) :: rs_aliases s →
          Methods.method name rpc = Some (sub_callback d (tbl + i) s)) ∧
       (name ∈ rpc_identifier d (rs_unsubscribe s) :: rs_unsubscribe_aliases s →
          Methods.method name rpc = Some (unsub_callback (tbl + i)))) ∧
    (∀ name, is_Some (Methods.method name rpc) → name ∈ checked_names d)).
Proof.
  split; [apply compile_errors_nil|]. rewrite compile_errors_nil. intros Hnd.
  pose proof (sublist_NoDup _ _ Hnd (all_pairs_names d tbl)) as N0. destruct (all_pairs_in d tbl) as [Im Is].
  exists (add (all_pairs d tbl) Methods.new). split_and!.
  - intros dbg. by apply into_rpc_adds.
  - intros m name Hm Hn. apply add_in; auto.
  - intros i s name Hs. destruct (Is i s name Hs) as [H1 H2]. split; intros; apply add_in; auto.
  - intros name [c Hc]. destruct (decide (name ∈ (all_pairs d tbl).*1)) as [Hin|Hni].
    + eapply elem_of_submseteq; [exact Hin|]. apply sublist_submseteq, all_pairs_names.
    + rewrite add_other in Hc by done. unfold Methods.method in Hc. cbn in Hc. by rewrite lookup_empty in Hc.
Qed.
End Registered.

(** ** Parameters: what the client sends is what the server reads *)
Section Roundtrip.
Context {J : SerdeJson} {S : SynLib} (debug : string → string) {V : Type}.
Context (de : RustType → string → Result string V) (missing : RustType → option V) (ser : V → Ser).
Context (to_snake_case to_lower_camel_case : string → string).
Notation field_keys := (field_keys to_snake_case to_lower_camel_case).
Notation decode_params := (decode_params debug de missing to_snake_case to_lower_camel_case).

(** The value of an argument survives its own text. *)
Definition arg_ok (av : RpcFnArg * ArgVal V) (t : string) : Prop :=
  writes (ser_arg ser av.2) t ∧ de_arg de av.1 t = Ok av.2.
(** No key of an argument is the name of another one. *)
Definition keys_apart (args : list RpcFnArg) : Prop :=
  ∀ i j a b, args !! i = Some a → args !! j = Some b → arg_name b ∈ field_keys a → i = j.

Definition ran {A} (x : Result unit unit * A) : Result Panicked A :=
  match x with (Ok _, a) => Ok a | (Err _, _) => Err Panic end.
Lemma insert_args_all avs p : insert_args ser avs p = ran (insert_all (ser_arg ser <$> avs.*2) p).
Proof.
  revert p. induction avs as [|[a v] avs IH]; intros p; [done|]. cbn. unfold mbind, SM_bind.
  destruct (ArrayParams.insert _ p) as [[[]|[]] p']; [apply IH|done].
Qed.
Lemma insert_named_args_all avs p :
  insert_named_args ser avs p = ran (insert_all_named ((λ av, (arg_name av.1, ser_arg ser av.2)) <$> avs) p).
Proof.
  revert p. induction avs as [|[a v] avs IH]; intros p; [done|]. cbn. unfold mbind, SM_bind.
  destruct (ObjectParams.insert _ _ p) as [[[]|[]] p']; [apply IH|done].
Qed.
Lemma encode_array avs ts : avs ≠ [] → Forall2 arg_ok avs ts → is_Some (json_read ("[" +:+ join ts +:+ "]")) →
  encode_params ser PkArray avs = Ok (Some ("[" +:+ join ts +:+ "]")).
Proof.
  intros Hne Hok Hr. destruct avs as [|av avs]; [done|]. unfold encode_params. rewrite insert_args_all.
  pose proof (array_params_text (ser_arg ser <$> (av :: avs).*2) ts) as Hb.
  destruct (insert_all _ _) as [r b]. destruct Hb as [-> Hb]; [| |done|exact Hb].
  - rewrite <-list_fmap_compose. apply Forall2_fmap_l. eapply Forall2_impl; [exact Hok|]. by intros x t [W _].
  - intros ->. inversion Hok.
Qed.
Lemma encode_map avs nts : avs ≠ [] →
  Forall2 (λ av nt, ∃ tk t, writes (SerStr (arg_name av.1)) tk ∧ arg_ok av t ∧ nt = tk +:+ ":" +:+ t) avs nts →
  is_Some (json_read ("{" +:+ join nts +:+ "}")) →
  encode_params ser PkMap avs = Ok (Some ("{" +:+ join nts +:+ "}")).
Proof.
  intros Hne Hok Hr. destruct avs as [|av avs]; [done|]. unfold encode_params. rewrite insert_named_args_all.
  pose proof (object_params_text ((λ av, (arg_name av.1, ser_arg ser av.2)) <$> (av :: avs)) nts) as Hb.
  destruct (insert_all_named _ _) as [r b]. destruct Hb as [-> Hb]; [| |done|exact Hb].
  - apply Forall2_fmap_l. eapply Forall2_impl; [exact Hok|]. intros x nt (tk & t & Wk & [W _] & ->). by exists tk, t.
  - intros ->. inversion Hok.
Qed.

(** The array, element by element. *)
Notation reads args vs ts := (Forall2 (λ av t, de_arg de av.1 t = Ok av.2) (zip args vs) ts).
Lemma decode_step a args v t ts c : c = "["%char ∨ c = ","%char → reads_items (t :: ts) → de_arg de a t = Ok v →
  decode_fields debug de (a :: args) (MkSeq (String c ((t +:+ tail_text ts) +:+ "]"))) =
  (vs ← decode_fields debug de args (MkSeq (tail_text ts +:+ "]")); Ok (v :: vs)).
Proof.
  intros Hc Hr Hd. cbn [decode_fields]. unfold de_arg in Hd. destruct (is_option (ra_ty a)).
  - destruct (de_opt (de (ra_ty a)) t) as [o|] eqn:E; [|done]. injection Hd as <-. by erewrite optional_next_items.
  - destruct (de (ra_ty a) t) as [x|] eqn:E; [|done]. injection Hd as <-. by erewrite next_items.
Qed.
Lemma decode_tail args vs ts : length args = length vs → reads_items ts → reads args vs ts →
  decode_fields debug de args (MkSeq (tail_text ts +:+ "]")) = Ok vs.
Proof.
  revert vs ts. induction args as [|a args IH]; intros [|v vs] ts Hl Hr Hd; [by inversion Hd|done|done|].
  cbn in Hd. inversion Hd as [|? t ? ts' Ha Hd']; subst. cbn [fst snd] in Ha.
  cbn [tail_text]. change (("," +:+ ?x) +:+ "]") with (String ","%char (x +:+ "]")).
  rewrite (decode_step _ _ v) by auto. destruct Hr as (_ & _ & Hr). rewrite (IH vs); [done|by injection Hl|done..].
Qed.
Lemma decode_array_ok args vs ts : args ≠ [] → length args = length vs → reads_items ts → reads args vs ts →
  decode_params args PkArray (params_new (Some ("[" +:+ join ts +:+ "]"))) = Ok vs.
Proof.
  intros Hne Hl Hr Hd. destruct args as [|a args]; [done|]. destruct vs as [|v vs]; [done|]. cbn in Hd.
  inversion Hd as [|? t ? ts' Ha Hd']; subst. cbn [fst snd] in Ha. rewrite <-array_text_join by done.
  unfold MacroCode.decode_params.
  assert (is_object (params_new (Some (array_text (t :: ts')))) = false) as ->.
  { unfold is_object, params_new. cbn [fmap option_fmap option_map params_raw array_text]. by rewrite trim_array. }
  unfold decode_array. rewrite sequence_array by done. cbn [array_text]. change ("[" +:+ ?x) with (String "["%char x).
  rewrite (decode_step _ _ v) by auto. destruct Hr as (_ & _ & Hr).
  rewrite (decode_tail args vs); [done|by injection Hl|done..].
Qed.

(** The object, by the keys of its members. *)
Lemma field_index_first k args j : field_index to_snake_case to_lower_camel_case k args = Some j →
  ∃ b, args !! j = Some b ∧ k ∈ field_keys b.
Proof.
  revert j. induction args as [|a args IH]; intros j; cbn [field_index]; [done|].
  case_decide as Hk; [intros [= <-]; by exists a|].
  destruct (field_index _ _ k args) as [i|]; [|done]. intros [= <-]. exact (IH i eq_refl).
Qed.
Lemma field_index_name args i a : keys_apart args → args !! i = Some a →
  field_index to_snake_case to_lower_camel_case (arg_name a) args = Some i.
Proof.
  intros Hk Ha. destruct (field_index _ _ (arg_name a) args) as [j|] eqn:E.
  - apply field_index_first in E as (b & Hb & Hin). f_equal. exact (Hk j i b a Hb Ha Hin).
  - exfalso. clear Hk. revert i Ha E. induction args as [|b args IH]; intros i; [done|]. cbn [field_index].
    case_decide as Hd; [done|]. destruct i as [|i]; [intros [= ->]; exfalso; apply Hd; by left|].
    intros Ha. destruct (field_index _ _ (arg_name a) args) as [j|] eqn:E; [done|]. intros _. by apply (IH i).
Qed.
Lemma collect_in_order pre rest rts found : keys_apart (pre ++ rest) → length rest = length rts →
  (∀ j, length pre <= j → found !! j = None) →
  ∃ m, collect_params to_snake_case to_lower_camel_case (pre ++ rest) (zip (arg_name <$> rest) rts) found = Some m ∧
    (∀ j, j < length pre → m !! j = found !! j) ∧
    (∀ j, j < length rest → m !! (length pre + j) = rts !! j).
Proof.
  revert pre rts found. induction rest as [|a rest IH]; intros pre [|t rts] found Hk Hl Hf; try done.
  { exists found. split_and!; [done..|cbn; lia]. }
  cbn [fmap list_fmap zip zip_with collect_params].
  rewrite (field_index_name _ (length pre) a) by (done || by apply list_lookup_middle).
  unfold vacant. rewrite Hf by done. destruct (IH (pre ++ [a]) rts (<[length pre:=t]> found)) as (m & E & H1 & H2).
  - by rewrite <-app_assoc.
  - by injection Hl.
  - rewrite length_app. cbn. intros j Hj. rewrite lookup_insert_ne by lia. apply Hf. lia.
  - rewrite <-app_assoc in E. rewrite length_app in H1, H2. cbn in H1, H2. exists m. split; [exact E|]. split.
    + intros j Hj. rewrite H1 by lia. by rewrite lookup_insert_ne by lia.
    + intros [|j] Hj; cbn in Hj; [rewrite Nat.add_0_r, H1 by lia; apply lookup_insert_eq|].
      replace (length pre + Datatypes.S j) with (length pre + 1 + j) by lia. rewrite H2 by lia. done.
Qed.
Lemma fields_of_ok i args vs ts found : length args = length vs → reads args vs ts →
  (∀ j, j < length args → found !! (i + j) = ts !! j) → fields_of de missing i args found = Some vs.
Proof.
  revert i vs ts. induction args as [|a args IH]; intros i [|v vs] ts Hl Hd Hf; try done. cbn in Hd.
  inversion Hd as [|? t ? ts' Ha Hd']; subst. cbn [fst snd] in Ha. cbn [fields_of].
  assert (found !! i = Some t) as -> by (rewrite <-(Nat.add_0_r i); apply (Hf 0); cbn; lia). cbn. rewrite Ha. cbn.
  rewrite (IH _ vs ts'); [done|by injection Hl|done|].
  intros j Hj. replace (Datatypes.S i + j) with (i + Datatypes.S j) by lia. apply (Hf (Datatypes.S j)). cbn. lia.
Qed.
Lemma decode_map_ok kind args vs ts text : kind ≠ PkObject → args ≠ [] → length args = length vs → reads args vs ts → keys_apart args →
  json_read ("{" +:+ text +:+ "}") = Some (NObj (zip (arg_name <$> args) ts)) →
  decode_params args kind (params_new (Some ("{" +:+ text +:+ "}"))) = Ok vs.
Proof.
  intros Hko Hne Hl Hd Hk Hr. unfold MacroCode.decode_params. destruct args as [|a args]; [done|].
  assert (length (a :: args) = length ts) as Hlt.
  { apply Forall2_length in Hd. rewrite length_zip in Hd. lia. }
  assert (is_object (params_new (Some ("{" +:+ text +:+ "}"))) = true) as ->.
  { unfold is_object, params_new. cbn [fmap option_fmap option_map params_raw]. by rewrite trim_object. }
  assert (decode_map de missing to_snake_case to_lower_camel_case (a :: args) (params_new (Some ("{" +:+ text +:+ "}"))) = Ok vs) as E;
    [|by destruct kind].
  unfold decode_map, parse.
  assert (params_raw (params_new (Some ("{" +:+ text +:+ "}"))) = Some ("{" +:+ text +:+ "}")) as ->.
  { unfold params_new. cbn [fmap option_fmap option_map params_raw]. by rewrite trim_object. }
  change (default "null" (Some ?x)) with x. unfold de_params_object. rewrite Hr.
  destruct (collect_in_order [] (a :: args) ts ∅ Hk Hlt ltac:(done)) as (m & E & _ & H2). cbn [app] in E. rewrite E.
  change (Some m ≫= ?f) with (f m). cbv beta. by rewrite (fields_of_ok 0 (a :: args) vs ts).
Qed.

Lemma decode_object_ok arg v t : de_arg de arg t = Ok v → trim t = t →
  decode_params [arg] PkObject (params_new (Some t)) = Ok [v].
Proof.
  intros Hd Ht. cbn [MacroCode.decode_params]. unfold parse, params_new. cbn [fmap option_fmap option_map params_raw].
  rewrite Ht. change (default "null" (Some t)) with t. by rewrite Hd.
Qed.

(** C27: what a generated client sends, the generated server reads.  The arguments
    of a call, sent as an array, as an object of their names, or as the one value
    that is the object, are the arguments the server decodes, each of its type;
    [None] of an optional argument included. *)
Theorem macro_params_roundtrip (kind : ParamKind) (args : list RpcFnArg) (vals : list (ArgVal V)) (ts tks : list string) :
  length args = length vals → Forall2 arg_ok (zip args vals) ts →
  match kind with
  | PkArray => reads_items ts ∧ is_Some (json_read ("[" +:+ join ts +:+ "]"))
  | PkMap => keys_apart args ∧ Forall2 (λ a tk, writes (SerStr (arg_name a)) tk) args tks ∧
      json_read ("{" +:+ join (zip_with (λ tk t, tk +:+ ":" +:+ t) tks ts) +:+ "}") = Some (NObj (zip (arg_name <$> args) ts))
  | PkObject => length args = 1 ∧ Forall (λ t, trim t = t) ts
  end →
  ∃ ps, encode_params ser kind (zip args vals) = Ok ps ∧ decode_params args kind (params_new ps) = Ok vals.
Proof.
  intros Hl Hok Hk. assert (reads args vals ts) as Hd by (eapply Forall2_impl; [exact Hok|by intros ? ? []]).
  destruct args as [|a args], vals as [|v vals]; try done; [by eexists|]. destruct kind.
  - destruct Hk as [Hr Hj]. eexists. split; [by apply encode_array|]. by apply decode_array_ok.
  - destruct Hk as (Hap & Htk & Hj). eexists. split.
    + apply encode_map; [done| |by rewrite Hj]. clear Hj Hd Hap. revert v vals tks ts Hl Htk Hok.
      generalize (a :: args) as l. intros l v vals. generalize (v :: vals) as vs.
      induction l as [|b l IH]; intros [|x vs] tks ts Hl Htk Hok; try done; inversion Htk as [|? tk ? tks' Ht Htk']; subst;
        cbn in Hok; inversion Hok as [|? t ? ts' Ha Hok']; subst; [constructor|..].
      constructor; [by exists tk, t|]. apply IH; [by injection Hl|done..].
    + by eapply decode_map_ok.
  - destruct Hk as [H1 Ht]. destruct args, vals; try done. cbn in Hok.
    inversion Hok as [|? t ? ts' [[W _] Ha] Hn]; subst. inversion Hn; subst. inversion Ht; subst. cbn in W, Ha.
    exists (Some t). split; [cbn; by rewrite W|]. by apply decode_object_ok.
Qed.
End Roundtrip.

(** ** Calls of a generated module *)
Section GeneratedCalls.
Context {J : SerdeJson} {X : HttpExtensions} {XC : ExtKey ConnectionId} {S : SynLib} {U R V T : Type} `{IntoResponse R}.
Context (debug : string → string) (de : RustType → string → Result string V) (missing : RustType → option V) (ser : V → Ser).
Context (to_snake_case to_lower_camel_case : string → string).
Context (impl : TraitImpl (U := U) (R := R) (V := V))
  (spawn_reject : PendingSubscriptionSink → ErrorObject → SM (W U) Panicked unit).
Context (rest : SubscribeCall → W U → W U) (ser_r : T → Ser) (de_r : string → option T).
Notation decode := (decode debug de missing to_snake_case to_lower_camel_case).

(** The response is written and read as it is. *)
Definition reply_ok (p : ResponsePayload T) : Prop :=
  let s := response_serialize ser_r (response_new p (IdNumber 0)) in
  faithful s ∧ events_text (json_events s) = (text_of s, true) ∧ (slen (text_of s) <= usize_max)%N ∧ payload_ok ser_r de_r p.
(** What the generated client calls is what the generated server reads. *)
Definition transmits (m : RpcMethod) (vals : list (ArgVal V)) (ps : option string) : Prop :=
  encode_params ser (rm_param_kind m) (zip (rm_params m) vals) = Ok ps ∧
  decode (rm_params m) (rm_param_kind m) (params_new ps) = Ok vals.

(** C23: a method of the trait, called through the generated code.  The client
    calls the method under its full name with its arguments; under that name, or
    an alias, the module runs the method of the implementation on these
    arguments, with the extensions if it asked for them, and the caller gets its
    value or its error.  Parameters that cannot be decoded are answered with the
    error of the decoding, and the implementation is not run. *)
Theorem generated_call (d : RpcDescription) (tbl : nat) (dbg : bool) rpc (m : RpcMethod) (name : string) (random : N) (w : W U) :
  let ext := ext_insert (0%N : ConnectionId) (m_extensions rpc) in
  let w1 := (snd (new_chan 1 (snd (mock_permit (fst w)))), snd w) in
  let run args := ti_call impl (fn_ident (rm_signature m)) (if rm_with_extensions m then Some ext else None) args w1 in
  compile_errors d = [] →
  into_rpc debug de missing to_snake_case to_lower_camel_case impl spawn_reject dbg d tbl = Ok rpc →
  m ∈ rd_methods d → name ∈ rpc_identifier d (rm_name m) :: rm_aliases m →
  (∀ vals ps r w' p, transmits m vals ps → run vals = (Ok r, w') →
     mp_inner (into_response r) = payload_map ser_r p → reply_ok p →
     client_method ser d m vals =
       Ok (match rm_returns m with Some _ => CcRequest | None => CcNotification end (rpc_identifier d (rm_name m)) ps) ∧
     call rest de_r rpc name (Ok ps) random w =
       (Ok (match p with Success t => Ok t | PayloadError e => Err (MeJsonRpc e) end), w')) ∧
  (∀ ps e, decode (rm_params m) (rm_param_kind m) (params_new ps) = Err e → reply_ok (PayloadError e) →
     call rest de_r rpc name (Ok ps) random w = (Ok (Err (MeJsonRpc e)), w1)).
Proof.
  intros ext w1 run Hc Hi Hm Hn. apply compile_errors_nil in Hc.
  rewrite into_rpc_adds in Hi by done. injection Hi as Hrpc.
  set (handler := method_handler debug de missing to_snake_case to_lower_camel_case impl m).
  assert (Methods.method name rpc ∈ callbacks_of handler) as Hreg.
  { rewrite <-Hrpc. erewrite add_in; [|exact (sublist_NoDup _ _ Hc (all_pairs_names _ _ _ _ _ _ _ d tbl))|
      by apply (proj1 (all_pairs_in debug de missing to_snake_case to_lower_camel_case impl spawn_reject d tbl) m name)].
    unfold method_callback, callbacks_of. fold handler. cbn. set_unfold. destruct (fn_async _), (rm_blocking m); auto. }
  split.
  - intros vals ps r w' p [He Hd] Hr Hp (F & Hev & Hl & Hok). split.
    { unfold client_method. rewrite He. cbn. by destruct (rm_returns m). }
    eapply (call_registered rest ser_r de_r rpc name handler); try done.
    unfold handler, method_handler. rewrite Hd. unfold mbind, SM_bind. fold ext w1. unfold run in Hr. rewrite Hr. done.
  - intros ps e Hd (F & Hev & Hl & Hok).
    eapply (call_registered rest ser_r de_r rpc name handler _ _ _ _ (MrPayload.error e) (PayloadError e)); try done.
    unfold handler, method_handler. by rewrite Hd.
Qed.
End GeneratedCalls.

(** ** The trait of [ProcMacro.v], over integers *)
Section MacroWitnesses.
#[local] Existing Instance ref_json.
#[local] Existing Instance ref_ext.
#[local] Existing Instance ref_syn.
#[local] Instance ref_conn_key : ExtKey ConnectionId := {|
  ext_get := λ l, head l ≫= parse_u64;
  ext_insert := λ c (l : list string), to_dec c :: l
|}.
Definition ex_de (_ : RustType) : string → Result string Z := de_int.
Definition ex_missing (_ : RustType) : option Z := None.
Definition ex_camel (s : string) : string := if decide (s = "start_key") then "startKey" else s.
Definition ex_args : list RpcFnArg :=
  [MkRpcFnArg "start_key" None (TyPath ["u64"]); MkRpcFnArg "hash" None (TyPath ["std"; "option"; "Option"])].
(** The sum of the arguments. *)
Definition ex_impl : TraitImpl (U := unit) (R := Ser) (V := Z) := {|
  ti_call ident ext args :=
    mret (SerInt (foldr (λ a s, match a with Plain z | Opt (Some z) => z + s | Opt None => s end)%Z 0%Z args));
  ti_subscribe ident pending ext args := mret ()
|}.
Definition ex_spawn (pending : PendingSubscriptionSink) (e : ErrorObject) : SM (W unit) Panicked unit := mret ().
Notation ex_decode := (decode_params id ex_de ex_missing id ex_camel).

(** By position, by name in the other spelling, and without the optional one. *)
Example ex_decoded :
  (λ p, result_ok (ex_decode ex_args PkArray (params_new (Some p)))) <$>
    [q "[3, 4]"; q "[3]"; q "{'startKey': 3, 'hash': null}"; q "{'hash': 4, 'other': 1, 'start_key': 3}"; q "{'hash': 4}"] =
  [Some [Plain 3%Z; Opt (Some 4%Z)]; Some [Plain 3%Z; Opt None]; Some [Plain 3%Z; Opt None];
   Some [Plain 3%Z; Opt (Some 4%Z)]; None].
Proof. vm_compute. reflexivity. Qed.

Lemma ex_apart : keys_apart id ex_camel ex_args.
Proof.
  intros [|[|i]] [|[|j]] a b Ha Hb Hin; cbn in Ha, Hb; simplify_eq; try done;
    exfalso; unfold field_keys in Hin; rewrite !elem_of_cons, elem_of_nil in Hin;
    destruct Hin as [E|[E|[E|[]]]]; vm_compute in E; discriminate.
Qed.
Lemma macro_params_roundtrip_witness :
  ∃ ps, encode_params SerInt PkMap (zip ex_args [Plain 3%Z; Opt None]) = Ok ps ∧
    ex_decode ex_args PkMap (params_new ps) = Ok [Plain 3%Z; Opt None].
Proof.
  apply (macro_params_roundtrip id ex_de ex_missing SerInt id ex_camel PkMap ex_args [Plain 3%Z; Opt None]
    ["3"; "null"] [q "'start_key'"; q "'hash'"]); [reflexivity| |].
  - repeat constructor; vm_compute; reflexivity.
  - split; [exact ex_apart|]. split; [repeat constructor; vm_compute; reflexivity|vm_compute; reflexivity].
Defined.
Lemma into_rpc_complete_witness :
  compile_errors ex_description = [] ∧ ∃ rpc,
    into_rpc id ex_de ex_missing id ex_camel ex_impl ex_spawn true ex_description 0 = Ok rpc ∧
    ∀ name, is_Some (Methods.method name rpc) →
      name ∈ ["state_getKeys"; "state_subscribeStorage"; "state_unsubscribeStorage"; "state_storage"; "keys"].
Proof.
  destruct (into_rpc_complete id ex_de ex_missing id ex_camel ex_impl ex_spawn ex_description 0) as [_ H].
  destruct H as (rpc & H1 & _ & _ & H2); [vm_compute; reflexivity|]. split; [vm_compute; reflexivity|].
  exists rpc. split; [exact (H1 true)|]. exact H2.
Defined.

Definition ex_rpc : Methods unit :=
  default Methods.new (result_ok (into_rpc id ex_de ex_missing id ex_camel ex_impl ex_spawn true ex_description 0)).
Lemma ex_rpc_made : into_rpc id ex_de ex_missing id ex_camel ex_impl ex_spawn true ex_description 0 = Ok ex_rpc.
Proof.
  unfold ex_rpc. rewrite into_rpc_adds; [reflexivity|]. apply compile_errors_nil. vm_compute. reflexivity.
Qed.
Lemma generated_call_witness :
  call (λ _ w, w) de_i32 ex_rpc "keys" (Ok (Some (q "{'start_key':3,'hash':4}"))) 0 (ex_world, ()) =
    (Ok (Ok 7%Z), (snd (new_chan 1 (snd (mock_permit ex_world))), ())).
Proof.
  edestruct (generated_call (T := Z) id ex_de ex_missing SerInt id ex_camel ex_impl ex_spawn (λ _ w, w) SerInt de_i32
    ex_description 0 true ex_rpc) as [H _]; [| | | |apply (H [Plain 3%Z; Opt (Some 4%Z)] _ (SerInt 7) _ (Success 7%Z))].
  - vm_compute. reflexivity.
  - exact ex_rpc_made.
  - left.
  - right. left.
  - split; vm_compute; reflexivity.
  - vm_compute. reflexivity.
  - vm_compute. reflexivity.
  - vm_compute. repeat (split; eauto). discriminate.
Defined.
End MacroWitnesses.
