(* ===== verification/MacroTypes.v ===== *)
(** The [#[rpc]] macro, part three: the types it looks into.

    [proc-macros/src/visitor.rs], [helpers.rs] and [return_result_type] of
    [render_client.rs]: which type parameters of a trait are sent and received,
    the bounds the generated code asks of them, the return types of the client,
    and the crates the generated paths start with.  Types are syntax trees of
    [syn]; how [syn] walks over a trait is given by the nodes of the trait. *)
From stdpp Require Import base gmap strings list.
From S2P Require Import Prelude ProcMacro MacroCode.

(** ** Syntax: [syn::Type]; a return type that is not written is [None] *)
Inductive SynType : Type :=
| StArray (elem : SynType)
| StBareFn (inputs : list SynType) (output : option SynType)
| StGroup (elem : SynType)
| StImplTrait (bounds : list TypeParamBound)
| StMacro (mac : string)
| StParen (elem : SynType)
| StPath (qself : option SynType) (path : Path)
| StPtr (elem : SynType)
| StReference (elem : SynType)
| StSlice (elem : SynType)
| StTraitObject (bounds : list TypeParamBound)
| StTuple (elems : list SynType)
| StInfer
| StNever
| StVerbatim (tokens : string)
with Path : Type := MkPath (leading_colon : bool) (segments : list PathSegment)
with PathSegment : Type := MkSegment (ident : string) (arguments : PathArguments)
with PathArguments : Type :=
| PaNone
| PaAngleBracketed (args : list GenericArgument)
| PaParenthesized (inputs : list SynType) (output : option SynType)
with GenericArgument : Type :=
| GaType (ty : SynType)
| GaAssocType (ident : string) (ty : SynType)
| GaOther (tokens : string)
with TypeParamBound : Type := BdTrait (path : Path) | BdOther (tokens : string).

Definition path_segments (p : Path) : list PathSegment := let 'MkPath _ segments := p in segments.
Definition segment_ident (s : PathSegment) : string := let 'MkSegment ident _ := s in ident.
(** The path of a type parameter alone. *)
Definition ident_path (ident : string) : Path := MkPath false [MkSegment ident PaNone].

(** Induction over the trees, their lists of children included. *)
Section TypeInd.
Context (P : SynType → Prop) (PP : Path → Prop) (PS : PathSegment → Prop) (PA : PathArguments → Prop)
  (PG : GenericArgument → Prop) (PB : TypeParamBound → Prop).
Definition opt_all {A} (Q : A → Prop) (o : option A) : Prop := match o with Some x => Q x | None => True end.
Context (HArray : ∀ t, P t → P (StArray t))
  (HBareFn : ∀ ts o, Forall P ts → opt_all P o → P (StBareFn ts o))
  (HGroup : ∀ t, P t → P (StGroup t)) (HImpl : ∀ bs, Forall PB bs → P (StImplTrait bs))
  (HMacro : ∀ m, P (StMacro m)) (HParen : ∀ t, P t → P (StParen t))
  (HPath : ∀ o p, opt_all P o → PP p → P (StPath o p))
  (HPtr : ∀ t, P t → P (StPtr t)) (HRef : ∀ t, P t → P (StReference t)) (HSlice : ∀ t, P t → P (StSlice t))
  (HObject : ∀ bs, Forall PB bs → P (StTraitObject bs)) (HTuple : ∀ ts, Forall P ts → P (StTuple ts))
  (HInfer : P StInfer) (HNever : P StNever) (HVerbatim : ∀ s, P (StVerbatim s))
  (HMkPath : ∀ c ss, Forall PS ss → PP (MkPath c ss)) (HSegment : ∀ i a, PA a → PS (MkSegment i a))
  (HNone : PA PaNone) (HAngle : ∀ gs, Forall PG gs → PA (PaAngleBracketed gs))
  (HParens : ∀ ts o, Forall P ts → opt_all P o → PA (PaParenthesized ts o))
  (HGType : ∀ t, P t → PG (GaType t)) (HGAssoc : ∀ i t, P t → PG (GaAssocType i t)) (HGOther : ∀ s, PG (GaOther s))
  (HBTrait : ∀ p, PP p → PB (BdTrait p)) (HBOther : ∀ s, PB (BdOther s)).

Definition all_of {A} {Q : A → Prop} (f : ∀ x, Q x) : ∀ l, Forall Q l :=
  fix go l := match l with [] => Forall_nil_2 _ | x :: l => Forall_cons_2 _ _ _ (f x) (go l) end.
Definition opt_of {A} {Q : A → Prop} (f : ∀ x, Q x) (o : option A) : opt_all Q o :=
  match o with Some x => f x | None => I end.
Fixpoint type_ind (t : SynType) : P t :=
  match t with
  | StArray t => HArray t (type_ind t)
  | StBareFn ts o => HBareFn ts o (all_of type_ind ts) (opt_of type_ind o)
  | StGroup t => HGroup t (type_ind t)
  | StImplTrait bs => HImpl bs (all_of bound_ind bs)
  | StMacro m => HMacro m
  | StParen t => HParen t (type_ind t)
  | StPath o p => HPath o p (opt_of type_ind o) (path_ind p)
  | StPtr t => HPtr t (type_ind t)
  | StReference t => HRef t (type_ind t)
  | StSlice t => HSlice t (type_ind t)
  | StTraitObject bs => HObject bs (all_of bound_ind bs)
  | StTuple ts => HTuple ts (all_of type_ind ts)
  | StInfer => HInfer
  | StNever => HNever
  | StVerbatim s => HVerbatim s
  end
with path_ind (p : Path) : PP p := match p with MkPath c ss => HMkPath c ss (all_of segment_ind ss) end
with segment_ind (s : PathSegment) : PS s := match s with MkSegment i a => HSegment i a (arguments_ind a) end
with arguments_ind (a : PathArguments) : PA a :=
  match a with
  | PaNone => HNone
  | PaAngleBracketed gs => HAngle gs (all_of generic_ind gs)
  | PaParenthesized ts o => HParens ts o (all_of type_ind ts) (opt_of type_ind o)
  end
with generic_ind (g : GenericArgument) : PG g :=
  match g with
  | GaType t => HGType t (type_ind t)
  | GaAssocType i t => HGAssoc i t (type_ind t)
  | GaOther s => HGOther s
  end
with bound_ind (b : TypeParamBound) : PB b :=
  match b with BdTrait p => HBTrait p (path_ind p) | BdOther s => HBOther s end.
End TypeInd.

(** ** [FindSubscriptionParams]: [all_type_params] is fixed; the state is
    [generic_sub_params] *)
Module FindSubscriptionParams.
Section Visit.
Context (all_type_params : gset string).
Notation V := (gset string).

Definition visit_all {A} (visit : A → V → V) (l : list A) (self : V) : V := foldl (λ self x, visit x self) self l.
Definition visit_opt {A} (visit : A → V → V) (o : option A) (self : V) : V :=
  match o with Some x => visit x self | None => self end.

(** A path of one segment is a leaf: a type parameter, when its name is one. *)
Definition leaf (p : Path) (self : V) : V :=
  match p with
  | MkPath false [MkSegment id _] => if decide (id ∈ all_type_params) then {[id]} ∪ self else self
  | _ => self
  end.
Fixpoint visit_type (ty : SynType) (self : V) : V :=
  match ty with
  | StArray elem | StGroup elem | StParen elem | StPtr elem | StReference elem | StSlice elem => visit_type elem self
  | StBareFn inputs output => visit_opt visit_type output (visit_all visit_type inputs self)
  | StImplTrait bounds | StTraitObject bounds => visit_all visit_type_param_bound bounds self
  | StMacro _ => self
  | StPath qself path => visit_path path (visit_opt visit_type qself self)
  | StTuple elems => visit_all visit_type elems self
  | StInfer | StNever | StVerbatim _ => self
  end
with visit_path (path : Path) (self : V) : V :=
  match path with MkPath _ segments => visit_all visit_path_segment segments (leaf path self) end
with visit_path_segment (segment : PathSegment) (self : V) : V :=
  match segment with MkSegment _ arguments => visit_path_arguments arguments self end
with visit_path_arguments (arguments : PathArguments) (self : V) : V :=
  match arguments with
  | PaNone => self
  | PaAngleBracketed args => visit_all visit_generic_argument args self
  | PaParenthesized inputs output => visit_opt visit_type output (visit_all visit_type inputs self)
  end
with visit_generic_argument (arg : GenericArgument) (self : V) : V :=
  match arg with GaType ty | GaAssocType _ ty => visit_type ty self | GaOther _ => self end
with visit_type_param_bound (bound : TypeParamBound) (self : V) : V :=
  match bound with BdTrait path => visit_path path self | BdOther _ => self end.

Definition visit (tys : list SynType) : V := visit_all visit_type tys ∅.
End Visit.
End FindSubscriptionParams.

(** *** The paths of a type *)
Inductive in_type (q : Path) : SynType → Prop :=
| in_array t : in_type q t → in_type q (StArray t)
| in_bare_fn_input ts o t : t ∈ ts → in_type q t → in_type q (StBareFn ts o)
| in_bare_fn_output ts t : in_type q t → in_type q (StBareFn ts (Some t))
| in_group t : in_type q t → in_type q (StGroup t)
| in_impl_trait bs p : BdTrait p ∈ bs → in_path q p → in_type q (StImplTrait bs)
| in_paren t : in_type q t → in_type q (StParen t)
| in_qself t p : in_type q t → in_type q (StPath (Some t) p)
| in_type_path o p : in_path q p → in_type q (StPath o p)
| in_ptr t : in_type q t → in_type q (StPtr t)
| in_reference t : in_type q t → in_type q (StReference t)
| in_slice t : in_type q t → in_type q (StSlice t)
| in_trait_object bs p : BdTrait p ∈ bs → in_path q p → in_type q (StTraitObject bs)
| in_tuple ts t : t ∈ ts → in_type q t → in_type q (StTuple ts)
with in_path (q : Path) : Path → Prop :=
| in_here : in_path q q
| in_segments c ss i a : MkSegment i a ∈ ss → in_arguments q a → in_path q (MkPath c ss)
with in_arguments (q : Path) : PathArguments → Prop :=
| in_angle gs t : GaType t ∈ gs → in_type q t → in_arguments q (PaAngleBracketed gs)
| in_assoc gs i t : GaAssocType i t ∈ gs → in_type q t → in_arguments q (PaAngleBracketed gs)
| in_input ts o t : t ∈ ts → in_type q t → in_arguments q (PaParenthesized ts o)
| in_output ts t : in_type q t → in_arguments q (PaParenthesized ts (Some t)).
(** A type mentions a name when the name alone is one of its paths. *)
Definition mentions (id : string) (t : SynType) : Prop := ∃ a, in_type (MkPath false [MkSegment id a]) t.

Section SubscriptionParams.
Import FindSubscriptionParams.
Context (params : gset string).

(** A visit adds the parameters that have a property. *)
Definition adds (f : gset string → gset string) (C : string → Prop) : Prop :=
  ∀ self id, id ∈ f self ↔ id ∈ self ∨ (id ∈ params ∧ C id).
Lemma adds_iff f C C' : adds f C → (∀ id, C id ↔ C' id) → adds f C'.
Proof. intros H E self id. rewrite (H self id), E. done. Qed.
Lemma adds_nothing (C : string → Prop) : (∀ id, ¬ C id) → adds (λ self, self) C.
Proof. intros H self id. specialize (H id). tauto. Qed.
Lemma adds_then f g C D : adds f C → adds g D → adds (λ self, g (f self)) (λ id, C id ∨ D id).
Proof. intros Hf Hg self id. rewrite (Hg (f self) id), (Hf self id). tauto. Qed.
Lemma adds_all {A} (visit : A → gset string → gset string) C l : Forall (λ x, adds (visit x) (C x)) l →
  adds (visit_all visit l) (λ id, ∃ x, x ∈ l ∧ C x id).
Proof.
  intros H. induction H as [|x l Hx _ IH]; [apply adds_nothing; intros id (x & Hx & _); by apply elem_of_nil in Hx|].
  eapply adds_iff; [exact (adds_then _ _ _ _ Hx IH)|]. intros id. setoid_rewrite elem_of_cons. naive_solver.
Qed.
Lemma adds_opt {A} (visit : A → gset string → gset string) C o : opt_all (λ x, adds (visit x) (C x)) o →
  adds (visit_opt visit o) (λ id, ∃ x, o = Some x ∧ C x id).
Proof.
  destruct o as [x|]; cbn; intros H; [|by apply adds_nothing; intros id (x & ? & _)].
  eapply adds_iff; [exact H|]. naive_solver.
Qed.

Definition leaf_path (id : string) (a : PathArguments) : Path := MkPath false [MkSegment id a].
Definition path_mentions (p : Path) (id : string) : Prop := ∃ a, in_path (leaf_path id a) p.
Definition args_mention (a : PathArguments) (id : string) : Prop := ∃ b, in_arguments (leaf_path id b) a.
Lemma adds_leaf p : adds (leaf params p) (λ id, ∃ a, p = leaf_path id a).
Proof.
  intros self id. unfold leaf, leaf_path.
  destruct p as [[] [|[i a] [|]]]; try (split; [by left|intros [H|(_ & a' & [=])]; exact H]).
  case_decide as Hi.
  - rewrite elem_of_union, elem_of_singleton. split.
    + intros [->|H]; [right; by eauto|by left].
    + intros [H|(_ & a' & [= -> ->])]; auto.
  - split; [by left|]. intros [H|(H & a' & [= -> ->])]; done.
Qed.

Create HintDb in_type.
#[local] Hint Constructors in_type in_path in_arguments : in_type.
Ltac break_mentions :=
  repeat match goal with
  | H : ∃ _, _ |- _ => destruct H
  | H : _ ∧ _ |- _ => destruct H
  | H : _ ∨ _ |- _ => destruct H
  | H : False |- _ => destruct H
  | H : match ?x with _ => _ end |- _ => destruct x
  end; subst.
Ltac in_step :=
  intros id; unfold mentions, path_mentions, args_mention in *; split;
  [ intros; break_mentions; eauto with in_type
  | intros [b Hb]; inversion Hb; subst; eauto 8; try (eexists; split; [eassumption|cbn; eauto]) ].
Ltac mentions_nothing := apply adds_nothing; intros id [b Hb]; inversion Hb.

Lemma visit_type_adds t : adds (visit_type params t) (λ id, mentions id t).
Proof.
  revert t. apply (type_ind (λ t, adds (visit_type params t) (λ id, mentions id t))
    (λ p, adds (visit_path params p) (path_mentions p))
    (λ s, adds (visit_path_segment params s) (λ id, let 'MkSegment _ a := s in args_mention a id))
    (λ a, adds (visit_path_arguments params a) (args_mention a))
    (λ g, adds (visit_generic_argument params g)
       (λ id, match g with GaType t | GaAssocType _ t => mentions id t | GaOther _ => False end))
    (λ b, adds (visit_type_param_bound params b) (λ id, match b with BdTrait p => path_mentions p id | BdOther _ => False end)));
    intros.
  all: try (eapply adds_iff; [eassumption|in_step]).
  - eapply adds_iff; [exact (adds_then _ _ _ _ (adds_all _ _ _ H) (adds_opt _ _ _ H0))|in_step].
  - eapply adds_iff; [exact (adds_all _ _ _ H)|in_step].
  - mentions_nothing.
  - eapply adds_iff; [exact (adds_then _ _ _ _ (adds_opt _ _ _ H) H0)|in_step].
  - eapply adds_iff; [exact (adds_all _ _ _ H)|in_step].
  - eapply adds_iff; [exact (adds_all _ _ _ H)|in_step].
  - mentions_nothing.
  - mentions_nothing.
  - mentions_nothing.
  - eapply adds_iff; [exact (adds_then _ _ _ _ (adds_leaf (MkPath c ss)) (adds_all _ _ _ H))|in_step].
    + match goal with E : _ = leaf_path _ ?a |- _ => exists a; rewrite E; apply in_here end.
    + right. exists (MkSegment i a). split; [done|]. by exists b.
  - mentions_nothing.
  - eapply adds_iff; [exact (adds_all _ _ _ H)|in_step].
  - eapply adds_iff; [exact (adds_then _ _ _ _ (adds_all _ _ _ H) (adds_opt _ _ _ H0))|in_step].
  - apply adds_nothing; intros id [].
  - apply adds_nothing; intros id [].
Qed.
End SubscriptionParams.

(** ** [FindAllParams] *)

(** What [syn] visits, in its order, as far as the visitor looks at it: the name
    of a type parameter where it is declared, an identifier, a return type and a
    function argument with what is inside them. *)
Inductive Node : Type :=
| NdTypeParam (ident : string)
| NdIdent (ident : string)
| NdReturnType (children : list Node)
| NdFnArg (children : list Node).

Record FindAllParams : Type := MkFindAllParams {
  fa_trait_generics : gset string;
  fa_input_params : gset string;
  fa_ret_params : gset string;
  fa_sub_params : gset string;
  fa_visiting_return_type : bool;
  fa_visiting_fn_arg : bool
}.
Module FindAllParams.
Definition new (sub_params : gset string) : FindAllParams := MkFindAllParams ∅ ∅ ∅ sub_params false false.
Definition set_returning (b : bool) (s : FindAllParams) : FindAllParams :=
  MkFindAllParams (fa_trait_generics s) (fa_input_params s) (fa_ret_params s) (fa_sub_params s) b (fa_visiting_fn_arg s).
Definition set_in_arg (b : bool) (s : FindAllParams) : FindAllParams :=
  MkFindAllParams (fa_trait_generics s) (fa_input_params s) (fa_ret_params s) (fa_sub_params s)
    (fa_visiting_return_type s) b.
Definition visit_type_param (ident : string) (s : FindAllParams) : FindAllParams :=
  MkFindAllParams ({[ident]} ∪ fa_trait_generics s) (fa_input_params s) (fa_ret_params s) (fa_sub_params s)
    (fa_visiting_return_type s) (fa_visiting_fn_arg s).
Definition visit_ident (ident : string) (s : FindAllParams) : FindAllParams :=
  if decide (ident ∈ fa_trait_generics s) then
    MkFindAllParams (fa_trait_generics s)
      (if fa_visiting_fn_arg s then {[ident]} ∪ fa_input_params s else fa_input_params s)
      (if fa_visiting_return_type s then {[ident]} ∪ fa_ret_params s else fa_ret_params s)
      (fa_sub_params s) (fa_visiting_return_type s) (fa_visiting_fn_arg s)
  else s.
(** A visit of a return type, or an argument, sets its flag and clears it. *)
Fixpoint visit_node (n : Node) (s : FindAllParams) : FindAllParams :=
  match n with
  | NdTypeParam ident => visit_type_param ident s
  | NdIdent ident => visit_ident ident s
  | NdReturnType children => set_returning false (foldl (λ s n, visit_node n s) (set_returning true s) children)
  | NdFnArg children => set_in_arg false (foldl (λ s n, visit_node n s) (set_in_arg true s) children)
  end.
Definition visit_nodes (ns : list Node) (s : FindAllParams) : FindAllParams := foldl (λ s n, visit_node n s) s ns.
End FindAllParams.

(** A trait: its type parameters, its where clause, and what [syn] visits. *)
Inductive WherePredicate : Type :=
| WpType (lifetimes : option string) (bounded_ty : SynType) (bounds : list string)
| WpOther (tokens : string).
Record TraitSyntax : Type := MkTraitSyntax {
  ts_type_params : list string;
  ts_where_clause : option (list WherePredicate);
  ts_nodes : list Node
}.
Definition visit_trait (item : TraitSyntax) (sub_tys : list SynType) : FindAllParams :=
  let type_params := list_to_set (ts_type_params item) in
  FindAllParams.visit_nodes (ts_nodes item) (FindAllParams.new (FindSubscriptionParams.visit type_params sub_tys)).

(** ** [generate_where_clause] *)
Definition SERIALIZE : string := "jsonrpsee::core::Serialize".
Definition DESERIALIZE_OWNED : string := "jsonrpsee::core::DeserializeOwned".
Definition CLONE : string := "std::clone::Clone".

(** The bounds of the trait for a parameter: those of the predicates on it. *)
Definition is_ident (ident : string) (ty : SynType) : bool :=
  match ty with StPath None (MkPath false [MkSegment i PaNone]) => bool_decide (i = ident) | _ => false end.
Definition declared_bounds (item : TraitSyntax) (ident : string) : list string :=
  default [] (ts_where_clause item) ≫=
    λ p, match p with WpType _ ty bounds => if is_ident ident ty then bounds else [] | WpOther _ => [] end.
Definition push_if (b : bool) (bound : string) (bounds : list string) : list string :=
  if b then bounds ++ [bound] else bounds.
Definition param_bounds (v : FindAllParams) (is_client : bool) (ident : string) : list string :=
  let input := bool_decide (ident ∈ fa_input_params v) in
  let ret := bool_decide (ident ∈ fa_ret_params v) in
  let sub := bool_decide (ident ∈ fa_sub_params v) in
  let bounds := ["Send"; "Sync"; "'static"] in
  if is_client then push_if (ret || sub) DESERIALIZE_OWNED (push_if input SERIALIZE bounds)
  else push_if (ret || sub) SERIALIZE (push_if ret CLONE (push_if input DESERIALIZE_OWNED bounds)).
Definition generate_where_clause (item : TraitSyntax) (sub_tys : list SynType) (is_client : bool)
    (bounds : option (list WherePredicate)) : list WherePredicate :=
  let visitor := visit_trait item sub_tys in
  match bounds with
  | Some custom_bounds => default [] (ts_where_clause item) ++ custom_bounds
  | None =>
    (λ ident, WpType None (StPath None (ident_path ident))
                (param_bounds visitor is_client ident ++ declared_bounds item ident)) <$> ts_type_params item
  end.

(** ** The crates the generated paths start with *)
Inductive FoundCrate : Type := FcItself | FcName (name : string).
Section Crates.
(** [proc_macro_crate::crate_name]; an error is its text. *)
Context (crate_name : string → Result string FoundCrate).
Definition deriving_inside : string := "Deriving rpc methods in any of the `jsonrpsee` crates is not supported".
Fixpoint first_crate (crate_names : list string) (err : option string) : Result MacroError string :=
  match crate_names with
  | [] =>
    match err with
    | Some e => Err (SynError e)
    | None => Err (MacroPanic "Crate names must not be empty; this is a bug please open an issue")
    end
  | name :: crate_names =>
    match crate_name name with
    | Ok (FcName name) => Ok name
    | Ok FcItself => first_crate crate_names (Some deriving_inside)
    | Err e => first_crate crate_names (Some e)
    end
  end.
Definition find_jsonrpsee_crate (crate_names : list string) : Result MacroError string :=
  match crate_name "jsonrpsee" with
  | Ok (FcName name) => Ok name
  | Ok FcItself => Err (MacroPanic "Deriving RPC methods in any of the `jsonrpsee` crates is not supported")
  | Err _ => first_crate crate_names None
  end.
Definition find_jsonrpsee_client_crate : Result MacroError string :=
  find_jsonrpsee_crate ["jsonrpsee-http-client"; "jsonrpsee-ws-client"; "jsonrpsee-wasm-client"].
Definition find_jsonrpsee_server_crate : Result MacroError string := find_jsonrpsee_crate ["jsonrpsee-server"].
End Crates.

(** ** [return_result_type]: a type, or the text of a [compile_error!] *)
Section ReturnType.
(** [jrps_client_item(core::client::Error)]. *)
Context (err_ty : string).
Definition no_path : string := "Expecting something like 'Result<Foo, Err>' here. (1)".
Definition no_segment : string := "Expecting this path to end in something like 'Result<Foo, Err>'".
Definition no_args : string := "Expecting something like 'Result<Foo, Err>' here, but got no generic args (eg no '<Foo,Err>').".
Definition result_args : string := "Result must be have two arguments".
Definition rpc_result_args : string := "RpcResult must have one argument".
Definition payload_args : string := "ResponsePayload must have exactly two arguments".
Definition other_type : string := "The return type must be Result<T, Error>, RpcResult<T> or ResponsePayload<'static, T>".

Definition error_arg : GenericArgument := GaType (StVerbatim err_ty).
(** [core::result::Result<#ret_ty, #err_ty>] *)
Definition core_result (ret_ty : GenericArgument) : SynType :=
  StPath None (MkPath false [MkSegment "core" PaNone; MkSegment "result" PaNone;
                             MkSegment "Result" (PaAngleBracketed [ret_ty; error_arg])]).
Definition replace_last (x : GenericArgument) (args : list GenericArgument) : list GenericArgument :=
  take (length args - 1) args ++ [x].
Definition return_result_type (ty : SynType) : Result string SynType :=
  match ty with
  | StPath qself (MkPath leading_colon segments) =>
    match last segments with
    | None => Err no_segment
    | Some (MkSegment ident (PaAngleBracketed args)) =>
      if decide (ident = "Result") then
        if decide (length args ≠ 2) then Err result_args
        else Ok (StPath qself (MkPath leading_colon
                   (take (length segments - 1) segments ++ [MkSegment ident (PaAngleBracketed (replace_last error_arg args))])))
      else if decide (ident = "RpcResult") then
        if decide (length args ≠ 1) then Err rpc_result_args
        else match last args with Some ret_ty => Ok (core_result ret_ty) | None => Err rpc_result_args end
      else if decide (ident = "ResponsePayload") then
        if decide (length args ≠ 2) then Err payload_args
        else match last args with Some ret_ty => Ok (core_result ret_ty) | None => Err payload_args end
      else Err other_type
    | Some _ => Err no_args
    end
  | _ => Err no_path
  end.
End ReturnType.

(** ** What is sent and what is received *)

Section NodeInd.
Context (P : Node → Prop) (HParam : ∀ i, P (NdTypeParam i)) (HIdent : ∀ i, P (NdIdent i))
  (HRet : ∀ ns, Forall P ns → P (NdReturnType ns)) (HArg : ∀ ns, Forall P ns → P (NdFnArg ns)).
Fixpoint node_ind (n : Node) : P n :=
  match n with
  | NdTypeParam i => HParam i
  | NdIdent i => HIdent i
  | NdReturnType ns => HRet ns (all_of node_ind ns)
  | NdFnArg ns => HArg ns (all_of node_ind ns)
  end.
End NodeInd.

(** The walk over a trait, as a text: where a region, an argument or a return type,
    begins and ends, the identifiers in between, and the type parameters where they
    are declared. *)
Inductive Region : Type := RgArg | RgReturn.
#[export] Instance region_eq_dec : EqDecision Region.
Proof. solve_decision. Defined.
Inductive Token : Type :=
| TkParam (ident : string)
| TkIdent (ident : string)
| TkBegin (r : Region)
| TkEnd (r : Region).
#[export] Instance token_eq_dec : EqDecision Token.
Proof. solve_decision. Defined.
Definition region (r : Region) (ts : list Token) : list Token := TkBegin r :: ts ++ [TkEnd r].
Fixpoint tokens (n : Node) : list Token :=
  match n with
  | NdTypeParam i => [TkParam i]
  | NdIdent i => [TkIdent i]
  | NdReturnType ns => region RgReturn (ns ≫= tokens)
  | NdFnArg ns => region RgArg (ns ≫= tokens)
  end.
(** At the end of [pre] a region has begun, and none has ended since. *)
Definition inside (r : Region) (pre : list Token) : Prop :=
  ∃ l m, pre = l ++ TkBegin r :: m ∧ TkEnd r ∉ m.
(** A parameter is met in a region: after its declaration its name comes up inside. *)
Definition met (r : Region) (ts : list Token) (id : string) : Prop :=
  ∃ pre post, ts = pre ++ TkIdent id :: post ∧ TkParam id ∈ pre ∧ inside r pre.

Lemma inside_snoc r ts t : inside r (ts ++ [t]) ↔ t = TkBegin r ∨ t ≠ TkEnd r ∧ inside r ts.
Proof.
  split.
  - intros (l & m & E & Hm). destruct m as [|t' m _] using rev_ind.
    + apply app_inj_tail in E as [_ ->]. by left.
    + rewrite app_comm_cons, app_assoc in E. apply app_inj_tail in E as [-> ->].
      rewrite elem_of_app, list_elem_of_singleton in Hm. right. split; [intros ->; tauto|]. exists l, m. tauto.
  - intros [->|(Ht & l & m & -> & Hm)]; [exists ts, []; split; [done|apply not_elem_of_nil]|].
    exists l, (m ++ [t]). rewrite <-app_assoc. split; [done|]. rewrite elem_of_app, list_elem_of_singleton. intros [|]; congruence.
Qed.
Lemma met_snoc r ts t id : met r (ts ++ [t]) id ↔ met r ts id ∨ t = TkIdent id ∧ TkParam id ∈ ts ∧ inside r ts.
Proof.
  split.
  - intros (pre & post & E & Hp & Hi). destruct post as [|t' post _] using rev_ind.
    + apply app_inj_tail in E as [-> ->]. by right.
    + rewrite app_comm_cons, app_assoc in E. apply app_inj_tail in E as [-> _]. left. by exists pre, post.
  - intros [(pre & post & -> & H)|(-> & H)]; [exists pre, (post ++ [t]); by rewrite <-app_assoc|by exists ts, []].
Qed.

(** *** What the visitor collects *)
Import FindAllParams.
Definition visit_token (t : Token) (s : FindAllParams) : FindAllParams :=
  match t with
  | TkParam i => visit_type_param i s
  | TkIdent i => visit_ident i s
  | TkBegin RgReturn => set_returning true s | TkEnd RgReturn => set_returning false s
  | TkBegin RgArg => set_in_arg true s | TkEnd RgArg => set_in_arg false s
  end.
Definition visit_tokens (ts : list Token) (s : FindAllParams) : FindAllParams := foldl (λ s t, visit_token t s) s ts.
Lemma visit_tokens_app ts1 ts2 s : visit_tokens (ts1 ++ ts2) s = visit_tokens ts2 (visit_tokens ts1 s).
Proof. apply foldl_app. Qed.
Lemma visit_nodes_tokens ns : Forall (λ n, ∀ s, visit_node n s = visit_tokens (tokens n) s) ns →
  ∀ s, visit_nodes ns s = visit_tokens (ns ≫= tokens) s.
Proof.
  induction 1 as [|n ns Hn _ IH]; intros s; [done|].
  change (visit_nodes ns (visit_node n s) = visit_tokens (tokens n ++ (ns ≫= tokens)) s). by rewrite visit_tokens_app, <-Hn, IH.
Qed.
Lemma visit_node_tokens n s : visit_node n s = visit_tokens (tokens n) s.
Proof.
  revert s. apply (node_ind (λ n, ∀ s, visit_node n s = visit_tokens (tokens n) s)); clear n; [done|done|intros ns H s..].
  - change (set_returning false (visit_nodes ns (set_returning true s)) =
      visit_tokens ((ns ≫= tokens) ++ [TkEnd RgReturn]) (set_returning true s)). by rewrite visit_tokens_app, <-(visit_nodes_tokens ns H).
  - change (set_in_arg false (visit_nodes ns (set_in_arg true s)) =
      visit_tokens ((ns ≫= tokens) ++ [TkEnd RgArg]) (set_in_arg true s)). by rewrite visit_tokens_app, <-(visit_nodes_tokens ns H).
Qed.

(** The state of the visitor after a part of the walk. *)
Record collected (subs : gset string) (ts : list Token) (s : FindAllParams) : Prop := MkCollected {
  co_generics : ∀ id, id ∈ fa_trait_generics s ↔ TkParam id ∈ ts;
  co_returning : fa_visiting_return_type s = true ↔ inside RgReturn ts;
  co_in_arg : fa_visiting_fn_arg s = true ↔ inside RgArg ts;
  co_inputs : ∀ id, id ∈ fa_input_params s ↔ met RgArg ts id;
  co_rets : ∀ id, id ∈ fa_ret_params s ↔ met RgReturn ts id;
  co_subs : fa_sub_params s = subs
}.
Lemma met_nil r id : ¬ met r [] id.
Proof. by intros ([] & ? & ? & _). Qed.
Lemma inside_nil r : ¬ inside r [].
Proof. by intros ([] & ? & ? & _). Qed.
Lemma visited_token subs ts t s : collected subs ts s → collected subs (ts ++ [t]) (visit_token t s).
Proof.
  intros [G R A I T S]. destruct t as [i|i|r|r].
  2: { cbn [visit_token]. unfold visit_ident. destruct (decide (i ∈ fa_trait_generics s)) as [Hi|Hi]; rewrite G in Hi.
       all: split; try intros id; rewrite ?elem_of_app, ?list_elem_of_singleton, ?inside_snoc, ?met_snoc; cbn; try done.
       all: try destruct (fa_visiting_fn_arg s); try destruct (fa_visiting_return_type s);
         rewrite ?elem_of_union, ?elem_of_singleton, ?G, ?I, ?T, <-?R, <-?A; intuition congruence. }
  all: split; try intros id; rewrite ?elem_of_app, ?list_elem_of_singleton, ?inside_snoc, ?met_snoc.
  all: try destruct r; cbn; rewrite ?elem_of_union, ?elem_of_singleton, ?G, ?R, ?A, ?I, ?T; try done; intuition congruence.
Qed.
Lemma visited_walk subs ts : collected subs ts (visit_tokens ts (new subs)).
Proof.
  induction ts as [|t ts IH] using rev_ind; [|rewrite visit_tokens_app; by apply visited_token].
  split; try intros id; cbn; rewrite ?elem_of_empty; (split; [done|]) || done.
  all: first [by intros ?%elem_of_nil | by intros ?%inside_nil | by intros ?%met_nil].
Qed.
Lemma visit_trait_spec item sub_tys id : id ∈ ts_type_params item →
  let v := visit_trait item sub_tys in
  let walk := ts_nodes item ≫= tokens in
  (id ∈ fa_input_params v ↔ met RgArg walk id) ∧ (id ∈ fa_ret_params v ↔ met RgReturn walk id) ∧
  (id ∈ fa_sub_params v ↔ ∃ ty, ty ∈ sub_tys ∧ mentions id ty).
Proof.
  intros Hid. cbv zeta. unfold visit_trait. rewrite visit_nodes_tokens by (by apply Forall_true, visit_node_tokens).
  destruct (visited_walk (FindSubscriptionParams.visit (list_to_set (ts_type_params item)) sub_tys) (ts_nodes item ≫= tokens))
    as [_ _ _ I T ->]. split; [done|]. split; [done|].
  pose proof (adds_all (list_to_set (ts_type_params item)) _ (λ t id, mentions id t) sub_tys
    (Forall_true _ _ (visit_type_adds (list_to_set (ts_type_params item)))) ∅ id) as E.
  unfold FindSubscriptionParams.visit. rewrite E. set_solver.
Qed.

(** *** The walk and the tree *)

(** The identifiers of a node, and those inside its regions of one kind. *)
Fixpoint idents (n : Node) : list string :=
  match n with
  | NdTypeParam _ => []
  | NdIdent i => [i]
  | NdReturnType ns | NdFnArg ns => ns ≫= idents
  end.
Definition is_region (r : Region) (n : Node) : bool :=
  match n, r with NdReturnType _, RgReturn | NdFnArg _, RgArg => true | _, _ => false end.
Fixpoint idents_in (r : Region) (n : Node) : list string :=
  match n with
  | NdReturnType ns | NdFnArg ns => if is_region r n then ns ≫= idents else ns ≫= idents_in r
  | _ => []
  end.
(** No region of the kind is in a node; none is inside another one. *)
Fixpoint free_of (r : Region) (n : Node) : bool :=
  match n with NdReturnType ns | NdFnArg ns => negb (is_region r n) && forallb (free_of r) ns | _ => true end.
Fixpoint unnested (r : Region) (n : Node) : bool :=
  match n with
  | NdReturnType ns | NdFnArg ns => if is_region r n then forallb (free_of r) ns else forallb (unnested r) ns
  | _ => true
  end.

Lemma inside_app r ts1 ts2 : inside r (ts1 ++ ts2) ↔ inside r ts2 ∨ inside r ts1 ∧ TkEnd r ∉ ts2.
Proof.
  induction ts2 as [|t ts2 IH] using rev_ind.
  - rewrite app_nil_r. pose proof (inside_nil r). rewrite elem_of_nil. tauto.
  - rewrite app_assoc, !inside_snoc, IH, elem_of_app, list_elem_of_singleton.
    destruct (decide (t = TkEnd r)), (decide (t = TkBegin r)); intuition congruence.
Qed.
Lemma inside_region r q ts : inside r (region q ts) ↔ q ≠ r ∧ inside r ts.
Proof.
  unfold region. rewrite app_comm_cons, inside_snoc. change (TkBegin q :: ts) with ([TkBegin q] ++ ts). rewrite inside_app.
  assert (inside r [TkBegin q] ↔ q = r) as ->.
  { change [TkBegin q] with ([] ++ [TkBegin q]). rewrite inside_snoc. pose proof (inside_nil r).
    split; [intros [[=]|[]]; done|intros ->; by left]. }
  pose proof (inside_nil r). split; [|intros [Hq Hi]; right; split; [congruence|by left]].
  intros [[=]|(Hq & [Hi|[-> Hi]])]; [|done]. split; [congruence|done].
Qed.
Lemma bind_not_inside r ns : Forall (λ n, ¬ inside r (tokens n)) ns → ¬ inside r (ns ≫= tokens).
Proof.
  induction 1 as [|n ns Hn _ IH]; [apply inside_nil|]. cbn. rewrite inside_app. tauto.
Qed.
Lemma not_inside r n : ¬ inside r (tokens n).
Proof.
  revert n. apply (node_ind (λ n, ¬ inside r (tokens n))); cbn.
  - intros i [[=]|[_ []%inside_nil]]%(inside_snoc r []).
  - intros i [[=]|[_ []%inside_nil]]%(inside_snoc r []).
  - intros ns H. rewrite inside_region. intros [_ []%bind_not_inside]. done.
  - intros ns H. rewrite inside_region. intros [_ []%bind_not_inside]. done.
Qed.

Lemma ident_token id n : TkIdent id ∈ tokens n ↔ id ∈ idents n.
Proof.
  revert n. assert (∀ ns, Forall (λ n, TkIdent id ∈ tokens n ↔ id ∈ idents n) ns →
    TkIdent id ∈ ns ≫= tokens ↔ id ∈ ns ≫= idents) as Hb.
  { intros ns H. rewrite !list_elem_of_bind. rewrite Forall_forall in H. naive_solver. }
  apply (node_ind (λ n, TkIdent id ∈ tokens n ↔ id ∈ idents n)); cbn.
  - intros i. rewrite list_elem_of_singleton, elem_of_nil. naive_solver.
  - intros i. rewrite !list_elem_of_singleton. naive_solver.
  - intros ns H. rewrite <-Hb by done. unfold region. rewrite elem_of_cons, elem_of_app, list_elem_of_singleton. naive_solver.
  - intros ns H. rewrite <-Hb by done. unfold region. rewrite elem_of_cons, elem_of_app, list_elem_of_singleton. naive_solver.
Qed.
Lemma idents_token id ns : TkIdent id ∈ ns ≫= tokens ↔ id ∈ ns ≫= idents.
Proof. rewrite !list_elem_of_bind. by setoid_rewrite ident_token. Qed.

(** A name comes up inside a region, declared or not. *)
Definition occurs (r : Region) (ts : list Token) (id : string) : Prop :=
  ∃ pre post, ts = pre ++ TkIdent id :: post ∧ inside r pre.
Lemma occurs_app r ts1 ts2 id : ¬ inside r ts1 → occurs r (ts1 ++ ts2) id ↔ occurs r ts1 id ∨ occurs r ts2 id.
Proof.
  intros Hn. split.
  - intros (pre & post & E & Hi). apply app_eq_app in E as (k & [[-> Ek]|[-> ->]]).
    + destruct k as [|t k]; cbn in Ek; [by rewrite app_nil_r in Hn|]. injection Ek as <- ->. left. by exists pre, k.
    + right. exists k, post. split; [done|]. apply inside_app in Hi as [?|[? _]]; done.
  - intros [(pre & post & -> & Hi)|(pre & post & -> & Hi)].
    + exists pre, (post ++ ts2). by rewrite <-app_assoc.
    + exists (ts1 ++ pre), post. rewrite <-app_assoc, inside_app. auto.
Qed.
Lemma occurs_bind r ns id : occurs r (ns ≫= tokens) id ↔ ∃ n, n ∈ ns ∧ occurs r (tokens n) id.
Proof.
  induction ns as [|n ns IH]; cbn.
  - split; [by intros ([] & ? & ? & _)|by intros (? & ?%elem_of_nil & _)].
  - rewrite occurs_app, IH by apply not_inside. setoid_rewrite elem_of_cons. naive_solver.
Qed.
Lemma occurs_region_ne r q ts id : q ≠ r → occurs r (region q ts) id ↔ occurs r ts id.
Proof.
  intros Hq. split.
  - intros ([|t pre] & post & [= <- E] & Hi).
    destruct post as [|t post _] using rev_ind; [by apply app_inj_tail in E as [_ [=]]|].
    rewrite app_comm_cons, app_assoc in E. apply app_inj_tail in E as [-> _]. exists pre, post. split; [done|].
    apply (inside_app r [_]) in Hi as [Hi|[Hi _]]; [done|]. change [TkBegin q] with ([] ++ [TkBegin q]) in Hi.
    apply inside_snoc in Hi as [[= ->]|[_ []%inside_nil]]. done.
  - intros (pre & post & -> & Hi). exists (TkBegin q :: pre), (post ++ [TkEnd q]). unfold region.
    rewrite <-app_assoc. split; [done|]. apply (inside_app r [_]). by left.
Qed.
Lemma occurs_region r ts id : occurs r (region r ts) id → TkIdent id ∈ ts.
Proof.
  intros (pre & post & E & _). assert (TkIdent id ∈ region r ts) as H by (rewrite E; set_solver).
  unfold region in H. rewrite elem_of_cons, elem_of_app, list_elem_of_singleton in H. naive_solver.
Qed.
Lemma region_occurs r ts id : TkEnd r ∉ ts → TkIdent id ∈ ts → occurs r (region r ts) id.
Proof.
  intros Hn (pre & post & ->)%list_elem_of_split. exists (TkBegin r :: pre), (post ++ [TkEnd r]). unfold region.
  rewrite <-app_assoc. split; [done|]. exists [], pre. set_solver.
Qed.
Lemma free_of_token r n : free_of r n = true → TkEnd r ∉ tokens n.
Proof.
  revert n. assert (∀ ns, Forall (λ n, free_of r n = true → TkEnd r ∉ tokens n) ns →
    forallb (free_of r) ns = true → TkEnd r ∉ ns ≫= tokens) as Hb.
  { intros ns H Hf. rewrite list_elem_of_bind. intros (n & Hin & Hn). rewrite Forall_forall in H.
    apply (H n); [done| |done]. rewrite forallb_forall in Hf. apply Hf. by apply list_elem_of_In. }
  apply (node_ind (λ n, free_of r n = true → TkEnd r ∉ tokens n)); cbn;
    [intros i _; by rewrite list_elem_of_singleton|intros i _; by rewrite list_elem_of_singleton
    |intros ns H [Hr Hf]%andb_true_iff..];
    unfold region; rewrite elem_of_cons, elem_of_app, list_elem_of_singleton;
    intros [[=]|[Hin|[= ->]]]; try done; by eapply (Hb ns).
Qed.

(** A name that is met in a region is one of its identifiers in the tree; and the
    other way round where no region of the kind is inside another one. *)
Lemma occurs_idents_in r n id : occurs r (tokens n) id → id ∈ idents_in r n.
Proof.
  revert n. apply (node_ind (λ n, occurs r (tokens n) id → id ∈ idents_in r n)).
  1,2: intros i (pre & post & E & Hi); destruct pre as [|? [|]]; cbn in E; try done; by apply inside_nil in Hi.
  all: intros ns H; cbn [tokens idents_in is_region];
    assert (occurs r (ns ≫= tokens) id → id ∈ ns ≫= idents_in r) as Hb
      by (rewrite occurs_bind, list_elem_of_bind; rewrite Forall_forall in H; naive_solver);
    destruct r; cbn;
    first [by intros ?%occurs_region%idents_token | rewrite occurs_region_ne by done; exact Hb].
Qed.
Lemma idents_in_occurs r n id : unnested r n = true → id ∈ idents_in r n → occurs r (tokens n) id.
Proof.
  revert n. apply (node_ind (λ n, unnested r n = true → id ∈ idents_in r n → occurs r (tokens n) id)).
  1,2: intros i _ Hi; by apply elem_of_nil in Hi.
  all: intros ns H; cbn [tokens idents_in is_region unnested];
    assert (forallb (unnested r) ns = true → id ∈ ns ≫= idents_in r → occurs r (ns ≫= tokens) id) as Hb
      by (rewrite occurs_bind, list_elem_of_bind, forallb_forall; rewrite Forall_forall in H;
          intros Hf (n & Hn & Hin); exists n; split; [done|]; apply H; [done|by apply Hf, list_elem_of_In|done]);
    assert (forallb (free_of r) ns = true → TkEnd r ∉ ns ≫= tokens) as Hfr
      by (rewrite list_elem_of_bind, forallb_forall; intros Hf (n & Hn & Hin);
          by apply (free_of_token r n); [apply Hf, list_elem_of_In|]);
    destruct r; cbn;
    first [intros Hf Hi; by apply region_occurs; [apply Hfr|apply idents_token]
          | rewrite occurs_region_ne by done; exact Hb].
Qed.
Lemma met_in_tree r ns id : met r (ns ≫= tokens) id → id ∈ ns ≫= idents_in r.
Proof.
  intros (pre & post & E & _ & Hi). assert (occurs r (ns ≫= tokens) id) as (n & Hn & Ho)%occurs_bind by (by exists pre, post).
  apply list_elem_of_bind. exists n. split; [by apply occurs_idents_in|done].
Qed.
Lemma tree_is_met r head body id : NdTypeParam id ∈ head → forallb (unnested r) body = true →
  id ∈ body ≫= idents_in r → met r ((head ++ body) ≫= tokens) id.
Proof.
  intros Hp Hu (n & Hi & Hn)%list_elem_of_bind. rewrite forallb_forall in Hu.
  assert (occurs r (body ≫= tokens) id) as (pre & post & E & Hin).
  { apply occurs_bind. exists n. split; [done|]. apply idents_in_occurs; [by apply Hu, list_elem_of_In|done]. }
  rewrite bind_app, E. exists ((head ≫= tokens) ++ pre), post. rewrite <-app_assoc, inside_app. split; [done|]. split; [|by left].
  apply elem_of_app. left. apply list_elem_of_bind. exists (NdTypeParam id). split; [by left|done].
Qed.
Lemma elem_of_push_if b x bound bounds : x ∈ push_if b bound bounds ↔ x ∈ bounds ∨ b = true ∧ x = bound.
Proof. destruct b; cbn; [rewrite elem_of_app, list_elem_of_singleton|]; naive_solver. Qed.

(** C40: the bounds the generated code asks of the type parameters of a trait, for
    every trait, in whatever order it is walked over.  There is one predicate for
    each parameter, in their order, with the bounds the trait declares for it.  The
    client serialises what is met in the arguments of methods, and deserialises what
    is met in return types and in the items of subscriptions; the server the other
    way round, and it also clones what it returns; nothing else is asked.  Bounds
    given in the attribute replace all that.  Met in a return type, or an argument,
    means: after its declaration, with one begun and none ended since.  Such a
    parameter does occur in one.  The converse, that a parameter that occurs in one
    is met, holds where no return type is inside a return type, no argument inside
    an argument, and may fail otherwise ([nested_return_type_forgotten]). *)
Theorem where_clause_exact (item : TraitSyntax) (sub_tys : list SynType) (is_client : bool) :
  let walk := ts_nodes item ≫= tokens in
  (∀ custom, generate_where_clause item sub_tys is_client (Some custom) = default [] (ts_where_clause item) ++ custom) ∧
  length (generate_where_clause item sub_tys is_client None) = length (ts_type_params item) ∧
  (∀ i id, ts_type_params item !! i = Some id →
   let in_messages := met RgReturn walk id ∨ ∃ ty, ty ∈ sub_tys ∧ mentions id ty in
   let sent := if is_client then met RgArg walk id else in_messages in
   let received := if is_client then in_messages else met RgArg walk id in
   ∃ bounds, generate_where_clause item sub_tys is_client None !! i = Some (WpType None (StPath None (ident_path id)) bounds) ∧
     ∀ bound, bound ∈ bounds ↔
       bound ∈ ["Send"; "Sync"; "'static"] ∨ (bound = SERIALIZE ∧ sent) ∨ (bound = DESERIALIZE_OWNED ∧ received) ∨
       (bound = CLONE ∧ is_client = false ∧ met RgReturn walk id) ∨ bound ∈ declared_bounds item id) ∧
  (∀ r id, met r walk id → id ∈ ts_nodes item ≫= idents_in r) ∧
  (∀ r id head body, ts_nodes item = head ++ body → NdTypeParam id ∈ head → forallb (unnested r) body = true →
   id ∈ body ≫= idents_in r → met r walk id).
Proof.
  intros walk. split; [done|]. split; [apply length_fmap|]. split; [|split].
  - intros i id Hi in_messages sent received.
    destruct (visit_trait_spec item sub_tys id) as (HI & HR & HS); [by eapply list_elem_of_lookup_2|].
    eexists. split; [unfold generate_where_clause; rewrite list_lookup_fmap, Hi; reflexivity|].
    intros bound. rewrite elem_of_app. unfold param_bounds, sent, received, in_messages, walk.
    revert HI HR HS. generalize (met RgArg (ts_nodes item ≫= tokens) id), (met RgReturn (ts_nodes item ≫= tokens) id),
      (∃ ty, ty ∈ sub_tys ∧ mentions id ty). intros PA PR PS HI HR HS.
    destruct is_client; rewrite !elem_of_push_if, ?orb_true_iff, !bool_decide_eq_true, HI, HR, HS; clear; intuition congruence.
  - intros r id. apply met_in_tree.
  - intros r id head body E. unfold walk. rewrite E. apply tree_is_met.
Qed.

(** ** Traits *)

(** [fn call(&self, a: A) -> RpcResult<B>] and a subscription of [Vec<C>]. *)
Definition ty_param (id : string) : SynType := StPath None (ident_path id).
Definition ty_vec (t : SynType) : SynType := StPath None (MkPath false [MkSegment "Vec" (PaAngleBracketed [GaType t])]).
Definition ex_body : list Node :=
  [NdIdent "call"; NdFnArg []; NdFnArg [NdIdent "a"; NdIdent "A"]; NdReturnType [NdIdent "RpcResult"; NdIdent "B"];
   NdIdent "sub"; NdFnArg []; NdReturnType [NdIdent "SubscriptionResult"]].
Definition ex_syntax : TraitSyntax :=
  MkTraitSyntax ["A"; "B"; "C"] None (NdIdent "RpcTrait" :: (NdTypeParam <$> ["A"; "B"; "C"]) ++ ex_body).

(** [C] is an item of the subscription, [B] is returned. *)
Lemma where_clause_exact_witness :
  ∃ bounds bounds', generate_where_clause ex_syntax [ty_vec (ty_param "C")] true None !! 2 = Some (WpType None (ty_param "C") bounds) ∧
    generate_where_clause ex_syntax [ty_vec (ty_param "C")] true None !! 1 = Some (WpType None (ty_param "B") bounds') ∧
    DESERIALIZE_OWNED ∈ bounds ∧ DESERIALIZE_OWNED ∈ bounds'.
Proof.
  destruct (where_clause_exact ex_syntax [ty_vec (ty_param "C")] true) as (_ & _ & H & _ & Hm).
  destruct (H 2 "C" eq_refl) as (bounds & Hb & Hin), (H 1 "B" eq_refl) as (bounds' & Hb' & Hin').
  exists bounds, bounds'. split; [exact Hb|]. split; [exact Hb'|]. split; [apply Hin|apply Hin'].
  - right. right. left. split; [reflexivity|]. right. exists (ty_vec (ty_param "C")). split; [by left|].
    exists PaNone. apply in_type_path. eapply in_segments; [by left|]. eapply in_angle; [by left|]. apply in_type_path, in_here.
  - right. right. left. split; [reflexivity|]. left.
    apply (Hm RgReturn "B" (NdIdent "RpcTrait" :: (NdTypeParam <$> ["A"; "B"; "C"])) ex_body); [reflexivity|cbn; right; right; by left|reflexivity|].
    vm_compute. right. by left.
Defined.
Example generated_bounds :
  generate_where_clause ex_syntax [ty_vec (ty_param "C")] false None =
    [WpType None (ty_param "A") ["Send"; "Sync"; "'static"; DESERIALIZE_OWNED];
     WpType None (ty_param "B") ["Send"; "Sync"; "'static"; CLONE; SERIALIZE];
     WpType None (ty_param "C") ["Send"; "Sync"; "'static"; SERIALIZE]].
Proof. vm_compute. reflexivity. Qed.

(** After a return type inside a return type the visitor takes itself to be
    outside: of [fn f(&self) -> Result<Box<dyn Fn() -> A>, B>] it misses [B]. *)
Example nested_return_type_forgotten :
  let body := [NdIdent "f"; NdFnArg [];
    NdReturnType [NdIdent "Result"; NdIdent "Box"; NdIdent "Fn"; NdReturnType [NdIdent "A"]; NdIdent "B"]] in
  let item := MkTraitSyntax ["A"; "B"] None (NdIdent "Rpc" :: (NdTypeParam <$> ["A"; "B"]) ++ body) in
  "B" ∈ body ≫= idents_in RgReturn ∧
  generate_where_clause item [] true None =
    [WpType None (ty_param "A") ["Send"; "Sync"; "'static"; DESERIALIZE_OWNED];
     WpType None (ty_param "B") ["Send"; "Sync"; "'static"]].
Proof. split; [cbn; set_solver|vm_compute; reflexivity]. Qed.

(** A predicate of the trait whose subject is not a parameter alone, as
    [T::Hash: Debug], is dropped; it is kept when bounds are given. *)
Example associated_type_predicate_dropped :
  let p := WpType None (StPath None (MkPath false [MkSegment "T" PaNone; MkSegment "Hash" PaNone])) ["Debug"] in
  let item := MkTraitSyntax ["T"] (Some [p]) [NdIdent "Rpc"; NdTypeParam "T"] in
  generate_where_clause item [] true None = [WpType None (ty_param "T") ["Send"; "Sync"; "'static"]] ∧
  generate_where_clause item [] true (Some []) = [p].
Proof. vm_compute. auto. Qed.

(** ** Crates and return types *)
Section CratesAndReturns.

(** The crate that is found is the facade or, if that is not there, the first of
    the names that is; in a crate that is not one of jsonrpsee's own there is no
    panic. *)
Lemma first_crate_found crate_name names err c : first_crate crate_name names err = Ok c →
  ∃ i name, names !! i = Some name ∧ crate_name name = Ok (FcName c) ∧
    ∀ j n d, j < i → names !! j = Some n → crate_name n ≠ Ok (FcName d).
Proof.
  revert err. induction names as [|n names IH]; intros err; cbn; [by destruct err|].
  destruct (crate_name n) as [[|name]|e] eqn:E.
  2: { intros [= ->]. exists 0, n. split_and!; [done|done|]. lia. }
  all: intros (i & name & Hi & Hn & Hlt)%IH; exists (S i), name; split_and!; [done|done|];
    intros [|j] m d Hj Hm; [injection Hm as <-; by rewrite E|apply (Hlt j); [lia|done]].
Qed.
Lemma crate_found crate_name names c : find_jsonrpsee_crate crate_name names = Ok c →
  ∃ i name, ("jsonrpsee" :: names) !! i = Some name ∧ crate_name name = Ok (FcName c) ∧
    ∀ j n d, j < i → ("jsonrpsee" :: names) !! j = Some n → crate_name n ≠ Ok (FcName d).
Proof.
  unfold find_jsonrpsee_crate. destruct (crate_name "jsonrpsee") as [[|name]|e] eqn:E; [done| |].
  - intros [= ->]. exists 0, "jsonrpsee". split_and!; [done|done|]. lia.
  - intros (i & name & Hi & Hn & Hlt)%first_crate_found. exists (S i), name. split_and!; [done|done|].
    intros [|j] m d Hj Hm; [injection Hm as <-; by rewrite E|apply (Hlt j); [lia|done]].
Qed.
Lemma first_crate_errors crate_name names err m : first_crate crate_name names err = Err (MacroPanic m) →
  names = [] ∧ err = None.
Proof.
  revert err. induction names as [|n names IH]; intros err; cbn; [by destruct err|].
  destruct (crate_name n) as [[|]|]; [|done|]; by intros [_ ?]%IH.
Qed.
Lemma crate_no_panic crate_name names m : crate_name "jsonrpsee" ≠ Ok FcItself → names ≠ [] →
  find_jsonrpsee_crate crate_name names ≠ Err (MacroPanic m).
Proof.
  intros Hf Hn. unfold find_jsonrpsee_crate. destruct (crate_name "jsonrpsee") as [[|]|]; [done|done|].
  by intros [? _]%first_crate_errors.
Qed.

(** The client returns a [Result] with the error of the client, of one of the
    arguments of the type the trait has. *)
Lemma returned_result err_ty ty t : return_result_type err_ty ty = Ok t →
  ∃ qself c pre ret, t = StPath qself (MkPath c (pre ++ [MkSegment "Result" (PaAngleBracketed [ret; error_arg err_ty])])) ∧
    ∃ q' c' pre' ident args, ty = StPath q' (MkPath c' (pre' ++ [MkSegment ident (PaAngleBracketed args)])) ∧ ret ∈ args ∧
      ident ∈ ["Result"; "RpcResult"; "ResponsePayload"].
Proof.
  destruct ty as [| | | | | |qself [c segments]| | | | | | | |]; try done. cbn.
  destruct segments as [|s segments _] using rev_ind; [done|]. rewrite last_snoc.
  destruct s as [ident [|args|]]; try done.
  assert (∀ ret, last args = Some ret → ret ∈ args) as Hlast.
  { intros ret Hl. apply last_Some in Hl as [l ->]. apply elem_of_app. right. by left. }
  repeat case_decide; try done; subst.
  - intros [= <-]. destruct args as [|a [|b [|]]]; try (cbn in *; lia).
    eexists qself, c, segments, a. split; [do 2 f_equal|].
    + rewrite length_app. cbn. replace (length segments + 1 - 1) with (length segments) by lia. by rewrite take_app_length.
    + exists qself, c, segments, "Result", [a; b]. split_and!; [done|by left|by left].
  - destruct (last args) as [ret|] eqn:El; [|done]. intros [= <-].
    exists None, false, [MkSegment "core" PaNone; MkSegment "result" PaNone], ret. split; [done|].
    exists qself, c, segments, "RpcResult", args. split_and!; [done|by apply Hlast|set_solver].
  - destruct (last args) as [ret|] eqn:El; [|done]. intros [= <-].
    exists None, false, [MkSegment "core" PaNone; MkSegment "result" PaNone], ret. split; [done|].
    exists qself, c, segments, "ResponsePayload", args. split_and!; [done|by apply Hlast|set_solver].
Qed.
End CratesAndReturns.
